(* ===== verification/_CoqProject ===== *)
-Q . S2P
Prelude.v
IdTracker.v
Net.v
Config.v
Settings.v
KernelMap.v
ForwardingPlane.v
Dataplane.v
Loader.v
Resize.v
TablePlane.v
Resources.v
Session.v
Sdf.v
Pfcp.v
Display.v
PdrContext.v
Connection.v
SessionHandlers.v
RuleFields.v
Ownership.v
SessionFacts.v
Accepted.v
Association.v
AssociationFacts.v
EventLoop.v
Heartbeat.v
Stats.v
Rest.v
GtpPath.v
XdpMemory.v
XdpParse.v
XdpGtp.v
XdpRules.v
XdpProgram.v
XdpDemo.v
XdpSafety.v
XdpFrame.v
XdpSdf.v
XdpQer.v
XdpForward.v
XdpUplink.v
XdpEffects.v
XdpTables.v
XdpCache.v
EndToEnd.v
Traffic.v
XdpUrr.v
Service.v
Closing.v
Monitoring.v
Main.v
