(* ===== verification/Prelude.v ===== *)
(** * eUPF: a verification development of the user plane function

    eUPF is a 5G user plane function.  Its control plane, a Go process, speaks
    PFCP with session management functions over UDP and keeps the sessions
    they establish; its data plane, an XDP program in C, encapsulates and
    forwards the users' packets by the rules the control plane writes into the
    kernel's BPF maps.  This development models both halves, the maps between
    them, and what surrounds them: start-up, monitoring, the REST interface
    and the supervision of GTP-U paths.

    ** Parts and how they interact

    [main] reads the configuration, loads the BPF objects, gives the data
    plane its addresses, attaches it and creates the PFCP connection.  The
    receive loop of the connection takes one event at a time: a datagram, a
    tick of the association timer, or a peer reported by its heartbeat
    routine.  A datagram is parsed, dispatched on its message type and
    handled; session handlers change the session, the pools of indices,
    addresses and TEIDs, and the BPF maps through the interface
    [ForwardingPlaneController].  The XDP program reads the same maps for
    every frame, and counts; the REST handlers and the metrics read the
    counters.

    ** Files, sources under src/, and their main theorems

    Control plane.
    - [IdTracker] (cmd/ebpf/objects.go): pools of map indices.
      [GetNext_never_reissues].
    - [Config] (cmd/config/config.go): the configuration.  [Validate_sizes].
      [Settings] is where it comes from: flags, environment, file.
      [startup_settings].
    - [ForwardingPlane] (cmd/ebpf/pdr.go): rule data, the class of operations
      and the class of their contract on an abstract view [FPView].
    - [KernelMap], [Dataplane] (cmd/ebpf/pdr.go, objects.go): the BPF maps as
      an interface, and the operations on them.  [bpf_objects_refine_tables]:
      they refine the view.  [TablePlane] is the view itself as an
      implementation, for concrete runs.
    - [Loader], [Resize] (cmd/ebpf/objects.go): creation and resizing of the
      tables ([Load_spec], [load_and_assign_closes], [ResizeEbpfMap_empties]).
    - [Resources] (cmd/core/service/resource_manager.go): UE addresses and
      TEIDs.  [AllocateIP_exclusive], [AllocateTEID_exclusive],
      [NewResourceManager_pools].
    - [Session] (session.go), [Sdf] (sdf_filter_parser.go; grammar, round trip
      and bounds of flow descriptions), [Pfcp] (messages), [Display]
      (display_utils.go), [PdrContext] (pdr_creation_context.go),
      [Connection] (pfcp_connection.go, node_association.go),
      [SessionHandlers] with [RuleFields] (pfcp_session_handlers.go; each field
      of a FAR or QER is what the message says, [rule_fields_read]), [Association]
      (pfcp_handlers.go, pfcp_hearbeat.go), all of cmd/core.
    - [Ownership]: each rule of each session owns its entry in the forwarding
      plane; the session handlers keep this on every path.  [SessionFacts],
      [AssociationFacts]: the replies, branch by branch.  [Accepted]: the
      rules and PDRs an accepted request leaves in its session.
    - [EventLoop]: on messages that can be read and printed and that modify only
      known rules ([event_ok]) the receive loop keeps the invariant and
      completes every turn ([program_safe]); what deletions and malformed
      requests do.
    - [Heartbeat]: the loop and the list of running heartbeat routines as a
      labelled transition system on two channels, under every interleaving:
      one routine per association ([heartbeat_routines_match]), the exact
      requests an unanswering peer gets ([unanswered_peer_deleted]), and the
      deadlock of a late response ([late_response_deadlocks]).
    - [EndToEnd]: the same for the program on the kernel's maps
      ([kernel_maps_hold_rules]).
    - [Traffic]: packets pass between the operations of the control plane; the
      objects still honour the forwarding plane's contract, so all of the above
      holds under traffic ([kernel_maps_under_traffic]).
    - [Service]: what accepted establishment and modification requests leave
      in the tables, and the frames that then leave ([session_downlink],
      [session_uplink], [handover_downlink]).  [Closing]: after an accepted
      deletion, or the loss of the peer, those packets are not forwarded any
      more ([session_closed]; TEIDs that agree in the low byte excepted).
      [XdpUrr]: whatever the control plane stores and whatever packets pass,
      only URR 0 is counted ([only_urr_0_counted]).

    Data plane (cmd/ebpf/xdp).
    - [XdpMemory], [XdpParse], [XdpGtp], [XdpRules], [XdpProgram]: the
      machine, parsers, GTP-U headers and checksums, filters, rate limiter and
      counters, and the entry point of n3n6_entrypoint.c, built with the route
      cache or without.
    - [XdpSafety]: no access outside the packet, no null pointer, one of five
      actions.  [XdpFrame]: encapsulation and its removal.  [XdpSdf]: matching
      of IPv4 networks is what filters mean.  [XdpQer]: the bits a rate of at
      most 1 Gbit/s lets through.  [XdpForward],
      [XdpUplink]: the frames that leave, byte for byte, and by which interface.
      [XdpCache]: two machines side by side, one with the route cache
      ([route_cache_equivalent]).  [XdpEffects] with
      [XdpTables]: what packets leave alone.  [XdpDemo]: a kernel
      for the concrete runs.

    Around them.
    - [Stats] (cmd/ebpf/stats.go, cmd/core/metrics.go), [Rest] and
      [Monitoring] (cmd/api/rest, cmd/core/config_edit.go, logger.go):
      counters, metrics, handlers and routes.  [packets_counted] goes from
      frames to what is shown, [api_rules_roundtrip] from requests to rules
      and back.
    - [GtpPath] (cmd/core/gtp_path_manager.go): [echo_sequence_numbers].
    - [Main] (cmd/main.go, cmd/config/startup.go, cmd/server/server.go):
      [main_starts], from the settings through every run of the receive loop
      to the orderly end.
    - [Net]: what the sources use of Go's net, net/netip, strconv and
      encoding/binary.  This file: errors, the state-and-error monad [M], the
      weakest precondition [wp] and its rules, ranges over Go maps, machine
      integers, and the tactics.

    ** How the code is modelled

    - A Go function with an error is an [outcome]; a panic is the outcome
      [Panic], so that absence of panics is a theorem.  Stateful code is in
      [M S]: the state survives an error, as there is no rollback in Go.
      Methods under a mutex are one atomic step.
    - Integers are [Z] with the wrap-around of their width written out, and
      exported metrics integers rounded as by [float64]; map
      iteration uses an unspecified order ([MapOrder]) over which theorems
      quantify; effects outside the state -- datagrams, metrics, kernel calls
      of start-up -- are traces.
    - In the XDP program a load or store outside the packet or through a null
      pointer is [Panic].  A run handles one packet on one CPU; multi-byte
      loads are little-endian.

    ** Parameters

    Code that is not in the repository is an interface with its documented
    behaviour: the roaring bitmap ([Bitmap]), cilium/ebpf ([KernelMap],
    [EbpfLib], [EbpfResize]), go-pfcp ([Pfcp]), viper ([Viper]), the kernel's
    XDP helpers ([XdpKernel]); or an argument: parsing of messages, name
    resolution and sockets, time, the CIDR generator, the decoding of settings
    and the field validator, zerolog's levels, gopacket, gin's decoding.  Each interface has an
    instance that satisfies its laws, on which the witnesses run.

    ** Bounds and fuel

    [parse_v6_loop] has fuel 8, the groups of an IPv6 address, each iteration
    writing two bytes; decimal printing has as many digits of fuel as the
    width of the number needs.  The loop that fills the TEID pool takes fuel:
    one more than the size of the pool is enough ([teid_loop_runs]), and no
    amount is when the size is 2^32 - 1 ([teid_loop_diverges]).  Everything
    else is structural.

    ** Not modelled

    - What the uplink PDR handlers of the REST interface do to map entries:
      they pass the address of a Go structure of another size, to which the
      language gives no meaning.  It is a parameter of the handlers.
    - Debug output of the XDP program, which is not compiled in by default,
      and the separate N3, N6 and zero programs, which nothing loads and which
      pass every packet.
    - Console logging: the set-up of a library object.
    - The declarations of the PFCP metrics: what is counted is in the trace of
      the connection.
    - Finer interleavings than [Traffic] has: packets pass between two
      operations of the forwarding plane, each of which is atomic.  (An
      operation writes one map entry; only [DeleteUrr] reads before it writes
      what packets write, and may miss a volume in between.)  REST handlers
      run one at a time, next to an idle receive loop. *)

From stdpp Require Export base gmap strings list fin_maps sorting.
From Stdlib Require Export ZArith Lia Ascii.

#[global] Open Scope Z_scope.

(** ** Go errors and outcomes

    A Go function of type [(T, error)] returns a value, returns an error, or
    panics.  Errors compared with [==] in the source (package-level error
    variables) are [Sentinel]s; every other error carries its message. *)

Inductive error :=
  | Sentinel (name : string)
  | Errorf (msg : string).

#[export] Instance error_eq_dec : EqDecision error.
Proof. solve_decision. Defined.

Inductive outcome (A : Type) :=
  | Ok (a : A)
  | Err (e : error)
  | Panic.
Arguments Ok {A} a.
Arguments Err {A} e.
Arguments Panic {A}.

(** [error + A]: the pair of a Go accessor, either an error or a value. *)
Abbreviation result A := (error + A)%type.

Definition of_result {A} (r : result A) : outcome A :=
  match r with inl e => Err e | inr a => Ok a end.

Definition outcome_bind {A B} (k : A → outcome B) (o : outcome A) : outcome B :=
  match o with Ok a => k a | Err e => Err e | Panic => Panic end.

#[export] Instance outcome_ret : MRet outcome := λ A a, Ok a.
#[export] Instance outcome_mbind : MBind outcome := λ A B, outcome_bind.

Definition is_ok {A} (o : outcome A) : bool :=
  match o with Ok _ => true | _ => false end.

Definition no_panic {A} (o : outcome A) : Prop := o ≠ Panic.

(** [v, _ := f()]: the error is dropped and the variable holds the value that
    came with it, which for the functions used this way is the zero value. *)
Definition or_zero {A} (zero : A) (o : outcome A) : outcome A :=
  match o with Ok a => Ok a | Err _ => Ok zero | Panic => Panic end.

(** ** Stateful code

    [M S A]: code that reads and writes a state [S] and ends in an outcome.
    The state survives an error return (there is no rollback in Go). *)

Definition M (S A : Type) : Type := S → S * outcome A.

#[export] Instance M_ret {S} : MRet (M S) := λ A a s, (s, Ok a).
#[export] Instance M_bind {S} : MBind (M S) := λ A B k m s,
  match m s with
  | (s', Ok a) => k a s'
  | (s', Err e) => (s', Err e)
  | (s', Panic) => (s', Panic)
  end.

Definition throw {S A} (e : error) : M S A := λ s, (s, Err e).
Definition panic {S A} : M S A := λ s, (s, Panic).
Definition gets {S A} (f : S → A) : M S A := λ s, (s, Ok (f s)).
Definition modify {S} (f : S → S) : M S unit := λ s, (f s, Ok tt).
Definition lift {S A} (o : outcome A) : M S A := λ s, (s, o).

(** [if v, err := m(); err == nil { ok } else { bad }] *)
Definition on_result {S A B} (m : M S A) (ok : A → M S B) (bad : error → M S B) : M S B :=
  λ s, match m s with
       | (s', Ok a) => ok a s'
       | (s', Err e) => bad e s'
       | (s', Panic) => (s', Panic)
       end.

(** [_ = m()] *)
Definition ignore_err {S A} (m : M S A) : M S unit :=
  on_result m (λ _, mret tt) (λ _, mret tt).

(** [for _, x := range l { f(x) }], where an error returns from the loop. *)
Fixpoint for_each {S A} (l : list A) (f : A → M S unit) : M S unit :=
  match l with
  | [] => mret tt
  | x :: l' => f x ≫= λ _, for_each l' f
  end.

(** Code on a part of the state. *)
Definition zoom {S T A} (get : S → T) (set : T → S → S) (m : M T A) : M S A :=
  λ s, let '(t, r) := m (get s) in (set t s, r).

(** ** Weakest preconditions

    [wp m s Q E]: run from [s], [m] does not panic, its value and final state
    satisfy [Q], its error and final state satisfy [E]. *)

Definition wp {S A} (m : M S A) (s : S) (Q : A → S → Prop) (E : error → S → Prop) : Prop :=
  match m s with
  | (s', Ok a) => Q a s'
  | (s', Err e) => E e s'
  | (_, Panic) => False
  end.

(** ** Go map ranges

    The language leaves the iteration order of a map unspecified: [range_map]
    is some order, fixed by a function so that definitions stay executable,
    and every theorem holds for all of them. *)

Class MapOrder := {
  range_map : ∀ {K} `{Countable K} {V}, gmap K V → list (K * V);
  range_map_perm : ∀ {K} `{Countable K} {V} (m : gmap K V),
    range_map m ≡ₚ map_to_list m
}.

(** Two orders, used by the witnesses. *)
Definition ascending_order : MapOrder :=
  {| range_map K _ _ V m := map_to_list m;
     range_map_perm K _ _ V m := reflexivity _ |}.

Definition descending_order : MapOrder :=
  {| range_map K _ _ V m := reverse (map_to_list m);
     range_map_perm K _ _ V m := reverse_Permutation _ |}.

(** ** Machine integers *)

Definition u8 (z : Z) : Z := z mod 2 ^ 8.
Definition u16 (z : Z) : Z := z mod 2 ^ 16.
Definition u32 (z : Z) : Z := z mod 2 ^ 32.
Definition u64 (z : Z) : Z := z mod 2 ^ 64.

Definition in_range (w z : Z) : Prop := 0 ≤ z < 2 ^ w.

#[export] Instance in_range_dec w z : Decision (in_range w z) := _.

(** ** Lemmas: outcomes and the monad *)

Lemma is_ok_true {A} (o : outcome A) : is_ok o = true → ∃ a, o = Ok a.
Proof. destruct o; naive_solver. Qed.

Lemma outcome_bind_Ok {A B} (o : outcome A) (k : A → outcome B) b :
  o ≫= k = Ok b ↔ ∃ a, o = Ok a ∧ k a = Ok b.
Proof. destruct o; cbn; naive_solver. Qed.

Lemma outcome_bind_no_panic {A B} (o : outcome A) (k : A → outcome B) :
  no_panic o → (∀ a, o = Ok a → no_panic (k a)) → no_panic (o ≫= k).
Proof. unfold no_panic. destruct o; cbn; naive_solver. Qed.

Section wp_rules.
Context {S : Type}.
Implicit Types s : S.

Lemma wp_ret {A} (a : A) s Q E : Q a s → wp (mret a) s Q E.
Proof. done. Qed.

Lemma wp_bind {A B} (m : M S A) (k : A → M S B) s Q E :
  wp m s (λ a s', wp (k a) s' Q E) E → wp (m ≫= k) s Q E.
Proof. unfold wp, mbind, M_bind. by destruct (m s) as [s' [a|e|]]. Qed.

Lemma wp_throw {A} e s (Q : A → S → Prop) (E : error → S → Prop) : E e s → wp (throw e) s Q E.
Proof. done. Qed.

Lemma wp_gets {A} (f : S → A) s Q (E : error → S → Prop) : Q (f s) s → wp (gets f) s Q E.
Proof. done. Qed.

Lemma wp_modify (f : S → S) s Q (E : error → S → Prop) : Q tt (f s) → wp (modify f) s Q E.
Proof. done. Qed.

Lemma wp_on_result {A B} (m : M S A) (ok : A → M S B) bad s Q E :
  wp m s (λ a s', wp (ok a) s' Q E) (λ e s', wp (bad e) s' Q E) →
  wp (on_result m ok bad) s Q E.
Proof. unfold wp, on_result. by destruct (m s) as [s' [a|e|]]. Qed.

Lemma wp_ignore_err {A} (m : M S A) s Q E :
  wp m s (λ _ s', Q tt s') (λ _ s', Q tt s') → wp (ignore_err m) s Q E.
Proof. intros H. apply wp_on_result. exact H. Qed.

Lemma wp_mono {A} (m : M S A) s (Q Q' : A → S → Prop) (E E' : error → S → Prop) :
  wp m s Q E → (∀ a s', Q a s' → Q' a s') → (∀ e s', E e s' → E' e s') → wp m s Q' E'.
Proof. unfold wp. destruct (m s) as [s' [a|e|]]; naive_solver. Qed.

Lemma wp_conj {A} (m : M S A) s (Q Q' : A → S → Prop) (E E' : error → S → Prop) :
  wp m s Q E → wp m s Q' E' →
  wp m s (λ a s', Q a s' ∧ Q' a s') (λ e s', E e s' ∧ E' e s').
Proof. unfold wp. destruct (m s) as [s' [a|e|]]; naive_solver. Qed.

Lemma wp_lift {A} (o : outcome A) s Q (E : error → S → Prop) :
  no_panic o → (∀ a, o = Ok a → Q a s) → (∀ e, o = Err e → E e s) → wp (lift o) s Q E.
Proof. unfold wp, lift, no_panic. destruct o; naive_solver. Qed.

Lemma wp_lift_ok {A} (a : A) s Q (E : error → S → Prop) : Q a s → wp (lift (Ok a)) s Q E.
Proof. done. Qed.

(** The loop rule: an invariant indexed by the elements already visited. *)
Lemma wp_for_each_prefix {A} (l : list A) f (I : list A → S → Prop) (E : error → S → Prop) :
  (∀ done x rest s, l = done ++ x :: rest → I done s →
     wp (f x) s (λ _ s', I (done ++ [x]) s') E) →
  ∀ s, I [] s → wp (for_each l f) s (λ _ s', I l s') E.
Proof.
  intros Hstep.
  cut (∀ rest done s, l = done ++ rest → I done s →
        wp (for_each rest f) s (λ _ s', I l s') E).
  { intros H s HI. by apply (H l [] s). }
  induction rest as [|x rest IH]; intros done s -> HI; cbn.
  - rewrite app_nil_r. by apply wp_ret.
  - apply wp_bind. eapply wp_mono; [by eapply Hstep| |done].
    intros [] s' HI'. apply (IH (done ++ [x])); [by rewrite <-app_assoc|done].
Qed.

Lemma wp_for_each {A} (l : list A) f (I : S → Prop) (E : error → S → Prop) :
  (∀ x s, x ∈ l → I s → wp (f x) s (λ _ s', I s') E) →
  ∀ s, I s → wp (for_each l f) s (λ _ s', I s') E.
Proof.
  intros Hstep s HI. apply (wp_for_each_prefix l f (λ _, I)); [|done].
  intros done x rest s' Hl HI'. apply Hstep; [|done].
  rewrite Hl. set_solver.
Qed.

Lemma for_each_app {A} (l1 l2 : list A) (f : A → M S unit) s :
  for_each (l1 ++ l2) f s = (for_each l1 f ≫= λ _, for_each l2 f) s.
Proof.
  revert s. induction l1 as [|x l1 IH]; intros s; cbn; [done|].
  unfold mbind, M_bind in *. destruct (f x s) as [s' [[]|e|]]; [|done..]. apply IH.
Qed.

End wp_rules.

Lemma wp_zoom {S T A} (get : S → T) set (m : M T A) (s : S) (Q : A → S → Prop) E :
  wp m (get s) (λ a t, Q a (set t s)) (λ e t, E e (set t s)) → wp (zoom get set m) s Q E.
Proof. unfold wp, zoom. by destruct (m (get s)) as [t [a|e|]]. Qed.

(** ** Lemmas: what a program leaves alone *)

(** Whatever [m] does, [f] of the state stays the same. *)
Definition preserves {S A T} (f : S → T) (m : M S A) : Prop := ∀ s, f (m s).1 = f s.

Section preserves_rules.
Context {S T : Type} (f : S → T).

Lemma preserves_ret {A} (a : A) : preserves f (mret a : M S A).
Proof. done. Qed.
Lemma preserves_throw {A} e : preserves f (throw e : M S A).
Proof. done. Qed.
Lemma preserves_panic {A} : preserves f (panic : M S A).
Proof. done. Qed.
Lemma preserves_gets {A} (g : S → A) : preserves f (gets g).
Proof. done. Qed.
Lemma preserves_lift {A} (o : outcome A) : preserves f (lift o).
Proof. done. Qed.
Lemma preserves_modify (g : S → S) : (∀ s, f (g s) = f s) → preserves f (modify g).
Proof. intros Hg s. apply Hg. Qed.

Lemma preserves_bind {A B} (m : M S A) (k : A → M S B) :
  preserves f m → (∀ a, preserves f (k a)) → preserves f (m ≫= k).
Proof.
  intros Hm Hk s. specialize (Hm s). unfold mbind, M_bind.
  destruct (m s) as [s' [a|e|]]; cbn in *; [|done..]. by rewrite (Hk a s').
Qed.

Lemma preserves_on_result {A B} (m : M S A) (ok : A → M S B) bad :
  preserves f m → (∀ a, preserves f (ok a)) → (∀ e, preserves f (bad e)) →
  preserves f (on_result m ok bad).
Proof.
  intros Hm Hok Hbad s. specialize (Hm s). unfold on_result.
  destruct (m s) as [s' [a|e|]]; cbn in *; [by rewrite (Hok a s')|by rewrite (Hbad e s')|done].
Qed.

Lemma preserves_for_each {A} (l : list A) (g : A → M S unit) :
  (∀ x, preserves f (g x)) → preserves f (for_each l g).
Proof. intros Hg. induction l; [done|]. by apply preserves_bind. Qed.

(** On a part [f] does not look at. *)
Lemma preserves_zoom {S' A} (get : S → S') set (m : M S' A) :
  (∀ t s, f (set t s) = f s) → preserves f (zoom get set m).
Proof. intros Hset s. unfold zoom. destruct (m (get s)) as [t r]. apply Hset. Qed.

(** On the part [f] looks at, where [g] says how. *)
Lemma preserves_zoom_in {S' A} (get : S → S') set (m : M S' A) (g : S' → T) :
  (∀ t s, f (set t s) = g t) → (∀ s, f s = g (get s)) → preserves g m →
  preserves f (zoom get set m).
Proof.
  intros Hset Hget Hm s. unfold zoom. specialize (Hm (get s)).
  destruct (m (get s)) as [t r]. cbn in *. by rewrite Hset, Hm, Hget.
Qed.

Lemma wp_preserves {A} (m : M S A) s Q E :
  preserves f m → wp m s Q E →
  wp m s (λ a s', f s' = f s ∧ Q a s') (λ e s', f s' = f s ∧ E e s').
Proof. intros Hm. specialize (Hm s). unfold wp. destruct (m s) as [s' [a|e|]]; naive_solver. Qed.

End preserves_rules.

(** ** Lemmas: map ranges *)

Lemma elem_of_range_map `{MapOrder} {K} `{Countable K} {V} (m : gmap K V) k v :
  (k, v) ∈ range_map m ↔ m !! k = Some v.
Proof. rewrite range_map_perm. apply elem_of_map_to_list. Qed.

Lemma NoDup_range_map `{MapOrder} {K} `{Countable K} {V} (m : gmap K V) :
  NoDup (range_map m).*1.
Proof. rewrite range_map_perm. apply NoDup_fst_map_to_list. Qed.

Lemma length_range_map `{MapOrder} {K} `{Countable K} {V} (m : gmap K V) :
  length (range_map m) = size m.
Proof. rewrite range_map_perm. apply length_map_to_list. Qed.

(** ** Lemmas: sublists *)

Lemma submseteq_NoDup {A} (l k : list A) : l ⊆+ k → NoDup k → NoDup l.
Proof. intros [k' ->]%submseteq_Permutation Hk. by apply NoDup_app in Hk as [? _]. Qed.

(** ** Lemmas: machine integers *)

Lemma u8_range z : in_range 8 (u8 z).
Proof. by apply Z.mod_pos_bound. Qed.
Lemma u16_range z : in_range 16 (u16 z).
Proof. by apply Z.mod_pos_bound. Qed.
Lemma u32_range z : in_range 32 (u32 z).
Proof. by apply Z.mod_pos_bound. Qed.
Lemma u64_range z : in_range 64 (u64 z).
Proof. by apply Z.mod_pos_bound. Qed.

Lemma u32_small z : in_range 32 z → u32 z = z.
Proof. unfold in_range, u32. intros. apply Z.mod_small. lia. Qed.
Lemma u16_small z : in_range 16 z → u16 z = z.
Proof. unfold in_range, u16. intros. apply Z.mod_small. lia. Qed.
Lemma u64_small z : in_range 64 z → u64 z = z.
Proof. unfold in_range, u64. intros. apply Z.mod_small. lia. Qed.

(** ** Automation *)

Create HintDb eupf discriminated.
#[export] Hint Resolve u8_range u16_range u32_range u64_range : eupf.
#[export] Hint Resolve wp_ret wp_throw wp_gets wp_modify : eupf.

(** One symbolic step of a monadic program. *)
Ltac wp_step :=
  match goal with
  | |- wp (mret _) _ _ _ => apply wp_ret
  | |- wp (throw _) _ _ _ => apply wp_throw
  | |- wp (gets _) _ _ _ => apply wp_gets
  | |- wp (modify _) _ _ _ => apply wp_modify
  | |- wp (lift (Ok _)) _ _ _ => apply wp_lift_ok
  | |- wp (_ ≫= _) _ _ _ => apply wp_bind
  | |- wp (on_result _ _ _) _ _ _ => apply wp_on_result
  | |- wp (ignore_err _) _ _ _ => apply wp_ignore_err
  | |- wp (zoom _ _ _) _ _ _ => apply wp_zoom
  end; cbn beta.

Ltac wp_go := repeat wp_step.

(** Continue with a specification of the next call; its hypotheses that [done]
    does not close come first. *)
Tactic Notation "wp_call" uconstr(H) :=
  eapply wp_mono; [eapply H; try done| |]; cbn beta.

(** A program with the given parts preserves [f]; calls are left to [eauto]. *)
Create HintDb preserves discriminated.
#[export] Hint Resolve preserves_ret preserves_throw preserves_panic preserves_gets preserves_lift
  : preserves.
#[export] Hint Extern 1 (preserves _ (modify _)) => apply preserves_modify; done : preserves.

Ltac preserve :=
  repeat first
    [ progress auto with preserves nocore
    | apply preserves_bind; [|intros ?]
    | apply preserves_on_result; [|intros ?|intros ?]
    | apply preserves_for_each; intros ?
    | progress case_match ].
