(* ===== verification/IdTracker.v ===== *)
(** * The pool of map indices (cmd/ebpf/objects.go, IdTracker)

    [IdTracker] hands out the indices of the FAR, QER and URR array maps.  It
    keeps the free indices in a roaring bitmap, a third-party container that
    appears here as the interface [Bitmap] with its documented laws. *)

From S2P Require Import Prelude.

(** ** github.com/RoaringBitmap/roaring *)

Class Bitmap (B : Type) := {
  NewBitmap : B;
  Flip : Z → Z → B → B;              (* half-open range *)
  Remove : Z → B → B;
  Add : Z → B → B;
  Iterator : B → list Z              (* the values Next returns, in order *)
}.

Class BitmapLaws (B : Type) `{Bitmap B} := {
  Iterator_sorted b : StronglySorted Z.lt (Iterator b);
  Iterator_NewBitmap : Iterator (NewBitmap : B) = [];
  Iterator_Flip lo hi b x :
    x ∈ Iterator (Flip lo hi b) ↔
    if decide (lo ≤ x < hi) then x ∉ Iterator b else x ∈ Iterator b;
  Iterator_Remove x y b : y ∈ Iterator (Remove x b) ↔ y ≠ x ∧ y ∈ Iterator b;
  Iterator_Add x y b : y ∈ Iterator (Add x b) ↔ y = x ∨ y ∈ Iterator b
}.

(** ** The tracker *)

(* cmd/ebpf/objects.go:303-306 IdTracker *)
Record IdTracker (B : Type) := mkIdTracker { bitmap : B; maxSize : Z }.
Arguments mkIdTracker {B}.
Arguments bitmap {B}.
Arguments maxSize {B}.

Section tracker.
Context `{Bitmap B}.
Implicit Types t : IdTracker B.

(* cmd/ebpf/objects.go:308-316 NewIdTracker *)
Definition NewIdTracker (size : Z) : IdTracker B :=
  let newBitmap := Flip 0 size NewBitmap in
  mkIdTracker newBitmap size.

(* cmd/ebpf/objects.go:318-328 GetNext *)
Definition GetNext : M (IdTracker B) Z :=
  i ← gets (λ t, Iterator (bitmap t));
  match i with
  | next :: _ =>
      modify (λ t, mkIdTracker (Remove next (bitmap t)) (maxSize t)) ≫= λ _,
      mret next
  | [] => throw (Errorf "pool is empty")
  end.

(* cmd/ebpf/objects.go:330-336 Release *)
Definition Release (id : Z) : M (IdTracker B) unit :=
  t ← gets (λ t, t);
  if bool_decide (maxSize t ≤ id) then mret tt
  else modify (λ t, mkIdTracker (Add id (bitmap t)) (maxSize t)).

(** The runs of a tracker: [out] holds the indices handed out and not given
    back.  A caller may release any index, also one it does not hold. *)
Inductive tracker_reach (size : Z) : IdTracker B → gset Z → Prop :=
  | reach_new : tracker_reach size (NewIdTracker size) ∅
  | reach_get t out t' next :
      tracker_reach size t out → GetNext t = (t', Ok next) →
      tracker_reach size t' ({[next]} ∪ out)
  | reach_release t out t' id :
      tracker_reach size t out → in_range 32 id → Release id t = (t', Ok tt) →
      tracker_reach size t' (out ∖ {[id]}).

(** The abstract pool: [t] stands for the set [free] of indices below [size]. *)
Definition tracker_repr t (size : Z) (free : gset Z) : Prop :=
  maxSize t = size ∧
  (∀ x, x ∈ Iterator (bitmap t) ↔ x ∈ free) ∧
  (∀ x, x ∈ free → 0 ≤ x < size).

End tracker.

(** ** Lemmas *)

Section tracker_lemmas.
Context `{BitmapLaws B}.
Implicit Types t : IdTracker B.

Lemma NewIdTracker_repr size :
  tracker_repr (NewIdTracker size : IdTracker B) size (list_to_set (seqZ 0 size)).
Proof.
  split; [done|]. split; intros x; cbn.
  - rewrite Iterator_Flip, elem_of_list_to_set, elem_of_seqZ, Iterator_NewBitmap.
    case_decide; set_solver by lia.
  - rewrite elem_of_list_to_set, elem_of_seqZ. lia.
Qed.

(** The tracker implements the pool: [GetNext] takes its least element. *)
Lemma GetNext_spec t size free :
  tracker_repr t size free →
  wp GetNext t
    (λ next t', next ∈ free ∧ (∀ y, y ∈ free → next ≤ y) ∧
                tracker_repr t' size (free ∖ {[next]}))
    (λ e t', e = Errorf "pool is empty" ∧ free = ∅ ∧ t' = t).
Proof.
  intros (Hsize & Hfree & Hbound). unfold GetNext. wp_go.
  pose proof (Iterator_sorted (bitmap t)) as Hsorted.
  destruct (Iterator (bitmap t)) as [|next rest] eqn:Hit; wp_go.
  - split; [done|]. split; [|done]. apply set_eq. intros x. rewrite <-Hfree. set_solver.
  - split; [apply Hfree; set_solver|]. split.
    + intros y Hy%Hfree. apply StronglySorted_inv in Hsorted as [_ Hmin].
      rewrite Forall_forall in Hmin. apply elem_of_cons in Hy as [->|Hy]; [lia|].
      apply Hmin in Hy. lia.
    + split; [done|]. cbn. split; intros x; [|set_solver].
      rewrite Iterator_Remove, Hit, Hfree. set_solver.
Qed.

Lemma Release_spec t size free id :
  tracker_repr t size free → 0 ≤ id →
  wp (Release id) t
    (λ _ t', tracker_repr t' size (if decide (id < size) then {[id]} ∪ free else free))
    (λ _ _, False).
Proof.
  intros (Hsize & Hfree & Hbound) Hid. unfold Release. wp_go. rewrite Hsize.
  destruct (decide (id < size)).
  - rewrite bool_decide_eq_false_2 by lia. wp_go.
    split; [done|]. cbn. split; intros x.
    + rewrite Iterator_Add, Hfree. set_solver.
    + intros [->%elem_of_singleton|Hx]%elem_of_union; [lia|by apply Hbound].
  - rewrite bool_decide_eq_true_2 by lia. by wp_go.
Qed.

Lemma tracker_reach_repr size t out :
  tracker_reach size t out →
  out ⊆ list_to_set (seqZ 0 size) ∧
  tracker_repr t size (list_to_set (seqZ 0 size) ∖ out).
Proof.
  induction 1 as [|t out t' next _ [Hsub IH] Hget|t out t' id _ [Hsub IH] Hid Hrel].
  - split; [set_solver|]. rewrite difference_empty_L. apply NewIdTracker_repr.
  - pose proof (GetNext_spec _ _ _ IH) as Hspec. unfold wp in Hspec. rewrite Hget in Hspec.
    destruct Hspec as (Hin & _ & Hrepr). split; [set_solver|].
    replace (_ ∖ ({[next]} ∪ out)) with
      ((list_to_set (seqZ 0 size) : gset Z) ∖ out ∖ {[next]}) by set_solver. done.
  - pose proof (Release_spec _ _ _ id IH (proj1 Hid)) as Hspec.
    unfold wp in Hspec. rewrite Hrel in Hspec. split; [set_solver|].
    destruct (decide (id < size)) as [Hlt|Hge].
    + assert (id ∈ (list_to_set (seqZ 0 size) : gset Z)) as Hin.
      { rewrite elem_of_list_to_set, elem_of_seqZ. destruct Hid; lia. }
      replace (_ ∖ (out ∖ {[id]})) with ({[id]} ∪ list_to_set (seqZ 0 size) ∖ out); [done|].
      apply set_eq. intros x. destruct (decide (x = id)); set_solver.
    + replace (out ∖ {[id]}) with out; [done|].
      apply set_eq. intros x. split; [|set_solver]. intros Hx.
      assert (Hx' : x ∈ (list_to_set (seqZ 0 size) : gset Z)) by set_solver.
      rewrite elem_of_list_to_set, elem_of_seqZ in Hx'. set_solver by lia.
Qed.

(** ** Properties *)

(** C31: no index is ever handed out twice.  Along every run of the tracker
    (any interleaving of [GetNext] and [Release], including releases of indices
    nobody holds), [GetNext] returns an index below the map size that is not
    outstanding, and fails only when all [size] indices are outstanding. *)
Theorem GetNext_never_reissues size t out :
  tracker_reach size t out →
  wp GetNext t
    (λ next t', 0 ≤ next < size ∧ next ∉ out ∧ (∀ y, 0 ≤ y < size → y ∉ out → next ≤ y))
    (λ e t', (∀ y, 0 ≤ y < size → y ∈ out) ∧ t' = t).
Proof.
  intros [Hsub Hrepr]%tracker_reach_repr.
  assert (Hpool : ∀ y, y ∈ (list_to_set (seqZ 0 size) : gset Z) ↔ 0 ≤ y < size).
  { intros y. rewrite elem_of_list_to_set, elem_of_seqZ. lia. }
  eapply wp_mono; [by apply GetNext_spec|..]; cbn.
  - intros next t' (Hin & Hmin & _). apply elem_of_difference in Hin as [Hin Hout].
    apply Hpool in Hin. split; [done|]. split; [done|].
    intros y Hy Hy'. apply Hmin. set_solver.
  - intros e t' (_ & Hempty & ->). split; [|done].
    intros y Hy%Hpool. destruct (decide (y ∈ out)); set_solver.
Qed.

End tracker_lemmas.

(** ** A bitmap for the witnesses *)

Definition gset_range (lo hi : Z) : gset Z := list_to_set (seqZ lo (hi - lo)).

#[export] Instance gset_bitmap : Bitmap (gset Z) := {|
  NewBitmap := ∅;
  Flip lo hi b := (b ∖ gset_range lo hi) ∪ (gset_range lo hi ∖ b);
  Remove x b := b ∖ {[x]};
  Add x b := {[x]} ∪ b;
  Iterator b := merge_sort Z.le (elements b)
|}.

Lemma gset_Iterator_elem x (b : gset Z) : x ∈ Iterator b ↔ x ∈ b.
Proof. cbn. rewrite merge_sort_Permutation. set_solver. Qed.

#[export] Instance gset_bitmap_laws : BitmapLaws (gset Z).
Proof.
  assert (Hrange : ∀ lo hi x, x ∈ gset_range lo hi ↔ lo ≤ x < hi).
  { intros lo hi x. unfold gset_range. rewrite elem_of_list_to_set, elem_of_seqZ. lia. }
  split.
  - intros b. cbn. pose proof (StronglySorted_merge_sort Z.le (elements b)) as Hle.
    assert (NoDup (merge_sort Z.le (elements b))) as Hnd.
    { rewrite merge_sort_Permutation. apply NoDup_elements. }
    induction Hle as [|x l Hl IH Hx]; constructor.
    + apply IH. by apply NoDup_cons in Hnd as [_ ?].
    + apply NoDup_cons in Hnd as [Hnin _]. rewrite Forall_forall in *. intros y Hy.
      specialize (Hx y Hy). destruct (decide (x = y)) as [->|]; [done|lia].
  - done.
  - intros lo hi b x. case_decide; rewrite !gset_Iterator_elem; cbn; rewrite elem_of_union, !elem_of_difference, !Hrange; tauto.
  - intros x y b. rewrite !gset_Iterator_elem. cbn. set_solver.
  - intros x y b. rewrite !gset_Iterator_elem. cbn. set_solver.
Qed.

(** Two indices out of four handed out: the next one is 2. *)
Lemma GetNext_never_reissues_witness :
  ∃ t out, tracker_reach (B := gset Z) 4 t out ∧ out = {[1; 0]} ∧
  wp GetNext t
    (λ next t', 0 ≤ next < 4 ∧ next ∉ out ∧ (∀ y, 0 ≤ y < 4 → y ∉ out → next ≤ y))
    (λ e t', (∀ y, 0 ≤ y < 4 → y ∈ out) ∧ t' = t).
Proof.
  assert (Hreach : tracker_reach (B := gset Z) 4
            (GetNext (GetNext (NewIdTracker 4)).1).1 ({[1]} ∪ ({[0]} ∪ ∅))).
  { eapply reach_get; [eapply reach_get; [apply reach_new|]|]; vm_compute; reflexivity. }
  eexists _, _. split; [exact Hreach|]. split; [set_solver|].
  exact (GetNext_never_reissues 4 _ _ Hreach).
Defined.
