(* ===== verification/Net.v ===== *)
(** * What the program uses of Go's net, net/netip and strconv

    Definitions of the standard-library functions the source calls: IP
    addresses as byte slices (nil or a list of bytes), [net.ParseIP] with the
    IPv4 and IPv6 grammars of [netip.ParseAddr], [IP.To4], [IP.Mask],
    [IP.Equal], [net.CIDRMask] and [strconv.ParseUint]. *)

From S2P Require Import Prelude.

(** A byte slice: [None] is nil, which Go distinguishes from an empty slice. *)
Abbreviation bytes := (list Z).
Abbreviation text := (list ascii).
Abbreviation NetIP := (option (list Z)).

(** [len] and the elements of a slice: nil has none. *)
Definition slice_bytes (ip : NetIP) : bytes := default [] ip.
Definition slice_len (ip : NetIP) : Z := Z.of_nat (length (slice_bytes ip)).

Definition v4InV6Prefix : bytes := replicate 10 0 ++ [255; 255].

(** ** Characters *)

Definition code (c : ascii) : Z := Z.of_N (N_of_ascii c).
Definition chars (s : string) : list ascii := String.list_ascii_of_string s.

Definition between (lo hi c : ascii) : bool :=
  (code lo <=? code c) && (code c <=? code hi).
Definition is_digit (c : ascii) : bool := between "0" "9" c.

Definition digit_val (c : ascii) : Z := code c - code "0"%char.

(** [c] as a hexadecimal digit. *)
Definition hex_val (c : ascii) : option Z :=
  if between "0" "9" c then Some (code c - code "0"%char)
  else if between "a" "f" c then Some (code c - code "a" + 10)
  else if between "A" "F" c then Some (code c - code "A" + 10)
  else None.

(** ** strconv *)

Definition digits_val (l : list ascii) : Z :=
  foldl (λ n c, n * 10 + digit_val c) 0 l.

(** [strconv.ParseUint(s, 10, 64)] *)
Definition ParseUint64 (s : string) : outcome Z :=
  let l := chars s in
  if bool_decide (l = []) then Err (Errorf "invalid syntax")
  else if forallb is_digit l then
    let n := digits_val l in
    if n <? 2 ^ 64 then Ok n else Err (Errorf "value out of range")
  else Err (Errorf "invalid syntax").

(** [int(u)] for a 64-bit unsigned value. *)
Definition int_of_uint64 (n : Z) : Z := if n <? 2 ^ 63 then n else n - 2 ^ 64.

(** ** netip.ParseAddr *)

(** [parseIPv4Fields]: [val] and [digLen] are the current octet, [fields] the
    octets read so far; [prev_dot] tells that the previous byte was a dot or
    that none was read. *)
Fixpoint parse_v4_fields (l : list ascii) (val digLen : Z) (fields : bytes) (prev_dot : bool)
    : option bytes :=
  match l with
  | [] =>
      if bool_decide (length fields = 3%nat) then Some (fields ++ [val]) else None
  | c :: l' =>
      if is_digit c then
        if (digLen =? 1) && (val =? 0) then None
        else
          let val' := val * 10 + digit_val c in
          if 255 <? val' then None
          else parse_v4_fields l' val' (digLen + 1) fields false
      else if Ascii.eqb c "." then
        if prev_dot || bool_decide (l' = []) || bool_decide (length fields = 3%nat) then None
        else parse_v4_fields l' 0 0 (fields ++ [val]) true
      else None
  end.

Definition parseIPv4 (l : list ascii) : option bytes := parse_v4_fields l 0 0 [] true.

(** The hexadecimal digits at the front of [l]: the value, the number of digits
    and the rest; [None] on more than four digits. *)
Fixpoint scan_hex (l : list ascii) (off acc : Z) : option (Z * Z * list ascii) :=
  match l with
  | [] => Some (acc, off, [])
  | c :: l' =>
      match hex_val c with
      | Some d => if 3 <? off then None else scan_hex l' (off + 1) (acc * 16 + d)
      | None => Some (acc, off, l)
      end
  end.

(** The loop of [parseIPv6]: [ip] holds the bytes written so far, [ellipsis]
    the position of "::".  The result is (bytes, ellipsis, unread input).
    Each iteration that does not leave the loop writes two bytes, so eight
    iterations of fuel are enough. *)
Fixpoint parse_v6_loop (fuel : nat) (s : list ascii) (ip : bytes) (ellipsis : option nat)
    : option (bytes * option nat * list ascii) :=
  match fuel with
  | O => Some (ip, ellipsis, s)
  | S fuel' =>
      match scan_hex s 0 0 with
      | None => None
      | Some (acc, off, rest) =>
          if off =? 0 then None
          else if bool_decide (head rest = Some "."%char) then
            if bool_decide (ellipsis = None) && negb (bool_decide (length ip = 12%nat)) then None
            else if bool_decide (12 < length ip)%nat then None
            else
              match parseIPv4 s with
              | Some v4 => Some (ip ++ v4, ellipsis, [])
              | None => None
              end
          else
            let ip' := ip ++ [acc / 256; acc mod 256] in
            match rest with
            | [] => Some (ip', ellipsis, [])
            | c :: rest' =>
                if negb (Ascii.eqb c ":") then None
                else
                  match rest' with
                  | [] => None
                  | c2 :: rest2 =>
                      if Ascii.eqb c2 ":" then
                        if bool_decide (ellipsis = None) then
                          if bool_decide (rest2 = []) then Some (ip', Some (length ip'), [])
                          else parse_v6_loop fuel' rest2 ip' (Some (length ip'))
                        else None
                      else parse_v6_loop fuel' rest' ip' ellipsis
                  end
            end
      end
  end.

(** The end of [parseIPv6]: the whole input is used, and "::" stands for the
    zero bytes that are missing (at least one group). *)
Definition expand_v6 (r : bytes * option nat * list ascii) : option bytes :=
  let '(ip, ellipsis, s) := r in
  if negb (bool_decide (s = [])) then None
  else if bool_decide (length ip < 16)%nat then
    match ellipsis with
    | None => None
    | Some e => Some (take e ip ++ replicate (16 - length ip) 0 ++ drop e ip)
    end
  else if bool_decide (ellipsis = None) then Some ip else None.

Definition parseIPv6 (s : list ascii) : option bytes :=
  match s with
  | c1 :: c2 :: s' =>
      if Ascii.eqb c1 ":" && Ascii.eqb c2 ":" then
        if bool_decide (s' = []) then Some (replicate 16 0)
        else parse_v6_loop 8 s' [] (Some 0%nat) ≫= expand_v6
      else parse_v6_loop 8 s [] None ≫= expand_v6
  | _ => parse_v6_loop 8 s [] None ≫= expand_v6
  end.

(** The first of [.], [:] and [%] decides the grammar. *)
Fixpoint addr_kind (l : list ascii) : option ascii :=
  match l with
  | [] => None
  | c :: l' =>
      if Ascii.eqb c "." || Ascii.eqb c ":" || Ascii.eqb c "%" then Some c else addr_kind l'
  end.

(** [net.ParseIP]: sixteen bytes, an IPv4 address in its mapped form.  An
    address with a zone ([%]) is refused, as [netip.ParseAddr] accepts it only
    for IPv6 and [net.ParseIP] then rejects it. *)
Definition ParseIP (s : string) : NetIP :=
  let l := chars s in
  match addr_kind l with
  | Some c =>
      if Ascii.eqb c "." then (λ v4, v4InV6Prefix ++ v4) <$> parseIPv4 l
      else if Ascii.eqb c ":" then
        if bool_decide ("%"%char ∈ l) then None else parseIPv6 l
      else None
  | None => None
  end.

(** ** net.IP methods *)

Definition To4 (ip : NetIP) : NetIP :=
  match ip with
  | Some b =>
      if bool_decide (length b = 4%nat) then Some b
      else if bool_decide (length b = 16%nat) && bool_decide (take 12 b = v4InV6Prefix)
      then Some (drop 12 b) else None
  | None => None
  end.

(** [net.CIDRMask(ones, bits)] *)
Definition mask_byte (n : Z) : Z := if 8 <=? n then 255 else 255 - Z.shiftr 255 (Z.max n 0).

Definition CIDRMask (ones bits : Z) : NetIP :=
  if negb ((bits =? 32) || (bits =? 128)) then None
  else if (ones <? 0) || (bits <? ones) then None
  else Some ((λ i, mask_byte (ones - 8 * i)) <$> seqZ 0 (bits / 8)).

Definition IPMask (ip mask : NetIP) : NetIP :=
  let i := slice_bytes ip in
  let m := slice_bytes mask in
  let m' := if bool_decide (length m = 16%nat) && bool_decide (length i = 4%nat)
               && forallb (λ b, b =? 255) (take 12 m) then drop 12 m else m in
  let i' := if bool_decide (length m' = 4%nat) && bool_decide (length i = 16%nat)
               && bool_decide (take 12 i = v4InV6Prefix) then drop 12 i else i in
  if bool_decide (length i' = length m') then Some (zip_with Z.land i' m') else None.

Definition IPEqual (ip x : NetIP) : bool :=
  let a := slice_bytes ip in
  let b := slice_bytes x in
  if bool_decide (length a = length b) then bool_decide (a = b)
  else if bool_decide (length a = 4%nat) && bool_decide (length b = 16%nat)
  then bool_decide (b = v4InV6Prefix ++ a)
  else if bool_decide (length a = 16%nat) && bool_decide (length b = 4%nat)
  then bool_decide (a = v4InV6Prefix ++ b)
  else false.

(** ** encoding/binary *)

(** [binary.LittleEndian.Uint32(b)]; a slice of fewer than four bytes panics. *)
Definition LittleEndian_Uint32 (b : NetIP) : outcome Z :=
  match slice_bytes b with
  | b0 :: b1 :: b2 :: b3 :: _ => Ok (b0 + b1 * 2 ^ 8 + b2 * 2 ^ 16 + b3 * 2 ^ 24)
  | _ => Panic
  end.

Definition LittleEndian_PutUint32 (v : Z) : bytes :=
  [v mod 2 ^ 8; v / 2 ^ 8 mod 2 ^ 8; v / 2 ^ 16 mod 2 ^ 8; v / 2 ^ 24 mod 2 ^ 8].

(** ** Printing *)

Definition digit (n : Z) : ascii := ascii_of_N (Z.to_N (48 + n)).

(** Decimal notation of a number below [10 ^ fuel]. *)
Fixpoint dec (fuel : nat) (n : Z) : text :=
  match fuel with
  | O => []
  | S fuel' => if n <? 10 then [digit n] else dec fuel' (n / 10) ++ [digit (n mod 10)]
  end.

(** [strconv.FormatUint(n, 10)] for an octet, and hexadecimal without leading
    zeros for a group of an IPv6 address. *)
Definition hex_digit (n : Z) : ascii := if n <? 10 then digit n else ascii_of_N (Z.to_N (87 + n)).

Fixpoint hex (fuel : nat) (n : Z) : text :=
  match fuel with
  | O => []
  | S fuel' => if n <? 16 then [hex_digit n] else hex fuel' (n / 16) ++ [hex_digit (n mod 16)]
  end.

Definition dotted (a b c d : Z) : text :=
  dec 3 a ++ "."%char :: dec 3 b ++ "."%char :: dec 3 c ++ "."%char :: dec 3 d.

Fixpoint groups16 (b : bytes) : list Z :=
  match b with
  | x :: y :: b' => (x * 256 + y) :: groups16 b'
  | _ => []
  end.

(** The length of the run of zero groups at the front. *)
Fixpoint zero_run (g : list Z) : nat :=
  match g with
  | x :: g' => if x =? 0 then S (zero_run g') else O
  | [] => O
  end.

(** The first longest run: (start, length). *)
Definition longest_run (g : list Z) : nat * nat :=
  foldl (λ best i, let n := zero_run (drop i g) in
                   if bool_decide (best.2 < n)%nat then (i, n) else best) (0%nat, 0%nat)
    (seq 0 (length g)).

Definition colons (g : list Z) : text :=
  match g with
  | [] => []
  | x :: g' => hex 4 x ++ concat ((λ x, ":"%char :: hex 4 x) <$> g')
  end.

(** [IP.String()] *)
Definition IPString (ip : NetIP) : string :=
  String.string_of_list_ascii
    match ip, To4 ip with
    | _, Some [a; b; c; d] => dotted a b c d
    | Some b, _ =>
        if bool_decide (length b = 16%nat) then
          let g := groups16 b in
          let '(i, n) := longest_run g in
          if bool_decide (2 ≤ n)%nat
          then colons (take i g) ++ chars "::" ++ colons (drop (i + n) g)
          else colons g
        else if bool_decide (b = []) then chars "<nil>"
        else "?"%char :: concat ((λ x, [hex_digit (x / 16); hex_digit (x mod 16)]) <$> b)
    | None, _ => chars "<nil>"
    end.

Example IPString_ex :
  (IPString <$> [None; Some [8; 8; 4; 4]; ParseIP "10.60.0.1"; ParseIP "2001:db8::1";
                 ParseIP "::"; ParseIP "1:0:0:2:0:0:0:3"; Some [1; 171]])
  = ["<nil>"; "8.8.4.4"; "10.60.0.1"; "2001:db8::1"; "::"; "1:0:0:2::3"; "?01ab"]%string.
Proof. vm_compute. reflexivity. Qed.

(** ** Addresses are bytes *)

Definition octets (l : bytes) : Prop := Forall (λ x, 0 ≤ x < 256) l.

Lemma digit_val_nonneg c : is_digit c = true → 0 ≤ digit_val c.
Proof. unfold is_digit, between, digit_val. rewrite andb_true_iff, !Z.leb_le. lia. Qed.

Lemma hex_val_range c d : hex_val c = Some d → 0 ≤ d < 16.
Proof.
  unfold hex_val, between. repeat case_match; intros; simplify_eq;
    rewrite ?andb_true_iff, ?Z.leb_le in *; unfold code in *; cbn in *; lia.
Qed.

Lemma parse_v4_fields_octets l val n fields pd ip :
  0 ≤ val < 256 → octets fields → parse_v4_fields l val n fields pd = Some ip → octets ip.
Proof.
  revert val n fields pd. induction l as [|c l IH]; intros val n fields pd Hval Hf; cbn [parse_v4_fields].
  { case_match; [|done]. intros [= <-]. apply Forall_app. by split; [|constructor]. }
  destruct (is_digit c) eqn:Hc; repeat case_match; try done; intros Hp.
  - apply IH in Hp; [done| |done]. apply digit_val_nonneg in Hc.
    rewrite Z.ltb_ge in *. lia.
  - apply IH in Hp; [done|lia|]. apply Forall_app. by split; [|constructor].
Qed.

Lemma scan_hex_range l off acc acc' off' rest :
  0 ≤ off → 0 ≤ acc < 16 ^ off → scan_hex l off acc = Some (acc', off', rest) →
  off ≤ 4 → 0 ≤ acc' < 2 ^ 16.
Proof.
  assert (∀ o a, 0 ≤ o ≤ 4 → 0 ≤ a < 16 ^ o → 0 ≤ a < 2 ^ 16) as Hle.
  { intros o a Ho Ha. pose proof (Z.pow_le_mono_r 16 o 4). lia. }
  revert off acc. induction l as [|c l IH]; intros off acc Ho Ha; cbn.
  { intros [= <- <- <-] ?. by apply (Hle off). }
  destruct (hex_val c) as [d|] eqn:Hd; [|intros [= <- <- <-] ?; by apply (Hle off)].
  destruct (Z.ltb_spec 3 off); [done|]. intros Hs _. apply hex_val_range in Hd.
  eapply IH; [..|exact Hs|]; [lia| |lia]. rewrite Z.pow_add_r by lia. lia.
Qed.

Lemma parse_v6_loop_octets fuel s ip e ip' e' s' :
  octets ip → parse_v6_loop fuel s ip e = Some (ip', e', s') → octets ip'.
Proof.
  revert s ip e. induction fuel as [|fuel IH]; intros s ip e Hip; cbn [parse_v6_loop].
  { by intros [= <- <- <-]. }
  destruct (scan_hex s 0 0) as [[[acc off] rest]|] eqn:Hs; [|done].
  assert (octets (ip ++ [acc / 256; acc mod 256])) as Hnext.
  { apply scan_hex_range in Hs; [|lia..]. apply Forall_app. split; [done|].
    repeat constructor; try apply Z.mod_pos_bound; try lia.
    - apply Z.div_pos; lia.
    - apply Z.div_lt_upper_bound; lia. }
  repeat case_match; try done; try (intros [= <- <- <-]); eauto.
  apply Forall_app. split; [done|]. eapply parse_v4_fields_octets; [| |eassumption]; [lia|constructor].
Qed.

Lemma ParseIP_octets s ip : ParseIP s = Some ip → octets ip.
Proof.
  unfold ParseIP, parseIPv4, parseIPv6.
  assert (∀ n, octets (replicate n 0)) as Hzero by (intros n; apply Forall_replicate; lia).
  assert (∀ l e, parse_v6_loop 8 l [] e ≫= expand_v6 = Some ip → octets ip) as Hloop.
  { intros l e ([[ip' e'] s'] & Hr & Hx)%bind_Some.
    apply parse_v6_loop_octets in Hr; [|constructor]. unfold expand_v6 in Hx.
    repeat case_match; simplify_eq; try done. apply Forall_app; split; [by apply Forall_take|].
    apply Forall_app; split; [apply Hzero|by apply Forall_drop]. }
  destruct (addr_kind (chars s)); [|done]. case_match.
  { intros (v4 & Hv4 & ->)%fmap_Some. apply Forall_app. split; [repeat constructor; lia|].
    eapply parse_v4_fields_octets; [| |eassumption]; [lia|constructor]. }
  repeat case_match; try done; try (by apply Hloop). intros [= <-]. apply (Hzero 16%nat).
Qed.

Lemma To4_octets ip ip4 : octets (slice_bytes ip) → To4 ip = Some ip4 → length ip4 = 4%nat ∧ octets ip4.
Proof.
  destruct ip as [b|]; [|done]. cbn. intros Hb. repeat case_match; [|..|done]; intros [= <-].
  - split; [by eapply bool_decide_eq_true|done].
  - apply andb_true_iff in H0 as [Hlen _]. apply bool_decide_eq_true in Hlen.
    split; [rewrite length_drop; lia|by apply Forall_drop].
Qed.
