(* ===== verification/Config.v ===== *)
(** * Configuration (cmd/config)

    The configuration record and [Validate], which fills in the table sizes.
    Field validation (go-playground/validator over the struct tags) is a
    parameter. *)

From S2P Require Import Prelude.

(* cmd/config/config.go:13-39 UpfConfig *)
Record UpfConfig := mkUpfConfig {
  InterfaceName : list string;
  XDPAttachMode : string;
  ApiAddress : string;
  PfcpAddress : string;
  PfcpNodeId : string;
  PfcpRemoteNode : list string;
  AssociationSetupTimeout : Z;
  MetricsAddress : string;
  N3Address : string;
  N9Address : string;
  GtpPeer : list string;
  GtpEchoInterval : Z;
  QerMapSize : Z;
  FarMapSize : Z;
  UrrMapSize : Z;
  PdrMapSize : Z;
  MaxSessions : Z;
  HeartbeatRetries : Z;
  HeartbeatInterval : Z;
  HeartbeatTimeout : Z;
  LoggingLevel : string;
  UEIPPool : string;
  FTEIDPool : Z;
  FeatureUEIP : bool;
  FeatureFTUP : bool
}.

(** What comes out when nothing is set: the defaults of the command line,
    and the N3 address for N9. *)
(* cmd/config/config.go:41-98 init *)
Definition default_config : UpfConfig := mkUpfConfig [] "generic" ":8080" "127.0.0.1:8805"
  "127.0.0.1" [] 5 ":9090" "127.0.0.1" "127.0.0.1" [] 10 0 0 0 0 65535 3 5 5 "info"
  "10.60.0.0/24" 65535 false false.

Definition set_pools (ueip : string) (fteid : Z) (c : UpfConfig) : UpfConfig :=
  mkUpfConfig (InterfaceName c) (XDPAttachMode c) (ApiAddress c) (PfcpAddress c) (PfcpNodeId c)
    (PfcpRemoteNode c) (AssociationSetupTimeout c) (MetricsAddress c) (N3Address c) (N9Address c)
    (GtpPeer c) (GtpEchoInterval c) (QerMapSize c) (FarMapSize c) (UrrMapSize c) (PdrMapSize c)
    (MaxSessions c) (HeartbeatRetries c) (HeartbeatInterval c) (HeartbeatTimeout c)
    (LoggingLevel c) ueip fteid (FeatureUEIP c) (FeatureFTUP c).

Definition set_sizes (qer far urr pdr : Z) (c : UpfConfig) : UpfConfig :=
  mkUpfConfig (InterfaceName c) (XDPAttachMode c) (ApiAddress c) (PfcpAddress c) (PfcpNodeId c)
    (PfcpRemoteNode c) (AssociationSetupTimeout c) (MetricsAddress c) (N3Address c) (N9Address c)
    (GtpPeer c) (GtpEchoInterval c) qer far urr pdr
    (MaxSessions c) (HeartbeatRetries c) (HeartbeatInterval c) (HeartbeatTimeout c)
    (LoggingLevel c) (UEIPPool c) (FTEIDPool c) (FeatureUEIP c) (FeatureFTUP c).

(** [if size == 0 { size = dflt }] *)
Definition or_default (dflt size : Z) : Z := if size =? 0 then dflt else size.

Section validate.
(** [validator.New().Struct(c)] *)
Variable Struct : UpfConfig → outcome unit.

(* cmd/config/config.go:118-145 Validate *)
Definition Validate : M UpfConfig unit :=
  c ← gets (λ c, c);
  lift (Struct c) ≫= λ _,
  modify (λ c, if FeatureFTUP c then c else set_pools (UEIPPool c) 0 c) ≫= λ _,
  modify (λ c, if FeatureUEIP c then c else set_pools "" (FTEIDPool c) c) ≫= λ _,
  modify (λ c, set_sizes (QerMapSize c) (FarMapSize c) (UrrMapSize c)
                 (or_default (u32 (MaxSessions c * 2)) (PdrMapSize c)) c) ≫= λ _,
  modify (λ c, set_sizes (QerMapSize c) (or_default (u32 (MaxSessions c * 2)) (FarMapSize c))
                 (UrrMapSize c) (PdrMapSize c) c) ≫= λ _,
  modify (λ c, set_sizes (or_default (MaxSessions c) (QerMapSize c)) (FarMapSize c)
                 (UrrMapSize c) (PdrMapSize c) c) ≫= λ _,
  modify (λ c, set_sizes (QerMapSize c) (FarMapSize c)
                 (or_default (u32 (MaxSessions c * 2)) (UrrMapSize c)) (PdrMapSize c) c).

(** The sizes [Validate] promises: explicit ones are kept. *)
Definition table_sizes (c : UpfConfig) : list Z :=
  [PdrMapSize c; FarMapSize c; QerMapSize c; UrrMapSize c].

(** [if size == 0 { dflt } else { size }], as a number. *)
Lemma or_default_eq dflt size : or_default dflt size = if decide (size = 0) then dflt else size.
Proof. unfold or_default. by destruct (Z.eqb_spec size 0), (decide (size = 0)). Qed.

(** C40: what [Validate] does to an accepted configuration.  Explicit table
    sizes are kept; a size left at zero becomes twice the number of sessions
    in the PDR, the FAR and the URR table, and the number of sessions in the
    QER table, so that with [0 < max_sessions < 2^31] no table is empty; a
    disabled feature empties its pool, and nothing else changes.  A rejected
    configuration is left as it was. *)
Theorem Validate_sizes c :
  0 < MaxSessions c < 2 ^ 31 → no_panic (Struct c) →
  Forall (λ z, 0 ≤ z) (table_sizes c) →
  wp Validate c
    (λ _ c',
       c' = set_sizes (QerMapSize c') (FarMapSize c') (UrrMapSize c') (PdrMapSize c')
              (set_pools (if FeatureUEIP c then UEIPPool c else "")
                 (if FeatureFTUP c then FTEIDPool c else 0) c) ∧
       PdrMapSize c' = (if decide (PdrMapSize c = 0) then 2 * MaxSessions c else PdrMapSize c) ∧
       FarMapSize c' = (if decide (FarMapSize c = 0) then 2 * MaxSessions c else FarMapSize c) ∧
       QerMapSize c' = (if decide (QerMapSize c = 0) then MaxSessions c else QerMapSize c) ∧
       UrrMapSize c' = (if decide (UrrMapSize c = 0) then 2 * MaxSessions c else UrrMapSize c) ∧
       Forall (λ z, 0 < z) (table_sizes c'))
    (λ _ c', c' = c).
Proof.
  intros Hmax Hnp Hsizes. assert (u32 (MaxSessions c * 2) = 2 * MaxSessions c) as Hwrap.
  { unfold u32. rewrite Z.mod_small; lia. }
  unfold table_sizes in *. rewrite !Forall_cons in Hsizes. destruct Hsizes as (?&?&?&?&_). destruct c.
  unfold Validate. wp_go. apply wp_lift; [done| |done]. intros _ _. wp_go.
  cbn -[u32 or_default decide Z.mul Z.pow] in *.
  destruct FeatureUEIP0, FeatureFTUP0; cbn -[u32 or_default decide Z.mul Z.pow]; rewrite Hwrap, !or_default_eq;
    (split; [reflexivity|]); do 4 (split; [reflexivity|]);
    repeat apply Forall_cons_2; try apply Forall_nil_2; case_decide; lia.
Qed.

End validate.

Lemma Validate_sizes_witness :
  wp (Validate (λ _, Ok tt)) default_config
    (λ _ c', table_sizes c' = [131070; 131070; 65535; 131070]) (λ _ c', c' = default_config).
Proof.
  eapply wp_mono; [apply (Validate_sizes (λ _, Ok tt) default_config)| |done].
  - cbn. lia.
  - done.
  - by repeat constructor.
  - cbn beta. intros _ c' (_ & Hp & Hf & Hq & Hu & _). unfold table_sizes. by rewrite Hp, Hf, Hq, Hu.
Defined.

(** The doubled default wraps.  With [max_sessions] 2^31 the multiplication
    on uint32 gives zero: the PDR, FAR and URR tables are empty, while the QER
    table has 2^31 entries. *)
Theorem Validate_sizes_wrap Struct c :
  MaxSessions c = 2 ^ 31 → Struct c = Ok tt → table_sizes c = [0; 0; 0; 0] →
  wp (Validate Struct) c
    (λ _ c', table_sizes c' = [0; 0; 2 ^ 31; 0]) (λ _ _, False).
Proof.
  intros Hmax Hok [= Hp Hf Hq Hu]. unfold Validate. wp_go. rewrite Hok. apply wp_lift; [done| |done].
  intros _ _. wp_go. destruct c; cbn -[u32 or_default] in *. subst.
  by destruct FeatureUEIP0, FeatureFTUP0.
Qed.

Lemma Validate_sizes_wrap_witness :
  let c := mkUpfConfig [] "generic" ":8080" "127.0.0.1:8805"
    "127.0.0.1" [] 5 ":9090" "127.0.0.1" "n3addr" [] 10 0 0 0 0 2147483648 3 5 5 "info"
    "10.60.0.0/24" 65535 false false in
  wp (Validate (λ _, Ok tt)) c (λ _ c', table_sizes c' = [0; 0; 2147483648; 0]) (λ _ _, False).
Proof. intros c. by apply (Validate_sizes_wrap (λ _, Ok tt) c). Defined.
