(* ===== verification/Settings.v ===== *)
(** * Where the configuration comes from (cmd/config/config.go)

    The command-line flags, their bindings to configuration keys, and the
    decoding into [UpfConfig].  viper and pflag are an interface: four layers
    of settings and the documented precedence among them. *)

From S2P Require Import Prelude Config.

(** ** viper *)

(** A value as pflag, YAML or the environment gives it. *)
Inductive Value :=
  | VString (s : string)
  | VStrings (l : list string)
  | VUint32 (n : Z)
  | VBool (b : bool).

(** A registered flag and its default. *)
Record Flag := mkFlag { flag_name : string; flag_default : Value }.

(** What surrounds the process: the flags given on the command line, the
    environment, and the files that can be read. *)
Record Surroundings := mkSurroundings {
  cmdline : gmap string Value;
  environ : gmap string string;
  read_yaml : string → error + gmap string Value
}.

(** The layers of settings. *)
Record Layers := mkLayers {
  l_flags : gmap string Flag;
  l_prefix : string;
  l_automatic_env : bool;
  l_file : gmap string Value;
  l_defaults : gmap string Value;
  l_path : string
}.

(** ASCII upper case. *)
Definition upper_ascii (a : ascii) : ascii :=
  let n := nat_of_ascii a in
  if (97 <=? n)%nat && (n <=? 122)%nat then ascii_of_nat (n - 32) else a.
Fixpoint ToUpper (s : string) : string :=
  match s with EmptyString => EmptyString | String a s' => String (upper_ascii a) (ToUpper s') end.

(** The environment variable of a key; an empty one counts as not set. *)
Definition env_name (prefix k : string) : string := ToUpper (prefix ++ "_" ++ k)%string.
Definition env_value (sur : Surroundings) (L : Layers) (k : string) : option Value :=
  if l_automatic_env L then
    s ← environ sur !! env_name (l_prefix L) k;
    if String.eqb s "" then None else Some (VString s)
  else None.

Definition flag_value (sur : Surroundings) (L : Layers) (k : string) : option Value :=
  f ← l_flags L !! k; cmdline sur !! flag_name f.

(** The first that is set. *)
Fixpoint first_some {A} (l : list (option A)) : option A :=
  match l with [] => None | Some a :: _ => Some a | None :: l' => first_some l' end.

(** The precedence the documentation of viper states: flag, environment,
    configuration file, default; a flag's own default comes last. *)
Definition precedence (sur : Surroundings) (L : Layers) (k : string) : option Value :=
  first_some [flag_value sur L k; env_value sur L k; l_file L !! k; l_defaults L !! k;
              flag_default <$> l_flags L !! k].

Class Viper (V : Type) := {
  GetViper : V;
  BindPFlag : string → Flag → V → V;
  SetDefault : string → Value → V → V;
  SetConfigFile : string → V → V;
  SetEnvPrefix : string → V → V;
  AutomaticEnv : V → V;
  ReadInConfig : Surroundings → M V unit;
  Get : Surroundings → string → V → option Value;
  AllKeys : V → list string
}.

Class ViperLaws (V : Type) `{Viper V} := {
  layers : V → Layers;
  GetViper_layers : layers GetViper = mkLayers ∅ "" false ∅ ∅ "";
  BindPFlag_layers k f v : layers (BindPFlag k f v) =
    let L := layers v in
    mkLayers (<[k:=f]> (l_flags L)) (l_prefix L) (l_automatic_env L) (l_file L) (l_defaults L) (l_path L);
  SetDefault_layers k d v : layers (SetDefault k d v) =
    let L := layers v in
    mkLayers (l_flags L) (l_prefix L) (l_automatic_env L) (l_file L) (<[k:=d]> (l_defaults L)) (l_path L);
  SetConfigFile_layers p v : layers (SetConfigFile p v) =
    let L := layers v in mkLayers (l_flags L) (l_prefix L) (l_automatic_env L) (l_file L) (l_defaults L) p;
  SetEnvPrefix_layers p v : layers (SetEnvPrefix p v) =
    let L := layers v in mkLayers (l_flags L) p (l_automatic_env L) (l_file L) (l_defaults L) (l_path L);
  AutomaticEnv_layers v : layers (AutomaticEnv v) =
    let L := layers v in mkLayers (l_flags L) (l_prefix L) true (l_file L) (l_defaults L) (l_path L);
  ReadInConfig_layers sur v :
    wp (ReadInConfig sur) v
      (λ _ v', ∃ m, read_yaml sur (l_path (layers v)) = inr m ∧ layers v' =
         let L := layers v in mkLayers (l_flags L) (l_prefix L) (l_automatic_env L) m (l_defaults L) (l_path L))
      (λ _ v', ∃ e, read_yaml sur (l_path (layers v)) = inl e ∧ v' = v);
  Get_precedence sur k v : Get sur k v = precedence sur (layers v) k;
  AllKeys_layers v k : k ∈ AllKeys v ↔
    is_Some (l_flags (layers v) !! k) ∨ is_Some (l_file (layers v) !! k) ∨ is_Some (l_defaults (layers v) !! k)
}.

(** ** The flags and keys of the program *)

Definition config_flag : Flag := mkFlag "config" (VString "./config.yml").

(** The flags, each with the key it is bound to. *)
(* cmd/config/config.go:41-97 init *)
Definition bindings : list (string * Flag) :=
  [("interface_name", mkFlag "iface" (VStrings []));
   ("xdp_attach_mode", mkFlag "attach" (VString "generic"));
   ("api_address", mkFlag "aaddr" (VString ":8080"));
   ("pfcp_address", mkFlag "paddr" (VString "127.0.0.1:8805"));
   ("pfcp_node_id", mkFlag "nodeid" (VString "127.0.0.1"));
   ("pfcp_remote_node", mkFlag "pfcprnode" (VStrings []));
   ("association_setup_timeout", mkFlag "astimeout" (VUint32 5));
   ("metrics_address", mkFlag "maddr" (VString ":9090"));
   ("n3_address", mkFlag "n3addr" (VString "127.0.0.1"));
   ("n9_address", mkFlag "n9addr" (VString "n3addr"));
   ("gtp_peer", mkFlag "peer" (VStrings []));
   ("gtp_echo_interval", mkFlag "echo" (VUint32 10));
   ("qer_map_size", mkFlag "qersize" (VUint32 0));
   ("far_map_size", mkFlag "farsize" (VUint32 0));
   ("urr_map_size", mkFlag "urrsize" (VUint32 0));
   ("pdr_map_size", mkFlag "pdrsize" (VUint32 0));
   ("max_sessions", mkFlag "maxsessions" (VUint32 65535));
   ("heartbeat_retries", mkFlag "hbretries" (VUint32 3));
   ("heartbeat_interval", mkFlag "hbinterval" (VUint32 5));
   ("heartbeat_timeout", mkFlag "hbtimeout" (VUint32 5));
   ("logging_level", mkFlag "loglvl" (VString "info"));
   ("feature_ueip", mkFlag "ueip" (VBool false));
   ("feature_ftup", mkFlag "ftup" (VBool false));
   ("ueip_pool", mkFlag "ueippool" (VString "10.60.0.0/24"));
   ("teid_pool", mkFlag "teidpool" (VUint32 65535))]%string.

Section settings.
Context `{Viper V}.
Variable sur : Surroundings.

(** Decoding of values into fields (mapstructure) and [v.GetString]. *)
Variable to_string : Value → outcome string.
Variable to_strings : Value → outcome (list string).
Variable to_uint32 : Value → outcome Z.
Variable to_bool : Value → outcome bool.
Variable cast_string : option Value → string.

(** A flag's value as the pointer [pflag.String] returns has it. *)
Definition flag_string (f : Flag) : string :=
  cast_string (Some (default (flag_default f) (cmdline sur !! flag_name f))).

(** A configuration file that cannot be read is only reported. *)
(* cmd/config/config.go:41-116 init *)
Definition init : M V unit :=
  for_each bindings (λ b, modify (BindPFlag b.1 b.2)) ≫= λ _,
  n3_address ← gets (λ v, cast_string (Get sur "n3_address" v));
  modify (SetDefault "n9_address" (VString n3_address)) ≫= λ _,
  modify (SetConfigFile (flag_string config_flag)) ≫= λ _,
  modify (SetEnvPrefix "upf") ≫= λ _,
  modify AutomaticEnv ≫= λ _,
  ignore_err (ReadInConfig sur).

(** The field of a key; a key that is not set leaves the zero value. *)
Definition field {A} (get : string → option Value) (decode : Value → outcome A) (zero : A) (k : string)
    : outcome A :=
  match get k with Some x => decode x | None => Ok zero end.

(** The keys of the struct tags. *)
(* cmd/config/config.go:13-39 UpfConfig *)
Definition tags : list string := bindings.*1.

(** The fields, from the settings of their keys. *)
(* cmd/config/config.go:13-39 UpfConfig *)
Definition decode_config (get : string → option Value) : outcome UpfConfig :=
  iface ← field get to_strings [] "interface_name";
  attach ← field get to_string ""%string "xdp_attach_mode";
  aaddr ← field get to_string ""%string "api_address";
  paddr ← field get to_string ""%string "pfcp_address";
  nodeid ← field get to_string ""%string "pfcp_node_id";
  remote ← field get to_strings [] "pfcp_remote_node";
  astimeout ← field get to_uint32 0 "association_setup_timeout";
  maddr ← field get to_string ""%string "metrics_address";
  n3 ← field get to_string ""%string "n3_address";
  n9 ← field get to_string ""%string "n9_address";
  peer ← field get to_strings [] "gtp_peer";
  echo ← field get to_uint32 0 "gtp_echo_interval";
  qersize ← field get to_uint32 0 "qer_map_size";
  farsize ← field get to_uint32 0 "far_map_size";
  urrsize ← field get to_uint32 0 "urr_map_size";
  pdrsize ← field get to_uint32 0 "pdr_map_size";
  maxsessions ← field get to_uint32 0 "max_sessions";
  hbretries ← field get to_uint32 0 "heartbeat_retries";
  hbinterval ← field get to_uint32 0 "heartbeat_interval";
  hbtimeout ← field get to_uint32 0 "heartbeat_timeout";
  loglvl ← field get to_string ""%string "logging_level";
  pool ← field get to_string ""%string "ueip_pool";
  teids ← field get to_uint32 0 "teid_pool";
  ueip ← field get to_bool false "feature_ueip";
  ftup ← field get to_bool false "feature_ftup";
  Ok (mkUpfConfig iface attach aaddr paddr nodeid remote astimeout maddr n3 n9 peer echo qersize farsize
        urrsize pdrsize maxsessions hbretries hbinterval hbtimeout loglvl pool teids ueip ftup).

(** A setting without a field is an error. *)
(* cmd/config/config.go:148-150 Unmarshal *)
Definition Unmarshal (v : V) : outcome UpfConfig :=
  if forallb (λ k, bool_decide (k ∈ tags)) (AllKeys v)
  then decode_config (λ k, Get sur k v)
  else Err (Errorf "'' has invalid keys").

(** *** The contract *)

(** The file named on the command line, if it can be read. *)
Definition config_file : gmap string Value :=
  match read_yaml sur (flag_string config_flag) with inr m => m | inl _ => ∅ end.

(** The default of [n9_address] is what [n3_address] is before the
    environment and the file are looked at: the flag. *)
Definition n3_flag_value : string :=
  cast_string (Some (default (VString "127.0.0.1") (cmdline sur !! "n3addr"%string))).

(** The environment variable UPF_<KEY>. *)
Definition upf_env (k : string) : option Value :=
  s ← environ sur !! ("UPF_" ++ ToUpper k)%string;
  if String.eqb s "" then None else Some (VString s).

(** What the program takes for a key bound to a flag. *)
Definition setting (k : string) (f : Flag) : Value :=
  default (if String.eqb k "n9_address" then VString n3_flag_value else flag_default f)
    (first_some [cmdline sur !! flag_name f; upf_env k; config_file !! k]).

End settings.

(** ** Facts *)

Lemma env_name_upf k : env_name "upf" k = ("UPF_" ++ ToUpper k)%string.
Proof. reflexivity. Qed.

Definition bind_flags (l : list (string * Flag)) : gmap string Flag :=
  foldl (λ m b, <[b.1:=b.2]> m) ∅ l.

Lemma bind_flags_app l b : bind_flags (l ++ [b]) = <[b.1:=b.2]> (bind_flags l).
Proof. unfold bind_flags. by rewrite foldl_app. Qed.

(** No key is bound twice. *)
Lemma bind_flags_lookup l k :
  NoDup l.*1 → ∀ f, bind_flags l !! k = Some f ↔ (k, f) ∈ l.
Proof.
  induction l as [|[k' f'] l IH] using rev_ind; intros Hnd f.
  - split; [done|set_solver].
  - rewrite fmap_app, NoDup_app in Hnd. destruct Hnd as (Hnd & Hout & _).
    rewrite bind_flags_app. cbn. destruct (decide (k' = k)) as [->|Hk].
    + rewrite lookup_insert_eq, elem_of_app, list_elem_of_singleton. split; [naive_solver|].
      intros [Hin|[= ->]]; [|done]. destruct (Hout k); [|set_solver].
      apply list_elem_of_fmap. by exists (k, f).
    + rewrite lookup_insert_ne, (IH Hnd), elem_of_app, list_elem_of_singleton by done. naive_solver.
Qed.

Lemma bindings_NoDup : NoDup bindings.*1.
Proof. apply (bool_decide_unpack _). by vm_compute. Qed.

Lemma n3_bound :
  bind_flags bindings !! "n3_address"%string = Some (mkFlag "n3addr" (VString "127.0.0.1")).
Proof. by vm_compute. Qed.

Section settings_facts.
Context `{ViperLaws V}.
Variable sur : Surroundings.
Variable to_string : Value → outcome string.
Variable to_strings : Value → outcome (list string).
Variable to_uint32 : Value → outcome Z.
Variable to_bool : Value → outcome bool.
Variable cast_string : option Value → string.
Implicit Types v : V.

(** What [init] leaves in the layers. *)
Definition settled : Layers :=
  mkLayers (bind_flags bindings) "upf" true (config_file sur cast_string)
    {["n9_address"%string := VString (n3_flag_value sur cast_string)]} (flag_string sur cast_string config_flag).

Lemma bindings_bound :
  wp (for_each bindings (λ b, modify (BindPFlag b.1 b.2))) GetViper
    (λ _ v, layers v = mkLayers (bind_flags bindings) "" false ∅ ∅ "") (λ _ _, False).
Proof.
  apply (wp_for_each_prefix bindings _
    (λ before v, layers v = mkLayers (bind_flags before) "" false ∅ ∅ "")).
  - intros before b rest v _ Hv. apply wp_modify. rewrite BindPFlag_layers, Hv, bind_flags_app. done.
  - apply GetViper_layers.
Qed.

Lemma init_settles :
  wp (init sur cast_string) GetViper (λ _ v, layers v = settled) (λ _ _, False).
Proof.
  unfold init. apply wp_bind. wp_call bindings_bound; [|done]. intros _ v Hv.
  apply wp_bind, wp_gets, wp_bind, wp_modify, wp_bind, wp_modify, wp_bind, wp_modify, wp_bind,
    wp_modify, wp_ignore_err.
  set (n3 := cast_string _).
  assert (n3 = n3_flag_value sur cast_string) as Hn3.
  { subst n3. rewrite Get_precedence, Hv. unfold n3_flag_value, precedence, flag_value, env_value.
    cbn -[bind_flags bindings]. rewrite n3_bound, !lookup_empty. cbn. by destruct (cmdline sur !! _). }
  set (v' := AutomaticEnv _).
  assert (layers v' = mkLayers (bind_flags bindings) "upf" true ∅
    {["n9_address"%string := VString n3]} (flag_string sur cast_string config_flag)) as Hv'.
  { subst v'. by rewrite AutomaticEnv_layers, SetEnvPrefix_layers, SetConfigFile_layers,
      SetDefault_layers, Hv. }
  eapply wp_mono; [apply ReadInConfig_layers|..]; cbn beta; rewrite Hv'; cbn.
  - intros _ v1 (m & Hm & ->). unfold settled, config_file. by rewrite Hm, Hn3.
  - intros _ v1 (e & He & ->). unfold settled, config_file. by rewrite He, Hv', Hn3.
Qed.

Lemma settled_setting v k f :
  layers v = settled → (k, f) ∈ bindings →
  Get sur k v = Some (setting sur cast_string k f).
Proof.
  intros Hv Hk. rewrite Get_precedence, Hv. unfold precedence, flag_value, env_value, settled.
  cbn -[bind_flags bindings].
  apply (bind_flags_lookup _ _ bindings_NoDup) in Hk as ->. cbn.
  rewrite env_name_upf. fold (upf_env sur k). unfold setting. cbn.
  destruct (cmdline sur !! flag_name f), (upf_env sur k), ((config_file sur cast_string) !! k); cbn; try done.
  destruct (String.eqb_spec k "n9_address") as [->|Hn9]; [by rewrite lookup_singleton_eq|].
  by rewrite lookup_singleton_ne by congruence.
Qed.

Definition decoded (v : V) : outcome UpfConfig := Unmarshal sur to_string to_strings to_uint32 to_bool v.

(** The settings by key. *)
Definition chosen (k : string) : option Value := setting sur cast_string k <$> bind_flags bindings !! k.

Lemma decode_config_ext get get' :
  (∀ k, k ∈ tags → get k = get' k) →
  decode_config to_string to_strings to_uint32 to_bool get =
  decode_config to_string to_strings to_uint32 to_bool get'.
Proof.
  intros Hext. unfold decode_config, field.
  by rewrite !Hext by (apply (bool_decide_unpack _); by vm_compute).
Qed.

Lemma tag_chosen v k : layers v = settled → k ∈ tags → Get sur k v = chosen k.
Proof.
  intros Hv [[k' f] [-> Hin]]%list_elem_of_fmap. cbn [fst]. rewrite (settled_setting _ _ _ Hv Hin).
  unfold chosen. by apply (bind_flags_lookup _ _ bindings_NoDup) in Hin as ->.
Qed.

(** *** Ranges of the decoded fields *)

Definition returns {A} (P : A → Prop) (o : outcome A) : Prop :=
  match o with Ok a => P a | Err _ => True | Panic => False end.

Lemma returns_bind {A B} (P : B → Prop) (o : outcome A) (k : A → outcome B) :
  returns (λ a, returns P (k a)) o → returns P (o ≫= k).
Proof. by destruct o. Qed.

(** Decoding does not panic, and a value of type uint32 is one. *)
Definition decoders_ok : Prop :=
  (∀ x, no_panic (to_string x)) ∧ (∀ x, no_panic (to_strings x)) ∧ (∀ x, no_panic (to_bool x)) ∧
  ∀ x, returns (in_range 32) (to_uint32 x).

Definition sizes_in_range (c : UpfConfig) : Prop :=
  in_range 32 (QerMapSize c) ∧ in_range 32 (FarMapSize c) ∧ in_range 32 (PdrMapSize c) ∧
  in_range 32 (UrrMapSize c) ∧ in_range 32 (MaxSessions c).

Lemma field_returns {A} get (decode : Value → outcome A) zero k (P Q : A → Prop) :
  (∀ x, returns P (decode x)) → P zero → (∀ a, P a → Q a) → returns Q (field get decode zero k).
Proof.
  intros Hd Hz HPQ. unfold field. destruct (get k) as [x|]; [|by apply HPQ].
  specialize (Hd x). destruct (decode x); cbn in *; auto.
Qed.

Lemma decode_config_ranges get :
  decoders_ok →
  returns sizes_in_range (decode_config to_string to_strings to_uint32 to_bool get).
Proof.
  intros (Hs & Hss & Hb & Hn).
  assert (∀ A (decode : Value → outcome A), (∀ x, no_panic (decode x)) →
    ∀ x, returns (λ _, True) (decode x)) as Hany.
  { intros A decode Hd x. specialize (Hd x). by destruct (decode x). }
  assert (in_range 32 0) as H32 by done.
  unfold decode_config.
  repeat (apply returns_bind; first
    [ apply (field_returns _ _ _ _ (in_range 32)); [exact Hn|exact H32|intros ? ?]
    | apply (field_returns _ _ _ _ (λ _, True)); [by apply Hany|exact I|intros ? _]]).
  done.
Qed.

(** A key of the file without a struct tag. *)
Definition stray (k : string) : Prop := is_Some (config_file sur cast_string !! k) ∧ k ∉ tags.

Lemma AllKeys_settled v k :
  layers v = settled → k ∈ AllKeys v ↔ k ∈ tags ∨ is_Some (config_file sur cast_string !! k).
Proof.
  intros Hv. rewrite AllKeys_layers, Hv. cbn -[bind_flags bindings].
  assert (is_Some (bind_flags bindings !! k) ↔ k ∈ tags) as Hb.
  { unfold tags. rewrite list_elem_of_fmap. split.
    - intros [f Hf%(bind_flags_lookup _ _ bindings_NoDup)]. by exists (k, f).
    - intros [[k' f] [-> Hf%(bind_flags_lookup _ _ bindings_NoDup)]]. by exists f. }
  rewrite Hb. split; [|tauto]. intros [?|[?|[d [<- _]%lookup_singleton_Some]]]; [auto..|].
  left. apply (bool_decide_unpack _). by vm_compute.
Qed.

Lemma keys_known v :
  layers v = settled →
  forallb (λ k, bool_decide (k ∈ tags)) (AllKeys v) = true ↔ ∀ k, ¬ stray k.
Proof.
  intros Hv. rewrite forallb_forall. setoid_rewrite bool_decide_eq_true.
  setoid_rewrite <-list_elem_of_In. setoid_rewrite (λ k, AllKeys_settled v k Hv). unfold stray.
  split; [naive_solver|]. intros Hns k [?|Hk]; [done|]. destruct (decide (k ∈ tags)); [done|].
  by destruct (Hns k).
Qed.


End settings_facts.

(** ** A concrete viper: the layers themselves *)

#[export] Instance layers_viper : Viper Layers := {
  GetViper := mkLayers ∅ "" false ∅ ∅ "";
  BindPFlag k f L :=
    mkLayers (<[k:=f]> (l_flags L)) (l_prefix L) (l_automatic_env L) (l_file L) (l_defaults L) (l_path L);
  SetDefault k d L :=
    mkLayers (l_flags L) (l_prefix L) (l_automatic_env L) (l_file L) (<[k:=d]> (l_defaults L)) (l_path L);
  SetConfigFile p L := mkLayers (l_flags L) (l_prefix L) (l_automatic_env L) (l_file L) (l_defaults L) p;
  SetEnvPrefix p L := mkLayers (l_flags L) p (l_automatic_env L) (l_file L) (l_defaults L) (l_path L);
  AutomaticEnv L := mkLayers (l_flags L) (l_prefix L) true (l_file L) (l_defaults L) (l_path L);
  ReadInConfig sur L :=
    match read_yaml sur (l_path L) with
    | inr m => (mkLayers (l_flags L) (l_prefix L) (l_automatic_env L) m (l_defaults L) (l_path L), Ok tt)
    | inl e => (L, Err e)
    end;
  Get sur k L := precedence sur L k;
  AllKeys L := elements (dom (l_flags L) ∪ dom (l_file L) ∪ dom (l_defaults L))
}.

#[export] Instance layers_viper_laws : ViperLaws Layers.
Proof.
  refine {| layers L := L |}; try done.
  - intros sur L. unfold wp. cbn. destruct (read_yaml sur (l_path L)) as [e|m] eqn:Hm; by eexists.
  - intros L k. cbn. rewrite elem_of_elements, !elem_of_union, !elem_of_dom. tauto.
Defined.

(** Decoding of values that have their field's type. *)
Definition plain_string (x : Value) : outcome string :=
  match x with VString s => Ok s | _ => Err (Errorf "expected a string") end.
Definition plain_strings (x : Value) : outcome (list string) :=
  match x with VStrings l => Ok l | _ => Err (Errorf "expected a list") end.
Definition plain_uint32 (x : Value) : outcome Z :=
  match x with VUint32 n => Ok (u32 n) | _ => Err (Errorf "expected a number") end.
Definition plain_bool (x : Value) : outcome bool :=
  match x with VBool b => Ok b | _ => Err (Errorf "expected a boolean") end.
Definition plain_cast (x : option Value) : string := match x with Some (VString s) => s | _ => "" end.

Definition demo_started (sur : Surroundings) : outcome UpfConfig :=
  decoded sur plain_string plain_strings plain_uint32 plain_bool (init sur plain_cast GetViper).1.

(** Nothing set; the N3 address in the environment; the configuration file of
    docs/Configuration.md. *)
Definition no_settings : Surroundings := mkSurroundings ∅ ∅ (λ _, inl (Errorf "no such file")).
Definition n3_in_environment : Surroundings :=
  mkSurroundings ∅ {["UPF_N3_ADDRESS"%string := "10.3.0.1"%string]} (λ _, inl (Errorf "no such file")).
Definition documented_file : gmap string Value := list_to_map
  [("interface_name", VStrings ["lo"]); ("xdp_attach_mode", VString "generic");
   ("api_address", VString ":8080"); ("pfcp_address", VString ":8805");
   ("pfcp_node_id", VString "127.0.0.1"); ("metrics_address", VString ":9090");
   ("n3_address", VString "127.0.0.1"); ("n9_address", VString "127.0.0.1");
   ("resize_ebpf_maps", VBool true); ("qer_map_size", VUint32 1024); ("far_map_size", VUint32 1024);
   ("pdr_map_size", VUint32 1024); ("urr_map_size", VUint32 1024); ("feature_ueip", VBool true);
   ("feature_ftup", VBool true); ("ip_pool", VString "10.60.0.0/16"); ("teid_pool", VUint32 65535)]%string.
Definition documented : Surroundings := mkSurroundings ∅ ∅ (λ _, inr documented_file).

Lemma plain_decoders_ok :
  decoders_ok plain_string plain_strings plain_uint32 plain_bool.
Proof. split_and!; intros []; cbn; try done. apply u32_range. Qed.

Lemma demo_defaults : demo_started no_settings = Ok default_config.
Proof. by vm_compute. Qed.

Lemma demo_n9_not_n3 :
  ∃ c, demo_started n3_in_environment = Ok c ∧ N3Address c = "10.3.0.1"%string ∧
       N9Address c = "127.0.0.1"%string.
Proof. eexists. split; [vm_compute; reflexivity|]. done. Qed.

Lemma documented_stray : stray documented plain_cast "resize_ebpf_maps".
Proof. split; apply (bool_decide_unpack _); by vm_compute. Qed.

