(* ===== verification/KernelMap.v ===== *)
(** * eBPF maps as the control plane sees them (github.com/cilium/ebpf)

    The FAR, QER, URR and PDR tables live in the kernel; the program reaches
    them through [ebpf.Map].  This interface states the operations the source
    uses and what the bpf(2) documentation promises about them. *)

From S2P Require Import Prelude.

Inductive MapType := Hash | Array.

#[export] Instance MapType_eq_dec : EqDecision MapType.
Proof. solve_decision. Defined.

Class KernelMap (Mp : Type → Type → Type) := {
  Type_ {K V} : Mp K V → MapType;
  MaxEntries {K V} : Mp K V → Z;
  Lookup {K V} `{EqDecision K} : K → Mp K V → outcome V;
  Put {K V} `{EqDecision K} : K → V → M (Mp K V) unit;
  UpdateExist {K V} `{EqDecision K} : K → V → M (Mp K V) unit;
  Delete {K V} `{EqDecision K} : K → M (Mp K V) unit
}.

Section contents.
Context `{KernelMap Mp} {K V : Type} `{EqDecision K}.

(** The entry [Lookup] finds under a key. *)
Definition km_get (m : Mp K V) (k : K) : option V :=
  match Lookup k m with Ok v => Some v | _ => None end.

Definition km_same_shape (m m' : Mp K V) : Prop :=
  Type_ m' = Type_ m ∧ MaxEntries m' = MaxEntries m.

(** [m'] is [m] with the entry of [k] set to [o]. *)
Definition km_set (m m' : Mp K V) (k : K) (o : option V) : Prop :=
  km_same_shape m m' ∧ ∀ k', km_get m' k' = if decide (k = k') then o else km_get m k'.

End contents.

(** bpf(2): a failed operation changes nothing; BPF_ANY creates or replaces an
    entry and cannot fail on an entry that exists; BPF_EXIST fails exactly when
    there is no entry; deletion works on hash maps and fails exactly when there
    is no entry, arrays refuse it. *)
Class KernelMapLaws (Mp : Type → Type → Type) `{KernelMap Mp} := {
  Lookup_total {K V} `{EqDecision K} (m : Mp K V) k : no_panic (Lookup k m);
  Put_spec {K V} `{EqDecision K} (m : Mp K V) k v :
    wp (Put k v) m (λ _ m', km_set m m' k (Some v))
       (λ _ m', m' = m ∧ km_get m k = None);
  UpdateExist_spec {K V} `{EqDecision K} (m : Mp K V) k v :
    wp (UpdateExist k v) m (λ _ m', is_Some (km_get m k) ∧ km_set m m' k (Some v))
       (λ _ m', m' = m ∧ km_get m k = None);
  Delete_spec {K V} `{EqDecision K} (m : Mp K V) k :
    wp (Delete k) m
       (λ _ m', Type_ m = Hash ∧ is_Some (km_get m k) ∧ km_set m m' k None)
       (λ _ m', m' = m ∧ (Type_ m = Hash → km_get m k = None))
}.

(** ** A map for the witnesses: an association list with a capacity *)

Record kmap (K V : Type) := mkKmap { kind : MapType; cap : nat; entries : list (K * V) }.
Arguments mkKmap {K V}.
Arguments kind {K V}.
Arguments cap {K V}.
Arguments entries {K V}.

Section kmap.
Context {K V : Type} `{EqDecision K}.

Fixpoint assoc_get (l : list (K * V)) (k : K) : option V :=
  match l with
  | [] => None
  | (k', v) :: l' => if decide (k = k') then Some v else assoc_get l' k
  end.

Definition assoc_remove (l : list (K * V)) (k : K) : list (K * V) :=
  filter (λ kv, kv.1 ≠ k) l.

Definition kmap_lookup (k : K) (m : kmap K V) : outcome V :=
  match assoc_get (entries m) k with
  | Some v => Ok v
  | None => Err (Errorf "key does not exist")
  end.

Definition kmap_store (k : K) (v : V) (m : kmap K V) : kmap K V :=
  mkKmap (kind m) (cap m) ((k, v) :: assoc_remove (entries m) k).

Definition kmap_update_exist (k : K) (v : V) : M (kmap K V) unit := λ m,
  match assoc_get (entries m) k with
  | Some _ => (kmap_store k v m, Ok tt)
  | None => (m, Err (Errorf "key does not exist"))
  end.

Definition kmap_put (k : K) (v : V) : M (kmap K V) unit := λ m,
  if decide (kind m = Hash ∧ assoc_get (entries m) k = None ∧ length (entries m) < cap m)%nat
  then (kmap_store k v m, Ok tt)
  else match assoc_get (entries m) k with
       | Some _ => (kmap_store k v m, Ok tt)
       | None => (m, Err (Errorf "argument list too long"))
       end.

Definition kmap_delete (k : K) : M (kmap K V) unit := λ m,
  if decide (kind m = Hash ∧ is_Some (assoc_get (entries m) k))
  then (mkKmap (kind m) (cap m) (assoc_remove (entries m) k), Ok tt)
  else (m, Err (Errorf "key does not exist")).

Definition new_hash (n : nat) : kmap K V := mkKmap Hash n [].

End kmap.

Definition new_array {V} (n : nat) (zero : V) : kmap Z V :=
  mkKmap Array n ((λ i, (i, zero)) <$> seqZ 0 (Z.of_nat n)).

#[export] Instance kmap_kernel_map : KernelMap kmap := {|
  Type_ K V := kind;
  MaxEntries K V m := Z.of_nat (cap m);
  Lookup K V _ := kmap_lookup;
  Put K V _ := kmap_put;
  UpdateExist K V _ := kmap_update_exist;
  Delete K V _ := kmap_delete
|}.

Section kmap_laws.
Context {K V : Type} `{EqDecision K}.
Implicit Types l : list (K * V).

Lemma kmap_get (m : kmap K V) k : km_get m k = assoc_get (entries m) k.
Proof. unfold km_get. cbn. unfold kmap_lookup. by destruct (assoc_get _ _). Qed.

Lemma assoc_get_remove l k k' :
  assoc_get (assoc_remove l k) k' = if decide (k = k') then None else assoc_get l k'.
Proof.
  unfold assoc_remove. induction l as [|[k0 v0] l IH]; [by case_decide|].
  rewrite filter_cons. repeat case_decide; cbn in *; repeat case_decide; naive_solver.
Qed.

Lemma assoc_get_cons l k v k' :
  assoc_get ((k, v) :: l) k' = if decide (k = k') then Some v else assoc_get l k'.
Proof. cbn. repeat case_decide; naive_solver. Qed.

Lemma kmap_store_set (m : kmap K V) k v : km_set m (kmap_store k v m) k (Some v).
Proof.
  split; [done|]. intros k'. rewrite !kmap_get. unfold kmap_store.
  change (entries (mkKmap ?a ?b ?c)) with c. rewrite assoc_get_cons, assoc_get_remove.
  by case_decide.
Qed.

Lemma assoc_get_array (zero : V) n k :
  assoc_get ((λ i, (i, zero)) <$> seqZ 0 n) k = if decide (0 ≤ k < n) then Some zero else None.
Proof.
  cut (∀ l : list Z, assoc_get ((λ i, (i, zero)) <$> l) k =
                     if decide (k ∈ l) then Some zero else None).
  { intros ->. destruct (decide (k ∈ seqZ 0 n)) as [Hk|Hk]; rewrite elem_of_seqZ in Hk;
      case_decide; auto with lia. }
  induction l as [|x l IH]; cbn -[decide]; [done|]. rewrite IH.
  repeat case_decide; set_solver.
Qed.

End kmap_laws.

#[export] Instance kmap_kernel_map_laws : KernelMapLaws kmap.
Proof.
  split; intros K V ? m k.
  - unfold no_panic. cbn. unfold kmap_lookup. by destruct (assoc_get _ _).
  - intros v. rewrite kmap_get. unfold wp. cbn. unfold kmap_put.
    destruct (decide _) as [(_ & Hnone & _)|]; [apply kmap_store_set|].
    destruct (assoc_get (entries m) k); [apply kmap_store_set|done].
  - intros v. rewrite kmap_get. unfold wp. cbn. unfold kmap_update_exist.
    destruct (assoc_get (entries m) k); [split; [done|apply kmap_store_set]|done].
  - rewrite kmap_get. unfold wp. cbn. unfold kmap_delete.
    destruct (decide _) as [[? ?]|Hno].
    + split; [done|]. split; [done|]. split; [done|]. intros k'.
      rewrite !kmap_get. apply assoc_get_remove.
    + split; [done|]. intros Hhash. destruct (assoc_get (entries m) k); [|done].
      destruct Hno. eauto.
Qed.
