(* ===== verification/ForwardingPlane.v ===== *)
(** * The forwarding-plane interface (cmd/ebpf/pdr.go)

    The rule data the control plane installs, the entry the data plane reads
    for a PDR, the operations [ForwardingPlaneController] offers to the PFCP
    handlers, and the contract they rely on: an abstract view of the tables
    and, per operation, what it does to the view. *)

From S2P Require Import Prelude Net.

(** ** Rules *)

(* cmd/ebpf/pdr.go:40-43 PortRange *)
Record PortRange := mkPortRange { LowerBound : Z; UpperBound : Z }.

(* cmd/ebpf/pdr.go:34-38 IpWMask *)
Record IpWMask := mkIpWMask { Type_ : Z; Ip : NetIP; Mask : NetIP }.

(* cmd/ebpf/pdr.go:26-32 SdfFilter *)
Record SdfFilter := mkSdfFilter {
  Protocol : Z;
  SrcAddress : IpWMask;
  SrcPortRange : PortRange;
  DstAddress : IpWMask;
  DstPortRange : PortRange
}.

(* cmd/ebpf/pdr.go:17-24 PdrInfo *)
Record PdrInfo := mkPdrInfo {
  OuterHeaderRemoval : Z;
  FarId : Z;
  QerId : Z;
  Urr1Id : Z;
  Urr2Id : Z;
  SdfFilterPtr : option SdfFilter     (* SdfFilter *SdfFilter *)
}.

(* cmd/ebpf/pdr.go:153-159 FarInfo *)
Record FarInfo := mkFarInfo {
  Action : Z;
  OuterHeaderCreation : Z;
  Teid : Z;
  RemoteIP : Z;
  TransportLevelMarking : Z
}.

(* cmd/ebpf/pdr.go:194-202 QerInfo *)
Record QerInfo := mkQerInfo {
  GateStatusUL : Z;
  GateStatusDL : Z;
  Qfi : Z;
  MaxBitrateUL : Z;
  MaxBitrateDL : Z;
  StartUL : Z;
  StartDL : Z
}.

(* cmd/ebpf/pdr.go:225-228 UrrInfo *)
Record UrrInfo := mkUrrInfo { UplinkVolume : Z; DownlinkVolume : Z }.

(** Zero values. *)
Definition zeroPortRange : PortRange := mkPortRange 0 0.
Definition zeroIpWMask : IpWMask := mkIpWMask 0 None None.
Definition zeroSdfFilter : SdfFilter :=
  mkSdfFilter 0 zeroIpWMask zeroPortRange zeroIpWMask zeroPortRange.
Definition zeroPdrInfo : PdrInfo := mkPdrInfo 0 0 0 0 0 None.
Definition zeroFarInfo : FarInfo := mkFarInfo 0 0 0 0 0.
Definition zeroQerInfo : QerInfo := mkQerInfo 0 0 0 0 0 0 0.
Definition zeroUrrInfo : UrrInfo := mkUrrInfo 0 0.

(** ** The data plane's PDR entry

    The Go type [IpEntrypointPdrInfo] is generated from these C structures. *)

(* cmd/ebpf/xdp/sdf_filter.h:33-42 struct ip_subnet *)
Record IpSubnet := mkIpSubnet { s_type : Z; s_ip : bytes; s_mask : bytes }.

(* cmd/ebpf/xdp/sdf_filter.h:44-47 struct port_range *)
Record BpfPortRange := mkBpfPortRange { lower_bound : Z; upper_bound : Z }.

(* cmd/ebpf/xdp/sdf_filter.h:49-55 struct sdf_filter *)
Record BpfSdfFilter := mkBpfSdfFilter {
  protocol : Z;
  src_addr : IpSubnet;
  src_port : BpfPortRange;
  dst_addr : IpSubnet;
  dst_port : BpfPortRange
}.

(* cmd/ebpf/xdp/pdr.h:45-52 struct sdf_rules *)
Record SdfRules := mkSdfRules {
  sdf_filter : BpfSdfFilter;
  sr_outer_header_removal : Z;
  sr_far_id : Z;
  sr_qer_id : Z;
  sr_urr1_id : Z;
  sr_urr2_id : Z
}.

(* cmd/ebpf/xdp/pdr.h:54-62 struct pdr_info *)
Record IpEntrypointPdrInfo := mkPdrEntry {
  far_id : Z;
  qer_id : Z;
  urr1_id : Z;
  urr2_id : Z;
  outer_header_removal : Z;
  sdf_mode : Z;                       (* 0 no sdf, 1 sdf only, 2 sdf + default *)
  sdf_rules : SdfRules
}.

Definition zeroIpSubnet : IpSubnet := mkIpSubnet 0 (replicate 16 0) (replicate 16 0).
Definition zeroBpfPortRange : BpfPortRange := mkBpfPortRange 0 0.
Definition zeroBpfSdfFilter : BpfSdfFilter :=
  mkBpfSdfFilter 0 zeroIpSubnet zeroBpfPortRange zeroIpSubnet zeroBpfPortRange.
Definition zeroSdfRules : SdfRules := mkSdfRules zeroBpfSdfFilter 0 0 0 0 0.
Definition zeroPdrEntry : IpEntrypointPdrInfo := mkPdrEntry 0 0 0 0 0 0 zeroSdfRules.

(** ** The operations *)

(* cmd/ebpf/pdr.go:258-277 ForwardingPlaneController *)
Class ForwardingPlaneController (F : Type) := {
  PutPdrUplink : Z → PdrInfo → M F unit;
  PutPdrDownlink : NetIP → PdrInfo → M F unit;
  UpdatePdrUplink : Z → PdrInfo → M F unit;
  UpdatePdrDownlink : NetIP → PdrInfo → M F unit;
  DeletePdrUplink : Z → M F unit;
  DeletePdrDownlink : NetIP → M F unit;
  PutDownlinkPdrIp6 : NetIP → PdrInfo → M F unit;
  UpdateDownlinkPdrIp6 : NetIP → PdrInfo → M F unit;
  DeleteDownlinkPdrIp6 : NetIP → M F unit;
  NewFar : FarInfo → M F Z;
  UpdateFar : Z → FarInfo → M F unit;
  DeleteFar : Z → M F unit;
  NewQer : QerInfo → M F Z;
  UpdateQer : Z → QerInfo → M F unit;
  DeleteQer : Z → M F unit;
  NewUrr : UrrInfo → M F Z;
  UpdateUrr : Z → UrrInfo → M F unit;
  DeleteUrr : Z → M F UrrInfo
}.

(** ** The contract

    A view lists the rules in use by their global index and the PDR entries by
    their key.  [store_pdr old p] is the entry a PDR leaves under a key that
    held [old]; it is a parameter of the contract. *)

Record FPView := mkFPView {
  v_far : gmap Z FarInfo;
  v_qer : gmap Z QerInfo;
  v_urr : gmap Z UrrInfo;
  v_teid : gmap Z IpEntrypointPdrInfo;
  v_ip4 : gmap NetIP IpEntrypointPdrInfo;
  v_ip6 : gmap NetIP IpEntrypointPdrInfo
}.

Definition on_far f v := mkFPView (f (v_far v)) (v_qer v) (v_urr v) (v_teid v) (v_ip4 v) (v_ip6 v).
Definition on_qer f v := mkFPView (v_far v) (f (v_qer v)) (v_urr v) (v_teid v) (v_ip4 v) (v_ip6 v).
Definition on_urr f v := mkFPView (v_far v) (v_qer v) (f (v_urr v)) (v_teid v) (v_ip4 v) (v_ip6 v).
Definition on_teid f v := mkFPView (v_far v) (v_qer v) (v_urr v) (f (v_teid v)) (v_ip4 v) (v_ip6 v).
Definition on_ip4 f v := mkFPView (v_far v) (v_qer v) (v_urr v) (v_teid v) (f (v_ip4 v)) (v_ip6 v).
Definition on_ip6 f v := mkFPView (v_far v) (v_qer v) (v_urr v) (v_teid v) (v_ip4 v) (f (v_ip6 v)).

Section contract.
Context {F : Type}.
Variable repr : F → FPView → Prop.
Implicit Types (s : F) (v : FPView).

(** The shape of the contract of each kind of operation. [on] applies a
    function to one table of the view, [get] reads that table. *)

(** A new rule gets an index no rule in use has. *)
Definition creates {V} (get : FPView → gmap Z V) (on : (gmap Z V → gmap Z V) → FPView → FPView)
    (op : V → M F Z) : Prop :=
  ∀ s v x, repr s v →
    wp (op x) s (λ id s', in_range 32 id ∧ get v !! id = None ∧ repr s' (on <[id:=x]> v))
       (λ _ s', repr s' v).

(** A rule in use gets the new contents; an index not in use stays so. *)
Definition updates {V} (get : FPView → gmap Z V) (on : (gmap Z V → gmap Z V) → FPView → FPView)
    (op : Z → V → M F unit) : Prop :=
  ∀ s v id x, in_range 32 id → repr s v →
    wp (op id x) s (λ _ s', repr s' (on (alter (λ _, x) id) v))
       (λ _ s', get v !! id = None ∧ repr s' v).

(** A rule in use is removed; it fails only on an index not in use.  [result]
    relates what it returns to the rule. *)
Definition deletes {V A} (get : FPView → gmap Z V) (on : (gmap Z V → gmap Z V) → FPView → FPView)
    (result : option V → A → Prop) (op : Z → M F A) : Prop :=
  ∀ s v id, in_range 32 id → repr s v →
    wp (op id) s (λ a s', result (get v !! id) a ∧ repr s' (on (delete id) v))
       (λ _ s', get v !! id = None ∧ repr s' v).

(** A PDR entry is created or replaced. *)
Definition puts {K} `{Countable K} (get : FPView → gmap K IpEntrypointPdrInfo)
    (on : (gmap K IpEntrypointPdrInfo → gmap K IpEntrypointPdrInfo) → FPView → FPView)
    (store : option IpEntrypointPdrInfo → PdrInfo → IpEntrypointPdrInfo)
    (op : K → PdrInfo → M F unit) : Prop :=
  ∀ s v k p, repr s v →
    wp (op k p) s (λ _ s', repr s' (on <[k:=store (get v !! k) p]> v))
       (λ _ s', get v !! k = None ∧ repr s' v).

(** A PDR entry is replaced; there must be one. *)
Definition replaces {K} `{Countable K} (get : FPView → gmap K IpEntrypointPdrInfo)
    (on : (gmap K IpEntrypointPdrInfo → gmap K IpEntrypointPdrInfo) → FPView → FPView)
    (store : option IpEntrypointPdrInfo → PdrInfo → IpEntrypointPdrInfo)
    (op : K → PdrInfo → M F unit) : Prop :=
  ∀ s v k p, repr s v →
    wp (op k p) s (λ _ s', is_Some (get v !! k) ∧ repr s' (on <[k:=store (get v !! k) p]> v))
       (λ _ s', get v !! k = None ∧ repr s' v).

(** A PDR entry is removed; there must be one. *)
Definition removes {K} `{Countable K} (get : FPView → gmap K IpEntrypointPdrInfo)
    (on : (gmap K IpEntrypointPdrInfo → gmap K IpEntrypointPdrInfo) → FPView → FPView)
    (op : K → M F unit) : Prop :=
  ∀ s v k, repr s v →
    wp (op k) s (λ _ s', is_Some (get v !! k) ∧ repr s' (on (delete k) v))
       (λ _ s', get v !! k = None ∧ repr s' v).

(** The value an operation returns may be left open. *)
Lemma deletes_weaken {V A} (get : FPView → gmap Z V) on (R R' : option V → A → Prop) op :
  (∀ o a, R o a → R' o a) → deletes get on R op → deletes get on R' op.
Proof. intros HR Hop s v id Hid Hs. wp_call Hop; naive_solver. Qed.

End contract.

Class ForwardingPlane (F : Type) `{ForwardingPlaneController F} := {
  fp_repr : F → FPView → Prop;
  store_pdr : option IpEntrypointPdrInfo → PdrInfo → IpEntrypointPdrInfo;
  NewFar_ok : creates fp_repr v_far on_far NewFar;
  UpdateFar_ok : updates fp_repr v_far on_far UpdateFar;
  DeleteFar_ok : deletes fp_repr v_far on_far (λ _ _, True) DeleteFar;
  NewQer_ok : creates fp_repr v_qer on_qer NewQer;
  UpdateQer_ok : updates fp_repr v_qer on_qer UpdateQer;
  DeleteQer_ok : deletes fp_repr v_qer on_qer (λ _ _, True) DeleteQer;
  NewUrr_ok : creates fp_repr v_urr on_urr NewUrr;
  UpdateUrr_ok : updates fp_repr v_urr on_urr UpdateUrr;
  DeleteUrr_ok : deletes fp_repr v_urr on_urr (λ _ _, True) DeleteUrr;
  PutPdrUplink_ok : puts fp_repr v_teid on_teid store_pdr PutPdrUplink;
  PutPdrDownlink_ok : puts fp_repr v_ip4 on_ip4 store_pdr PutPdrDownlink;
  PutDownlinkPdrIp6_ok : puts fp_repr v_ip6 on_ip6 store_pdr PutDownlinkPdrIp6;
  UpdatePdrUplink_ok : replaces fp_repr v_teid on_teid store_pdr UpdatePdrUplink;
  UpdatePdrDownlink_ok : replaces fp_repr v_ip4 on_ip4 store_pdr UpdatePdrDownlink;
  UpdateDownlinkPdrIp6_ok : replaces fp_repr v_ip6 on_ip6 store_pdr UpdateDownlinkPdrIp6;
  DeletePdrUplink_ok : removes fp_repr v_teid on_teid DeletePdrUplink;
  DeletePdrDownlink_ok : removes fp_repr v_ip4 on_ip4 DeletePdrDownlink;
  DeleteDownlinkPdrIp6_ok : removes fp_repr v_ip6 on_ip6 DeleteDownlinkPdrIp6
}.
