(* ===== verification/Dataplane.v ===== *)
(** * The eBPF maps behind the interface (cmd/ebpf/pdr.go, objects.go)

    [BpfObjects] implements [ForwardingPlaneController] on three array maps
    with index pools and three PDR hash maps.  The refinement: every operation
    does to the view exactly what the contract says. *)

From S2P Require Import Prelude Net IdTracker KernelMap ForwardingPlane.

(** ** The PDR entry *)

(** [c[i] = arr[arrLen-1-i]] for [i < arrLen]. *)
(* cmd/ebpf/pdr.go:317-333 Copy16Ip *)
Definition Copy16Ip (arr : NetIP) : bytes :=
  let a := slice_bytes arr in
  let c := replicate 16 0 in
  let arrLen := if bool_decide (length a = 4%nat) then 4%nat
                else if bool_decide (length a = 16%nat) then 16%nat else 0%nat in
  foldl (λ c i, <[i := a !!! (arrLen - 1 - i)%nat]> c) c (seq 0 arrLen).

(* cmd/ebpf/pdr.go:309-315 ToIpEntrypointPdrInfo *)
Definition ToIpEntrypointPdrInfo (defaultPdr : PdrInfo) : IpEntrypointPdrInfo :=
  mkPdrEntry (FarId defaultPdr) (QerId defaultPdr) 0 0 (OuterHeaderRemoval defaultPdr) 0
    zeroSdfRules.

(** The filter part of [CombinePdrWithSdf]. *)
(* cmd/ebpf/pdr.go:292-302 CombinePdrWithSdf *)
Definition bpf_sdf_filter (f : SdfFilter) : BpfSdfFilter :=
  mkBpfSdfFilter (Protocol f)
    (mkIpSubnet (Type_ (SrcAddress f)) (Copy16Ip (Ip (SrcAddress f))) (Copy16Ip (Mask (SrcAddress f))))
    (mkBpfPortRange (LowerBound (SrcPortRange f)) (UpperBound (SrcPortRange f)))
    (mkIpSubnet (Type_ (DstAddress f)) (Copy16Ip (Ip (DstAddress f))) (Copy16Ip (Mask (DstAddress f))))
    (mkBpfPortRange (LowerBound (DstPortRange f)) (UpperBound (DstPortRange f))).

(** A nil filter is dereferenced, hence [Panic]. *)
(* cmd/ebpf/pdr.go:279-307 CombinePdrWithSdf *)
Definition CombinePdrWithSdf (defaultPdr : option IpEntrypointPdrInfo) (sdfPdr : PdrInfo)
    : outcome IpEntrypointPdrInfo :=
  match SdfFilterPtr sdfPdr with
  | None => Panic
  | Some f =>
      let rules := mkSdfRules (bpf_sdf_filter f) (OuterHeaderRemoval sdfPdr)
                     (FarId sdfPdr) (QerId sdfPdr) 0 0 in
      Ok match defaultPdr with
         | Some d => mkPdrEntry (far_id d) (qer_id d) 0 0 (outer_header_removal d) 2 rules
         | None => mkPdrEntry 0 0 0 0 0 1 rules
         end
  end.

(* cmd/ebpf/pdr.go:45-52 PreprocessPdrWithSdf *)
Definition PreprocessPdrWithSdf (lookup : outcome IpEntrypointPdrInfo) (pdrInfo : PdrInfo)
    : outcome IpEntrypointPdrInfo :=
  match lookup with
  | Err _ => CombinePdrWithSdf None pdrInfo
  | Ok defaultPdr => CombinePdrWithSdf (Some defaultPdr) pdrInfo
  | Panic => Panic
  end.

(** ** The objects *)

(** The requested table sizes ([SetPdrMapSize] and its siblings, used by [Load]). *)
(* cmd/ebpf/objects.go:37-40 BpfObjects *)
Record MapSizes := mkMapSizes {
  qerMapSize : Z;
  farMapSize : Z;
  pdrMapSize : Z;
  urrMapSize : Z
}.

(** The mutexes are left out: each method below is one atomic step. *)
(* cmd/ebpf/objects.go:27-41 BpfObjects *)
Record BpfObjects (B : Type) (Mp : Type → Type → Type) := mkBpfObjects {
  FarMap : Mp Z FarInfo;
  QerMap : Mp Z QerInfo;
  UrrMap : Mp Z UrrInfo;
  PdrMapTeidIp4 : Mp Z IpEntrypointPdrInfo;
  PdrMapDownlinkIp4 : Mp NetIP IpEntrypointPdrInfo;
  PdrMapDownlinkIp6 : Mp NetIP IpEntrypointPdrInfo;
  farIdTracker : IdTracker B;
  qerIdTracker : IdTracker B;
  urrIdTracker : IdTracker B;
  mapSizes : MapSizes
}.
Arguments mkBpfObjects {B Mp}.
Arguments FarMap {B Mp}.
Arguments QerMap {B Mp}.
Arguments UrrMap {B Mp}.
Arguments PdrMapTeidIp4 {B Mp}.
Arguments PdrMapDownlinkIp4 {B Mp}.
Arguments PdrMapDownlinkIp6 {B Mp}.
Arguments farIdTracker {B Mp}.
Arguments qerIdTracker {B Mp}.
Arguments urrIdTracker {B Mp}.
Arguments mapSizes {B Mp}.

Section bpf_objects.
Context `{Bitmap B} `{KernelMap Mp}.
Abbreviation Objs := (BpfObjects B Mp).
Implicit Types s : Objs.

(* cmd/ebpf/objects.go:55-57 SetPdrMapSize *)
Definition SetPdrMapSize (n : Z) (z : MapSizes) : MapSizes :=
  mkMapSizes (qerMapSize z) (farMapSize z) n (urrMapSize z).
(* cmd/ebpf/objects.go:59-61 SetFarMapSize *)
Definition SetFarMapSize (n : Z) (z : MapSizes) : MapSizes :=
  mkMapSizes (qerMapSize z) n (pdrMapSize z) (urrMapSize z).
(* cmd/ebpf/objects.go:63-65 SetQerMapSize *)
Definition SetQerMapSize (n : Z) (z : MapSizes) : MapSizes :=
  mkMapSizes n (farMapSize z) (pdrMapSize z) (urrMapSize z).
(* cmd/ebpf/objects.go:67-69 SetUrrMapSize *)
Definition SetUrrMapSize (n : Z) (z : MapSizes) : MapSizes :=
  mkMapSizes (qerMapSize z) (farMapSize z) (pdrMapSize z) n.

Definition set_FarMap m s := mkBpfObjects m (QerMap s) (UrrMap s) (PdrMapTeidIp4 s)
  (PdrMapDownlinkIp4 s) (PdrMapDownlinkIp6 s) (farIdTracker s) (qerIdTracker s) (urrIdTracker s) (mapSizes s).
Definition set_QerMap m s := mkBpfObjects (FarMap s) m (UrrMap s) (PdrMapTeidIp4 s)
  (PdrMapDownlinkIp4 s) (PdrMapDownlinkIp6 s) (farIdTracker s) (qerIdTracker s) (urrIdTracker s) (mapSizes s).
Definition set_UrrMap m s := mkBpfObjects (FarMap s) (QerMap s) m (PdrMapTeidIp4 s)
  (PdrMapDownlinkIp4 s) (PdrMapDownlinkIp6 s) (farIdTracker s) (qerIdTracker s) (urrIdTracker s) (mapSizes s).
Definition set_PdrMapTeidIp4 m s := mkBpfObjects (FarMap s) (QerMap s) (UrrMap s) m
  (PdrMapDownlinkIp4 s) (PdrMapDownlinkIp6 s) (farIdTracker s) (qerIdTracker s) (urrIdTracker s) (mapSizes s).
Definition set_PdrMapDownlinkIp4 m s := mkBpfObjects (FarMap s) (QerMap s) (UrrMap s)
  (PdrMapTeidIp4 s) m (PdrMapDownlinkIp6 s) (farIdTracker s) (qerIdTracker s) (urrIdTracker s) (mapSizes s).
Definition set_PdrMapDownlinkIp6 m s := mkBpfObjects (FarMap s) (QerMap s) (UrrMap s)
  (PdrMapTeidIp4 s) (PdrMapDownlinkIp4 s) m (farIdTracker s) (qerIdTracker s) (urrIdTracker s) (mapSizes s).
Definition set_farIdTracker t s := mkBpfObjects (FarMap s) (QerMap s) (UrrMap s)
  (PdrMapTeidIp4 s) (PdrMapDownlinkIp4 s) (PdrMapDownlinkIp6 s) t (qerIdTracker s) (urrIdTracker s) (mapSizes s).
Definition set_qerIdTracker t s := mkBpfObjects (FarMap s) (QerMap s) (UrrMap s)
  (PdrMapTeidIp4 s) (PdrMapDownlinkIp4 s) (PdrMapDownlinkIp6 s) (farIdTracker s) t (urrIdTracker s) (mapSizes s).
Definition set_urrIdTracker t s := mkBpfObjects (FarMap s) (QerMap s) (UrrMap s)
  (PdrMapTeidIp4 s) (PdrMapDownlinkIp4 s) (PdrMapDownlinkIp6 s) (farIdTracker s) (qerIdTracker s) t (mapSizes s).

(** The methods run under the mutex of their tracker: each is one step. *)
(* cmd/ebpf/objects.go:267-271 GetNextQER *)
Definition GetNextQER : M Objs Z := zoom qerIdTracker set_qerIdTracker GetNext.
(* cmd/ebpf/objects.go:273-277 GetNextFAR *)
Definition GetNextFAR : M Objs Z := zoom farIdTracker set_farIdTracker GetNext.
(* cmd/ebpf/objects.go:279-283 GetNextURR *)
Definition GetNextURR : M Objs Z := zoom urrIdTracker set_urrIdTracker GetNext.
(* cmd/ebpf/objects.go:285-289 ReleaseQER *)
Definition ReleaseQER (qerId : Z) : M Objs unit := zoom qerIdTracker set_qerIdTracker (Release qerId).
(* cmd/ebpf/objects.go:291-295 ReleaseFAR *)
Definition ReleaseFAR (farId : Z) : M Objs unit := zoom farIdTracker set_farIdTracker (Release farId).
(* cmd/ebpf/objects.go:297-301 ReleaseURR *)
Definition ReleaseURR (urrId : Z) : M Objs unit := zoom urrIdTracker set_urrIdTracker (Release urrId).

(** The end of [Load]: the pools are as large as the maps that were created. *)
(* cmd/ebpf/objects.go:133-152 Load *)
Definition LoadTrackers : M Objs unit :=
  modify (λ s, set_farIdTracker (NewIdTracker (MaxEntries (FarMap s))) s) ≫= λ _,
  modify (λ s, set_qerIdTracker (NewIdTracker (MaxEntries (QerMap s))) s) ≫= λ _,
  modify (λ s, set_urrIdTracker (NewIdTracker (MaxEntries (UrrMap s))) s).

(** *** PDRs *)

(** The entry [PutPdr*] and [UpdatePdr*] store, given the current one. *)
(* cmd/ebpf/pdr.go:56-64 PutPdrUplink *)
Definition pdr_to_store (lookup : outcome IpEntrypointPdrInfo) (pdrInfo : PdrInfo)
    : outcome IpEntrypointPdrInfo :=
  match SdfFilterPtr pdrInfo with
  | Some _ => PreprocessPdrWithSdf lookup pdrInfo
  | None => Ok (ToIpEntrypointPdrInfo pdrInfo)
  end.

(* cmd/ebpf/pdr.go:54-66 PutPdrUplink *)
Definition BpfPutPdrUplink (teid : Z) (pdrInfo : PdrInfo) : M Objs unit :=
  lookup ← gets (λ s, Lookup teid (PdrMapTeidIp4 s));
  pdrToStore ← lift (pdr_to_store lookup pdrInfo);
  zoom PdrMapTeidIp4 set_PdrMapTeidIp4 (Put teid pdrToStore).

(* cmd/ebpf/pdr.go:68-80 PutPdrDownlink *)
Definition BpfPutPdrDownlink (ipv4 : NetIP) (pdrInfo : PdrInfo) : M Objs unit :=
  lookup ← gets (λ s, Lookup ipv4 (PdrMapDownlinkIp4 s));
  pdrToStore ← lift (pdr_to_store lookup pdrInfo);
  zoom PdrMapDownlinkIp4 set_PdrMapDownlinkIp4 (Put ipv4 pdrToStore).

(* cmd/ebpf/pdr.go:82-94 UpdatePdrUplink *)
Definition BpfUpdatePdrUplink (teid : Z) (pdrInfo : PdrInfo) : M Objs unit :=
  lookup ← gets (λ s, Lookup teid (PdrMapTeidIp4 s));
  pdrToStore ← lift (pdr_to_store lookup pdrInfo);
  zoom PdrMapTeidIp4 set_PdrMapTeidIp4 (UpdateExist teid pdrToStore).

(* cmd/ebpf/pdr.go:96-108 UpdatePdrDownlink *)
Definition BpfUpdatePdrDownlink (ipv4 : NetIP) (pdrInfo : PdrInfo) : M Objs unit :=
  lookup ← gets (λ s, Lookup ipv4 (PdrMapDownlinkIp4 s));
  pdrToStore ← lift (pdr_to_store lookup pdrInfo);
  zoom PdrMapDownlinkIp4 set_PdrMapDownlinkIp4 (UpdateExist ipv4 pdrToStore).

(* cmd/ebpf/pdr.go:110-113 DeletePdrUplink *)
Definition BpfDeletePdrUplink (teid : Z) : M Objs unit :=
  zoom PdrMapTeidIp4 set_PdrMapTeidIp4 (Delete teid).

(* cmd/ebpf/pdr.go:115-118 DeletePdrDownlink *)
Definition BpfDeletePdrDownlink (ipv4 : NetIP) : M Objs unit :=
  zoom PdrMapDownlinkIp4 set_PdrMapDownlinkIp4 (Delete ipv4).

(* cmd/ebpf/pdr.go:120-132 PutDownlinkPdrIp6 *)
Definition BpfPutDownlinkPdrIp6 (ipv6 : NetIP) (pdrInfo : PdrInfo) : M Objs unit :=
  lookup ← gets (λ s, Lookup ipv6 (PdrMapDownlinkIp6 s));
  pdrToStore ← lift (pdr_to_store lookup pdrInfo);
  zoom PdrMapDownlinkIp6 set_PdrMapDownlinkIp6 (Put ipv6 pdrToStore).

(* cmd/ebpf/pdr.go:134-146 UpdateDownlinkPdrIp6 *)
Definition BpfUpdateDownlinkPdrIp6 (ipv6 : NetIP) (pdrInfo : PdrInfo) : M Objs unit :=
  lookup ← gets (λ s, Lookup ipv6 (PdrMapDownlinkIp6 s));
  pdrToStore ← lift (pdr_to_store lookup pdrInfo);
  zoom PdrMapDownlinkIp6 set_PdrMapDownlinkIp6 (UpdateExist ipv6 pdrToStore).

(* cmd/ebpf/pdr.go:148-151 DeleteDownlinkPdrIp6 *)
Definition BpfDeleteDownlinkPdrIp6 (ipv6 : NetIP) : M Objs unit :=
  zoom PdrMapDownlinkIp6 set_PdrMapDownlinkIp6 (Delete ipv6).

(** *** FARs, QERs, URRs *)

(* cmd/ebpf/pdr.go:174-181 NewFar *)
Definition BpfNewFar (farInfo : FarInfo) : M Objs Z :=
  internalId ← GetNextFAR;
  zoom FarMap set_FarMap (Put internalId farInfo) ≫= λ _, mret internalId.

(* cmd/ebpf/pdr.go:183-186 UpdateFar *)
Definition BpfUpdateFar (internalId : Z) (farInfo : FarInfo) : M Objs unit :=
  zoom FarMap set_FarMap (UpdateExist internalId farInfo).

(* cmd/ebpf/pdr.go:188-192 DeleteFar *)
Definition BpfDeleteFar (internalId : Z) : M Objs unit :=
  ReleaseFAR internalId ≫= λ _,
  zoom FarMap set_FarMap (UpdateExist internalId zeroFarInfo).

(* cmd/ebpf/pdr.go:204-211 NewQer *)
Definition BpfNewQer (qerInfo : QerInfo) : M Objs Z :=
  internalId ← GetNextQER;
  zoom QerMap set_QerMap (Put internalId qerInfo) ≫= λ _, mret internalId.

(* cmd/ebpf/pdr.go:213-216 UpdateQer *)
Definition BpfUpdateQer (internalId : Z) (qerInfo : QerInfo) : M Objs unit :=
  zoom QerMap set_QerMap (UpdateExist internalId qerInfo).

(* cmd/ebpf/pdr.go:218-222 DeleteQer *)
Definition BpfDeleteQer (internalId : Z) : M Objs unit :=
  ReleaseQER internalId ≫= λ _,
  zoom QerMap set_QerMap (UpdateExist internalId zeroQerInfo).

(* cmd/ebpf/pdr.go:230-237 NewUrr *)
Definition BpfNewUrr (urrInfo : UrrInfo) : M Objs Z :=
  internalId ← GetNextURR;
  zoom UrrMap set_UrrMap (Put internalId urrInfo) ≫= λ _, mret internalId.

(* cmd/ebpf/pdr.go:239-242 UpdateUrr *)
Definition BpfUpdateUrr (internalId : Z) (urrInfo : UrrInfo) : M Objs unit :=
  zoom UrrMap set_UrrMap (UpdateExist internalId urrInfo).

(* cmd/ebpf/pdr.go:244-256 DeleteUrr *)
Definition BpfDeleteUrr (internalId : Z) : M Objs UrrInfo :=
  lookup ← gets (λ s, Lookup internalId (UrrMap s));
  urrInfo ← lift lookup;
  ReleaseURR internalId ≫= λ _,
  zoom UrrMap set_UrrMap (UpdateExist internalId zeroUrrInfo) ≫= λ _,
  mret urrInfo.

#[export] Instance bpf_controller : ForwardingPlaneController Objs := {|
  PutPdrUplink := BpfPutPdrUplink;
  PutPdrDownlink := BpfPutPdrDownlink;
  UpdatePdrUplink := BpfUpdatePdrUplink;
  UpdatePdrDownlink := BpfUpdatePdrDownlink;
  DeletePdrUplink := BpfDeletePdrUplink;
  DeletePdrDownlink := BpfDeletePdrDownlink;
  PutDownlinkPdrIp6 := BpfPutDownlinkPdrIp6;
  UpdateDownlinkPdrIp6 := BpfUpdateDownlinkPdrIp6;
  DeleteDownlinkPdrIp6 := BpfDeleteDownlinkPdrIp6;
  NewFar := BpfNewFar;
  UpdateFar := BpfUpdateFar;
  DeleteFar := BpfDeleteFar;
  NewQer := BpfNewQer;
  UpdateQer := BpfUpdateQer;
  DeleteQer := BpfDeleteQer;
  NewUrr := BpfNewUrr;
  UpdateUrr := BpfUpdateUrr;
  DeleteUrr := BpfDeleteUrr
|}.

End bpf_objects.

(** ** The PDR entry: lemmas *)

Lemma foldl_insert_rev (a : bytes) (n k : nat) (c : bytes) :
  (k ≤ n)%nat → (n ≤ length a)%nat → (n ≤ length c)%nat →
  ∀ j, (foldl (λ c i, <[i := a !!! (n - 1 - i)%nat]> c) c (seq 0 k)) !! j =
       if decide (j < k)%nat then Some (a !!! (n - 1 - j)%nat) else c !! j.
Proof.
  intros Hk Ha Hc.
  assert (Hlen : ∀ k', length (foldl (λ c i, <[i := a !!! (n - 1 - i)%nat]> c) c (seq 0 k')) = length c).
  { induction k' as [|k' IH]; [done|].
    rewrite seq_S, foldl_app. cbn [foldl]. by rewrite length_insert. }
  induction k as [|k IH]; intros j; [by case_decide; [lia|]|].
  rewrite seq_S, foldl_app. cbn [foldl Nat.add]. rewrite list_lookup_insert.
  rewrite IH, Hlen by lia. repeat case_decide; destruct_and?; subst; try lia; auto with lia.
Qed.

(** [Copy16Ip] reverses an address and pads it on the right. *)
Lemma Copy16Ip_rev (a : bytes) :
  (length a = 4 ∨ length a = 16)%nat →
  Copy16Ip (Some a) = reverse a ++ replicate (16 - length a) 0.
Proof.
  intros Hlen. apply list_eq. intros j. unfold Copy16Ip. change (slice_bytes (Some a)) with a. cbv zeta.
  replace (if bool_decide _ then _ else _) with (length a).
  2:{ destruct Hlen as [Hl|Hl]; rewrite Hl; done. }
  rewrite foldl_insert_rev by (rewrite ?length_replicate; lia).
  case_decide as Hj.
  - rewrite lookup_app_l by (rewrite length_reverse; lia).
    rewrite reverse_lookup by done. replace (length a - 1 - j)%nat with (length a - S j)%nat by lia.
    rewrite list_lookup_lookup_total_lt by lia. done.
  - rewrite lookup_app_r by (rewrite length_reverse; lia). rewrite length_reverse.
    destruct (decide (j < 16)%nat).
    + by rewrite !lookup_replicate_2 by lia.
    + rewrite !lookup_ge_None_2; [done|rewrite length_replicate; lia..].
Qed.

Lemma Copy16Ip_other (a : NetIP) :
  slice_len a ≠ 4 → slice_len a ≠ 16 → Copy16Ip a = replicate 16 0.
Proof.
  unfold slice_len, Copy16Ip. intros H4 H16.
  rewrite !bool_decide_eq_false_2 by lia. done.
Qed.

(** ** The refinement *)

(** The entry a PDR leaves under a key that held [old]. *)
Definition stored_pdr (old : option IpEntrypointPdrInfo) (p : PdrInfo) : IpEntrypointPdrInfo :=
  match SdfFilterPtr p with
  | None => ToIpEntrypointPdrInfo p
  | Some f =>
      let rules := mkSdfRules (bpf_sdf_filter f) (OuterHeaderRemoval p) (FarId p) (QerId p) 0 0 in
      match old with
      | Some d => mkPdrEntry (far_id d) (qer_id d) 0 0 (outer_header_removal d) 2 rules
      | None => mkPdrEntry 0 0 0 0 0 1 rules
      end
  end.

Definition pool (n : Z) : gset Z := list_to_set (seqZ 0 n).

Section refinement.
Context `{BitmapLaws B} `{KernelMapLaws Mp}.
Abbreviation Objs := (BpfObjects B Mp).
Implicit Types s : Objs.

(** A tracker and an array map of the same size hold the rules [v]: the free
    indices are those [v] leaves, and the map has the contents of each rule. *)
Definition store_repr {V} (t : IdTracker B) (m : Mp Z V) (v : gmap Z V) : Prop :=
  in_range 32 (maxSize t) ∧
  tracker_repr t (maxSize t) (pool (maxSize t) ∖ dom v) ∧
  dom v ⊆ pool (maxSize t) ∧
  (∀ k, is_Some (km_get m k) ↔ 0 ≤ k < maxSize t) ∧
  (∀ k x, v !! k = Some x → km_get m k = Some x).

(** A hash map holds the entries [v]. *)
Definition hash_repr {K V} `{Countable K} (m : Mp K V) (v : gmap K V) : Prop :=
  KernelMap.Type_ m = Hash ∧ ∀ k, km_get m k = v !! k.

Definition bpf_repr s (v : FPView) : Prop :=
  store_repr (farIdTracker s) (FarMap s) (v_far v) ∧
  store_repr (qerIdTracker s) (QerMap s) (v_qer v) ∧
  store_repr (urrIdTracker s) (UrrMap s) (v_urr v) ∧
  hash_repr (PdrMapTeidIp4 s) (v_teid v) ∧
  hash_repr (PdrMapDownlinkIp4 s) (v_ip4 v) ∧
  hash_repr (PdrMapDownlinkIp6 s) (v_ip6 v).

Lemma elem_of_pool n k : k ∈ pool n ↔ 0 ≤ k < n.
Proof. unfold pool. rewrite elem_of_list_to_set, elem_of_seqZ. lia. Qed.

Section store.
Context {V : Type}.
Implicit Types (t : IdTracker B) (m : Mp Z V) (v : gmap Z V).

(** Taking an index. *)
Lemma store_GetNext t m v :
  store_repr t m v →
  wp GetNext t
    (λ id t', in_range 32 id ∧ v !! id = None ∧ is_Some (km_get m id) ∧
       ∀ m' x, km_set m m' id (Some x) → store_repr t' m' (<[id:=x]> v))
    (λ _ t', t' = t).
Proof.
  intros (Hn & Ht & Hdom & Harr & Hv).
  eapply wp_mono; [by apply GetNext_spec|..]; cbn beta; [|naive_solver].
  intros id t' (Hin & _ & Ht'). apply elem_of_difference in Hin as [Hin Hnin].
  pose proof Hin as Hr. rewrite elem_of_pool in Hr.
  assert (maxSize t' = maxSize t) as Hmax by apply Ht'.
  split; [unfold in_range in *; lia|]. split; [by apply not_elem_of_dom|].
  split; [by apply Harr|]. intros m' x [_ Hm']. unfold store_repr. rewrite Hmax, dom_insert_L.
  split; [done|]. split; [|split; [set_solver|split]].
  - replace (pool (maxSize t) ∖ ({[id]} ∪ dom v)) with ((pool (maxSize t) ∖ dom v) ∖ {[id]})
      by set_solver. done.
  - intros k. rewrite Hm'. case_decide; subst; [naive_solver|apply Harr].
  - intros k y. rewrite Hm'. rewrite lookup_insert. case_decide; [naive_solver|apply Hv].
Qed.

(** Overwriting the contents of an index. *)
Lemma store_overwrite t m m' v id x :
  store_repr t m v → is_Some (km_get m id) → km_set m m' id (Some x) →
  store_repr t m' (alter (λ _, x) id v).
Proof.
  intros (Hn & Ht & Hdom & Harr & Hv) Hid [_ Hm']. unfold store_repr. rewrite dom_alter_L.
  split; [done|]. split; [done|]. split; [done|]. split.
  - intros k. rewrite Hm'. case_decide; subst; [|apply Harr].
    rewrite <-Harr. split; [done|]. eauto.
  - intros k y. rewrite Hm', lookup_alter. case_decide; [|apply Hv].
    destruct (v !! id); naive_solver.
Qed.

(** Giving an index back, whatever its contents become. *)
Lemma store_Release t m v id :
  store_repr t m v → in_range 32 id →
  wp (Release id) t
    (λ _ t', (is_Some (km_get m id) →
              ∀ m' x, km_set m m' id (Some x) → store_repr t' m' (delete id v)) ∧
             (km_get m id = None → v !! id = None ∧ store_repr t' m v))
    (λ _ _, False).
Proof.
  intros (Hn & Ht & Hdom & Harr & Hv) Hid.
  eapply wp_mono; [eapply Release_spec; [done|apply Hid]| |done]. cbn beta.
  intros _ t' Ht'. assert (maxSize t' = maxSize t) as Hmax by apply Ht'.
  split.
  - intros Hin m' x [_ Hm']. apply Harr in Hin. rewrite decide_True in Ht' by lia.
    unfold store_repr. rewrite Hmax, dom_delete_L.
    split; [done|]. split; [|split; [set_solver|split]].
    + replace (pool (maxSize t) ∖ (dom v ∖ {[id]}))
        with ({[id]} ∪ (pool (maxSize t) ∖ dom v)); [done|].
      assert (id ∈ pool (maxSize t)) by by apply elem_of_pool.
      apply set_eq. intros y. destruct (decide (y = id)); set_solver.
    + intros k. rewrite Hm'. case_decide; subst; [naive_solver|apply Harr].
    + intros k y. rewrite Hm', lookup_delete. case_decide; [naive_solver|apply Hv].
  - intros Hnone. assert (¬ 0 ≤ id < maxSize t) as Hout.
    { rewrite <-Harr, Hnone. by intros []. }
    destruct Hid. rewrite decide_False in Ht' by lia. split.
    + apply not_elem_of_dom. intros Hin%Hdom%elem_of_pool. done.
    + unfold store_repr. rewrite Hmax. done.
Qed.

End store.
(** *** The rule tables

    FARs, QERs and URRs share their life cycle; a [rule_table] names the pool,
    the array and the part of the view that belong to one of them. *)

Record rule_table (V : Type) := mkRuleTable {
  rt_pool : Objs → IdTracker B;
  rt_set_pool : IdTracker B → Objs → Objs;
  rt_map : Objs → Mp Z V;
  rt_set_map : Mp Z V → Objs → Objs;
  rt_get : FPView → gmap Z V;
  rt_on : (gmap Z V → gmap Z V) → FPView → FPView;
  rt_open s v : bpf_repr s v → store_repr (rt_pool s) (rt_map s) (rt_get v);
  rt_close s v t m f : bpf_repr s v → store_repr t m (f (rt_get v)) →
    bpf_repr (rt_set_map m (rt_set_pool t s)) (rt_on f v);
  rt_map_pool t s : rt_map (rt_set_pool t s) = rt_map s;
  rt_pool_id s : rt_set_pool (rt_pool s) s = s;
  rt_map_id s : rt_set_map (rt_map s) s = s;
  rt_keep s v t : bpf_repr s v → store_repr t (rt_map s) (rt_get v) →
    bpf_repr (rt_set_pool t s) v
}.
Arguments rt_pool {V}. Arguments rt_set_pool {V}. Arguments rt_map {V}.
Arguments rt_set_map {V}. Arguments rt_get {V}. Arguments rt_on {V}.

Ltac rule_table_tac :=
  intros; unfold bpf_repr in *; repeat (match goal with s : Objs |- _ => destruct s end); cbn in *;
  naive_solver.

Definition far_table : rule_table FarInfo.
Proof.
  refine (mkRuleTable _ farIdTracker set_farIdTracker FarMap set_FarMap v_far on_far
    _ _ _ _ _ _); abstract rule_table_tac.
Defined.

Definition qer_table : rule_table QerInfo.
Proof.
  refine (mkRuleTable _ qerIdTracker set_qerIdTracker QerMap set_QerMap v_qer on_qer
    _ _ _ _ _ _); abstract rule_table_tac.
Defined.

Definition urr_table : rule_table UrrInfo.
Proof.
  refine (mkRuleTable _ urrIdTracker set_urrIdTracker UrrMap set_UrrMap v_urr on_urr
    _ _ _ _ _ _); abstract rule_table_tac.
Defined.

Section rules.
Context {V : Type} (rt : rule_table V).

Lemma new_rule_ok :
  creates bpf_repr (rt_get rt) (rt_on rt) (λ x,
    id ← zoom (rt_pool rt) (rt_set_pool rt) GetNext;
    zoom (rt_map rt) (rt_set_map rt) (Put id x) ≫= λ _, mret id).
Proof.
  intros s v x Hs. wp_go. wp_call (store_GetNext (V:=V)); [by apply rt_open|..].
  - intros id t' (Hid & Hnone & Hsome & Hset). wp_go. rewrite rt_map_pool.
    wp_call (Put_spec (K:=Z) (V:=V)).
    + intros _ m' Hm'. wp_go. split; [done|]. split; [done|]. apply rt_close; auto.
    + intros _ m' [_ Hn]. by destruct Hsome; simplify_eq.
  - intros _ t' ->. by rewrite rt_pool_id.
Qed.

Lemma update_rule_ok :
  updates bpf_repr (rt_get rt) (rt_on rt) (λ id x,
    zoom (rt_map rt) (rt_set_map rt) (UpdateExist id x)).
Proof.
  intros s v id x Hid Hs. pose proof (rt_open _ rt _ _ Hs) as Hst. wp_go.
  wp_call (UpdateExist_spec (K:=Z) (V:=V)).
  - intros _ m' [Hsome Hm']. rewrite <-(rt_pool_id _ rt s) at 1.
    apply rt_close; [done|]. by eapply store_overwrite.
  - intros _ m' [-> Hn]. rewrite rt_map_id. split; [|done].
    destruct Hst as (_ & _ & _ & _ & Hv). destruct (rt_get rt v !! id) eqn:Hk; [|done].
    apply Hv in Hk. by simplify_eq.
Qed.

Lemma delete_rule_ok zero :
  deletes bpf_repr (rt_get rt) (rt_on rt) (λ _ _, True) (λ id,
    zoom (rt_pool rt) (rt_set_pool rt) (Release id) ≫= λ _,
    zoom (rt_map rt) (rt_set_map rt) (UpdateExist id zero)).
Proof.
  intros s v id Hid Hs. wp_go. wp_call (store_Release (V:=V)); [by apply rt_open| |done].
  intros _ t' [Hin Hout]. wp_go. rewrite rt_map_pool.
  wp_call (UpdateExist_spec (K:=Z) (V:=V)).
  - intros _ m' [Hsome Hm']. split; [done|]. apply rt_close; [done|]. by eapply Hin.
  - intros _ m' [-> Hn]. destruct (Hout Hn) as [? ?]. split; [done|].
    rewrite <-(rt_map_pool _ rt t'), rt_map_id. by apply rt_keep.
Qed.

(** [DeleteUrr] first reads the counters it reports. *)
Lemma delete_rule_read_ok zero :
  deletes bpf_repr (rt_get rt) (rt_on rt) (λ o u, ∀ x, o = Some x → u = x) (λ id,
    lookup ← gets (λ s, Lookup id (rt_map rt s));
    u ← lift lookup;
    zoom (rt_pool rt) (rt_set_pool rt) (Release id) ≫= λ _,
    zoom (rt_map rt) (rt_set_map rt) (UpdateExist id zero) ≫= λ _, mret u).
Proof.
  intros s v id Hid Hs. pose proof (rt_open _ rt _ _ Hs) as (_ & _ & _ & _ & Hv). wp_go.
  apply wp_lift; [apply Lookup_total|..].
  - intros u Hu. assert (km_get (rt_map rt s) id = Some u) as Hget by (unfold km_get; by rewrite Hu).
    pose proof (delete_rule_ok zero s v id Hid Hs) as Hdel.
    unfold wp, mbind, M_bind in *. destruct (zoom _ _ _ s) as [s1 [[]|e|]]; [|naive_solver|done].
    destruct (zoom _ _ _ s1) as [s2 [[]|e|]]; [|naive_solver|done].
    split; [|by destruct Hdel]. intros x Hx%Hv. congruence.
  - intros e He. split; [|done]. destruct (rt_get rt v !! id) eqn:Hk; [|done].
    apply Hv in Hk. unfold km_get in Hk. by rewrite He in Hk.
Qed.

End rules.

(** *** The PDR tables *)

Lemma pdr_to_store_spec {K} `{EqDecision K} (m : Mp K IpEntrypointPdrInfo) k p :
  pdr_to_store (Lookup k m) p = Ok (stored_pdr (km_get m k) p).
Proof.
  unfold pdr_to_store, stored_pdr, PreprocessPdrWithSdf, CombinePdrWithSdf, km_get.
  pose proof (Lookup_total m k) as Hno. unfold no_panic in Hno.
  destruct (SdfFilterPtr p) eqn:Hp; [|done]. by destruct (Lookup k m).
Qed.

Lemma hash_repr_set {K} `{Countable K} {V} (m m' : Mp K V) v k x :
  hash_repr m v → km_set m m' k (Some x) → hash_repr m' (<[k:=x]> v).
Proof.
  intros [Ht Hv] [[Ht' _] Hm']. split; [by rewrite Ht'|]. intros k'.
  rewrite Hm', lookup_insert, Hv. by case_decide.
Qed.

Lemma hash_repr_delete {K} `{Countable K} {V} (m m' : Mp K V) v k :
  hash_repr m v → km_set m m' k None → hash_repr m' (delete k v).
Proof.
  intros [Ht Hv] [[Ht' _] Hm']. split; [by rewrite Ht'|]. intros k'.
  rewrite Hm', lookup_delete, Hv. by case_decide.
Qed.

Record pdr_table (K : Type) `{Countable K} := mkPdrTable {
  pt_map : Objs → Mp K IpEntrypointPdrInfo;
  pt_set : Mp K IpEntrypointPdrInfo → Objs → Objs;
  pt_get : FPView → gmap K IpEntrypointPdrInfo;
  pt_on : (gmap K IpEntrypointPdrInfo → gmap K IpEntrypointPdrInfo) → FPView → FPView;
  pt_open s v : bpf_repr s v → hash_repr (pt_map s) (pt_get v);
  pt_close s v m f : bpf_repr s v → hash_repr m (f (pt_get v)) → bpf_repr (pt_set m s) (pt_on f v);
  pt_id s : pt_set (pt_map s) s = s
}.
Arguments pt_map {K _ _}. Arguments pt_set {K _ _}. Arguments pt_get {K _ _}. Arguments pt_on {K _ _}.

Definition teid_table : pdr_table Z.
Proof.
  refine (mkPdrTable _ _ _ PdrMapTeidIp4 set_PdrMapTeidIp4 v_teid on_teid _ _ _);
    abstract rule_table_tac.
Defined.

Definition ip4_table : pdr_table NetIP.
Proof.
  refine (mkPdrTable _ _ _ PdrMapDownlinkIp4 set_PdrMapDownlinkIp4 v_ip4 on_ip4 _ _ _);
    abstract rule_table_tac.
Defined.

Definition ip6_table : pdr_table NetIP.
Proof.
  refine (mkPdrTable _ _ _ PdrMapDownlinkIp6 set_PdrMapDownlinkIp6 v_ip6 on_ip6 _ _ _);
    abstract rule_table_tac.
Defined.

Section pdrs.
Context `{Countable K} (pt : pdr_table K).

Lemma put_pdr_ok :
  puts bpf_repr (pt_get pt) (pt_on pt) stored_pdr (λ k p,
    lookup ← gets (λ s, Lookup k (pt_map pt s));
    pdrToStore ← lift (pdr_to_store lookup p);
    zoom (pt_map pt) (pt_set pt) (Put k pdrToStore)).
Proof.
  intros s v k p Hs. pose proof (pt_open _ pt _ _ Hs) as Hh. wp_go.
  rewrite pdr_to_store_spec, (proj2 Hh). apply wp_ret. wp_go.
  wp_call (Put_spec (K:=K) (V:=IpEntrypointPdrInfo)).
  - intros _ m' Hm'. apply pt_close; [done|]. by eapply hash_repr_set.
  - intros _ m' [-> Hn]. rewrite pt_id. by rewrite <-(proj2 Hh).
Qed.

Lemma replace_pdr_ok :
  replaces bpf_repr (pt_get pt) (pt_on pt) stored_pdr (λ k p,
    lookup ← gets (λ s, Lookup k (pt_map pt s));
    pdrToStore ← lift (pdr_to_store lookup p);
    zoom (pt_map pt) (pt_set pt) (UpdateExist k pdrToStore)).
Proof.
  intros s v k p Hs. pose proof (pt_open _ pt _ _ Hs) as Hh. wp_go.
  rewrite pdr_to_store_spec, (proj2 Hh). apply wp_ret. wp_go.
  wp_call (UpdateExist_spec (K:=K) (V:=IpEntrypointPdrInfo)).
  - intros _ m' [Hsome Hm']. split; [by rewrite <-(proj2 Hh)|].
    apply pt_close; [done|]. by eapply hash_repr_set.
  - intros _ m' [-> Hn]. rewrite pt_id. by rewrite <-(proj2 Hh).
Qed.

Lemma remove_pdr_ok :
  removes bpf_repr (pt_get pt) (pt_on pt) (λ k, zoom (pt_map pt) (pt_set pt) (Delete k)).
Proof.
  intros s v k Hs. pose proof (pt_open _ pt _ _ Hs) as Hh. wp_go.
  wp_call (Delete_spec (K:=K) (V:=IpEntrypointPdrInfo)).
  - intros _ m' (_ & Hsome & Hm'). split; [by rewrite <-(proj2 Hh)|].
    apply pt_close; [done|]. by eapply hash_repr_delete.
  - intros _ m' [-> Hn]. rewrite pt_id. rewrite <-(proj2 Hh). split; [|done]. apply Hn, Hh.
Qed.

End pdrs.

(** The BPF objects honour the contract of the forwarding plane. *)
#[export] Instance bpf_forwarding_plane : ForwardingPlane Objs := {|
  fp_repr := bpf_repr;
  store_pdr := stored_pdr;
  NewFar_ok := new_rule_ok far_table;
  UpdateFar_ok := update_rule_ok far_table;
  DeleteFar_ok := delete_rule_ok far_table zeroFarInfo;
  NewQer_ok := new_rule_ok qer_table;
  UpdateQer_ok := update_rule_ok qer_table;
  DeleteQer_ok := delete_rule_ok qer_table zeroQerInfo;
  NewUrr_ok := new_rule_ok urr_table;
  UpdateUrr_ok := update_rule_ok urr_table;
  DeleteUrr_ok := deletes_weaken _ _ _ _ _ _ (λ _ _ _, I) (delete_rule_read_ok urr_table zeroUrrInfo);
  PutPdrUplink_ok := put_pdr_ok teid_table;
  PutPdrDownlink_ok := put_pdr_ok ip4_table;
  PutDownlinkPdrIp6_ok := put_pdr_ok ip6_table;
  UpdatePdrUplink_ok := replace_pdr_ok teid_table;
  UpdatePdrDownlink_ok := replace_pdr_ok ip4_table;
  UpdateDownlinkPdrIp6_ok := replace_pdr_ok ip6_table;
  DeletePdrUplink_ok := remove_pdr_ok teid_table;
  DeletePdrDownlink_ok := remove_pdr_ok ip4_table;
  DeleteDownlinkPdrIp6_ok := remove_pdr_ok ip6_table
|}.

End refinement.

(** ** Sequences of operations *)

(** One call of the control plane on the forwarding plane. *)
Inductive fp_cmd :=
  | CPutPdrUplink (teid : Z) (p : PdrInfo)
  | CPutPdrDownlink (ipv4 : NetIP) (p : PdrInfo)
  | CPutDownlinkPdrIp6 (ipv6 : NetIP) (p : PdrInfo)
  | CUpdatePdrUplink (teid : Z) (p : PdrInfo)
  | CUpdatePdrDownlink (ipv4 : NetIP) (p : PdrInfo)
  | CUpdateDownlinkPdrIp6 (ipv6 : NetIP) (p : PdrInfo)
  | CDeletePdrUplink (teid : Z)
  | CDeletePdrDownlink (ipv4 : NetIP)
  | CDeleteDownlinkPdrIp6 (ipv6 : NetIP)
  | CNewFar (i : FarInfo) | CUpdateFar (id : Z) (i : FarInfo) | CDeleteFar (id : Z)
  | CNewQer (i : QerInfo) | CUpdateQer (id : Z) (i : QerInfo) | CDeleteQer (id : Z)
  | CNewUrr (i : UrrInfo) | CUpdateUrr (id : Z) (i : UrrInfo) | CDeleteUrr (id : Z).

Definition void {S A} (m : M S A) : M S unit := m ≫= λ _, mret tt.

Section commands.
Context `{ForwardingPlaneController F}.

Definition exec_cmd (c : fp_cmd) : M F unit :=
  match c with
  | CPutPdrUplink k p => PutPdrUplink k p
  | CPutPdrDownlink k p => PutPdrDownlink k p
  | CPutDownlinkPdrIp6 k p => PutDownlinkPdrIp6 k p
  | CUpdatePdrUplink k p => UpdatePdrUplink k p
  | CUpdatePdrDownlink k p => UpdatePdrDownlink k p
  | CUpdateDownlinkPdrIp6 k p => UpdateDownlinkPdrIp6 k p
  | CDeletePdrUplink k => DeletePdrUplink k
  | CDeletePdrDownlink k => DeletePdrDownlink k
  | CDeleteDownlinkPdrIp6 k => DeleteDownlinkPdrIp6 k
  | CNewFar i => void (NewFar i)
  | CUpdateFar id i => UpdateFar id i
  | CDeleteFar id => DeleteFar id
  | CNewQer i => void (NewQer i)
  | CUpdateQer id i => UpdateQer id i
  | CDeleteQer id => DeleteQer id
  | CNewUrr i => void (NewUrr i)
  | CUpdateUrr id i => UpdateUrr id i
  | CDeleteUrr id => void (DeleteUrr id)
  end.

(** A run of commands, whatever each of them returns. *)
Definition exec_cmds (cs : list fp_cmd) : M F unit := for_each cs (λ c, ignore_err (exec_cmd c)).

End commands.

(** The indices a command names are 32-bit. *)
Definition cmd_ok (c : fp_cmd) : Prop :=
  match c with
  | CUpdateFar id _ | CDeleteFar id | CUpdateQer id _ | CDeleteQer id
  | CUpdateUrr id _ | CDeleteUrr id => in_range 32 id
  | _ => True
  end.

(** What a command does to the view. Only the creation of an entry may fail,
    when its table is full; everything else is determined. *)
Definition view_step (store : option IpEntrypointPdrInfo → PdrInfo → IpEntrypointPdrInfo)
    (c : fp_cmd) (v v' : FPView) : Prop :=
  match c with
  | CNewFar i => v' = v ∨ ∃ id, v_far v !! id = None ∧ v' = on_far <[id:=i]> v
  | CUpdateFar id i => v' = on_far (alter (λ _, i) id) v
  | CDeleteFar id => v' = on_far (delete id) v
  | CNewQer i => v' = v ∨ ∃ id, v_qer v !! id = None ∧ v' = on_qer <[id:=i]> v
  | CUpdateQer id i => v' = on_qer (alter (λ _, i) id) v
  | CDeleteQer id => v' = on_qer (delete id) v
  | CNewUrr i => v' = v ∨ ∃ id, v_urr v !! id = None ∧ v' = on_urr <[id:=i]> v
  | CUpdateUrr id i => v' = on_urr (alter (λ _, i) id) v
  | CDeleteUrr id => v' = on_urr (delete id) v
  | CPutPdrUplink k p =>
      v_teid v !! k = None ∧ v' = v ∨ v' = on_teid <[k:=store (v_teid v !! k) p]> v
  | CPutPdrDownlink k p =>
      v_ip4 v !! k = None ∧ v' = v ∨ v' = on_ip4 <[k:=store (v_ip4 v !! k) p]> v
  | CPutDownlinkPdrIp6 k p =>
      v_ip6 v !! k = None ∧ v' = v ∨ v' = on_ip6 <[k:=store (v_ip6 v !! k) p]> v
  | CUpdatePdrUplink k p => v' = on_teid (alter (λ old, store (Some old) p) k) v
  | CUpdatePdrDownlink k p => v' = on_ip4 (alter (λ old, store (Some old) p) k) v
  | CUpdateDownlinkPdrIp6 k p => v' = on_ip6 (alter (λ old, store (Some old) p) k) v
  | CDeletePdrUplink k => v' = on_teid (delete k) v
  | CDeletePdrDownlink k => v' = on_ip4 (delete k) v
  | CDeleteDownlinkPdrIp6 k => v' = on_ip6 (delete k) v
  end.

Inductive view_steps (store : option IpEntrypointPdrInfo → PdrInfo → IpEntrypointPdrInfo)
    : list fp_cmd → FPView → FPView → Prop :=
  | view_steps_nil v : view_steps store [] v v
  | view_steps_cons c cs v v1 v2 :
      view_step store c v v1 → view_steps store cs v1 v2 → view_steps store (c :: cs) v v2.

Definition empty_view : FPView := mkFPView ∅ ∅ ∅ ∅ ∅ ∅.

(** The maps as [Load] creates them: full arrays, empty hash maps. *)
Definition fresh_maps `{Bitmap B} `{KernelMap Mp} (s : BpfObjects B Mp) : Prop :=
  (in_range 32 (MaxEntries (FarMap s)) ∧
   ∀ k, is_Some (km_get (FarMap s) k) ↔ 0 ≤ k < MaxEntries (FarMap s)) ∧
  (in_range 32 (MaxEntries (QerMap s)) ∧
   ∀ k, is_Some (km_get (QerMap s) k) ↔ 0 ≤ k < MaxEntries (QerMap s)) ∧
  (in_range 32 (MaxEntries (UrrMap s)) ∧
   ∀ k, is_Some (km_get (UrrMap s) k) ↔ 0 ≤ k < MaxEntries (UrrMap s)) ∧
  hash_repr (PdrMapTeidIp4 s) ∅ ∧ hash_repr (PdrMapDownlinkIp4 s) ∅ ∧
  hash_repr (PdrMapDownlinkIp6 s) ∅.

Section simulation.
Context `{ForwardingPlane F}.

Lemma alter_absent {K} `{Countable K} {V} (f : V → V) k (m : gmap K V) :
  m !! k = None → alter f k m = m.
Proof.
  intros Hk. apply map_eq. intros k'. rewrite lookup_alter. case_decide; subst; [|done].
  by rewrite Hk.
Qed.

Lemma alter_present {K} `{Countable K} {V} (f : V → V) k (m : gmap K V) x :
  m !! k = Some x → alter f k m = <[k:=f x]> m.
Proof.
  intros Hk. apply map_eq. intros k'. rewrite lookup_alter, lookup_insert.
  case_decide; subst; [|done]. by rewrite Hk.
Qed.

Lemma exec_cmd_simulates (s : F) v c :
  fp_repr s v → cmd_ok c →
  wp (ignore_err (exec_cmd c)) s (λ _ s', ∃ v', view_step store_pdr c v v' ∧ fp_repr s' v')
     (λ _ _, False).
Proof.
  intros Hs Hc. assert (Hv : v = mkFPView (v_far v) (v_qer v) (v_urr v) (v_teid v) (v_ip4 v) (v_ip6 v))
    by by destruct v.
  apply wp_ignore_err. destruct c; cbn in Hc |- *; unfold void; wp_go.
  all: first [ wp_call PutPdrUplink_ok | wp_call PutPdrDownlink_ok | wp_call PutDownlinkPdrIp6_ok
             | wp_call UpdatePdrUplink_ok | wp_call UpdatePdrDownlink_ok
             | wp_call UpdateDownlinkPdrIp6_ok | wp_call DeletePdrUplink_ok
             | wp_call DeletePdrDownlink_ok | wp_call DeleteDownlinkPdrIp6_ok
             | wp_call NewFar_ok | wp_call UpdateFar_ok | wp_call DeleteFar_ok
             | wp_call NewQer_ok | wp_call UpdateQer_ok | wp_call DeleteQer_ok
             | wp_call NewUrr_ok | wp_call UpdateUrr_ok | wp_call DeleteUrr_ok ].
  all: intros; wp_go; destruct_and?; eexists; split; [|eassumption]; eauto.
  all: match goal with
       | Hsome : is_Some _ |- _ => destruct Hsome as [old Hold]; rewrite Hold
       | _ => idtac
       end.
  all: unfold on_far, on_qer, on_urr, on_teid, on_ip4, on_ip6;
    by rewrite ?alter_absent, ?delete_id by done; erewrite ?alter_present by done.
Qed.

Lemma exec_cmds_simulates (cs : list fp_cmd) (s : F) v :
  fp_repr s v → Forall cmd_ok cs →
  wp (exec_cmds cs) s (λ _ s', ∃ v', view_steps store_pdr cs v v' ∧ fp_repr s' v')
     (λ _ _, False).
Proof.
  intros Hs Hcs. revert s v Hs. induction Hcs as [|c cs Hc _ IH]; intros s v Hs.
  - apply wp_ret. eauto using view_steps_nil.
  - change (exec_cmds (c :: cs)) with (ignore_err (exec_cmd (F:=F) c) ≫= λ _, exec_cmds cs).
    apply wp_bind. wp_call exec_cmd_simulates; [|done]. intros _ s1 (v1 & Hv1 & Hs1).
    wp_call IH; [|done]. intros _ s2 (v2 & Hv2 & Hs2). eauto using view_steps_cons.
Qed.

End simulation.

Section bpf_simulation.
Context `{BitmapLaws B} `{KernelMapLaws Mp}.

Lemma fresh_store_repr {V} (m : Mp Z V) :
  in_range 32 (MaxEntries m) ∧ (∀ k, is_Some (km_get m k) ↔ 0 ≤ k < MaxEntries m) →
  store_repr (B:=B) (NewIdTracker (MaxEntries m)) m ∅.
Proof.
  intros [Hn Hm]. unfold store_repr. change (maxSize (NewIdTracker ?n)) with n.
  rewrite dom_empty_L, difference_empty_L.
  split; [done|]. split; [apply NewIdTracker_repr|]. split; [set_solver|]. split; [done|].
  intros k x. by rewrite lookup_empty.
Qed.

(** C11: the BPF objects implement the abstract tables.  After [Load], any
    sequence of forwarding-plane calls, with any arguments and whatever errors
    they return, runs without a panic and leaves the kernel maps and index
    pools representing the view that the same commands reach from the empty
    tables: rules never share an index, a rule's array slot holds its data
    until it is deleted, and PDR entries are what the last PDR left. *)
Theorem bpf_objects_refine_tables (cs : list fp_cmd) (s0 : BpfObjects B Mp) :
  fresh_maps s0 → Forall cmd_ok cs →
  wp (LoadTrackers ≫= λ _, exec_cmds cs) s0
     (λ _ s, ∃ v, view_steps stored_pdr cs empty_view v ∧ bpf_repr s v) (λ _ _, False).
Proof.
  intros (HF & HQ & HU & HT & H4 & H6) Hcs. unfold LoadTrackers. wp_go.
  wp_call (exec_cmds_simulates (F:=BpfObjects B Mp) cs _ empty_view); [|done..].
  unfold fp_repr, bpf_forwarding_plane, bpf_repr. cbn.
  split_and!; try done; by apply fresh_store_repr.
Qed.

End bpf_simulation.

(** Four FARs, two QERs, two URRs and four entries per PDR table. *)
Definition demo_objects : BpfObjects (gset Z) kmap :=
  mkBpfObjects (new_array 4 zeroFarInfo) (new_array 2 zeroQerInfo) (new_array 2 zeroUrrInfo)
    (new_hash 4) (new_hash 4) (new_hash 4)
    (mkIdTracker ∅ 0) (mkIdTracker ∅ 0) (mkIdTracker ∅ 0) (mkMapSizes 2 4 4 2).

Lemma new_array_fresh {V} (zero : V) (n : nat) :
  in_range 32 (Z.of_nat n) →
  in_range 32 (MaxEntries (new_array n zero)) ∧
  ∀ k, is_Some (km_get (new_array n zero) k) ↔ 0 ≤ k < MaxEntries (new_array n zero).
Proof.
  intros Hn. split; [done|]. intros k. rewrite kmap_get. unfold new_array. cbn [entries].
  rewrite assoc_get_array. change (MaxEntries _) with (Z.of_nat n).
  case_decide; split; [done|eauto|by intros []|done].
Qed.

Lemma demo_objects_fresh : fresh_maps demo_objects.
Proof.
  do 3 (split; [by apply new_array_fresh|]).
  split_and!; try done; intros k; by rewrite kmap_get, lookup_empty.
Qed.

(** Two FARs, a default PDR and an SDF PDR under one TEID, then a deletion. *)
Definition demo_cmds : list fp_cmd :=
  [CNewFar (mkFarInfo 2 1 100 16777343 0); CNewFar (mkFarInfo 2 0 0 0 0);
   CPutPdrUplink 7 (mkPdrInfo 0 0 0 0 0 None);
   CPutPdrUplink 7 (mkPdrInfo 0 1 0 0 0 (Some zeroSdfFilter));
   CDeleteFar 0; CDeleteFar 9].

Lemma bpf_objects_refine_tables_witness :
  wp (LoadTrackers ≫= λ _, exec_cmds demo_cmds) demo_objects
     (λ _ s, ∃ v, view_steps stored_pdr demo_cmds empty_view v ∧ bpf_repr s v) (λ _ _, False) ∧
  (let s := ((LoadTrackers ≫= λ _, exec_cmds demo_cmds) demo_objects).1 in
   km_get (FarMap s) 0 = Some zeroFarInfo ∧ km_get (FarMap s) 1 = Some (mkFarInfo 2 0 0 0 0) ∧
   (sdf_mode <$> km_get (PdrMapTeidIp4 s) 7) = Some 2).
Proof.
  split.
  - apply (bpf_objects_refine_tables demo_cmds demo_objects demo_objects_fresh).
    repeat constructor; vm_compute; congruence.
  - vm_compute. auto.
Defined.
