(* ===== verification/Loader.v ===== *)
(** * Loading the eBPF objects (cmd/ebpf/objects.go, Load and Close)

    [Load] creates the tables with the configured sizes, loads the programs
    with these tables in place of the compiled ones and makes an index pool
    for each array table.  cilium/ebpf and the kernel behind it are the
    interface [EbpfLib]: a state [K], handles [Hd] of open maps and programs,
    and the maps [Mp] of [KernelMap]. *)

From S2P Require Import Prelude IdTracker Net KernelMap ForwardingPlane Dataplane.

(** ** cilium/ebpf *)

(** The description of a map in a compiled program. *)
Record MapSpec := mkMapSpec {
  ms_Type : MapType;
  ms_KeySize : Z;
  ms_ValueSize : Z;
  ms_MaxEntries : Z;
  ms_Flags : Z
}.

Definition set_MaxEntries (n : Z) (sp : MapSpec) : MapSpec :=
  mkMapSpec (ms_Type sp) (ms_KeySize sp) (ms_ValueSize sp) n (ms_Flags sp).

(** The maps of the structure bpf2go generates that the control plane uses. *)
Record IpEntrypointObjects (Mp : Type → Type → Type) := mkIpEntrypointObjects {
  o_FarMap : Mp Z FarInfo;
  o_QerMap : Mp Z QerInfo;
  o_UrrMap : Mp Z UrrInfo;
  o_PdrMapTeidIp4 : Mp Z IpEntrypointPdrInfo;
  o_PdrMapDownlinkIp4 : Mp NetIP IpEntrypointPdrInfo;
  o_PdrMapDownlinkIp6 : Mp NetIP IpEntrypointPdrInfo
}.
Arguments mkIpEntrypointObjects {Mp}.
Arguments o_FarMap {Mp}.
Arguments o_QerMap {Mp}.
Arguments o_UrrMap {Mp}.
Arguments o_PdrMapTeidIp4 {Mp}.
Arguments o_PdrMapDownlinkIp4 {Mp}.
Arguments o_PdrMapDownlinkIp6 {Mp}.

Class EbpfLib (K Hd : Type) (Mp : Type → Type → Type) `{Countable Hd} := {
  MkdirAll : string → M K unit;
  LoadIpEntrypoint : M K (gmap string MapSpec);
  NewMap : MapSpec → M K Hd;
  CloseMap : Hd → M K unit;
  LoadAndAssign : gmap string MapSpec → gmap string Hd → string → M K (IpEntrypointObjects Mp);
  MapInfo {A V} : Mp A V → M K Z;           (* MaxEntries of Info *)
  open_maps : K → gset Hd;                  (* the open handles *)
  unwritten : K → Hd → option MapSpec       (* a map nothing was written to, and its description *)
}.

(** The array and hash tables of the data plane (the [SEC(".maps")] of
    cmd/ebpf/xdp): the names [Load] gives sizes for. *)
Definition table_types : list (string * MapType) :=
  [("qer_map", Array); ("far_map", Array); ("pdr_map_downlink_ip4", Hash);
   ("pdr_map_downlink_ip6", Hash); ("pdr_map_teid_ip4", Hash); ("urr_map", Array)]%string.

(** An array as it is created has all its entries, a hash map none. *)
Definition new_array_map {V} `{KernelMap Mp} (m : Mp Z V) (n : Z) : Prop :=
  MaxEntries m = n ∧ ∀ k, is_Some (km_get m k) ↔ 0 ≤ k < n.
Definition new_hash_map {A V} `{EqDecision A} `{Countable A} `{KernelMap Mp} (m : Mp A V) (n : Z) : Prop :=
  MaxEntries m = n ∧ hash_repr m ∅.

(** A new map of the given type and size, an uint32, is to be used under a name. *)
Definition given {Hd} (u : Hd → option MapSpec) (replacements : gmap string Hd)
    (name : string) (ty : MapType) (n : Z) : Prop :=
  in_range 32 n ∧
  ∃ h sp, replacements !! name = Some h ∧ u h = Some (set_MaxEntries n sp) ∧ ms_Type sp = ty.

(** The objects of a loaded program have the maps that were given. *)
Definition assigned {Hd} `{KernelMap Mp} (u : Hd → option MapSpec) (replacements : gmap string Hd)
    (o : IpEntrypointObjects Mp) : Prop :=
  (∀ n, given u replacements "far_map" Array n → new_array_map (o_FarMap o) n) ∧
  (∀ n, given u replacements "qer_map" Array n → new_array_map (o_QerMap o) n) ∧
  (∀ n, given u replacements "urr_map" Array n → new_array_map (o_UrrMap o) n) ∧
  (∀ n, given u replacements "pdr_map_teid_ip4" Hash n → new_hash_map (o_PdrMapTeidIp4 o) n) ∧
  (∀ n, given u replacements "pdr_map_downlink_ip4" Hash n →
        new_hash_map (o_PdrMapDownlinkIp4 o) n) ∧
  (∀ n, given u replacements "pdr_map_downlink_ip6" Hash n →
        new_hash_map (o_PdrMapDownlinkIp6 o) n).

(** What the documentation promises: a map is created empty with the entries
    it was asked for, under a handle that was not open; [LoadAndAssign] uses
    the given maps for those of the program and opens nothing when it fails;
    [Info] reports the size. *)
Class EbpfLibLaws (K Hd : Type) (Mp : Type → Type → Type) `{EbpfLib K Hd Mp} `{KernelMap Mp} := {
  MkdirAll_spec path (k : K) :
    wp (MkdirAll path) k (λ _ k', open_maps k' = open_maps k) (λ _ k', open_maps k' = open_maps k);
  LoadIpEntrypoint_spec (k : K) :
    wp LoadIpEntrypoint k
      (λ specs k', open_maps k' = open_maps k ∧
         ∀ name ty, (name, ty) ∈ table_types → ∃ sp, specs !! name = Some sp ∧ ms_Type sp = ty)
      (λ _ k', open_maps k' = open_maps k);
  NewMap_spec sp (k : K) :
    wp (NewMap sp) k
      (λ h k', h ∉ open_maps k ∧ open_maps k' = {[h]} ∪ open_maps k ∧
         unwritten k' h = Some sp ∧ ∀ h', h' ∈ open_maps k → unwritten k' h' = unwritten k h')
      (λ _ k', open_maps k' = open_maps k);
  CloseMap_spec h (k : K) :
    wp (CloseMap h) k (λ _ k', open_maps k' = open_maps k ∖ {[h]})
      (λ _ k', open_maps k' = open_maps k ∖ {[h]});
  LoadAndAssign_spec specs replacements path (k : K) :
    wp (LoadAndAssign specs replacements path) k
      (λ o k', open_maps k ⊆ open_maps k' ∧ assigned (unwritten k) replacements o)
      (λ _ k', open_maps k' = open_maps k);
  MapInfo_spec {A V} (m : Mp A V) (k : K) :
    wp (MapInfo m) k (λ n k', n = MaxEntries m ∧ open_maps k' = open_maps k)
      (λ _ k', open_maps k' = open_maps k)
}.

(** ** Load *)

(* cmd/ebpf/objects.go:43-53 NewBpfObjects *)
Definition NewBpfObjects : MapSizes := mkMapSizes 1024 1024 1024 1024.

Definition pinPath : string := "/sys/fs/bpf/upf_pipeline".

Section load.
Context `{Bitmap B} `{EbpfLib K Hd Mp} `{KernelMap Mp} `{MapOrder}.

(* cmd/ebpf/objects.go:83-90 Load *)
Definition desiredMapSizes (z : MapSizes) : gmap string Z :=
  list_to_map [("qer_map", qerMapSize z); ("far_map", farMapSize z);
    ("pdr_map_downlink_ip4", pdrMapSize z); ("pdr_map_downlink_ip6", pdrMapSize z);
    ("pdr_map_teid_ip4", pdrMapSize z); ("urr_map", urrMapSize z)]%string.

(** The loop over the sizes: the descriptions with their new sizes, and the
    maps created.  An error leaves the earlier maps open. *)
(* cmd/ebpf/objects.go:92-111 Load *)
Fixpoint create_maps (desired : list (string * Z)) (specs : gmap string MapSpec)
    (replacements : gmap string Hd) : M K (gmap string MapSpec * gmap string Hd) :=
  match desired with
  | [] => mret (specs, replacements)
  | (mapName, size) :: desired =>
      match specs !! mapName with
      | None => create_maps desired specs replacements
      | Some specMap =>
          m ← NewMap (set_MaxEntries size specMap);
          create_maps desired (<[mapName := set_MaxEntries size specMap]> specs)
            (<[mapName := m]> replacements)
      end
  end.

(* cmd/ebpf/objects.go:113-131 Load *)
Definition load_and_assign (specs : gmap string MapSpec) (replacements : gmap string Hd)
    : M K (IpEntrypointObjects Mp) :=
  on_result (LoadAndAssign specs replacements pinPath) mret
    (λ err, for_each (range_map replacements) (λ m, ignore_err (CloseMap m.2)) ≫= λ _, throw err).

(** Before [Load] only the sizes of the objects are set. *)
(* cmd/ebpf/objects.go:71-153 Load *)
Definition Load (z : MapSizes) : M K (BpfObjects B Mp) :=
  MkdirAll pinPath ≫= λ _,
  specs ← LoadIpEntrypoint;
  created ← create_maps (range_map (desiredMapSizes z)) specs ∅;
  o ← load_and_assign created.1 created.2;
  farEntries ← MapInfo (o_FarMap o);
  qerEntries ← MapInfo (o_QerMap o);
  urrEntries ← MapInfo (o_UrrMap o);
  mret (mkBpfObjects (o_FarMap o) (o_QerMap o) (o_UrrMap o) (o_PdrMapTeidIp4 o)
          (o_PdrMapDownlinkIp4 o) (o_PdrMapDownlinkIp6 o)
          (NewIdTracker farEntries) (NewIdTracker qerEntries) (NewIdTracker urrEntries) z).

(** The generated closer is one of the closers. *)
(* cmd/ebpf/objects.go:176-183 CloseAllObjects *)
Definition CloseAllObjects (closers : list (M K unit)) : M K unit :=
  for_each closers (λ closer, closer).

(* cmd/ebpf/objects.go:155-159 Close *)
Definition CloseBpfObjects (IpEntrypointObjects_Close : M K unit) : M K unit :=
  CloseAllObjects [IpEntrypointObjects_Close].

(* cmd/ebpf/objects.go:161-174 LoadAllObjects *)
Definition LoadAllObjects {Opts Obj} (opts : Opts) (loaders : list ((Obj → Opts → M K unit) * Obj))
    : M K unit :=
  for_each loaders (λ loader, loader.1 loader.2 opts).

End load.

(** ** Facts *)

Section load_facts.
Context `{BitmapLaws B} `{EbpfLibLaws K Hd Mp} `{MapOrder}.
Implicit Types (k : K) (h : Hd) (specs : gmap string MapSpec) (replacements : gmap string Hd).

(** [name] is to be replaced by a new map made for it. *)
Definition replaced k specs replacements (name : string) (size : Z) : Prop :=
  ∃ h sp, replacements !! name = Some h ∧ h ∈ open_maps k ∧ specs !! name = Some sp ∧
    unwritten k h = Some (set_MaxEntries size sp).

Lemma create_maps_spec desired specs replacements (O : gset Hd) k :
  NoDup desired.*1 →
  (∀ name, name ∈ desired.*1 → is_Some (specs !! name) ∧ replacements !! name = None) →
  open_maps k = O ∪ map_img replacements → O ## map_img replacements →
  wp (create_maps desired specs replacements) k
    (λ r k',
       open_maps k' = O ∪ map_img r.2 ∧ O ## map_img r.2 ∧
       (∀ h, h ∈ open_maps k → h ∈ open_maps k' ∧ unwritten k' h = unwritten k h) ∧
       (∀ name, name ∉ desired.*1 → r.2 !! name = replacements !! name) ∧
       (∀ name size, (name, size) ∈ desired → replaced k' specs r.2 name size))
    (λ _ k', O ⊆ open_maps k').
Proof.
  revert specs replacements k. induction desired as [|[name size] desired IH];
    intros specs replacements k Hnd Hnames Hopen Hdisj; cbn.
  { do 4 (split; [done|]). intros name size Hin. by apply elem_of_nil in Hin. }
  apply NoDup_cons in Hnd as [Hnew Hnd].
  destruct (Hnames name) as [[sp Hsp] Hnone]; [by left|]. rewrite Hsp.
  apply wp_bind. wp_call NewMap_spec; [|intros _ k' ->; rewrite Hopen; clear; set_solver].
  intros m k1 (Hm & Hopen1 & Hm1 & Hold1).
  assert (map_img (<[name:=m]> replacements) =@{gset Hd} {[m]} ∪ map_img replacements) as Himg
    by by apply map_img_insert_notin_L.
  eapply wp_mono; [apply IH; [done| | |]| |].
  - intros n Hn. destruct (Hnames n) as [Hs Hr]; [by right|].
    rewrite !lookup_insert_ne by (by intros ->). done.
  - rewrite Himg, Hopen1, Hopen. clear. set_solver.
  - rewrite Himg. rewrite Hopen in Hm. clear -Hm Hdisj. set_solver.
  - intros r k2 (Ho & Hds & Hkeep & Hother & Hall). split; [done|]. split; [done|].
    split_and!.
    + intros h Hh. destruct (Hkeep h) as [? ->]; [rewrite Hopen1; clear -Hh; set_solver|].
      split; [done|]. by apply Hold1.
    + intros n Hn. apply not_elem_of_cons in Hn as [Hn Hn']. rewrite Hother by done.
      by apply lookup_insert_ne.
    + intros n sz [[= -> ->]|Hin]%elem_of_cons.
      * destruct (Hkeep m) as [? Hu]; [rewrite Hopen1; clear; set_solver|]. exists m, sp.
        rewrite Hother, lookup_insert_eq, Hu by done. done.
      * destruct (Hall n sz Hin) as (h & sp' & Hh1 & Hh2 & Hh3 & Hh4). exists h, sp'.
        rewrite lookup_insert_ne in Hh3; [done|]. intros ->. apply Hnew.
        apply list_elem_of_fmap. by exists (n, sz).
  - done.
Qed.

(** When the programs cannot be loaded no new map stays open. *)
Lemma load_and_assign_closes specs replacements k :
  wp (load_and_assign specs replacements) k
    (λ o k', open_maps k ⊆ open_maps k' ∧ assigned (unwritten k) replacements o)
    (λ _ k', open_maps k' = open_maps k ∖ map_img replacements).
Proof.
  unfold load_and_assign. apply wp_on_result. wp_call LoadAndAssign_spec.
  - intros o k' Ho. by apply wp_ret.
  - intros e k' Ho. apply wp_bind.
    eapply wp_mono; [apply (wp_for_each_prefix (range_map replacements) _
      (λ before k1, open_maps k1 = open_maps k ∖ list_to_set before.*2) (λ _ _, False))| |done].
    + intros before [name h] rest k1 Hsplit Hk1. apply wp_ignore_err.
      wp_call CloseMap_spec; intros _ k2 Hk2; rewrite Hk2, Hk1, fmap_app, list_to_set_app_L;
        clear; set_solver.
    + cbn. rewrite Ho. clear. set_solver.
    + intros [] k1 Hk1. apply wp_throw. cbn in Hk1. rewrite Hk1. f_equal. apply set_eq. intros h.
      rewrite elem_of_list_to_set, list_elem_of_fmap, elem_of_map_img. split.
      * intros ([name h'] & -> & Hin). exists name. by apply elem_of_range_map.
      * intros [name Hin]. exists (name, h). split; [done|]. by apply elem_of_range_map.
Qed.

Definition sizes_ok (z : MapSizes) : Prop :=
  in_range 32 (qerMapSize z) ∧ in_range 32 (farMapSize z) ∧ in_range 32 (pdrMapSize z) ∧
  in_range 32 (urrMapSize z).

(** Every table has the size asked for, and so has its index pool. *)
Definition loaded_with (z : MapSizes) (s : BpfObjects B Mp) : Prop :=
  MaxEntries (FarMap s) = farMapSize z ∧ MaxEntries (QerMap s) = qerMapSize z ∧
  MaxEntries (UrrMap s) = urrMapSize z ∧ MaxEntries (PdrMapTeidIp4 s) = pdrMapSize z ∧
  MaxEntries (PdrMapDownlinkIp4 s) = pdrMapSize z ∧ MaxEntries (PdrMapDownlinkIp6 s) = pdrMapSize z ∧
  tracker_repr (farIdTracker s) (farMapSize z) (list_to_set (seqZ 0 (farMapSize z))) ∧
  tracker_repr (qerIdTracker s) (qerMapSize z) (list_to_set (seqZ 0 (qerMapSize z))) ∧
  tracker_repr (urrIdTracker s) (urrMapSize z) (list_to_set (seqZ 0 (urrMapSize z))).

(** Only tables have a desired size. *)
Lemma desired_table z name size :
  (name, size) ∈ range_map (desiredMapSizes z) → ∃ ty, (name, ty) ∈ table_types.
Proof.
  intros Hin. apply elem_of_range_map, elem_of_list_to_map_2 in Hin.
  unfold table_types. rewrite !elem_of_cons in Hin. destruct_or! Hin; simplify_eq; try set_solver.
  all: by destruct (not_elem_of_nil _ Hin).
Qed.

Lemma Load_spec z k :
  sizes_ok z →
  wp (Load z) k (λ s k', loaded_with z s ∧ ∃ s0, fresh_maps s0 ∧ LoadTrackers s0 = (s, Ok tt))
    (λ _ k', open_maps k ⊆ open_maps k').
Proof.
  intros (Hq & Hf & Hp & Hu). unfold Load. apply wp_bind.
  wp_call MkdirAll_spec; [|set_solver]. intros _ k1 Ho1. apply wp_bind.
  wp_call LoadIpEntrypoint_spec; [|set_solver]. intros specs k2 (Ho2 & Htypes).
  apply wp_bind. eapply wp_mono; [apply (create_maps_spec _ specs ∅ (open_maps k2))| |].
  { apply NoDup_range_map. }
  { intros name ([n size] & -> & Hin)%list_elem_of_fmap. split; [|done].
    destruct (desired_table _ _ _ Hin) as [ty Hty]. cbn. destruct (Htypes n ty Hty) as (sp & -> & _). done. }
  { rewrite map_img_empty_L. set_solver. }
  { rewrite map_img_empty_L. set_solver. }
  2:{ intros e k3 Hk3. cbn in Hk3. by rewrite <-Ho1, <-Ho2. }
  intros [specs' replacements] k3 (Ho3 & Hdisj & _ & _ & Hall). cbn [fst snd] in *.
  assert (∀ name ty n, (name, ty) ∈ table_types → desiredMapSizes z !! name = Some n → in_range 32 n →
    given (unwritten k3) replacements name ty n) as Hgiven.
  { intros name ty n Hty Hn Hr. split; [done|]. apply elem_of_range_map in Hn.
    destruct (Hall name n Hn) as (h & sp & Hh & _ & Hsp & Hw).
    destruct (Htypes name ty Hty) as (sp' & Hsp' & Hsty). exists h, sp. simplify_eq. done. }
  apply wp_bind. wp_call load_and_assign_closes; [|intros e k4 ->; rewrite Ho3, <-Ho1, <-Ho2; clear -Hdisj; set_solver].
  intros o k4 (Ho4 & Hfar & Hqer & Hurr & Hteid & Hd4 & Hd6).
  destruct (Hfar (farMapSize z)) as [Ef Cf]; [by apply Hgiven; [apply (bool_decide_unpack _)|..]|].
  destruct (Hqer (qerMapSize z)) as [Eq Cq]; [by apply Hgiven; [apply (bool_decide_unpack _)|..]|].
  destruct (Hurr (urrMapSize z)) as [Eu Cu]; [by apply Hgiven; [apply (bool_decide_unpack _)|..]|].
  destruct (Hteid (pdrMapSize z)) as [Et Ct]; [by apply Hgiven; [apply (bool_decide_unpack _)|..]|].
  destruct (Hd4 (pdrMapSize z)) as [E4 C4]; [by apply Hgiven; [apply (bool_decide_unpack _)|..]|].
  destruct (Hd6 (pdrMapSize z)) as [E6 C6]; [by apply Hgiven; [apply (bool_decide_unpack _)|..]|].
  assert (open_maps k ⊆ open_maps k4) as Ho.
  { etrans; [|exact Ho4]. rewrite Ho3, <-Ho1, <-Ho2. clear. set_solver. }
  do 3 (apply wp_bind; wp_call (MapInfo_spec (Mp:=Mp));
        [|by intros ? ? ->];
        let n := fresh "n" in let k' := fresh "k" in let Hk := fresh "Hk" in
        intros n k' [-> Hk]; rewrite <-Hk in Ho).
  apply wp_ret. match goal with |- loaded_with z ?s ∧ _ => split; [|exists s] end.
  - unfold loaded_with. cbn [FarMap QerMap UrrMap PdrMapTeidIp4 PdrMapDownlinkIp4 PdrMapDownlinkIp6
      farIdTracker qerIdTracker urrIdTracker]. rewrite Ef, Eq, Eu.
    split_and!; try done; apply NewIdTracker_repr.
  - split; [|reflexivity]. unfold fresh_maps. cbn. by rewrite Ef, Eq, Eu.
Qed.

End load_facts.

(** ** A library for the witnesses

    Handles are numbers; a kernel is the table of its open maps. *)

Definition demo_kernel : Type := gmap Z MapSpec.

Definition next_handle (k : demo_kernel) : Z := 1 + foldr Z.max 0 (map_to_list k).*1.

Definition demo_spec (ty : MapType) : MapSpec := mkMapSpec ty 4 16 64 0.

Definition demo_specs : gmap string MapSpec :=
  list_to_map ((λ nt, (nt.1, demo_spec nt.2)) <$> table_types).

Definition demo_size (k : demo_kernel) (replacements : gmap string Z) (name : string) : nat :=
  match h ← replacements !! name; k !! h with Some sp => Z.to_nat (ms_MaxEntries sp) | None => 64 end.

Definition demo_assign (k : demo_kernel) (replacements : gmap string Z) : IpEntrypointObjects kmap :=
  mkIpEntrypointObjects
    (new_array (demo_size k replacements "far_map") zeroFarInfo)
    (new_array (demo_size k replacements "qer_map") zeroQerInfo)
    (new_array (demo_size k replacements "urr_map") zeroUrrInfo)
    (new_hash (demo_size k replacements "pdr_map_teid_ip4"))
    (new_hash (demo_size k replacements "pdr_map_downlink_ip4"))
    (new_hash (demo_size k replacements "pdr_map_downlink_ip6")).

#[export] Instance demo_lib : EbpfLib demo_kernel Z kmap := {|
  MkdirAll path := mret tt;
  LoadIpEntrypoint := mret demo_specs;
  NewMap sp := λ k, (<[next_handle k := sp]> k, Ok (next_handle k));
  CloseMap h := λ k, (delete h k, Ok tt);
  LoadAndAssign specs replacements path := λ k, (k, Ok (demo_assign k replacements));
  MapInfo A V m := λ k, (k, Ok (MaxEntries m));
  open_maps := dom;
  unwritten k h := k !! h
|}.

Lemma next_handle_fresh k : next_handle k ∉ dom k.
Proof.
  assert (∀ (l : list Z) h, h ∈ l → h ≤ foldr Z.max 0 l) as Hmax.
  { intros l h. induction l as [|x l IH]; cbn; [set_solver|]. intros [->|Hh]%elem_of_cons; [lia|].
    specialize (IH Hh). lia. }
  unfold next_handle. intros (sp & Hsp)%elem_of_dom.
  specialize (Hmax (map_to_list k).*1 (next_handle k)). unfold next_handle in Hmax.
  enough (1 + foldr Z.max 0 (map_to_list k).*1 ≤ foldr Z.max 0 (map_to_list k).*1) by lia.
  apply Hmax, list_elem_of_fmap. eexists (_, sp). split; [done|]. by apply elem_of_map_to_list.
Qed.

Lemma demo_size_given k replacements name ty n :
  given (λ h, k !! h) replacements name ty n → Z.of_nat (demo_size k replacements name) = n.
Proof.
  intros (Hn & h & sp & Hh & Hsp & _). unfold demo_size. rewrite Hh. cbn. rewrite Hsp. cbn.
  unfold in_range in Hn. lia.
Qed.

Lemma new_array_given {V} k replacements name ty n (zero : V) :
  given (λ h, k !! h) replacements name ty n →
  new_array_map (new_array (demo_size k replacements name) zero) n.
Proof.
  intros Hg. apply demo_size_given in Hg as Hn. destruct Hg as [Hr _]. rewrite <-Hn in Hr.
  destruct (new_array_fresh zero _ Hr) as [_ Hm]. rewrite <-Hn. split; [done|exact Hm].
Qed.

Lemma new_hash_given k replacements name ty n :
  given (λ h, k !! h) replacements name ty n →
  MaxEntries (new_hash (K:=Z) (V:=IpEntrypointPdrInfo) (demo_size k replacements name)) = n.
Proof. by intros Hn%demo_size_given. Qed.

#[export] Instance demo_lib_laws : EbpfLibLaws demo_kernel Z kmap.
Proof.
  split.
  - done.
  - intros k. split; [done|]. intros name ty Hin. exists (demo_spec ty). split; [|done].
    cbn in *. unfold table_types in Hin. rewrite !elem_of_cons in Hin.
    destruct_or! Hin; simplify_eq; try done. by destruct (not_elem_of_nil _ Hin).
  - intros sp k. cbn. split; [apply next_handle_fresh|]. split; [exact (dom_insert_L _ _ _)|].
    split; [exact (lookup_insert_eq _ _ _)|]. intros h' Hh'. apply lookup_insert_ne. intros <-.
    by apply next_handle_fresh in Hh'.
  - intros h k. exact (dom_delete_L _ _).
  - intros specs replacements path k. cbn. split; [done|]. unfold assigned. split_and!; intros n Hg.
    1-3: by eapply new_array_given.
    all: split; [by eapply demo_size_given|]; split; [done|].
    all: intros k'; by rewrite kmap_get, lookup_empty.
  - done.
Qed.
