(* ===== verification/Resize.v ===== *)
(** * Resizing the tables (cmd/ebpf/objects.go, ResizeEbpfMap and ResizeAllMaps)

    A table is resized by making a new, empty one and binding it to the
    program; nothing in the program calls it.  The state is the kernel and the
    objects' maps by name; a field is nil when it has no entry. *)

From S2P Require Import Prelude IdTracker Net KernelMap ForwardingPlane Dataplane Loader.

(** The further operations of cilium/ebpf, on open maps. *)
Class EbpfResize (K Hd : Type) := {
  HandleInfo : Hd → M K MapSpec;
  Unpin : Hd → M K unit;
  BindMap : Hd → M K unit                   (* to the program of the objects *)
}.

Section resize.
Context `{EbpfLib K Hd Mp} `{EbpfResize K Hd}.
Abbreviation Objects := (K * gmap string Hd)%type.

Definition in_kernel {A} : M K A → M Objects A := zoom fst (λ k o, (k, o.2)).

(** A nil map is dereferenced, hence [panic].  When the new map cannot be
    made, the field is nil: the assignment takes both results. *)
(* cmd/ebpf/objects.go:185-229 ResizeEbpfMap *)
Definition ResizeEbpfMap (eMap : string) (newSize : Z) : M Objects unit :=
  o ← gets (λ o, o);
  match o.2 !! eMap with
  | None => panic
  | Some old =>
      mapInfo ← in_kernel (HandleInfo old);
      let mapSpec := set_MaxEntries newSize mapInfo in
      in_kernel (Unpin old) ≫= λ _,
      in_kernel (CloseMap old) ≫= λ _,
      on_result (in_kernel (NewMap mapSpec))
        (λ new, modify (λ o, (o.1, <[eMap := new]> o.2)) ≫= λ _, in_kernel (BindMap new))
        (λ err, modify (λ o, (o.1, delete eMap o.2)) ≫= λ _, throw err)
  end.

(** The names and sizes, in the order of the calls. *)
Definition resized (qerMapSize farMapSize pdrMapSize urrMapSize : Z) : list (string * Z) :=
  [("qer_map", qerMapSize); ("far_map", farMapSize); ("pdr_map_downlink_ip4", pdrMapSize);
   ("pdr_map_downlink_ip6", pdrMapSize); ("pdr_map_teid_ip4", pdrMapSize);
   ("urr_map", urrMapSize)]%string.

(** The index pools are not touched. *)
(* cmd/ebpf/objects.go:231-265 ResizeAllMaps *)
Definition ResizeAllMaps (qerMapSize farMapSize pdrMapSize urrMapSize : Z) : M Objects unit :=
  for_each (resized qerMapSize farMapSize pdrMapSize urrMapSize) (λ r, ResizeEbpfMap r.1 r.2).

End resize.

(** [Info] gives the description of the map; [Unpin] and [BindMap] change
    neither the open maps nor their contents. *)
Class EbpfResizeLaws (K Hd : Type) (Mp : Type → Type → Type) `{EbpfLib K Hd Mp} `{EbpfResize K Hd} := {
  HandleInfo_spec h (k : K) : wp (HandleInfo h) k (λ _ k', k' = k) (λ _ k', k' = k);
  Unpin_spec h (k : K) : wp (Unpin h) k (λ _ k', open_maps k' = open_maps k)
    (λ _ k', open_maps k' = open_maps k);
  BindMap_spec h (k : K) :
    wp (BindMap h) k (λ _ k', open_maps k' = open_maps k ∧ unwritten k' h = unwritten k h) (λ _ _, True)
}.

Section resize_facts.
Context `{EbpfLibLaws K Hd Mp} `{!EbpfResize K Hd} `{!EbpfResizeLaws K Hd Mp}.

(** A resized table is a new one: it has the size asked for and nothing of
    the old table's contents, whose index pools and sessions stay. *)
Lemma ResizeEbpfMap_empties eMap n k maps h :
  maps !! eMap = Some h →
  wp (ResizeEbpfMap eMap n) (k, maps)
    (λ _ o, ∃ new sp, o.2 = <[eMap := new]> maps ∧ unwritten o.1 new = Some (set_MaxEntries n sp) ∧
       new ∈ open_maps o.1)
    (λ _ o, ∀ name, name ≠ eMap → o.2 !! name = maps !! name).
Proof.
  intros Hh. unfold ResizeEbpfMap, in_kernel. apply wp_bind, wp_gets. cbn. rewrite Hh.
  apply wp_bind, wp_zoom. wp_call HandleInfo_spec; [|done]. cbn. intros sp _ ->.
  apply wp_bind, wp_zoom. wp_call Unpin_spec; [|done]. cbn. intros _ k1 Hk1.
  apply wp_bind, wp_zoom. wp_call CloseMap_spec; [|done]. cbn. intros _ k2 Hk2.
  apply wp_on_result, wp_zoom. wp_call NewMap_spec; cbn.
  - intros new k3 (_ & Ho & Hnew & _). apply wp_bind, wp_modify, wp_zoom. cbn.
    wp_call BindMap_spec; cbn.
    + intros _ k4 [Ho4 Hu4]. exists new, sp. rewrite Hu4, Ho4, Ho. set_solver.
    + intros _ k4 _ name Hne. by apply lookup_insert_ne.
  - intros e k3 _. apply wp_bind, wp_modify, wp_throw. cbn. intros name Hne. by apply lookup_delete_ne.
Qed.

(** A field left nil makes the next call panic. *)
Lemma ResizeEbpfMap_nil eMap n k maps :
  maps !! eMap = None → (ResizeEbpfMap eMap n (k, maps)).2 = Panic.
Proof. intros Hnone. unfold ResizeEbpfMap, mbind, M_bind, gets. cbn. by rewrite Hnone. Qed.

End resize_facts.
