(* ===== verification/TablePlane.v ===== *)
(** * The tables themselves as a forwarding plane

    An implementation of [ForwardingPlaneController] whose state is the view
    of the contract: the smallest one that satisfies it.  Concrete runs of the
    handlers use it; [Dataplane] is the one the program uses. *)

From S2P Require Import Prelude Net ForwardingPlane Dataplane.

(** Room for this many rules of each kind. *)
Definition table_size : Z := 16.

Definition table_new {V} (get : FPView → gmap Z V)
    (on : (gmap Z V → gmap Z V) → FPView → FPView) (x : V) : M FPView Z :=
  v ← gets (λ v, v);
  match list_find (λ k, get v !! k = None) (seqZ 0 table_size) with
  | Some (_, id) => modify (on <[id:=x]>) ≫= λ _, mret id
  | None => throw (Errorf "pool is empty")
  end.

Definition table_update {K} `{Countable K} {V} (get : FPView → gmap K V)
    (on : (gmap K V → gmap K V) → FPView → FPView) (k : K) (x : V) : M FPView unit :=
  v ← gets (λ v, v);
  match get v !! k with
  | Some _ => modify (on (alter (λ _, x) k))
  | None => throw (Errorf "key does not exist")
  end.

Definition table_delete {K} `{Countable K} {V} (get : FPView → gmap K V)
    (on : (gmap K V → gmap K V) → FPView → FPView) (k : K) : M FPView V :=
  v ← gets (λ v, v);
  match get v !! k with
  | Some x => modify (on (delete k)) ≫= λ _, mret x
  | None => throw (Errorf "key does not exist")
  end.

Definition table_put {K} `{Countable K} (get : FPView → gmap K IpEntrypointPdrInfo)
    (on : (gmap K IpEntrypointPdrInfo → gmap K IpEntrypointPdrInfo) → FPView → FPView)
    (k : K) (p : PdrInfo) : M FPView unit :=
  modify (λ v, on <[k:=stored_pdr (get v !! k) p]> v).

Definition table_replace {K} `{Countable K} (get : FPView → gmap K IpEntrypointPdrInfo)
    (on : (gmap K IpEntrypointPdrInfo → gmap K IpEntrypointPdrInfo) → FPView → FPView)
    (k : K) (p : PdrInfo) : M FPView unit :=
  v ← gets (λ v, v);
  match get v !! k with
  | Some _ => table_put get on k p
  | None => throw (Errorf "key does not exist")
  end.

Definition void_of {S A} (m : M S A) : M S unit := m ≫= λ _, mret tt.

#[export] Instance table_controller : ForwardingPlaneController FPView := {|
  PutPdrUplink := table_put v_teid on_teid;
  PutPdrDownlink := table_put v_ip4 on_ip4;
  UpdatePdrUplink := table_replace v_teid on_teid;
  UpdatePdrDownlink := table_replace v_ip4 on_ip4;
  DeletePdrUplink k := void_of (table_delete v_teid on_teid k);
  DeletePdrDownlink k := void_of (table_delete v_ip4 on_ip4 k);
  PutDownlinkPdrIp6 := table_put v_ip6 on_ip6;
  UpdateDownlinkPdrIp6 := table_replace v_ip6 on_ip6;
  DeleteDownlinkPdrIp6 k := void_of (table_delete v_ip6 on_ip6 k);
  NewFar := table_new v_far on_far;
  UpdateFar := table_update v_far on_far;
  DeleteFar k := void_of (table_delete v_far on_far k);
  NewQer := table_new v_qer on_qer;
  UpdateQer := table_update v_qer on_qer;
  DeleteQer k := void_of (table_delete v_qer on_qer k);
  NewUrr := table_new v_urr on_urr;
  UpdateUrr := table_update v_urr on_urr;
  DeleteUrr := table_delete v_urr on_urr
|}.

(** ** The contract *)

Lemma table_new_ok {V} (get : FPView → gmap Z V) on : creates eq get on (table_new get on).
Proof.
  intros s v x ->. unfold table_new. wp_go.
  destruct (list_find _ _) as [[n id]|] eqn:Hf; wp_go; [|done].
  apply list_find_Some in Hf as (Hid & Hnone & _). apply list_elem_of_lookup_2 in Hid.
  apply elem_of_seqZ in Hid. unfold table_size, in_range in *. split; [lia|]. by split.
Qed.

Lemma table_update_ok {V} (get : FPView → gmap Z V) on : updates eq get on (table_update get on).
Proof.
  intros s v id x _ ->. unfold table_update. wp_go. destruct (get v !! id) eqn:Hk; by wp_go.
Qed.

Lemma table_deletes_ok {V} (get : FPView → gmap Z V) on :
  deletes eq get on (λ o u, ∀ x, o = Some x → u = x) (table_delete get on).
Proof.
  intros s v id _ ->. unfold table_delete. wp_go. destruct (get v !! id) eqn:Hk; wp_go; naive_solver.
Qed.

Lemma table_void_deletes_ok {V} (get : FPView → gmap Z V) on :
  deletes eq get on (λ _ _, True) (λ k, void_of (table_delete get on k)).
Proof.
  intros s v id Hid Hs. unfold void_of. wp_go. wp_call table_deletes_ok; [|done].
  intros a s' [_ ->]. by wp_go.
Qed.

Lemma table_put_ok {K} `{Countable K} (get : FPView → gmap K IpEntrypointPdrInfo) on :
  puts eq get on stored_pdr (table_put get on).
Proof. intros s v k p ->. unfold table_put. by wp_go. Qed.

Lemma table_replace_ok {K} `{Countable K} (get : FPView → gmap K IpEntrypointPdrInfo) on :
  replaces eq get on stored_pdr (table_replace get on).
Proof.
  intros s v k p ->. unfold table_replace. wp_go. destruct (get v !! k) eqn:Hk; wp_go; [|done].
  unfold table_put. wp_go. by rewrite Hk.
Qed.

Lemma table_removes_ok {K} `{Countable K} (get : FPView → gmap K IpEntrypointPdrInfo) on :
  removes eq get on (λ k, void_of (table_delete get on k)).
Proof.
  intros s v k ->. unfold void_of, table_delete. wp_go. by destruct (get v !! k) eqn:Hk; wp_go.
Qed.

#[export] Instance table_plane : ForwardingPlane FPView := {|
  fp_repr := eq;
  store_pdr := stored_pdr;
  NewFar_ok := table_new_ok v_far on_far;
  UpdateFar_ok := table_update_ok v_far on_far;
  DeleteFar_ok := table_void_deletes_ok v_far on_far;
  NewQer_ok := table_new_ok v_qer on_qer;
  UpdateQer_ok := table_update_ok v_qer on_qer;
  DeleteQer_ok := table_void_deletes_ok v_qer on_qer;
  NewUrr_ok := table_new_ok v_urr on_urr;
  UpdateUrr_ok := table_update_ok v_urr on_urr;
  DeleteUrr_ok := deletes_weaken _ _ _ _ _ _ (λ _ _ _, I) (table_deletes_ok v_urr on_urr);
  PutPdrUplink_ok := table_put_ok v_teid on_teid;
  PutPdrDownlink_ok := table_put_ok v_ip4 on_ip4;
  PutDownlinkPdrIp6_ok := table_put_ok v_ip6 on_ip6;
  UpdatePdrUplink_ok := table_replace_ok v_teid on_teid;
  UpdatePdrDownlink_ok := table_replace_ok v_ip4 on_ip4;
  UpdateDownlinkPdrIp6_ok := table_replace_ok v_ip6 on_ip6;
  DeletePdrUplink_ok := table_removes_ok v_teid on_teid;
  DeletePdrDownlink_ok := table_removes_ok v_ip4 on_ip4;
  DeleteDownlinkPdrIp6_ok := table_removes_ok v_ip6 on_ip6
|}.
