(* ===== verification/Resources.v ===== *)
(** * UE address and TEID pools (cmd/core/service/resource_manager.go)

    [ResourceManager] holds two pools: [IPAM] assigns UE addresses and [FTEIDM]
    tunnel endpoint identifiers.  Their methods lock a mutex, so each is one
    atomic step.  A nil Go map is [None]: it reads as empty and panics when it
    is written. *)

From S2P Require Import Prelude Net.

(* cmd/core/service/resource_manager.go:16-20 FTEIDM *)
Record FTEIDM := mkFTEIDM {
  freeTEIDs : list Z;
  busyTEIDs : option (gmap Z (gmap Z Z))     (* map[seID]map[pdrID]teid *)
}.

(* cmd/core/service/resource_manager.go:22-26 IPAM *)
Record IPAM := mkIPAM {
  freeIPs : list NetIP;
  busyIPs : option (gmap Z NetIP)
}.

(** The fields are pointers. *)
(* cmd/core/service/resource_manager.go:11-14 ResourceManager *)
Record ResourceManager := mkResourceManager {
  rm_IPAM : option IPAM;
  rm_FTEIDM : option FTEIDM
}.

Definition zeroIPAM : IPAM := mkIPAM [] None.
Definition zeroFTEIDM : FTEIDM := mkFTEIDM [] None.

(** [m[k] = v] *)
Definition map_write {K} `{Countable K} {V} (k : K) (v : V) (m : option (gmap K V))
    : outcome (option (gmap K V)) :=
  match m with Some m => Ok (Some (<[k:=v]> m)) | None => Panic end.

(* cmd/core/service/resource_manager.go:73-85 AllocateIP *)
Definition AllocateIP (key : Z) : M IPAM NetIP :=
  i ← gets (λ i, i);
  match freeIPs i with
  | ip :: rest =>
      busy ← lift (map_write key ip (busyIPs i));
      modify (λ _, mkIPAM rest busy) ≫= λ _, mret ip
  | [] => throw (Errorf "no free ip available")
  end.

(* cmd/core/service/resource_manager.go:87-105 AllocateTEID *)
Definition AllocateTEID (seID pdrID : Z) : M FTEIDM Z :=
  f ← gets (λ f, f);
  match freeTEIDs f with
  | teid :: rest =>
      busy ← lift match default ∅ (busyTEIDs f) !! seID with
                  | None => map_write seID {[pdrID := teid]} (busyTEIDs f)
                  | Some pdr => map_write seID (<[pdrID:=teid]> pdr) (busyTEIDs f)
                  end;
      modify (λ _, mkFTEIDM rest busy) ≫= λ _, mret teid
  | [] => throw (Errorf "no free TEID available")
  end.

(* cmd/core/service/resource_manager.go:107-114 ReleaseIP *)
Definition ReleaseIP (seID : Z) : M IPAM unit :=
  modify (λ i, match default ∅ (busyIPs i) !! seID with
               | Some ip => mkIPAM (freeIPs i ++ [ip]) (delete seID <$> busyIPs i)
               | None => i
               end).

(* cmd/core/service/resource_manager.go:116-126 ReleaseTEID *)
Definition ReleaseTEID `{MapOrder} (seID : Z) : M FTEIDM unit :=
  modify (λ f, match default ∅ (busyTEIDs f) !! seID with
               | Some teid => mkFTEIDM (freeTEIDs f ++ (range_map teid).*2)
                                (delete seID <$> busyTEIDs f)
               | None => f
               end).

(** ** NewResourceManager *)

Section new_resource_manager.
(** github.com/korylprince/ipnetgen: the addresses [Next] yields for a CIDR. *)
Variable ipnetgen_New : string → result (list NetIP).

(** [for teid = 1; teid <= teidRange; teid++ { append }] on uint32; [None] is
    a loop that is still running when the fuel is used up. *)
(* cmd/core/service/resource_manager.go:57-59 NewResourceManager *)
Fixpoint teid_loop (fuel : nat) (teid teidRange : Z) : option (list Z) :=
  match fuel with
  | O => None
  | S fuel' =>
      if teid <=? teidRange then cons teid <$> teid_loop fuel' (u32 (teid + 1)) teidRange
      else Some []
  end.

(* cmd/core/service/resource_manager.go:28-71 NewResourceManager *)
Definition NewResourceManager (fuel : nat) (ipRange : string) (teidRange : Z)
    : option (outcome ResourceManager) :=
  let ipam := if bool_decide (ipRange = "") then Ok zeroIPAM
              else ips ← of_result (ipnetgen_New ipRange);
                   (* skip first 0-IP *)
                   Ok (mkIPAM (drop 1 ips) (Some ∅)) in
  match ipam with
  | Err e => Some (Err e)
  | Panic => Some Panic
  | Ok ipam =>
      if teidRange =? 0 then Some (Ok (mkResourceManager (Some ipam) (Some zeroFTEIDM)))
      else teids ← teid_loop fuel 1 teidRange;
           Some (Ok (mkResourceManager (Some ipam) (Some (mkFTEIDM teids (Some ∅)))))
  end.

End new_resource_manager.

(** ** Runs of the pools *)

(** The addresses in use, and the TEIDs in use. *)
Definition ips_in_use (i : IPAM) : list NetIP := (map_to_list (default ∅ (busyIPs i))).*2.
Definition teids_of (m : gmap Z Z) : list Z := (map_to_list m).*2.
Definition teids_in_use (f : FTEIDM) : list Z :=
  concat (teids_of <$> (map_to_list (default ∅ (busyTEIDs f))).*2).

(** The states of a pool that starts with [ips] free; [ipam_step] is any call. *)
Inductive ipam_step : IPAM → IPAM → Prop :=
  | ipam_alloc key i i' r : AllocateIP key i = (i', r) → ipam_step i i'
  | ipam_release key i i' r : ReleaseIP key i = (i', r) → ipam_step i i'.

Definition ipam_reach (ips : list NetIP) : IPAM → Prop :=
  rtc ipam_step (mkIPAM ips (Some ∅)).

Inductive fteidm_step `{MapOrder} : FTEIDM → FTEIDM → Prop :=
  | fteidm_alloc seID pdrID f f' r : AllocateTEID seID pdrID f = (f', r) → fteidm_step f f'
  | fteidm_release seID f f' r : ReleaseTEID seID f = (f', r) → fteidm_step f f'.

Definition fteidm_reach `{MapOrder} (teids : list Z) : FTEIDM → Prop :=
  rtc fteidm_step (mkFTEIDM teids (Some ∅)).

(** ** Lemmas: the values of a map *)

Section flat.
Context {K : Type} `{Countable K} {V T : Type} (g : V → list T).
Implicit Types m : gmap K V.

Definition flat m : list T := concat (g <$> (map_to_list m).*2).

Lemma flat_lookup m k x : m !! k = Some x → flat m ≡ₚ g x ++ flat (delete k m).
Proof. intros Hk. unfold flat. by rewrite <-(map_to_list_delete m k x Hk). Qed.

Lemma flat_insert m k x : flat (<[k:=x]> m) ≡ₚ g x ++ flat (delete k m).
Proof.
  rewrite (flat_lookup _ k x) by apply lookup_insert_eq. by rewrite delete_insert_eq.
Qed.

Lemma flat_absent m k : m !! k = None → flat (delete k m) = flat m.
Proof. intros Hk. by rewrite delete_id. Qed.

Lemma elem_of_flat m y : y ∈ flat m ↔ ∃ k x, m !! k = Some x ∧ y ∈ g x.
Proof.
  unfold flat. rewrite list_elem_of_In, in_concat. setoid_rewrite <-list_elem_of_In.
  setoid_rewrite list_elem_of_fmap. setoid_rewrite list_elem_of_fmap. split.
  - intros (l & (x & -> & [k x'] & -> & Hk%elem_of_map_to_list) & Hy). eauto.
  - intros (k & x & Hk & Hy). exists (g x). split; [|done]. exists x. split; [done|].
    exists (k, x). split; [done|]. by apply elem_of_map_to_list.
Qed.

End flat.

Lemma vals_flat {K} `{Countable K} {V} (m : gmap K V) : (map_to_list m).*2 = flat (λ x, [x]) m.
Proof. unfold flat. induction (map_to_list m) as [|[k x] l IH]; cbn; [done|]. by f_equal. Qed.

(** ** The address pool *)

Section ipam.
Implicit Types i : IPAM.

Definition ipam_total i : list NetIP := freeIPs i ++ ips_in_use i.

Lemma AllocateIP_spec i key m :
  busyIPs i = Some m →
  wp (AllocateIP key) i
    (λ ip i', ∃ rest, freeIPs i = ip :: rest ∧ i' = mkIPAM rest (Some (<[key:=ip]> m)) ∧
       ipam_total i ≡ₚ option_list (m !! key) ++ ipam_total i')
    (λ e i', e = Errorf "no free ip available" ∧ freeIPs i = [] ∧ i' = i).
Proof.
  intros Hm. unfold AllocateIP. wp_go. destruct (freeIPs i) as [|ip rest] eqn:Hfree; wp_go; [done|].
  rewrite Hm. apply wp_ret. wp_go. exists rest. split; [done|]. split; [done|].
  unfold ipam_total, ips_in_use. rewrite Hfree, Hm. cbn -[flat]. rewrite !vals_flat, flat_insert.
  destruct (m !! key) as [old|] eqn:Hk; cbn -[flat].
  - rewrite (flat_lookup _ m key old Hk). cbn -[flat]. solve_Permutation.
  - rewrite flat_absent by done. solve_Permutation.
Qed.

Lemma ReleaseIP_spec i key m :
  busyIPs i = Some m →
  wp (ReleaseIP key) i
    (λ _ i', i' = mkIPAM (freeIPs i ++ option_list (m !! key)) (Some (delete key m)) ∧
       ipam_total i' ≡ₚ ipam_total i)
    (λ _ _, False).
Proof.
  intros Hm. unfold ReleaseIP. wp_go. rewrite Hm. cbn -[flat].
  unfold ipam_total, ips_in_use. rewrite Hm. destruct (m !! key) as [ip|] eqn:Hk; cbn -[flat].
  - split; [done|]. rewrite !vals_flat, (flat_lookup _ m key ip Hk). cbn -[flat]. solve_Permutation.
  - rewrite Hm, app_nil_r, delete_id by done. destruct i; naive_solver.
Qed.

Lemma ipam_step_total i i' m :
  busyIPs i = Some m → ipam_step i i' → is_Some (busyIPs i') ∧ ipam_total i' ⊆+ ipam_total i.
Proof.
  intros Hm Hstep. destruct Hstep as [key i i' r Hop|key i i' r Hop].
  - pose proof (AllocateIP_spec i key m Hm) as Hspec. unfold wp in Hspec. rewrite Hop in Hspec.
    destruct r; [|naive_solver|done]. destruct Hspec as (rest & _ & -> & Hperm).
    split; [by eexists|]. rewrite Hperm. by apply submseteq_inserts_l.
  - pose proof (ReleaseIP_spec i key m Hm) as Hspec. unfold wp in Hspec. rewrite Hop in Hspec.
    destruct r; [|done..]. destruct Hspec as [-> Hperm]. split; [by eexists|]. by rewrite Hperm.
Qed.

Lemma ipam_steps_total i i' :
  rtc ipam_step i i' → is_Some (busyIPs i) →
  is_Some (busyIPs i') ∧ ipam_total i' ⊆+ ipam_total i.
Proof.
  induction 1 as [i|i i1 i2 Hstep _ IH]; intros [m Hm]; [done|].
  destruct (ipam_step_total _ _ _ Hm Hstep) as [Hsome Hsub]. destruct (IH Hsome) as [? Hsub'].
  split; [done|]. by etrans.
Qed.

Lemma ipam_reach_total ips i :
  ipam_reach ips i → ∃ m, busyIPs i = Some m ∧ ipam_total i ⊆+ ips.
Proof.
  intros [[m Hm] Hsub]%ipam_steps_total; [|by eexists]. exists m. split; [done|].
  etrans; [done|]. unfold ipam_total. cbn. by rewrite app_nil_r.
Qed.

Lemma ips_in_use_elem i m ip :
  busyIPs i = Some m → ip ∈ ips_in_use i ↔ ∃ k, m !! k = Some ip.
Proof.
  intros Hm. unfold ips_in_use. rewrite Hm, vals_flat, elem_of_flat. set_solver.
Qed.

Lemma NoDup_vals_inj {K} `{Countable K} {V} (m : gmap K V) k1 k2 x :
  NoDup (map_to_list m).*2 → m !! k1 = Some x → m !! k2 = Some x → k1 = k2.
Proof.
  intros Hnd Hk1 Hk2. destruct (decide (k1 = k2)) as [|Hne]; [done|]. exfalso.
  rewrite vals_flat, (flat_lookup _ m k1 x Hk1) in Hnd. apply NoDup_cons in Hnd as [Hnin _].
  apply Hnin, elem_of_flat. exists k2, x. rewrite lookup_delete_ne by done. set_solver.
Qed.

(** C32: UE addresses are exclusive.  After any calls of [AllocateIP] and
    [ReleaseIP] on a pool of distinct addresses, no two keys hold the same
    address; [AllocateIP] never panics, gives its key an address of the pool
    that nobody holds, leaves all other keys alone, and fails only when no
    address is free, changing nothing. *)
Theorem AllocateIP_exclusive ips i key :
  NoDup ips → ipam_reach ips i →
  (∀ m k1 k2 ip, busyIPs i = Some m → m !! k1 = Some ip → m !! k2 = Some ip → k1 = k2) ∧
  wp (AllocateIP key) i
    (λ ip i', ip ∈ ips ∧ ip ∉ ips_in_use i ∧
       ∃ m, busyIPs i = Some m ∧ busyIPs i' = Some (<[key:=ip]> m))
    (λ _ i', freeIPs i = [] ∧ i' = i).
Proof.
  intros Hips Hreach. destruct (ipam_reach_total _ _ Hreach) as (m & Hm & Hsub).
  assert (NoDup (ipam_total i)) as Hnd by by eapply submseteq_NoDup.
  unfold ipam_total in Hnd. apply NoDup_app in Hnd as (_ & Hdisj & Hnd). split.
  - intros m' k1 k2 ip Hm'. assert (m' = m) as -> by congruence.
    apply NoDup_vals_inj. unfold ips_in_use in Hnd. by rewrite Hm in Hnd.
  - wp_call (AllocateIP_spec _ _ m); [|naive_solver].
    intros ip i' (rest & Hfree & -> & _). rewrite Hfree in *.
    split; [|split; [apply Hdisj; set_solver|by exists m]].
    eapply elem_of_submseteq; [|done]. unfold ipam_total. rewrite Hfree. set_solver.
Qed.

(** A released address is free again and nothing else changes hands: the
    key holds nothing, the other keys keep what they held, and free and used
    addresses together are the same as before. *)
Theorem ReleaseIP_returns ips i key :
  ipam_reach ips i →
  wp (ReleaseIP key) i
    (λ _ i', ∃ m, busyIPs i = Some m ∧ busyIPs i' = Some (delete key m) ∧
       freeIPs i' = freeIPs i ++ option_list (m !! key) ∧
       freeIPs i' ++ ips_in_use i' ≡ₚ freeIPs i ++ ips_in_use i)
    (λ _ _, False).
Proof.
  intros (m & Hm & _)%ipam_reach_total. wp_call (ReleaseIP_spec _ _ m); [|done].
  intros _ i' [-> Hperm]. exists m. done.
Qed.

(** An address is lost when its holder allocates again.  [AllocateIP] does
    not look whether the key already holds an address; the entry is
    overwritten, and the address it held is neither free nor in use in any
    later state of the pool. *)
Theorem AllocateIP_again_loses_address ips i key old :
  NoDup ips → ipam_reach ips i → default ∅ (busyIPs i) !! key = Some old →
  wp (AllocateIP key) i
    (λ ip i', ∀ i'', rtc ipam_step i' i'' → old ∉ freeIPs i'' ++ ips_in_use i'')
    (λ _ i', i' = i).
Proof.
  intros Hips Hreach Hold. destruct (ipam_reach_total _ _ Hreach) as (m & Hm & Hsub).
  rewrite Hm in Hold. wp_call (AllocateIP_spec _ _ m); [|naive_solver].
  intros ip i' (rest & Hfree & Hi' & Hperm) i'' Hsteps Hin.
  assert (NoDup (ipam_total i)) as Hnd by by eapply submseteq_NoDup.
  cbn in Hold. rewrite Hperm, Hold in Hnd. apply NoDup_cons in Hnd as [Hnin _]. apply Hnin.
  apply ipam_steps_total in Hsteps as [_ Hsub']; [|by subst]. by eapply elem_of_submseteq.
Qed.

End ipam.

(** ** The TEID pool *)

Section fteidm.
Context `{MapOrder}.
Implicit Types f : FTEIDM.

Definition fteidm_total f : list Z := freeTEIDs f ++ teids_in_use f.

(** The TEID [pdrID] of session [seID] holds. *)
Definition teid_held f (seID pdrID : Z) : option Z :=
  default ∅ (busyTEIDs f) !! seID ≫= λ pdrs, pdrs !! pdrID.

Definition session_teids f (seID : Z) : list Z :=
  default [] (teids_of <$> default ∅ (busyTEIDs f) !! seID).

Lemma teids_of_insert m k x : teids_of (<[k:=x]> m) ≡ₚ x :: teids_of (delete k m).
Proof. unfold teids_of. by rewrite !vals_flat, flat_insert. Qed.

Lemma teids_of_lookup m k x : m !! k = Some x → teids_of m ≡ₚ x :: teids_of (delete k m).
Proof. intros Hk. unfold teids_of. by rewrite !vals_flat, (flat_lookup _ m k x Hk). Qed.

Lemma AllocateTEID_spec f seID pdrID m :
  busyTEIDs f = Some m →
  wp (AllocateTEID seID pdrID) f
    (λ teid f', ∃ rest, freeTEIDs f = teid :: rest ∧
       f' = mkFTEIDM rest (Some (<[seID := <[pdrID:=teid]> (default ∅ (m !! seID))]> m)) ∧
       fteidm_total f ≡ₚ option_list (teid_held f seID pdrID) ++ fteidm_total f')
    (λ e f', e = Errorf "no free TEID available" ∧ freeTEIDs f = [] ∧ f' = f).
Proof.
  intros Hm. unfold AllocateTEID. wp_go.
  destruct (freeTEIDs f) as [|teid rest] eqn:Hfree; wp_go; [done|].
  rewrite Hm. cbn [default from_option id]. unfold fteidm_total, teid_held, teids_in_use.
  rewrite Hfree, Hm. cbn [default from_option id].
  change (concat (teids_of <$> (map_to_list ?x).*2)) with (flat teids_of x).
  destruct (m !! seID) as [pdrs|] eqn:Hs; cbn [map_write]; apply wp_ret; wp_go;
    (exists rest; split; [done|]; split; [done|]); cbn -[flat];
    change (concat (teids_of <$> (map_to_list ?x).*2)) with (flat teids_of x);
    rewrite flat_insert.
  - rewrite (flat_lookup _ m seID pdrs Hs), teids_of_insert.
    destruct (pdrs !! pdrID) as [old|] eqn:Hp; cbn -[flat].
    + rewrite (teids_of_lookup pdrs pdrID old Hp). cbn -[flat]. solve_Permutation.
    + rewrite (delete_id pdrs) by done. solve_Permutation.
  - rewrite flat_absent by done. unfold teids_of. rewrite map_to_list_singleton.
    cbn -[flat]. solve_Permutation.
Qed.

Lemma ReleaseTEID_spec f seID m :
  busyTEIDs f = Some m →
  wp (ReleaseTEID seID) f
    (λ _ f', busyTEIDs f' = Some (delete seID m) ∧
       freeTEIDs f' ≡ₚ freeTEIDs f ++ session_teids f seID ∧
       fteidm_total f' ≡ₚ fteidm_total f)
    (λ _ _, False).
Proof.
  intros Hm. unfold ReleaseTEID, session_teids. wp_go. rewrite Hm. cbn [default from_option id].
  unfold fteidm_total, teids_in_use. rewrite Hm. cbn [default from_option id].
  destruct (m !! seID) as [pdrs|] eqn:Hs; cbn -[flat range_map].
  - rewrite range_map_perm. split; [done|]. split; [done|].
    change (concat (teids_of <$> (map_to_list ?x).*2)) with (flat teids_of x).
    rewrite (flat_lookup _ m seID pdrs Hs). unfold teids_of. by rewrite (assoc_L (++)).
  - rewrite Hm, app_nil_r, delete_id by done. done.
Qed.

Lemma fteidm_step_total f f' m :
  busyTEIDs f = Some m → fteidm_step f f' →
  is_Some (busyTEIDs f') ∧ fteidm_total f' ⊆+ fteidm_total f.
Proof.
  intros Hm Hstep. destruct Hstep as [seID pdrID f f' r Hop|seID f f' r Hop].
  - pose proof (AllocateTEID_spec f seID pdrID m Hm) as Hspec. unfold wp in Hspec.
    rewrite Hop in Hspec. destruct r; [|naive_solver|done].
    destruct Hspec as (rest & _ & -> & Hperm). split; [by eexists|].
    rewrite Hperm. by apply submseteq_inserts_l.
  - pose proof (ReleaseTEID_spec f seID m Hm) as Hspec. unfold wp in Hspec.
    rewrite Hop in Hspec. destruct r; [|done..]. destruct Hspec as (Hb & _ & Hperm).
    split; [by eexists|]. by rewrite Hperm.
Qed.

Lemma fteidm_reach_total teids f :
  fteidm_reach teids f → ∃ m, busyTEIDs f = Some m ∧ fteidm_total f ⊆+ teids.
Proof.
  unfold fteidm_reach. intros Hsteps.
  cut (∀ f0, rtc fteidm_step f0 f → is_Some (busyTEIDs f0) →
       is_Some (busyTEIDs f) ∧ fteidm_total f ⊆+ fteidm_total f0).
  { intros Hcut. destruct (Hcut _ Hsteps) as [[m Hm] Hsub]; [by eexists|]. exists m.
    split; [done|]. etrans; [done|]. unfold fteidm_total. cbn. by rewrite app_nil_r. }
  clear. induction 1 as [f|f f1 f2 Hstep _ IH]; intros [m Hm]; [done|].
  destruct (fteidm_step_total _ _ _ Hm Hstep) as [Hsome Hsub].
  destruct (IH Hsome) as [? Hsub']. split; [done|]. by etrans.
Qed.

Lemma teid_held_in_use f m seID pdrID teid :
  busyTEIDs f = Some m → teid_held f seID pdrID = Some teid →
  ∃ pdrs, m !! seID = Some pdrs ∧ pdrs !! pdrID = Some teid.
Proof.
  intros Hm. unfold teid_held. rewrite Hm. cbn. destruct (m !! seID); [|done]. cbn. eauto.
Qed.

Lemma NoDup_flat_inj (m : gmap Z (gmap Z Z)) s1 s2 p1 p2 d1 d2 x :
  NoDup (flat teids_of m) → m !! s1 = Some d1 → d1 !! p1 = Some x →
  m !! s2 = Some d2 → d2 !! p2 = Some x → s1 = s2 ∧ p1 = p2.
Proof.
  intros Hnd Hs1 Hp1 Hs2 Hp2.
  assert (Hin : ∀ p d, d !! p = Some x → x ∈ teids_of d).
  { intros p d Hp. unfold teids_of. rewrite vals_flat, elem_of_flat. set_solver. }
  rewrite (flat_lookup _ m s1 d1 Hs1) in Hnd. apply NoDup_app in Hnd as (Hnd1 & Hdisj & _).
  destruct (decide (s1 = s2)) as [->|Hne].
  - split; [done|]. assert (d2 = d1) as -> by congruence. by eapply NoDup_vals_inj.
  - exfalso. apply (Hdisj x); [by eapply Hin|]. apply elem_of_flat. exists s2, d2.
    rewrite lookup_delete_ne by done. split; [done|]. by eapply Hin.
Qed.

(** C33: TEIDs are exclusive.  On a pool of [n] TEIDs, after any calls of
    [AllocateTEID] and [ReleaseTEID] and for every map iteration order, no two
    PDRs (of the same or of different sessions) hold the same TEID;
    [AllocateTEID] never panics, returns a TEID between 1 and [n] that nobody
    holds and records it, and fails only when none is free, changing nothing. *)
Theorem AllocateTEID_exclusive n f seID pdrID :
  fteidm_reach (seqZ 1 n) f →
  (∀ s1 p1 s2 p2 teid, teid_held f s1 p1 = Some teid → teid_held f s2 p2 = Some teid →
     s1 = s2 ∧ p1 = p2) ∧
  wp (AllocateTEID seID pdrID) f
    (λ teid f', 1 ≤ teid ≤ n ∧ (∀ s p, teid_held f s p ≠ Some teid) ∧
       ∀ s p, teid_held f' s p = if decide (s = seID ∧ p = pdrID) then Some teid
                                 else teid_held f s p)
    (λ _ f', freeTEIDs f = [] ∧ f' = f).
Proof.
  intros Hreach. destruct (fteidm_reach_total _ _ Hreach) as (m & Hm & Hsub).
  assert (NoDup (fteidm_total f)) as Hnd.
  { eapply submseteq_NoDup; [done|]. apply NoDup_seqZ. }
  unfold fteidm_total, teids_in_use in Hnd. rewrite Hm in Hnd. cbn [default from_option id] in Hnd.
  change (concat (teids_of <$> (map_to_list ?x).*2)) with (flat teids_of x) in Hnd.
  apply NoDup_app in Hnd as (_ & Hdisj & Hnd). split.
  - intros s1 p1 s2 p2 teid H1 H2.
    destruct (teid_held_in_use _ _ _ _ _ Hm H1) as (d1 & ? & ?).
    destruct (teid_held_in_use _ _ _ _ _ Hm H2) as (d2 & ? & ?). by eapply NoDup_flat_inj.
  - wp_call (AllocateTEID_spec _ _ _ m); [|naive_solver].
    intros teid f' (rest & Hfree & -> & _).
    assert (teid ∈ freeTEIDs f) as Hin by (rewrite Hfree; set_solver).
    split; [|split].
    + eapply elem_of_submseteq in Hsub; [|unfold fteidm_total; apply elem_of_app; by left].
      apply elem_of_seqZ in Hsub. lia.
    + intros s p Hheld. destruct (teid_held_in_use _ _ _ _ _ Hm Hheld) as (d & Hs & Hp).
      apply (Hdisj teid Hin), elem_of_flat. exists s, d. split; [done|].
      unfold teids_of. rewrite vals_flat, elem_of_flat. set_solver.
    + intros s p. unfold teid_held. rewrite Hm. cbn -[decide]. rewrite lookup_insert.
      destruct (decide (seID = s)) as [<-|Hne]; cbn -[decide].
      * rewrite lookup_insert. repeat case_decide; try naive_solver.
        by destruct (m !! seID).
      * by rewrite decide_False by naive_solver.
Qed.

(** Releasing a session returns exactly its TEIDs.  The session holds
    nothing afterwards, every other session keeps its TEIDs, the free list
    grows by the session's TEIDs (in the order the map happens to be ranged),
    and free and used TEIDs together are the same as before. *)
Theorem ReleaseTEID_returns n f seID :
  fteidm_reach (seqZ 1 n) f →
  wp (ReleaseTEID seID) f
    (λ _ f', (∀ p, teid_held f' seID p = None) ∧
       (∀ s p, s ≠ seID → teid_held f' s p = teid_held f s p) ∧
       freeTEIDs f' ≡ₚ freeTEIDs f ++ session_teids f seID ∧
       freeTEIDs f' ++ teids_in_use f' ≡ₚ freeTEIDs f ++ teids_in_use f)
    (λ _ _, False).
Proof.
  intros (m & Hm & _)%fteidm_reach_total. wp_call (ReleaseTEID_spec _ _ m); [|done].
  intros _ f' (Hb & Hfree & Htotal). unfold teid_held. rewrite Hb, Hm. cbn.
  split; [|split; [|done]].
  - intros p. by rewrite lookup_delete_eq.
  - intros s p Hs. by rewrite lookup_delete_ne.
Qed.

End fteidm.

(** ** Initialisation *)

Section initialisation.
Context (ipnetgen_New : string → result (list NetIP)).

Lemma teid_loop_runs k teid range :
  0 ≤ teid → range < 2 ^ 32 - 1 → Z.of_nat k = Z.max 0 (range + 1 - teid) →
  teid_loop (S k) teid range = Some (seqZ teid (range + 1 - teid)).
Proof.
  revert teid. induction k as [|k IH]; intros teid Hteid Hrange Hk; cbn -[seqZ].
  - rewrite (proj2 (Z.leb_gt teid range)) by lia. by rewrite seqZ_nil by lia.
  - rewrite (proj2 (Z.leb_le teid range)) by lia.
    rewrite u32_small by (unfold in_range; lia). cbn -[seqZ] in IH. rewrite IH by lia.
    cbn -[seqZ]. rewrite (seqZ_cons teid) by lia. do 3 f_equal; lia.
Qed.

Lemma teid_loop_diverges fuel teid : in_range 32 teid → teid_loop fuel teid (2 ^ 32 - 1) = None.
Proof.
  revert teid. induction fuel as [|fuel IH]; intros teid Hteid; cbn -[Z.pow]; [done|].
  rewrite (proj2 (Z.leb_le teid _)) by (unfold in_range in Hteid; lia).
  by rewrite IH by apply u32_range.
Qed.

(** C35: start-up terminates with the configured pools.  For a TEID pool of
    [n] < 2^32-1 the loop of [NewResourceManager] ends after [n] rounds and the
    manager has exactly the TEIDs 1..n free (none for n = 0) and the addresses
    the CIDR generates after the first one (none without a CIDR); an error of
    the CIDR parser is returned. *)
Theorem NewResourceManager_pools cidr n :
  0 ≤ n < 2 ^ 32 - 1 →
  NewResourceManager ipnetgen_New (S (Z.to_nat n)) cidr n =
  Some (ips ← (if bool_decide (cidr = "") then Ok [] else of_result (ipnetgen_New cidr));
        Ok (mkResourceManager
              (Some (mkIPAM (drop 1 ips) (if bool_decide (cidr = "") then None else Some ∅)))
              (Some (mkFTEIDM (seqZ 1 n) (if n =? 0 then None else Some ∅))))).
Proof.
  intros Hn. unfold NewResourceManager.
  assert (Hloop : teid_loop (S (Z.to_nat n)) 1 n = Some (seqZ 1 n)).
  { rewrite teid_loop_runs by lia. do 2 f_equal. lia. }
  case_bool_decide; [|destruct (ipnetgen_New cidr); [done|]];
    cbn -[seqZ teid_loop]; destruct (Z.eqb_spec n 0) as [->|]; try done; by rewrite Hloop.
Qed.

(** A TEID pool of 2^32-1 hangs start-up.  The configuration accepts any
    uint32 for teid_pool; with the largest one, [teid <= teidRange] holds for
    every uint32 and the loop never ends, whatever the CIDR. *)
Theorem NewResourceManager_hangs cidr fuel ips :
  ipnetgen_New cidr = inr ips → NewResourceManager ipnetgen_New fuel cidr (2 ^ 32 - 1) = None.
Proof.
  intros Hgen. unfold NewResourceManager. rewrite Hgen.
  case_bool_decide; cbn -[teid_loop Z.pow];
    by rewrite teid_loop_diverges by (unfold in_range; lia).
Qed.

End initialisation.

(** ** Witnesses *)

Definition demo_ips : list NetIP := (λ z, Some [10; 60; 0; z]) <$> [0; 1; 2; 3].
Definition demo_ipnetgen (cidr : string) : result (list NetIP) :=
  if bool_decide (cidr = "10.60.0.0/30") then inr demo_ips else inl (Errorf "invalid CIDR").

(** Sessions 7 and 8 hold an address, session 7 gave its first one back. *)
Definition demo_ipam : IPAM :=
  ((AllocateIP 7 ≫= λ _, AllocateIP 8 ≫= λ _, ReleaseIP 7 ≫= λ _, AllocateIP 7)
   (mkIPAM demo_ips (Some ∅))).1.

Lemma demo_ipam_reach : ipam_reach demo_ips demo_ipam.
Proof.
  eapply rtc_l; [by eapply (ipam_alloc 7)|]. eapply rtc_l; [by eapply (ipam_alloc 8)|].
  eapply rtc_l; [by eapply (ipam_release 7)|]. eapply rtc_l; [by eapply (ipam_alloc 7)|].
  vm_compute. apply rtc_refl.
Defined.

Lemma demo_ips_NoDup : NoDup demo_ips.
Proof. apply (bool_decide_unpack _). vm_compute. exact I. Qed.

Lemma AllocateIP_exclusive_witness :
  (AllocateIP 9 demo_ipam).2 = Ok (Some [10; 60; 0; 3]) ∧
  wp (AllocateIP 9) demo_ipam
    (λ ip i', ip ∈ demo_ips ∧ ip ∉ ips_in_use demo_ipam ∧
       ∃ m, busyIPs demo_ipam = Some m ∧ busyIPs i' = Some (<[9:=ip]> m))
    (λ _ i', freeIPs demo_ipam = [] ∧ i' = demo_ipam).
Proof.
  split; [vm_compute; reflexivity|].
  apply (AllocateIP_exclusive demo_ips demo_ipam 9 demo_ips_NoDup demo_ipam_reach).
Defined.

Lemma ReleaseIP_returns_witness :
  freeIPs (ReleaseIP 8 demo_ipam).1 = (λ z, Some [10; 60; 0; z]) <$> [3; 0; 1] ∧
  wp (ReleaseIP 8) demo_ipam
    (λ _ i', ∃ m, busyIPs demo_ipam = Some m ∧ busyIPs i' = Some (delete 8 m) ∧
       freeIPs i' = freeIPs demo_ipam ++ option_list (m !! 8) ∧
       freeIPs i' ++ ips_in_use i' ≡ₚ freeIPs demo_ipam ++ ips_in_use demo_ipam)
    (λ _ _, False).
Proof.
  split; [vm_compute; reflexivity|]. apply (ReleaseIP_returns demo_ips _ 8 demo_ipam_reach).
Defined.

Lemma AllocateIP_again_loses_address_witness :
  wp (AllocateIP 8) demo_ipam
    (λ ip i', ∀ i'', rtc ipam_step i' i'' → Some [10; 60; 0; 1] ∉ freeIPs i'' ++ ips_in_use i'')
    (λ _ i', i' = demo_ipam).
Proof.
  apply (AllocateIP_again_loses_address demo_ips demo_ipam 8 _ demo_ips_NoDup demo_ipam_reach).
  vm_compute. reflexivity.
Defined.

(** PDRs 1 and 2 of session 5 and PDR 1 of session 6 hold TEIDs. *)
Definition demo_fteidm : FTEIDM :=
  ((AllocateTEID 5 1 ≫= λ _, AllocateTEID 5 2 ≫= λ _, AllocateTEID 6 1)
   (mkFTEIDM (seqZ 1 8) (Some ∅))).1.

Lemma demo_fteidm_reach `{MapOrder} : fteidm_reach (seqZ 1 8) demo_fteidm.
Proof.
  eapply rtc_l; [by eapply (fteidm_alloc 5 1)|]. eapply rtc_l; [by eapply (fteidm_alloc 5 2)|].
  eapply rtc_l; [by eapply (fteidm_alloc 6 1)|]. vm_compute. apply rtc_refl.
Defined.

Lemma AllocateTEID_exclusive_witness :
  (AllocateTEID 5 3 demo_fteidm).2 = Ok 4 ∧
  wp (AllocateTEID 5 3) demo_fteidm
    (λ teid f', 1 ≤ teid ≤ 8 ∧ (∀ s p, teid_held demo_fteidm s p ≠ Some teid) ∧
       ∀ s p, teid_held f' s p = if decide (s = 5 ∧ p = 3) then Some teid
                                 else teid_held demo_fteidm s p)
    (λ _ f', freeTEIDs demo_fteidm = [] ∧ f' = demo_fteidm).
Proof.
  split; [vm_compute; reflexivity|].
  apply (AllocateTEID_exclusive (H := descending_order) 8 demo_fteidm 5 3),
    (demo_fteidm_reach (H := descending_order)).
Defined.

Lemma ReleaseTEID_returns_witness :
  (let free := freeTEIDs (ReleaseTEID (H := descending_order) 5 demo_fteidm).1 in
   length free = 7%nat ∧ 1 ∈ free ∧ 2 ∈ free) ∧
  wp (ReleaseTEID (H := descending_order) 5) demo_fteidm
    (λ _ f', (∀ p, teid_held f' 5 p = None) ∧
       (∀ s p, s ≠ 5 → teid_held f' s p = teid_held demo_fteidm s p) ∧
       freeTEIDs f' ≡ₚ freeTEIDs demo_fteidm ++ session_teids demo_fteidm 5 ∧
       freeTEIDs f' ++ teids_in_use f' ≡ₚ freeTEIDs demo_fteidm ++ teids_in_use demo_fteidm)
    (λ _ _, False).
Proof.
  split.
  - cbv zeta. split; [vm_compute; reflexivity|].
    split; apply (bool_decide_unpack _); vm_compute; exact I.
  - apply (ReleaseTEID_returns (H := descending_order) 8), demo_fteidm_reach.
Defined.

Lemma NewResourceManager_pools_witness :
  NewResourceManager demo_ipnetgen 4 "10.60.0.0/30" 3 =
  Some (ips ← Ok demo_ips;
        Ok (mkResourceManager (Some (mkIPAM (drop 1 ips) (Some ∅)))
              (Some (mkFTEIDM (seqZ 1 3) (Some ∅))))).
Proof. apply (NewResourceManager_pools demo_ipnetgen "10.60.0.0/30" 3). lia. Defined.

Lemma NewResourceManager_hangs_witness :
  NewResourceManager demo_ipnetgen 100 "10.60.0.0/30" (2 ^ 32 - 1) = None.
Proof. apply (NewResourceManager_hangs demo_ipnetgen _ 100 demo_ips). reflexivity. Defined.
