(* ===== verification/Session.v ===== *)
(** * A PFCP session (cmd/core/session.go)

    The rules of a session under the identifiers the control plane chose, each
    with the global identifier of its entry in the forwarding plane.  A lookup
    of a missing key yields the zero value, whose global identifier is 0. *)

From S2P Require Import Prelude Net ForwardingPlane.

(* cmd/core/session.go:29-36 SPDRInfo *)
Record SPDRInfo := mkSPDRInfo {
  s_PdrID : Z;
  s_PdrInfo : PdrInfo;
  s_Teid : Z;
  s_Ipv4 : NetIP;
  s_Ipv6 : NetIP;
  s_Allocated : bool
}.

(* cmd/core/session.go:38-41 SFarInfo *)
Record SFarInfo := mkSFarInfo { sf_FarInfo : FarInfo; sf_GlobalId : Z }.

(* cmd/core/session.go:43-46 SQerInfo *)
Record SQerInfo := mkSQerInfo { sq_QerInfo : QerInfo; sq_GlobalId : Z }.

(* cmd/core/session.go:48-52 SUrrInfo *)
Record SUrrInfo := mkSUrrInfo {
  su_UrrInfo : UrrInfo;
  su_GlobalId : Z;
  su_ReportSeqNumber : Z
}.

Definition zeroSPDRInfo : SPDRInfo := mkSPDRInfo 0 zeroPdrInfo 0 None None false.
Definition zeroSFarInfo : SFarInfo := mkSFarInfo zeroFarInfo 0.
Definition zeroSQerInfo : SQerInfo := mkSQerInfo zeroQerInfo 0.
Definition zeroSUrrInfo : SUrrInfo := mkSUrrInfo zeroUrrInfo 0 0.

(* cmd/core/session.go:9-16 Session *)
Record Session := mkSession {
  LocalSEID : Z;
  RemoteSEID : Z;
  PDRs : gmap Z SPDRInfo;
  FARs : gmap Z SFarInfo;
  QERs : gmap Z SQerInfo;
  URRs : gmap Z SUrrInfo
}.

(* cmd/core/session.go:18-27 NewSession *)
Definition NewSession (localSEID remoteSEID : Z) : Session :=
  mkSession localSEID remoteSEID ∅ ∅ ∅ ∅.

Definition set_RemoteSEID (seid : Z) (s : Session) : Session :=
  mkSession (LocalSEID s) seid (PDRs s) (FARs s) (QERs s) (URRs s).

Section session.
Implicit Types s : Session.

Definition on_PDRs f s : Session :=
  mkSession (LocalSEID s) (RemoteSEID s) (f (PDRs s)) (FARs s) (QERs s) (URRs s).
Definition on_FARs f s : Session :=
  mkSession (LocalSEID s) (RemoteSEID s) (PDRs s) (f (FARs s)) (QERs s) (URRs s).
Definition on_QERs f s : Session :=
  mkSession (LocalSEID s) (RemoteSEID s) (PDRs s) (FARs s) (f (QERs s)) (URRs s).
Definition on_URRs f s : Session :=
  mkSession (LocalSEID s) (RemoteSEID s) (PDRs s) (FARs s) (QERs s) (f (URRs s)).

(* cmd/core/session.go:67-69 GetFar *)
Definition SessionGetFar (id : Z) s : SFarInfo := default zeroSFarInfo (FARs s !! id).
(* cmd/core/session.go:90-92 GetQer *)
Definition SessionGetQer (id : Z) s : SQerInfo := default zeroSQerInfo (QERs s !! id).
(* cmd/core/session.go:113-115 GetUrr *)
Definition SessionGetUrr (id : Z) s : SUrrInfo := default zeroSUrrInfo (URRs s !! id).
(* cmd/core/session.go:127-129 GetPDR *)
Definition SessionGetPDR (id : Z) s : SPDRInfo := default zeroSPDRInfo (PDRs s !! id).

(* cmd/core/session.go:54-59 NewFar *)
Definition SessionNewFar (id internalId : Z) (farInfo : FarInfo) : M Session unit :=
  modify (on_FARs <[id := mkSFarInfo farInfo internalId]>).
(* cmd/core/session.go:61-65 UpdateFar *)
Definition SessionUpdateFar (id : Z) (farInfo : FarInfo) : M Session unit :=
  sFarInfo ← gets (SessionGetFar id);
  modify (on_FARs <[id := mkSFarInfo farInfo (sf_GlobalId sFarInfo)]>).
(* cmd/core/session.go:71-75 RemoveFar *)
Definition SessionRemoveFar (id : Z) : M Session SFarInfo :=
  sFarInfo ← gets (SessionGetFar id);
  modify (on_FARs (delete id)) ≫= λ _, mret sFarInfo.

(* cmd/core/session.go:77-82 NewQer *)
Definition SessionNewQer (id internalId : Z) (qerInfo : QerInfo) : M Session unit :=
  modify (on_QERs <[id := mkSQerInfo qerInfo internalId]>).
(* cmd/core/session.go:84-88 UpdateQer *)
Definition SessionUpdateQer (id : Z) (qerInfo : QerInfo) : M Session unit :=
  sQerInfo ← gets (SessionGetQer id);
  modify (on_QERs <[id := mkSQerInfo qerInfo (sq_GlobalId sQerInfo)]>).
(* cmd/core/session.go:94-98 RemoveQer *)
Definition SessionRemoveQer (id : Z) : M Session SQerInfo :=
  sQerInfo ← gets (SessionGetQer id);
  modify (on_QERs (delete id)) ≫= λ _, mret sQerInfo.

(* cmd/core/session.go:100-105 NewUrr *)
Definition SessionNewUrr (id internalId : Z) (urrInfo : UrrInfo) : M Session unit :=
  modify (on_URRs <[id := mkSUrrInfo urrInfo internalId 0]>).
(* cmd/core/session.go:107-111 UpdateUrr *)
Definition SessionUpdateUrr (id : Z) (urrInfo : UrrInfo) : M Session unit :=
  sUrrInfo ← gets (SessionGetUrr id);
  modify (on_URRs
    <[id := mkSUrrInfo urrInfo (su_GlobalId sUrrInfo) (su_ReportSeqNumber sUrrInfo)]>).
(* cmd/core/session.go:117-121 RemoveUrr *)
Definition SessionRemoveUrr (id : Z) : M Session SUrrInfo :=
  sUrrInfo ← gets (SessionGetUrr id);
  modify (on_URRs (delete id)) ≫= λ _, mret sUrrInfo.

(* cmd/core/session.go:123-125 PutPDR *)
Definition SessionPutPDR (id : Z) (info : SPDRInfo) : M Session unit :=
  modify (on_PDRs <[id := info]>).
(* cmd/core/session.go:131-135 RemovePDR *)
Definition SessionRemovePDR (id : Z) : M Session SPDRInfo :=
  sPdrInfo ← gets (SessionGetPDR id);
  modify (on_PDRs (delete id)) ≫= λ _, mret sPdrInfo.

End session.
