(* ===== verification/Sdf.v ===== *)
(** * SDF filters (cmd/core/sdf_filter_parser.go)

    [ParseSdfFilter] turns a flow description into the filter the data plane
    matches.  It leans on two regular expressions; [re_run] is the
    leftmost-first matching of Go's regexp package for the operators they
    use, and the grammar [render] is what the expressions mean. *)

From S2P Require Import Prelude Net ForwardingPlane.

(** ** Regular expressions *)

Inductive re :=
  | Lit (t : text)
  | Plus (p : ascii → bool)           (* [p]+, greedy *)
  | Alt (a b : re)                    (* a|b, a first *)
  | Cat (a b : re)
  | Opt (a : re)                      (* (?:a)?, a first *)
  | Group (n : nat) (a : re).         (* (a), the n-th group *)

Abbreviation captures := (gmap nat text).

Fixpoint run_plus {R} (p : ascii → bool) (s : text) (k : text → option R) : option R :=
  match s with
  | [] => None
  | c :: s' =>
      if p c then
        match run_plus p s' k with Some r => Some r | None => k s' end
      else None
  end.

Fixpoint strip (t s : text) : option text :=
  match t, s with
  | [], _ => Some s
  | a :: t', b :: s' => if Ascii.eqb a b then strip t' s' else None
  | _, [] => None
  end.

(** [re_run r s c k]: match [r] at the start of [s] and go on with [k] on what
    is left; alternatives are tried in order until [k] succeeds. *)
Fixpoint re_run {R} (r : re) (s : text) (c : captures)
    (k : text → captures → option R) : option R :=
  match r with
  | Lit t => match strip t s with Some rest => k rest c | None => None end
  | Plus p => run_plus p s (λ rest, k rest c)
  | Alt a b => match re_run a s c k with Some x => Some x | None => re_run b s c k end
  | Cat a b => re_run a s c (λ rest c', re_run b rest c' k)
  | Opt a => match re_run a s c k with Some x => Some x | None => k s c end
  | Group n a =>
      re_run a s c (λ rest c', k rest (<[n := take (length s - length rest) s]> c'))
  end.

(** [FindStringSubmatch] for an expression of the form [^r$]. *)
Definition FindStringSubmatch (r : re) (s : text) : option captures :=
  re_run r s ∅ (λ rest c, if bool_decide (rest = []) then Some c else None).

(** [match[n]]: a group that took no part is the empty string. *)
Definition group (c : captures) (n : nat) : text := default [] (c !! n).

(** The language of an expression. *)
Fixpoint matches (r : re) (l : text) (c c' : captures) : Prop :=
  match r with
  | Lit t => l = t ∧ c' = c
  | Plus p => l ≠ [] ∧ Forall (λ x, p x = true) l ∧ c' = c
  | Alt a b => matches a l c c' ∨ matches b l c c'
  | Cat a b => ∃ l1 l2 c1, l = l1 ++ l2 ∧ matches a l1 c c1 ∧ matches b l2 c1 c'
  | Opt a => matches a l c c' ∨ (l = [] ∧ c' = c)
  | Group n a => ∃ c1, matches a l c c1 ∧ c' = <[n := l]> c1
  end.

(** ** The expressions of the parser *)

Definition lit (s : string) : re := Lit (chars s).
Definition is_v4_char (c : ascii) : bool := is_digit c || Ascii.eqb c ".".
Definition is_v6_char (c : ascii) : bool :=
  is_digit c || between "a" "f" c || between "A" "F" c || Ascii.eqb c ":".

Definition digits_re : re := Plus is_digit.
Definition mask_re (n : nat) : re := Opt (Cat (lit "/") (Group n digits_re)).
Definition ports_re (n : nat) : re :=
  Opt (Cat (lit " ") (Group n (Alt digits_re (Cat digits_re (Cat (lit "-") digits_re))))).

(* cmd/core/sdf_filter_parser.go:14-14 ParseSdfFilter *)
Definition flow_re : re :=
  Cat (lit "permit out ")
  (Cat (Group 1 (Alt (lit "icmp") (Alt (lit "ip") (Alt (lit "tcp") (Alt (lit "udp") digits_re)))))
  (Cat (lit " from ")
  (Cat (Group 2 (Alt (lit "any") (Alt (Plus is_v4_char) (Plus is_v6_char))))
  (Cat (mask_re 3)
  (Cat (ports_re 4)
  (Cat (lit " to ")
  (Cat (Group 5 (Alt (lit "assigned") (Alt (lit "any") (Alt (Plus is_v4_char) (Plus is_v6_char)))))
  (Cat (mask_re 6) (ports_re 7))))))))).

(* cmd/core/sdf_filter_parser.go:109-109 ParsePortRange *)
Definition port_range_re : re :=
  Cat (Group 1 digits_re) (Opt (Cat (lit "-") (Group 2 digits_re))).

(** ** The parser *)

(* cmd/core/sdf_filter_parser.go:129-138 ParsePort *)
Definition ParsePort (str : text) : outcome Z :=
  port64 ← ParseUint64 (String.string_of_list_ascii str);
  if 65535 <? port64
  then Err (Errorf "Invalid port. Port must be inside bounds [0, 65535].")
  else Ok (u16 port64).

(** Indexing a nil match panics. *)
(* cmd/core/sdf_filter_parser.go:108-127 ParsePortRange *)
Definition ParsePortRange (str : text) : outcome PortRange :=
  match FindStringSubmatch port_range_re str with
  | None => Panic
  | Some m =>
      lower ← ParsePort (group m 1);
      upper ← if bool_decide (group m 2 = []) then Ok lower else ParsePort (group m 2);
      if upper <? lower
      then Err (Errorf "Invalid port range. Left port should be less or equal to right port.")
      else Ok (mkPortRange lower upper)
  end.

(* cmd/core/sdf_filter_parser.go:61-78 ParseProtocol *)
Definition ParseProtocol (protocol : text) : outcome Z :=
  let protocol := if bool_decide (protocol = chars "58") then chars "icmp6" else protocol in
  if bool_decide (protocol = chars "icmp") then Ok 0
  else if bool_decide (protocol = chars "ip") then Ok 1
  else if bool_decide (protocol = chars "tcp") then Ok 2
  else if bool_decide (protocol = chars "udp") then Ok 3
  else if bool_decide (protocol = chars "icmp6") then Ok 4
  else Err (Errorf "Unsupported protocol.").

(* cmd/core/sdf_filter_parser.go:80-106 ParseCidrIp *)
Definition ParseCidrIp (ipStr maskStr : text) : outcome IpWMask :=
  match ParseIP (String.string_of_list_ascii ipStr) with
  | Some ip =>
      let '(ipType, ip) := match To4 (Some ip) with
                           | Some ip4 => (1, Some ip4)
                           | None => (2, Some ip)
                           end in
      let bits := 8 * slice_len ip in
      if bool_decide (maskStr = []) then Ok (mkIpWMask ipType ip (CIDRMask bits bits))
      else
        match ParseUint64 (String.string_of_list_ascii maskStr) with
        | Ok maskUint =>
            let mask := CIDRMask (int_of_uint64 maskUint) bits in
            Ok (mkIpWMask ipType (IPMask ip mask) mask)
        | _ => Err (Errorf "Bad IP mask formatting.")
        end
  | None => Err (Errorf "Bad IP formatting.")
  end.

(* cmd/core/sdf_filter_parser.go:13-59 ParseSdfFilter *)
Definition ParseSdfFilter (flowDescription : string) : outcome SdfFilter :=
  match FindStringSubmatch flow_re (chars flowDescription) with
  | None => Err (Errorf "SDF Filter: bad formatting.")
  | Some m =>
      protocol ← ParseProtocol (group m 1);
      src ← if bool_decide (group m 2 = chars "any") then
              if negb (bool_decide (group m 3 = []))
              then Err (Errorf "<any> keyword should not be used with </mask>")
              else Ok (mkIpWMask 0 None None)
            else ParseCidrIp (group m 2) (group m 3);
      srcPorts ← if negb (bool_decide (group m 4 = [])) then ParsePortRange (group m 4)
                 else Ok (mkPortRange 0 65535);
      dst ← if bool_decide (group m 5 = chars "assigned") || bool_decide (group m 5 = chars "any")
            then Ok (mkIpWMask 0 None None)
            else ParseCidrIp (group m 5) (group m 6);
      dstPorts ← if negb (bool_decide (group m 7 = [])) then ParsePortRange (group m 7)
                 else Ok (mkPortRange 0 65535);
      Ok (mkSdfFilter protocol src srcPorts dst dstPorts)
  end.

(** Descriptions of the repository's tests. *)
Example parse_ex1 :
  ParseSdfFilter "permit out ip from 10.62.0.1 to 8.8.8.8/32" =
  Ok (mkSdfFilter 1 (mkIpWMask 1 (Some [10; 62; 0; 1]) (Some [255; 255; 255; 255]))
        (mkPortRange 0 65535)
        (mkIpWMask 1 (Some [8; 8; 8; 8]) (Some [255; 255; 255; 255])) (mkPortRange 0 65535)).
Proof. vm_compute. reflexivity. Qed.

Example parse_ex2 :
  ParseSdfFilter "permit out 17 from any 10-20 to 2001:db8::/32 80" =
  Err (Errorf "Unsupported protocol.").
Proof. vm_compute. reflexivity. Qed.

Example parse_ex3 :
  ParseSdfFilter "permit out udp from 10.0.0.9/24 22-23 to 2001:db8::1/32 80" =
  Ok (mkSdfFilter 3 (mkIpWMask 1 (Some [10; 0; 0; 0]) (Some [255; 255; 255; 0]))
        (mkPortRange 22 23)
        (mkIpWMask 2 (Some ([32; 1; 13; 184] ++ replicate 12 0))
           (Some (replicate 4 255 ++ replicate 12 0)))
        (mkPortRange 80 80)).
Proof. vm_compute. reflexivity. Qed.

(** ** The grammar of flow descriptions *)

(** The seven fields of a description, as the groups of [flow_re]. *)
Record FlowFields := mkFlowFields {
  ff_proto : text;
  ff_src : text;
  ff_src_mask : text;
  ff_src_ports : text;
  ff_dst : text;
  ff_dst_mask : text;
  ff_dst_ports : text
}.

Definition prefixed (sep : ascii) (l : text) : text := if l is [] then [] else sep :: l.

Definition render (f : FlowFields) : text :=
  chars "permit out " ++ ff_proto f ++ chars " from " ++
  ff_src f ++ prefixed "/" (ff_src_mask f) ++ prefixed " " (ff_src_ports f) ++ chars " to " ++
  ff_dst f ++ prefixed "/" (ff_dst_mask f) ++ prefixed " " (ff_dst_ports f).

Definition digits (l : text) : Prop := Forall (λ c, is_digit c = true) l.
Definition digits1 (l : text) : Prop := l ≠ [] ∧ digits l.
Definition address_text (l : text) : Prop :=
  l = chars "any" ∨
  l ≠ [] ∧ (Forall (λ c, is_v4_char c = true) l ∨ Forall (λ c, is_v6_char c = true) l).
Definition ports_text (l : text) : Prop :=
  l = [] ∨ digits1 l ∨ ∃ a b, digits1 a ∧ digits1 b ∧ l = a ++ "-"%char :: b.

Definition wf_fields (f : FlowFields) : Prop :=
  (ff_proto f ∈ [chars "icmp"; chars "ip"; chars "tcp"; chars "udp"] ∨ digits1 (ff_proto f)) ∧
  address_text (ff_src f) ∧ digits (ff_src_mask f) ∧ ports_text (ff_src_ports f) ∧
  (ff_dst f = chars "assigned" ∨ address_text (ff_dst f)) ∧
  digits (ff_dst_mask f) ∧ ports_text (ff_dst_ports f).

Definition fields_of (c : captures) : FlowFields :=
  mkFlowFields (group c 1) (group c 2) (group c 3) (group c 4) (group c 5) (group c 6) (group c 7).

(** ** Lemmas: the matcher *)

Section matcher.
Context {R : Type}.

Lemma strip_Some t s rest : strip t s = Some rest ↔ s = t ++ rest.
Proof.
  revert s. induction t as [|a t IH]; intros [|b s]; cbn; [naive_solver..|].
  destruct (Ascii.eqb_spec a b) as [->|]; [rewrite IH|]; naive_solver.
Qed.

Lemma run_plus_sound p s (k : text → option R) r :
  run_plus p s k = Some r →
  ∃ l rest, s = l ++ rest ∧ l ≠ [] ∧ Forall (λ x, p x = true) l ∧ k rest = Some r.
Proof.
  revert r. induction s as [|c s IH]; intros r; cbn; [done|]. destruct (p c) eqn:Hc; [|done].
  destruct (run_plus p s k) eqn:Hrun.
  - intros [= ->]. destruct (IH r eq_refl) as (l & rest & -> & _ & Hl & Hk).
    exists (c :: l), rest. auto using Forall_cons.
  - intros Hk. exists [c], s. auto using Forall_cons.
Qed.

Lemma run_plus_complete p (k : text → option R) l rest :
  l ≠ [] → Forall (λ x, p x = true) l → run_plus p (l ++ rest) k = None → k rest = None.
Proof.
  induction l as [|c l IH]; intros Hne Hl; [done|]. apply Forall_cons in Hl as [Hc Hl].
  cbn. rewrite Hc. destruct (run_plus p (l ++ rest) k) eqn:Hrun; [done|].
  destruct l as [|c' l]; [done|]. intros _. by apply IH.
Qed.

Lemma re_run_sound r s c (k : text → captures → option R) x :
  re_run r s c k = Some x →
  ∃ l rest c', s = l ++ rest ∧ matches r l c c' ∧ k rest c' = Some x.
Proof.
  revert s c k. induction r as [t|p|a IHa b IHb|a IHa b IHb|a IHa|n a IHa]; intros s c k; cbn.
  - destruct (strip t s) as [rest|] eqn:Hs; [|done]. intros Hk.
    apply strip_Some in Hs. by exists t, rest, c.
  - intros (l & rest & -> & Hne & Hl & Hk)%run_plus_sound. by exists l, rest, c.
  - destruct (re_run a s c k) eqn:Ha.
    + intros [= ->]. apply IHa in Ha. naive_solver.
    + intros Hb%IHb. naive_solver.
  - intros (l1 & rest1 & c1 & -> & Ha & Hb)%IHa.
    apply IHb in Hb as (l2 & rest & c' & -> & Hb & Hk).
    exists (l1 ++ l2), rest, c'. rewrite <-app_assoc. naive_solver.
  - destruct (re_run a s c k) eqn:Ha.
    + intros [= ->]. apply IHa in Ha. naive_solver.
    + intros Hk. exists [], s, c. auto.
  - intros (l & rest & c' & -> & Ha & Hk)%IHa.
    exists l, rest, (<[n:=l]> c'). rewrite length_app, Nat.add_sub, take_app_length in Hk. eauto.
Qed.

Lemma re_run_complete r s c (k : text → captures → option R) l rest c' :
  re_run r s c k = None → s = l ++ rest → matches r l c c' → k rest c' = None.
Proof.
  revert s c k l rest c'.
  induction r as [t|p|a IHa b IHb|a IHa b IHb|a IHa|n a IHa]; intros s c k l rest c'; cbn.
  - intros Hrun -> [-> ->]. by rewrite (proj2 (strip_Some t (t ++ rest) rest)) in Hrun.
  - intros Hrun -> (Hne & Hl & ->). by eapply (run_plus_complete p (λ rest, k rest c)).
  - destruct (re_run a s c k) eqn:Ha; [done|]. intros Hb Hs [Hm|Hm]; eauto.
  - intros Hrun -> (l1 & l2 & c1 & -> & Hm1 & Hm2).
    assert (re_run b (l2 ++ rest) c1 k = None) as Hb by
      (apply (IHa _ _ _ l1 (l2 ++ rest) c1 Hrun); [by rewrite app_assoc|done]).
    eauto.
  - destruct (re_run a s c k) eqn:Ha; [done|]. intros Hk Hs [Hm|[-> ->]]; [eauto|].
    cbn in Hs. by subst.
  - intros Hrun -> (c1 & Hm & ->). pose proof (IHa _ _ _ _ _ _ Hrun eq_refl Hm) as Hk. cbn in Hk.
    by rewrite length_app, Nat.add_sub, take_app_length in Hk.
Qed.

End matcher.

(** The matcher decides the language of the expression. *)
Lemma FindStringSubmatch_Some r s c :
  FindStringSubmatch r s = Some c → matches r s ∅ c.
Proof.
  intros (l & rest & c' & -> & Hm & Hk)%re_run_sound. case_bool_decide; [|done].
  simplify_eq. by rewrite app_nil_r.
Qed.

Lemma FindStringSubmatch_None r s c :
  FindStringSubmatch r s = None → ¬ matches r s ∅ c.
Proof.
  intros Hrun Hm. eapply re_run_complete in Hrun; [|symmetry; apply app_nil_r|done].
  by rewrite bool_decide_eq_true_2 in Hrun.
Qed.

(** ** Lemmas: the grammar is what the expressions match *)

(** An optional group: the empty string is a group that took no part. *)
Definition put (n : nat) (m : text) (c : captures) : captures :=
  if m is [] then c else <[n:=m]> c.

Lemma put_absent n k m c : c !! k = None → k ≠ n → put n m c !! k = None.
Proof. destruct m; cbn; [done|]. intros. by rewrite lookup_insert_ne. Qed.

Lemma group_put_eq n m c : c !! n = None → group (put n m c) n = m.
Proof.
  intros Hn. unfold group, put. destruct m; [by rewrite Hn|by rewrite lookup_insert_eq].
Qed.

Lemma group_put_ne n k m c : k ≠ n → group (put n m c) k = group c k.
Proof. intros Hk. unfold group, put. destruct m; [done|]. by rewrite lookup_insert_ne. Qed.

Lemma group_insert_eq n m c : group (<[n:=m]> c) n = m.
Proof. unfold group. by rewrite lookup_insert_eq. Qed.

Lemma group_insert_ne n k m c : k ≠ n → group (<[n:=m]> c) k = group c k.
Proof. intros Hk. unfold group. by rewrite lookup_insert_ne. Qed.

Lemma insert_absent n k m (c : captures) : c !! k = None → k ≠ n → <[n:=m]> c !! k = None.
Proof. intros. by rewrite lookup_insert_ne. Qed.

Create HintDb groups discriminated.
#[export] Hint Resolve put_absent insert_absent lookup_empty : groups.
Ltac absent := by auto 12 with groups.
Ltac groups :=
  repeat first [rewrite group_put_eq by absent | rewrite group_put_ne by done
               | rewrite group_insert_eq | rewrite group_insert_ne by done].

Lemma matches_mask n l c c' :
  c !! n = None →
  matches (mask_re n) l c c' ↔
  ∃ m, l = prefixed "/" m ∧ digits m ∧ c' = put n m c.
Proof.
  intros Hn. cbn. split.
  - intros [(l1 & l2 & c1 & -> & [-> ->] & c2 & (Hne & Hd & ->) & ->)|[-> ->]].
    + exists l2. destruct l2; naive_solver.
    + exists []. repeat split. constructor.
  - intros (m & -> & Hd & ->). destruct m as [|x m]; [by right|]. left.
    exists (chars "/"), (x :: m), c. repeat split. exists c. naive_solver.
Qed.

Lemma matches_ports n l c c' :
  c !! n = None →
  matches (ports_re n) l c c' ↔
  ∃ m, l = prefixed " " m ∧ ports_text m ∧ c' = put n m c.
Proof.
  intros Hn. cbn. split.
  - intros [(l1 & l2 & c1 & -> & [-> ->] & c2 & Hl2 & ->)|[-> ->]].
    + exists l2. destruct Hl2 as [(Hne & Hd & ->)|Hl2].
      * destruct l2; [done|]. split; [done|]. split; [right; left; by split|done].
      * destruct Hl2 as (a & l3 & c3 & -> & (Hne & Ha & ->) & d & b & c4 & -> & [-> ->] & Hneb & Hb & ->).
        destruct a as [|x a]; [done|]. split; [done|].
        split; [right; right; exists (x :: a), b; by repeat split|done].
    + exists []. repeat split. by left.
  - intros (m & -> & Hp & ->). destruct m as [|x m]; [by right|]. left.
    exists (chars " "), (x :: m), c. do 2 (split; [done|]). exists c. split; [|done].
    destruct Hp as [|[[Hne Hd]|(a & b & [Ha Hda] & [Hb Hdb] & Heq)]]; [done|by left|right].
    exists a, ("-"%char :: b), c. split; [done|]. split; [done|].
    exists (chars "-"), b, c. done.
Qed.

Lemma matches_proto l c c' :
  matches (Group 1 (Alt (lit "icmp") (Alt (lit "ip") (Alt (lit "tcp") (Alt (lit "udp") digits_re)))))
    l c c' ↔
  (l ∈ [chars "icmp"; chars "ip"; chars "tcp"; chars "udp"] ∨ digits1 l) ∧ c' = <[1%nat:=l]> c.
Proof. cbn -[chars]. rewrite !elem_of_cons, elem_of_nil. unfold digits1, digits. naive_solver. Qed.

Lemma matches_address n l c c' :
  matches (Group n (Alt (lit "any") (Alt (Plus is_v4_char) (Plus is_v6_char)))) l c c' ↔
  address_text l ∧ c' = <[n:=l]> c.
Proof. cbn -[chars]. unfold address_text. naive_solver. Qed.

Lemma matches_dst n l c c' :
  matches (Group n (Alt (lit "assigned") (Alt (lit "any") (Alt (Plus is_v4_char) (Plus is_v6_char)))))
    l c c' ↔
  (l = chars "assigned" ∨ address_text l) ∧ c' = <[n:=l]> c.
Proof. cbn -[chars]. unfold address_text. naive_solver. Qed.

Lemma matches_lit t l c c' : matches (lit t) l c c' ↔ l = chars t ∧ c' = c.
Proof. done. Qed.

Lemma matches_cat a b l c c' :
  matches (Cat a b) l c c' ↔ ∃ l1 l2 c1, l = l1 ++ l2 ∧ matches a l1 c c1 ∧ matches b l2 c1 c'.
Proof. done. Qed.

Lemma matches_flow_re l c :
  matches flow_re l ∅ c → wf_fields (fields_of c) ∧ l = render (fields_of c).
Proof.
  unfold flow_re. rewrite matches_cat. intros (? & ? & ? & -> & [-> ->]%matches_lit & Hm).
  apply matches_cat in Hm as (p & ? & ? & -> & [Hp ->]%matches_proto & Hm).
  apply matches_cat in Hm as (? & ? & ? & -> & [-> ->]%matches_lit & Hm).
  apply matches_cat in Hm as (src & ? & ? & -> & [Hsrc ->]%matches_address & Hm).
  apply matches_cat in Hm as (? & ? & ? & -> & Hm3 & Hm).
  apply matches_mask in Hm3 as (m3 & -> & Hm3 & ->); [|absent].
  apply matches_cat in Hm as (? & ? & ? & -> & Hm4 & Hm).
  apply matches_ports in Hm4 as (m4 & -> & Hm4 & ->); [|absent].
  apply matches_cat in Hm as (? & ? & ? & -> & [-> ->]%matches_lit & Hm).
  apply matches_cat in Hm as (dst & ? & ? & -> & [Hdst ->]%matches_dst & Hm).
  apply matches_cat in Hm as (? & ? & ? & -> & Hm6 & Hm7).
  apply matches_mask in Hm6 as (m6 & -> & Hm6 & ->); [|absent].
  apply matches_ports in Hm7 as (m7 & -> & Hm7 & ->); [|absent].
  unfold wf_fields, render, fields_of. cbn [ff_proto ff_src ff_src_mask ff_src_ports ff_dst
    ff_dst_mask ff_dst_ports]. groups. done.
Qed.

Lemma matches_cat_intro a b l1 l2 c c1 c' :
  matches a l1 c c1 → matches b l2 c1 c' → matches (Cat a b) (l1 ++ l2) c c'.
Proof. intros. exists l1, l2, c1. done. Qed.

Lemma flow_re_matches f : wf_fields f → ∃ c, matches flow_re (render f) ∅ c.
Proof.
  destruct f as [p src m3 m4 dst m6 m7]. intros (Hp & Hsrc & Hm3 & Hm4 & Hdst & Hm6 & Hm7).
  eexists. unfold flow_re, render.
  apply matches_cat_intro with (c1 := ∅); [by apply matches_lit|].
  eapply matches_cat_intro; [by apply matches_proto|].
  eapply matches_cat_intro; [by apply matches_lit|].
  eapply matches_cat_intro; [by apply matches_address|].
  eapply matches_cat_intro; [apply matches_mask; [absent|by exists m3]|].
  eapply matches_cat_intro; [apply matches_ports; [absent|by exists m4]|].
  eapply matches_cat_intro; [by apply matches_lit|].
  eapply matches_cat_intro; [by apply matches_dst|].
  eapply matches_cat_intro; [apply matches_mask; [absent|by exists m6]|].
  apply matches_ports; [absent|by exists m7].
Qed.

(** ** Lemmas: a description has one reading *)

(** The fields contain neither blanks nor slashes. *)
Definition word_char (c : ascii) : bool := negb (Ascii.eqb c " ") && negb (Ascii.eqb c "/").
Definition word (l : text) : Prop := Forall (λ c, word_char c = true) l.
Definition stops (l : text) : Prop := if l is c :: _ then word_char c = false else True.

Lemma split_unique a b a' b' :
  word a → word a' → stops b → stops b' → a ++ b = a' ++ b' → a = a' ∧ b = b'.
Proof.
  intros Ha. revert a'. induction Ha as [|c a Hc Ha IH]; intros a' Ha' Hb Hb'.
  - destruct Ha' as [|c' a' Hc' _]; cbn; [done|]. intros ->. cbn in Hb. congruence.
  - destruct Ha' as [|c' a' Hc' Ha']; cbn; [intros <-; cbn in Hb'; congruence|].
    intros [= -> Heq]. by destruct (IH _ Ha' Hb Hb' Heq) as [-> ->].
Qed.

(** What a class of characters implies for a character, by cases on the byte. *)
Ltac by_char c := destruct c as [[] [] [] [] [] [] [] []]; vm_compute; done.

Lemma digit_word c : is_digit c = true → word_char c = true.
Proof. by_char c. Qed.
Lemma v4_word c : is_v4_char c = true → word_char c = true.
Proof. by_char c. Qed.
Lemma v6_word c : is_v6_char c = true → word_char c = true.
Proof. by_char c. Qed.

Lemma digits_word l : digits l → word l.
Proof. intros H. eapply Forall_impl; [exact H|]. apply digit_word. Qed.

Lemma ports_word l : ports_text l → word l.
Proof.
  intros [->|[[_ H]|(a & b & [_ Ha] & [_ Hb] & ->)]]; [constructor|by apply digits_word|].
  apply Forall_app. split; [by apply digits_word|]. constructor; [done|by apply digits_word].
Qed.

Lemma address_word l : address_text l → word l.
Proof.
  intros [->|[_ [H|H]]]; [by repeat constructor| |]; (eapply Forall_impl; [exact H|]).
  - apply v4_word.
  - apply v6_word.
Qed.

(** What follows a ports field. *)
Definition tail_text (l : text) : Prop := l = [] ∨ ∃ r, l = chars " to " ++ r.

Lemma tail_stops l : tail_text l → stops l.
Proof. by intros [->|[r ->]]. Qed.

Lemma slash_inj m m' r r' :
  word m → word m' → stops r → stops r' → head r ≠ Some "/"%char → head r' ≠ Some "/"%char →
  prefixed "/" m ++ r = prefixed "/" m' ++ r' → m = m' ∧ r = r'.
Proof.
  intros Hm Hm' Hr Hr' Hh Hh'. destruct m as [|c m], m' as [|c' m']; cbn; [done|naive_solver..|].
  intros [= -> Heq]. apply (split_unique (c' :: m) r (c' :: m') r'); [done..|]. cbn. by f_equal.
Qed.

Lemma ports_head m : ports_text m → m = [] ∨ ∃ c l, m = c :: l ∧ is_digit c = true.
Proof.
  intros [->|[[Hne Hd]|(a & b & [Hne Hd] & _ & ->)]]; [by left|right..].
  - destruct m as [|c m]; [done|]. apply Forall_cons in Hd as [Hc _]. eauto.
  - destruct a as [|c a]; [done|]. apply Forall_cons in Hd as [Hc _]. cbn. eauto.
Qed.

Lemma space_inj m m' r r' :
  ports_text m → ports_text m' → tail_text r → tail_text r' →
  prefixed " " m ++ r = prefixed " " m' ++ r' → m = m' ∧ r = r'.
Proof.
  intros Hm Hm' Hr Hr'. pose proof (tail_stops _ Hr). pose proof (tail_stops _ Hr').
  pose proof (ports_head _ Hm) as Hd. pose proof (ports_head _ Hm') as Hd'.
  destruct m as [|c m], m' as [|c' m']; cbn; [done| | |].
  - destruct Hr as [->|[x ->]]; [done|]. intros [= <- _].
    destruct Hd' as [|(? & ? & [= <- <-] & Hc)]; done.
  - destruct Hr' as [->|[x ->]]; [done|]. intros [= -> _].
    destruct Hd as [|(? & ? & [= <- <-] & Hc)]; done.
  - intros [= -> Heq]. apply (split_unique (c' :: m) r (c' :: m') r'); [..|by cbn; f_equal].
    + by apply ports_word.
    + by apply ports_word.
    + done.
    + done.
Qed.

(** The end of an address with its mask and ports. *)
Lemma suffix_inj a m p r a' m' p' r' :
  word a → digits m → ports_text p → tail_text r →
  word a' → digits m' → ports_text p' → tail_text r' →
  a ++ prefixed "/" m ++ prefixed " " p ++ r = a' ++ prefixed "/" m' ++ prefixed " " p' ++ r' →
  a = a' ∧ m = m' ∧ p = p' ∧ r = r'.
Proof.
  intros Ha Hm Hp Hr Ha' Hm' Hp' Hr'.
  assert (∀ p r, tail_text r → stops (prefixed " " p ++ r) ∧ head (prefixed " " p ++ r) ≠ Some "/"%char)
    as Hsp by (intros [|??] ? [->|[? ->]]; done).
  assert (∀ m p r, tail_text r → stops (prefixed "/" m ++ prefixed " " p ++ r))
    as Hst by (intros [|??] ???; [by apply Hsp|done]).
  intros [-> Heq]%split_unique; [|auto..].
  apply slash_inj in Heq as [-> Heq]; [|by apply digits_word|by apply digits_word|by apply Hsp..].
  apply space_inj in Heq as [-> ->]; auto.
Qed.

Lemma render_inj f f' : wf_fields f → wf_fields f' → render f = render f' → f = f'.
Proof.
  destruct f as [p src m3 m4 dst m6 m7], f' as [p' src' m3' m4' dst' m6' m7'].
  intros (Hp & Hsrc & Hm3 & Hm4 & Hdst & Hm6 & Hm7) (Hp' & Hsrc' & Hm3' & Hm4' & Hdst' & Hm6' & Hm7').
  cbn [ff_proto ff_src ff_src_mask ff_src_ports ff_dst ff_dst_mask ff_dst_ports] in *.
  unfold render. cbn [ff_proto ff_src ff_src_mask ff_src_ports ff_dst ff_dst_mask ff_dst_ports].
  assert (∀ q, q ∈ [chars "icmp"; chars "ip"; chars "tcp"; chars "udp"] ∨ digits1 q → word q) as Hproto.
  { intros q [Hq|[_ Hq]]; [|by apply digits_word].
    rewrite !elem_of_cons, elem_of_nil in Hq. destruct_or!; subst; by repeat constructor. }
  assert (∀ q, q = chars "assigned" ∨ address_text q → word q) as Haddr.
  { intros q [->|Hq]; [by repeat constructor|by apply address_word]. }
  intros Heq%app_inv_head. apply split_unique in Heq as [-> Heq]; [|auto|auto|done|done].
  apply app_inv_head in Heq.
  apply suffix_inj in Heq as (-> & -> & -> & Heq); auto using address_word.
  2-3: by right; eexists.
  apply app_inv_head in Heq.
  rewrite <-(app_nil_r (prefixed " " m7)), <-(app_nil_r (prefixed " " m7')) in Heq.
  apply suffix_inj in Heq as (-> & -> & -> & _); auto; by left.
Qed.

Lemma FindStringSubmatch_render f :
  wf_fields f → ∃ c, FindStringSubmatch flow_re (render f) = Some c ∧ fields_of c = f.
Proof.
  intros Hwf. destruct (FindStringSubmatch flow_re (render f)) as [c|] eqn:Hrun.
  - exists c. split; [done|]. apply FindStringSubmatch_Some, matches_flow_re in Hrun as [Hc Heq].
    by apply render_inj.
  - destruct (flow_re_matches f Hwf) as [c Hc]. by eapply FindStringSubmatch_None in Hc.
Qed.

(** ** What the fields mean *)

Definition proto_means (p : text) (n : Z) : Prop :=
  (p, n) ∈ [(chars "icmp", 0); (chars "ip", 1); (chars "tcp", 2); (chars "udp", 3); (chars "58", 4)].

Definition ports_mean (t : text) (r : PortRange) : Prop :=
  t = [] ∧ r = mkPortRange 0 65535 ∨
  digits1 t ∧ r = mkPortRange (digits_val t) (digits_val t) ∧ digits_val t ≤ 65535 ∨
  ∃ a b, digits1 a ∧ digits1 b ∧ t = a ++ "-"%char :: b ∧
    r = mkPortRange (digits_val a) (digits_val b) ∧ digits_val a ≤ digits_val b ≤ 65535.

(** An address of either family, IPv4 in its four-byte form. *)
Definition family (ip : bytes) : Z * bytes :=
  match To4 (Some ip) with Some ip4 => (1, ip4) | None => (2, ip) end.

Definition address_means (a m : text) (w : IpWMask) : Prop :=
  ∃ ip, ParseIP (String.string_of_list_ascii a) = Some ip ∧
  let '(ty, ip) := family ip in
  let bits := 8 * Z.of_nat (length ip) in
  m = [] ∧ w = mkIpWMask ty (Some ip) (CIDRMask bits bits) ∨
  m ≠ [] ∧ digits_val m < 2 ^ 64 ∧
  let mask := CIDRMask (int_of_uint64 (digits_val m)) bits in
  w = mkIpWMask ty (IPMask (Some ip) mask) mask.

Definition filter_means (f : FlowFields) (r : SdfFilter) : Prop :=
  proto_means (ff_proto f) (Protocol r) ∧
  (ff_src f = chars "any" ∧ ff_src_mask f = [] ∧ SrcAddress r = zeroIpWMask ∨
   ff_src f ≠ chars "any" ∧ address_means (ff_src f) (ff_src_mask f) (SrcAddress r)) ∧
  ports_mean (ff_src_ports f) (SrcPortRange r) ∧
  (ff_dst f ∈ [chars "any"; chars "assigned"] ∧ DstAddress r = zeroIpWMask ∨
   ff_dst f ∉ [chars "any"; chars "assigned"] ∧
   address_means (ff_dst f) (ff_dst_mask f) (DstAddress r)) ∧
  ports_mean (ff_dst_ports f) (DstPortRange r).

(** ** Lemmas: the parsers of the fields *)

Lemma chars_string l : chars (String.string_of_list_ascii l) = l.
Proof. apply String.list_ascii_of_string_of_list_ascii. Qed.

Lemma digits_forallb l : digits l → forallb is_digit l = true.
Proof. induction 1; cbn; [done|]. rewrite H. done. Qed.

Lemma digits_val_app l c : digits_val (l ++ [c]) = digits_val l * 10 + digit_val c.
Proof. unfold digits_val. by rewrite foldl_app. Qed.

Lemma digits_val_nonneg l : digits l → 0 ≤ digits_val l.
Proof.
  induction l as [|c l IH] using rev_ind; [done|]. intros [Hl Hc]%Forall_app.
  apply Forall_cons in Hc as [Hc _]. rewrite digits_val_app.
  pose proof (digit_val_nonneg _ Hc). specialize (IH Hl). lia.
Qed.

Lemma ParseUint64_digits l :
  digits1 l →
  ParseUint64 (String.string_of_list_ascii l) =
  if digits_val l <? 2 ^ 64 then Ok (digits_val l) else Err (Errorf "value out of range").
Proof.
  intros [Hne Hd]. unfold ParseUint64. rewrite chars_string, bool_decide_eq_false_2 by done.
  by rewrite digits_forallb.
Qed.

Lemma ParsePort_digits l v :
  digits1 l → ParsePort l = Ok v ↔ v = digits_val l ∧ digits_val l ≤ 65535.
Proof.
  intros Hl. unfold ParsePort. rewrite (ParseUint64_digits l Hl).
  pose proof (digits_val_nonneg l (proj2 Hl)) as Hpos.
  destruct (Z.ltb_spec (digits_val l) (2 ^ 64)); cbn [mbind outcome_mbind outcome_bind].
  - destruct (Z.ltb_spec 65535 (digits_val l)); [naive_solver lia|].
    rewrite u16_small by (unfold in_range; lia). naive_solver.
  - split; [done|]. intros [_ Hle]. lia.
Qed.

Lemma ParsePort_no_panic l : digits1 l → no_panic (ParsePort l).
Proof.
  intros Hl. unfold ParsePort. rewrite (ParseUint64_digits l Hl).
  apply outcome_bind_no_panic; [by case_match|]. intros v _. by case_match.
Qed.

(** The second expression splits a non-empty ports field. *)
Lemma matches_port_range l c :
  matches port_range_re l ∅ c →
  digits1 (group c 1) ∧ (group c 2 = [] ∧ l = group c 1 ∨
                         digits1 (group c 2) ∧ l = group c 1 ++ "-"%char :: group c 2).
Proof.
  intros (a & ? & ? & -> & (c1 & (Hne & Ha & ->) & ->) & Hm). cbn in Hm.
  destruct Hm as [(? & b & c2 & -> & [-> ->] & c3 & (Hneb & Hb & ->) & ->)|[-> ->]].
  - rewrite group_insert_ne, !group_insert_eq by done. split; [done|]. by right.
  - rewrite group_insert_eq, app_nil_r. split; [done|]. left. unfold group.
    by rewrite lookup_insert_ne, lookup_empty by done.
Qed.

Lemma port_range_matches m :
  m ≠ [] → ports_text m → ∃ c, matches port_range_re m ∅ c.
Proof.
  intros Hne [->|[[_ Hd]|(a & b & [Ha Hda] & [Hb Hdb] & ->)]]; [done| |].
  - exists (<[1%nat:=m]> ∅). exists m, [], (<[1%nat:=m]> ∅). rewrite app_nil_r.
    split; [done|]. split; [by exists ∅|]. by right.
  - eexists. exists a, ("-"%char :: b), (<[1%nat:=a]> ∅). split; [done|]. split; [by exists ∅|].
    left. exists (chars "-"), b, (<[1%nat:=a]> ∅). split; [done|]. split; [done|].
    by exists (<[1%nat:=a]> ∅).
Qed.

Lemma dash_unique a b a' b' :
  digits a → digits a' → a ++ "-"%char :: b = a' ++ "-"%char :: b' → a = a' ∧ b = b'.
Proof.
  intros Ha. revert a'. induction Ha as [|c a Hc Ha IH]; intros a' Ha'.
  - destruct Ha' as [|c' a' Hc' _]; cbn; [naive_solver|]. intros [= <- _]. done.
  - destruct Ha' as [|c' a' Hc' Ha']; cbn; [intros [= -> _]; done|].
    intros [= -> Heq]. by destruct (IH _ Ha' Heq) as [-> ->].
Qed.

Lemma dash_not_digits a b : ¬ digits (a ++ "-"%char :: b).
Proof. intros [_ [H _]%Forall_cons]%Forall_app. done. Qed.

(** [ParsePortRange] on a field of the grammar. *)
Lemma ParsePortRange_spec m r :
  m ≠ [] → ports_text m →
  no_panic (ParsePortRange m) ∧ (ParsePortRange m = Ok r ↔ ports_mean m r).
Proof.
  intros Hne Hm. unfold ParsePortRange.
  destruct (FindStringSubmatch port_range_re m) as [c|] eqn:Hrun.
  2:{ destruct (port_range_matches m Hne Hm) as [c Hc].
      by eapply FindStringSubmatch_None in Hc. }
  apply FindStringSubmatch_Some, matches_port_range in Hrun as [H1 [[H2 Heq]|[H2 Heq]]].
  - rewrite (bool_decide_eq_true_2 _ H2), <-Heq in *. split.
    + apply outcome_bind_no_panic; [by apply ParsePort_no_panic|]. intros v _. cbn. by case_match.
    + rewrite outcome_bind_Ok. setoid_rewrite (ParsePort_digits m); [|done]. cbn.
      unfold ports_mean. split.
      * intros (v & [-> Hle] & Hr). destruct (Z.ltb_spec (digits_val m) (digits_val m)); naive_solver.
      * intros [[-> _]|[(_ & -> & Hle)|(a & b & Ha & _ & -> & _)]]; [done| |].
        -- eexists. split; [done|]. by rewrite Z.ltb_irrefl.
        -- destruct H1 as [_ Hd]. by apply dash_not_digits in Hd.
  - destruct (decide (group c 2 = [])) as [H0|H0]; [by destruct H2|].
    rewrite (bool_decide_eq_false_2 _ H0). split.
    + apply outcome_bind_no_panic; [by apply ParsePort_no_panic|]. intros v _.
      apply outcome_bind_no_panic; [by apply ParsePort_no_panic|]. intros w _. by case_match.
    + pose proof (ParsePort_digits (group c 1)) as Hp1. pose proof (ParsePort_digits (group c 2)) as Hp2.
      unfold ports_mean. split.
      * intros (v & [-> Hv]%Hp1 & (w & [-> Hw]%Hp2 & Hr)%outcome_bind_Ok)%outcome_bind_Ok; [|done..].
        right. right. exists (group c 1), (group c 2). do 3 (split; [done|]).
        destruct (Z.ltb_spec (digits_val (group c 2)) (digits_val (group c 1))); naive_solver.
      * intros [[-> _]|[([_ Hd] & _)|(a & b & Ha & Hb & Hab & -> & Hle)]]; [done| |].
        -- rewrite Heq in Hd. by apply dash_not_digits in Hd.
        -- rewrite Heq in Hab. apply dash_unique in Hab as [<- <-]; [|apply H1|apply Ha].
           apply outcome_bind_Ok. eexists. split; [apply Hp1; [done|split; [done|lia]]|].
           apply outcome_bind_Ok. eexists. split; [apply Hp2; [done|split; [done|lia]]|].
           destruct (Z.ltb_spec (digits_val (group c 2)) (digits_val (group c 1))); [lia|done].
Qed.

Lemma ParseProtocol_spec p n :
  p ∈ [chars "icmp"; chars "ip"; chars "tcp"; chars "udp"] ∨ digits1 p →
  no_panic (ParseProtocol p) ∧ (ParseProtocol p = Ok n ↔ proto_means p n).
Proof.
  intros Hp. unfold ParseProtocol, proto_means. rewrite !elem_of_cons, elem_of_nil.
  assert (p ≠ chars "icmp6") as H6.
  { intros ->. rewrite !elem_of_cons, elem_of_nil in Hp. destruct Hp as [Hp|[_ Hp]].
    - naive_solver.
    - apply Forall_cons in Hp as [Hp _]. done. }
  destruct (decide (p = chars "58")) as [->|H58].
  - split; [done|]. match goal with |- ?o = _ ↔ _ => change o with (Ok 4) end. split; [naive_solver|].
    intros Hn. destruct_or?; by simplify_eq.
  - rewrite (bool_decide_eq_false_2 _ H58). split; [by repeat case_bool_decide|].
    repeat case_bool_decide; subst; split; intros Hn; destruct_or?; by simplify_eq; auto 6.
Qed.

Lemma ParseCidrIp_spec a m w :
  digits m →
  no_panic (ParseCidrIp a m) ∧ (ParseCidrIp a m = Ok w ↔ address_means a m w).
Proof.
  intros Hm. unfold ParseCidrIp, address_means, family.
  destruct (ParseIP (String.string_of_list_ascii a)) as [ip|].
  2:{ split; [done|]. split; [done|]. by intros (? & ? & _). }
  assert (∀ ty ip', let bits := 8 * slice_len (Some ip') in
    let r := if bool_decide (m = []) then Ok (mkIpWMask ty (Some ip') (CIDRMask bits bits))
      else match ParseUint64 (String.string_of_list_ascii m) with
           | Ok maskUint => let mask := CIDRMask (int_of_uint64 maskUint) bits in
                            Ok (mkIpWMask ty (IPMask (Some ip') mask) mask)
           | _ => Err (Errorf "Bad IP mask formatting.")
           end in
    no_panic r ∧ (r = Ok w ↔
      (let bits := 8 * Z.of_nat (length ip') in
       m = [] ∧ w = mkIpWMask ty (Some ip') (CIDRMask bits bits) ∨
       m ≠ [] ∧ digits_val m < 2 ^ 64 ∧
       let mask := CIDRMask (int_of_uint64 (digits_val m)) bits in
       w = mkIpWMask ty (IPMask (Some ip') mask) mask))) as Hfam.
  { intros ty ip'. cbv zeta. change (slice_len (Some ip')) with (Z.of_nat (length ip')).
    case_bool_decide as Hm0.
    { split; [done|]. split; [intros; simplify_eq; auto|by intros [[_ ->]|[]]]. }
    rewrite ParseUint64_digits by done.
    destruct (Z.ltb_spec (digits_val m) (2 ^ 64)); split; [done| |done|]; split; intros Hr.
    - simplify_eq. auto.
    - destruct Hr as [[]|(_ & _ & ->)]; done.
    - done.
    - destruct Hr as [[]|(_ & Hlt & _)]; [done|lia]. }
  destruct (To4 (Some ip)) as [ip4|] eqn:H4; (split; [apply Hfam|]);
    (etrans; [apply Hfam|]); (split; [intros Hw; exists ip; by rewrite H4|]);
    intros (ip' & [= <-] & Hw); by rewrite H4 in Hw.
Qed.

Lemma ports_field_spec m r :
  ports_text m →
  let o := if negb (bool_decide (m = [])) then ParsePortRange m else Ok (mkPortRange 0 65535) in
  no_panic o ∧ (o = Ok r ↔ ports_mean m r).
Proof.
  intros Hm. cbv zeta. case_bool_decide as H0; cbn [negb]; [|by apply ParsePortRange_spec].
  subst. split; [done|]. unfold ports_mean. split; [naive_solver|].
  intros [[_ ->]|[[[? _] _]|(a & b & _ & _ & Hab & _)]]; [done..|]. by destruct a.
Qed.

Lemma src_field_spec a m w :
  digits m →
  let o := if bool_decide (a = chars "any") then
             if negb (bool_decide (m = []))
             then Err (Errorf "<any> keyword should not be used with </mask>")
             else Ok (mkIpWMask 0 None None)
           else ParseCidrIp a m in
  no_panic o ∧
  (o = Ok w ↔ a = chars "any" ∧ m = [] ∧ w = zeroIpWMask ∨
              a ≠ chars "any" ∧ address_means a m w).
Proof.
  intros Hm. cbv zeta. case_bool_decide as Ha.
  - case_bool_decide; cbn [negb]; (split; [done|]); naive_solver.
  - split; [by apply ParseCidrIp_spec|]. rewrite (proj2 (ParseCidrIp_spec a m w Hm)). naive_solver.
Qed.

Lemma dst_field_spec a m w :
  digits m →
  let o := if bool_decide (a = chars "assigned") || bool_decide (a = chars "any")
           then Ok (mkIpWMask 0 None None) else ParseCidrIp a m in
  no_panic o ∧
  (o = Ok w ↔ a ∈ [chars "any"; chars "assigned"] ∧ w = zeroIpWMask ∨
              a ∉ [chars "any"; chars "assigned"] ∧ address_means a m w).
Proof.
  intros Hm. cbv zeta. rewrite !elem_of_cons, elem_of_nil.
  do 2 case_bool_decide; cbn [orb]; try (split; [done|]; naive_solver).
  split; [by apply ParseCidrIp_spec|]. rewrite (proj2 (ParseCidrIp_spec a m w Hm)). naive_solver.
Qed.

Lemma ParseSdfFilter_spec d :
  no_panic (ParseSdfFilter d) ∧
  ∀ r, ParseSdfFilter d = Ok r ↔ ∃ f, wf_fields f ∧ chars d = render f ∧ filter_means f r.
Proof.
  unfold ParseSdfFilter. destruct (FindStringSubmatch flow_re (chars d)) as [c|] eqn:Hrun.
  2:{ split; [done|]. intros r. split; [done|]. intros (f & Hf & Hd & _).
      destruct (FindStringSubmatch_render f Hf) as (c & Hc & _). congruence. }
  apply FindStringSubmatch_Some, matches_flow_re in Hrun as [Hwf Hd].
  pose proof Hwf as (Hp & Hsrc & Hm3 & Hm4 & Hdst & Hm6 & Hm7). cbn in Hm3, Hm4, Hm6, Hm7. split.
  - apply outcome_bind_no_panic; [by apply (ParseProtocol_spec _ 0)|]. intros proto _.
    apply outcome_bind_no_panic; [by apply (src_field_spec _ _ zeroIpWMask)|]. intros src _.
    apply outcome_bind_no_panic; [by apply (ports_field_spec _ zeroPortRange)|]. intros sp _.
    apply outcome_bind_no_panic; [by apply (dst_field_spec _ _ zeroIpWMask)|]. intros dst _.
    by apply outcome_bind_no_panic; [by apply (ports_field_spec _ zeroPortRange)|].
  - intros r. rewrite outcome_bind_Ok. split.
    + intros (p & H1 & (src & H2 & (sp & H4 & (dst & H5 & (dp & H7 & [= <-])%outcome_bind_Ok)
        %outcome_bind_Ok)%outcome_bind_Ok)%outcome_bind_Ok).
      exists (fields_of c). do 2 (split; [done|]). split; [by apply ParseProtocol_spec|].
      split; [by apply src_field_spec|]. split; [by apply ports_field_spec|].
      split; [by apply dst_field_spec|]. by apply ports_field_spec.
    + intros (f & Hf & Heq & H1 & H2 & H4 & H5 & H7).
      assert (f = fields_of c) as -> by (apply render_inj; [done..|congruence]). clear Heq Hf.
      exists (Protocol r). split; [by apply ParseProtocol_spec|]. apply outcome_bind_Ok.
      exists (SrcAddress r). split; [by apply src_field_spec|]. apply outcome_bind_Ok.
      exists (SrcPortRange r). split; [by apply ports_field_spec|]. apply outcome_bind_Ok.
      exists (DstAddress r). split; [by apply dst_field_spec|]. apply outcome_bind_Ok.
      exists (DstPortRange r). split; [by apply ports_field_spec|]. by destruct r.
Qed.

(** ** Lemmas: lengths of addresses and masks *)

Lemma parse_v4_fields_length l val n fields pd ip :
  parse_v4_fields l val n fields pd = Some ip → length ip = 4%nat.
Proof.
  revert val n fields pd. induction l as [|c l IH]; intros val n fields pd; cbn [parse_v4_fields].
  - case_bool_decide as Hl; [|done]. intros [= <-]. rewrite length_app, Hl. done.
  - repeat case_match; try done; apply IH.
Qed.

Lemma parse_v6_loop_length fuel s ip e ip' e' s' :
  (length ip + 2 * fuel = 16)%nat →
  parse_v6_loop fuel s ip e = Some (ip', e', s') → (length ip' ≤ 16)%nat.
Proof.
  revert s ip e. induction fuel as [|fuel IH]; intros s ip e Hlen; cbn [parse_v6_loop].
  { intros [= <- _ _]. lia. }
  repeat case_match; try done; intros; simplify_eq; rewrite ?length_app; cbn; try lia;
    try (eapply IH; [|done]; rewrite length_app; cbn; lia).
  match goal with H : parseIPv4 _ = Some _ |- _ => apply parse_v4_fields_length in H end.
  rewrite ?bool_decide_eq_false in *. lia.
Qed.

Lemma expand_v6_length r ip :
  (length r.1.1 ≤ 16)%nat → expand_v6 r = Some ip → length ip = 16%nat.
Proof.
  destruct r as [[ip' e] s]. cbn [fst]. intros Hle. unfold expand_v6.
  repeat case_match; try done; intros [= <-]; rewrite ?bool_decide_eq_true, ?bool_decide_eq_false in *.
  - rewrite !length_app, length_take, length_replicate, length_drop. lia.
  - lia.
Qed.

Lemma ParseIP_length s ip : ParseIP s = Some ip → length ip = 16%nat.
Proof.
  unfold ParseIP, parseIPv4, parseIPv6. destruct (addr_kind (chars s)); [|done]. case_match.
  { destruct (parse_v4_fields _ _ _ _ _) as [b|] eqn:H4; [|done]. intros [= <-].
    apply parse_v4_fields_length in H4. change (12 + length b = 16)%nat. lia. }
  assert (∀ l e, parse_v6_loop 8 l [] e ≫= expand_v6 = Some ip → length ip = 16%nat) as Hloop.
  { intros l e ([[ip' e'] s'] & Hr & Hx)%bind_Some. eapply expand_v6_length; [|done].
    by eapply parse_v6_loop_length in Hr. }
  repeat case_match; try done; try apply Hloop. by intros [= <-].
Qed.

Lemma To4_length ip ip4 : To4 (Some ip) = Some ip4 → length ip4 = 4%nat.
Proof.
  unfold To4. repeat case_match; [intros [= <-]|intros [= <-]|done].
  - by apply bool_decide_eq_true in H.
  - apply andb_true_iff in H0 as [H0%bool_decide_eq_true _]. rewrite length_drop. lia.
Qed.

Lemma CIDRMask_length ones bits m :
  CIDRMask ones bits = Some m → Z.of_nat (length m) = bits / 8 ∧ 0 ≤ ones ≤ bits.
Proof.
  unfold CIDRMask. repeat case_match; try done. intros [= <-].
  rewrite length_fmap, length_seqZ. apply orb_false_iff in H0 as [? ?].
  apply negb_false_iff, orb_true_iff in H. rewrite !Z.eqb_eq in H. rewrite !Z.ltb_ge in *.
  split; [|lia]. rewrite Z2Nat.id; [done|]. apply Z.div_pos; lia.
Qed.

Lemma IPMask_same ip m :
  length ip = length m → IPMask (Some ip) (Some m) = Some (zip_with Z.land ip m).
Proof.
  intros Hlen. unfold IPMask. change (slice_bytes (Some ip)) with ip.
  change (slice_bytes (Some m)) with m. cbv zeta. rewrite !Hlen. destruct (decide (length m = 4%nat)) as [E4|E4].
  - rewrite (bool_decide_eq_false_2 (length m = 16%nat)) by lia. cbn [andb].
    rewrite E4, !andb_false_r. cbn [andb]. by rewrite bool_decide_eq_true_2 by lia.
  - rewrite (bool_decide_eq_false_2 (length m = 4%nat)) by done. rewrite !andb_false_r. cbn [andb].
    rewrite (bool_decide_eq_false_2 (length m = 4%nat)) by done. cbn [andb].
    rewrite bool_decide_eq_true_2; done.
Qed.

Lemma IPMask_nil ip : length ip ≠ 0%nat → IPMask (Some ip) None = None.
Proof.
  intros Hlen. unfold IPMask. change (slice_bytes (Some ip)) with ip.
  change (slice_bytes None) with ([] : bytes). cbv zeta. cbn [length].
  rewrite (bool_decide_eq_false_2 (0 = 16)%nat) by done. cbn [andb length].
  rewrite (bool_decide_eq_false_2 (0 = 4)%nat) by done. cbn [andb].
  by rewrite bool_decide_eq_false_2.
Qed.

Lemma zip_land_idem ip m : zip_with Z.land (zip_with Z.land ip m) m = zip_with Z.land ip m.
Proof.
  revert m. induction ip as [|a ip IH]; intros [|b m]; cbn; [done..|].
  rewrite IH, <-Z.land_assoc, Z.land_diag. done.
Qed.

(** An address of the parser, with the text [t] of its prefix length: none; or
    an address and a prefix mask of its family's length, without bits outside
    the mask; or, for a prefix longer than the address, a family without
    either. *)
Definition wf_address (t : text) (w : IpWMask) : Prop :=
  w = zeroIpWMask ∨
  (w = mkIpWMask 1 None None ∧ 32 < digits_val t ∨ w = mkIpWMask 2 None None ∧ 128 < digits_val t) ∨
  ∃ n k ip m, (Type_ w = 1 ∧ n = 4%nat ∨ Type_ w = 2 ∧ n = 16%nat) ∧
    Ip w = Some ip ∧ Mask w = Some m ∧ length ip = n ∧ octets ip ∧
    CIDRMask k (8 * Z.of_nat n) = Some m ∧ length m = n ∧ zip_with Z.land ip m = ip.

Lemma family_length ip :
  length ip = 16%nat →
  ((family ip).1 = 1 ∧ length (family ip).2 = 4%nat) ∨
  ((family ip).1 = 2 ∧ length (family ip).2 = 16%nat).
Proof.
  intros H16. unfold family. destruct (To4 (Some ip)) as [ip4|] eqn:H4; [left|by right].
  by apply To4_length in H4.
Qed.

Lemma family_octets ip : octets ip → octets (family ip).2.
Proof.
  intros Hip. unfold family. destruct (To4 (Some ip)) as [ip4|] eqn:H4; [|done].
  by apply (To4_octets (Some ip) ip4) in H4 as [_ ?].
Qed.

Lemma zip_land_octets ip m : octets ip → octets (zip_with Z.land ip m).
Proof.
  intros Hip. revert m. induction Hip as [|a ip Ha Hip IH]; intros [|b m]; [constructor..|].
  apply Forall_cons. split; [|apply IH]. change (0 ≤ Z.land a b < 256).
  rewrite <-(Z.mod_small a 256) by lia. change 256 with (2 ^ 8). rewrite <-Z.land_ones by done.
  rewrite <-Z.land_assoc, (Z.land_comm _ b), Z.land_assoc, Z.land_ones by done. by apply Z.mod_pos_bound.
Qed.

(** Under the mask of all bits an address is itself. *)
Lemma zip_land_full ip k :
  octets ip → CIDRMask (8 * Z.of_nat (length ip)) (8 * Z.of_nat (length ip)) = Some k →
  zip_with Z.land ip k = ip.
Proof.
  intros Hip. unfold CIDRMask. case_match; [done|]. case_match; [done|]. intros [= <-].
  rewrite Z.mul_comm, Z.div_mul, Z.mul_comm by done.
  assert (∀ n, 0 ≤ n → (λ i, mask_byte (8 * (n + Z.of_nat (length ip)) - 8 * i)) <$> seqZ n (Z.of_nat (length ip))
    = replicate (length ip) 255) as Hones.
  { clear. induction ip as [|a ip IH]; intros n Hn; [by rewrite seqZ_nil|]. cbn [length replicate].
    rewrite seqZ_cons, fmap_cons by lia. f_equal.
    - unfold mask_byte. rewrite (proj2 (Z.leb_le _ _)); lia.
    - rewrite <-(IH (Z.succ n)) by lia. rewrite Nat2Z.inj_succ.
      replace (Z.pred (Z.succ (Z.of_nat (length ip)))) with (Z.of_nat (length ip)) by lia.
      apply list_fmap_ext. intros j x _. f_equal. lia. }
  specialize (Hones 0 ltac:(lia)). rewrite Z.add_0_l in Hones. rewrite Hones. clear -Hip.
  induction Hip as [|a ip Ha Hip IH]; cbn; [done|]. rewrite IH. change 255 with (Z.ones 8).
  by rewrite Z.land_ones, Z.mod_small by (done || lia).
Qed.

(** A mask is missing only when the prefix is longer than the address. *)
Lemma CIDRMask_missing t bits :
  bits = 32 ∨ bits = 128 → digits t → digits_val t < 2 ^ 64 →
  CIDRMask (int_of_uint64 (digits_val t)) bits = None → bits < digits_val t.
Proof.
  intros Hbits Ht%digits_val_nonneg Hlt. unfold CIDRMask, int_of_uint64.
  assert (negb ((bits =? 32) || (bits =? 128)) = false) as -> by (by destruct Hbits as [-> | ->]).
  destruct (_ || _) eqn:Hor; [|done]. intros _. apply orb_true_iff in Hor. rewrite !Z.ltb_lt in Hor.
  revert Hor. case_match; lia.
Qed.

Lemma address_means_wf a m w : digits m → address_means a m w → wf_address m w.
Proof.
  intros Hm (ip0 & Hip & Hw). pose proof (ParseIP_octets _ _ Hip) as Hoct%family_octets.
  apply ParseIP_length, family_length in Hip.
  destruct (family ip0) as [ty ip] eqn:Hf. cbn [fst snd] in *. cbv zeta in Hw.
  set (bits := 8 * Z.of_nat (length ip)) in *.
  assert (∀ ones k, CIDRMask ones bits = Some k → length k = length ip) as Hk.
  { intros ones k [Hl _]%CIDRMask_length. unfold bits in Hl. rewrite Z.mul_comm, Z.div_mul in Hl; lia. }
  assert (∀ ones k ip', CIDRMask ones bits = Some k → length ip' = length ip → octets ip' →
    zip_with Z.land ip' k = ip' → wf_address m (mkIpWMask ty (Some ip') (Some k))) as Hwf.
  { intros ones k ip' Hc ???. right. right. exists (length ip), ones, ip', k. cbn. naive_solver. }
  destruct Hw as [[-> ->]|(Hne & Hlt & ->)].
  - destruct (CIDRMask bits bits) as [k|] eqn:Hc; [by eapply Hwf, zip_land_full|].
    exfalso. unfold CIDRMask, bits in Hc. destruct Hip as [[_ H4]|[_ H16]];
      rewrite ?H4, ?H16 in Hc; done.
  - destruct (CIDRMask (int_of_uint64 (digits_val m)) bits) as [k|] eqn:Hc.
    + pose proof (Hk _ _ Hc) as Hlen. rewrite IPMask_same by done.
      eapply Hwf; [done|rewrite length_zip_with; lia|by apply zip_land_octets|apply zip_land_idem].
    + rewrite IPMask_nil by lia. right. left.
      apply CIDRMask_missing in Hc; [|unfold bits; lia|done|done]. unfold bits in Hc.
      destruct Hip as [[-> H4]|[-> H16]]; [left|right]; (split; [done|lia]).
Qed.

Lemma ports_mean_bounds t r :
  ports_mean t r → 0 ≤ LowerBound r ≤ UpperBound r ∧ UpperBound r ≤ 65535.
Proof.
  intros [[_ ->]|[([_ Hd] & -> & Hle)|(a & b & [_ Ha] & _ & _ & -> & Hle)]]; cbn; [lia| |].
  - apply digits_val_nonneg in Hd. lia.
  - apply digits_val_nonneg in Ha. lia.
Qed.

(** C18: [ParseSdfFilter] reads exactly the grammar of flow descriptions.  It
    never panics, on any string; it accepts a description with result [r]
    exactly when the description is the text of seven well-formed fields whose
    meaning is [r], and a description has one reading only. *)
Theorem ParseSdfFilter_reads_grammar d :
  no_panic (ParseSdfFilter d) ∧
  (∀ r, ParseSdfFilter d = Ok r ↔ ∃ f, wf_fields f ∧ chars d = render f ∧ filter_means f r) ∧
  (∀ f f', wf_fields f → wf_fields f' → chars d = render f → chars d = render f' → f = f').
Proof.
  split; [apply ParseSdfFilter_spec|]. split; [apply ParseSdfFilter_spec|].
  intros f f' Hf Hf' Hd Hd'. apply render_inj; [done..|congruence].
Qed.

(** C20: every filter the parser accepts is well-formed.  Its protocol is one
    of the five codes; both port ranges are ordered and within 16 bits; each
    address is absent, or has bytes and a prefix mask of its family's length
    and no bit outside the mask, or -- only when the description gives a prefix
    longer than 32 bits for an IPv4 or 128 for an IPv6 address -- has a family
    but neither bytes nor mask. *)
Theorem ParseSdfFilter_bounds d r :
  ParseSdfFilter d = Ok r →
  ∃ f, wf_fields f ∧ chars d = render f ∧
  0 ≤ Protocol r ≤ 4 ∧ wf_address (ff_src_mask f) (SrcAddress r) ∧ wf_address (ff_dst_mask f) (DstAddress r) ∧
  0 ≤ LowerBound (SrcPortRange r) ≤ UpperBound (SrcPortRange r) ∧
  UpperBound (SrcPortRange r) ≤ 65535 ∧
  0 ≤ LowerBound (DstPortRange r) ≤ UpperBound (DstPortRange r) ∧
  UpperBound (DstPortRange r) ≤ 65535.
Proof.
  intros (f & Hf & Hd & H1 & H2 & H4%ports_mean_bounds & H5 & H7%ports_mean_bounds)%ParseSdfFilter_spec.
  exists f. split; [done|]. split; [done|]. destruct Hf as (_ & _ & Hms & _ & _ & Hmd & _).
  split; [|split; [|split; [|naive_solver]]].
  - unfold proto_means in H1. rewrite !elem_of_cons, elem_of_nil in H1. naive_solver lia.
  - destruct H2 as [(_ & _ & ->)|[_ H2%address_means_wf]]; [by left|done|done].
  - destruct H5 as [(_ & ->)|[_ H5%address_means_wf]]; [by left|done|done].
Qed.

Lemma ParseSdfFilter_bounds_witness :
  ∃ r, ParseSdfFilter "permit out tcp from 1.1.1.1/20 80 to 100.1.2.3 9121-10202" = Ok r ∧
       UpperBound (DstPortRange r) ≤ 65535.
Proof.
  eexists. split; [vm_compute; reflexivity|].
  destruct (ParseSdfFilter_bounds "permit out tcp from 1.1.1.1/20 80 to 100.1.2.3 9121-10202" _ eq_refl)
    as (f & _ & _ & Hall). apply Hall.
Defined.

(** A prefix of 33 bits is accepted. *)
Example prefix_too_long :
  ParseSdfFilter "permit out ip from 10.0.0.1/33 to any" =
  Ok (mkSdfFilter 1 (mkIpWMask 1 None None) (mkPortRange 0 65535) zeroIpWMask (mkPortRange 0 65535)).
Proof. vm_compute. reflexivity. Qed.

(** ** Printing filters *)

Inductive endpoint :=
  | AnyAddress
  | Net4 (a b c d len : Z).

Definition valid_endpoint (e : endpoint) : Prop :=
  match e with
  | AnyAddress => True
  | Net4 a b c d len => Forall (in_range 8) [a; b; c; d] ∧ 0 ≤ len ≤ 32
  end.

(** What an endpoint denotes: the network's address and its mask. *)
Definition endpoint_address (e : endpoint) : IpWMask :=
  match e with
  | AnyAddress => zeroIpWMask
  | Net4 a b c d len =>
      let mask := (λ i, mask_byte (len - 8 * i)) <$> [0; 1; 2; 3] in
      mkIpWMask 1 (Some (zip_with Z.land [a; b; c; d] mask)) (Some mask)
  end.

Definition endpoint_text (e : endpoint) : text * text :=
  match e with
  | AnyAddress => (chars "any", [])
  | Net4 a b c d len => (dotted a b c d, dec 3 len)
  end.

Definition ports_range_text (r : PortRange) : text :=
  dec 5 (LowerBound r) ++ "-"%char :: dec 5 (UpperBound r).

Definition proto_text (n : Z) : text :=
  chars (nth (Z.to_nat n) ["icmp"; "ip"; "tcp"; "udp"; "58"] "").

Definition print_filter (proto : Z) (src : endpoint) (sports : PortRange)
    (dst : endpoint) (dports : PortRange) : string :=
  String.string_of_list_ascii (render
    (mkFlowFields (proto_text proto) (endpoint_text src).1 (endpoint_text src).2
       (ports_range_text sports) (endpoint_text dst).1 (endpoint_text dst).2
       (ports_range_text dports))).

(** ** Lemmas: decimal notation *)

Lemma digit_ok n : 0 ≤ n < 10 → is_digit (digit n) = true ∧ digit_val (digit n) = n.
Proof.
  intros Hn. assert (n ∈ seqZ 0 10) as Hin by (apply elem_of_seqZ; lia).
  clear Hn. revert n Hin. apply Forall_forall. repeat (constructor; [done|]). constructor.
Qed.

Lemma div10_bound fuel n :
  0 ≤ n < 10 ^ Z.of_nat (S fuel) →
  0 ≤ n / 10 < 10 ^ Z.of_nat fuel ∧ 0 ≤ n mod 10 < 10 ∧ n = n / 10 * 10 + n mod 10.
Proof.
  rewrite Nat2Z.inj_succ, Z.pow_succ_r by lia. intros Hn.
  pose proof (Z.mod_pos_bound n 10). pose proof (Z.div_mod n 10).
  split; [|lia]. split; [apply Z.div_pos; lia|apply Z.div_lt_upper_bound; lia].
Qed.

Lemma dec_digits fuel n : 0 ≤ n < 10 ^ Z.of_nat fuel → digits (dec fuel n).
Proof.
  revert n. induction fuel as [|fuel IH]; intros n Hn; cbn [dec]; [constructor|].
  pose proof (div10_bound _ _ Hn) as (? & ? & ?). destruct (Z.ltb_spec n 10).
  - constructor; [apply digit_ok; lia|constructor].
  - apply Forall_app. split; [by apply IH|].
    constructor; [by apply digit_ok|constructor].
Qed.

Lemma dec_val fuel n : 0 ≤ n < 10 ^ Z.of_nat fuel → digits_val (dec fuel n) = n.
Proof.
  revert n. induction fuel as [|fuel IH]; intros n Hn; cbn [dec]; [cbn in *; lia|].
  pose proof (div10_bound _ _ Hn) as (? & ? & ?). destruct (Z.ltb_spec n 10).
  - pose proof (proj2 (digit_ok n ltac:(lia))) as Hd. unfold digits_val. cbn [foldl]. lia.
  - rewrite digits_val_app, IH by done. rewrite (proj2 (digit_ok (n mod 10) ltac:(done))). lia.
Qed.

Lemma dec_nonempty fuel n : dec (S fuel) n ≠ [].
Proof. cbn [dec]. case_match; [done|]. by destruct (dec fuel (n / 10)). Qed.

Lemma dec_digits1 fuel n : 0 ≤ n < 10 ^ Z.of_nat (S fuel) → digits1 (dec (S fuel) n).
Proof. intros. split; [apply dec_nonempty|by apply dec_digits]. Qed.

(** Reading an octet: the digits at the front of [parse_v4_fields]. *)
Fixpoint eat (l : text) (val n : Z) : option (Z * Z) :=
  match l with
  | [] => Some (val, n)
  | c :: l' =>
      if (n =? 1) && (val =? 0) then None
      else let val' := val * 10 + digit_val c in
           if 255 <? val' then None else eat l' val' (n + 1)
  end.

Lemma eat_parse l rest val n fields pd val' n' :
  l ≠ [] → digits l → eat l val n = Some (val', n') →
  parse_v4_fields (l ++ rest) val n fields pd = parse_v4_fields rest val' n' fields false.
Proof.
  intros Hne Hl. revert val n pd Hne. induction Hl as [|c l Hc Hl IH]; intros val n pd Hne; [done|].
  cbn [eat app parse_v4_fields]. rewrite Hc. destruct ((n =? 1) && (val =? 0)); [done|].
  cbv zeta. destruct (255 <? val * 10 + digit_val c); [done|].
  destruct l as [|c' l]; [by intros [= <- <-]|]. by apply IH.
Qed.

Lemma eat_octet n : in_range 8 n → ∃ k, eat (dec 3 n) 0 0 = Some (n, k).
Proof.
  intros Hn. assert (n ∈ seqZ 0 256) as Hin by (apply elem_of_seqZ; unfold in_range in Hn; lia).
  assert (fst <$> eat (dec 3 n) 0 0 = Some n) as Heat.
  { clear Hn. revert n Hin. apply Forall_forall.
    assert (forallb (λ n, bool_decide (fst <$> eat (dec 3 n) 0 0 = Some n)) (seqZ 0 256) = true)
      as Hall by (vm_compute; done).
    apply Forall_forall. intros x Hx. rewrite forallb_forall in Hall.
    apply list_elem_of_In in Hx. by apply Hall, bool_decide_eq_true in Hx. }
  destruct (eat (dec 3 n) 0 0) as [[v k]|]; naive_solver.
Qed.

Lemma octet_step n rest fields pd :
  in_range 8 n → ∃ k,
  parse_v4_fields (dec 3 n ++ rest) 0 0 fields pd = parse_v4_fields rest n k fields false.
Proof.
  intros Hn. destruct (eat_octet n Hn) as [k Hk]. exists k.
  apply eat_parse; [apply dec_nonempty|apply dec_digits|done].
  unfold in_range in Hn. cbn. lia.
Qed.

Lemma dot_step n k rest fields :
  rest ≠ [] → length fields ≠ 3%nat →
  parse_v4_fields ("."%char :: rest) n k fields false = parse_v4_fields rest 0 0 (fields ++ [n]) true.
Proof.
  intros Hne Hlen. cbn [parse_v4_fields is_digit]. change (is_digit ".") with false. cbn [orb].
  change (Ascii.eqb "." ".") with true.
  by rewrite !bool_decide_eq_false_2.
Qed.

Lemma parseIPv4_dotted a b c d :
  Forall (in_range 8) [a; b; c; d] → parseIPv4 (dotted a b c d) = Some [a; b; c; d].
Proof.
  rewrite !Forall_cons. intros (Ha & Hb & Hc & Hd & _). unfold parseIPv4, dotted.
  assert (∀ n l, dec 3 n ++ l ≠ []) as Hne.
  { intros n l [H _]%app_nil. by apply dec_nonempty in H. }
  destruct (octet_step a ("."%char :: dec 3 b ++ "."%char :: dec 3 c ++ "."%char :: dec 3 d) [] true Ha)
    as [k1 ->]. rewrite dot_step by done. cbn [app].
  destruct (octet_step b ("."%char :: dec 3 c ++ "."%char :: dec 3 d) [a] true Hb) as [k2 ->].
  rewrite dot_step by done. cbn [app].
  destruct (octet_step c ("."%char :: dec 3 d) [a; b] true Hc) as [k3 ->].
  rewrite dot_step by first [done|apply dec_nonempty]. cbn [app].
  destruct (octet_step d [] [a; b; c] true Hd) as [k4 Hk].
  rewrite app_nil_r in Hk. by rewrite Hk.
Qed.

Lemma addr_kind_digits l rest :
  digits l → addr_kind (l ++ "."%char :: rest) = Some "."%char.
Proof.
  induction 1 as [|c l Hc Hl IH]; [done|]. cbn [app addr_kind].
  assert (Ascii.eqb c "." || Ascii.eqb c ":" || Ascii.eqb c "%" = false) as ->; [|exact IH].
  revert Hc. clear. by_char c.
Qed.

Lemma ParseIP_dotted a b c d :
  Forall (in_range 8) [a; b; c; d] →
  ParseIP (String.string_of_list_ascii (dotted a b c d)) = Some (v4InV6Prefix ++ [a; b; c; d]).
Proof.
  intros Hr. unfold ParseIP. rewrite chars_string.
  assert (addr_kind (dotted a b c d) = Some "."%char) as ->.
  { apply addr_kind_digits, dec_digits. rewrite Forall_cons in Hr. destruct Hr as [Hr _].
    unfold in_range in Hr. cbn. lia. }
  change (Ascii.eqb "." ".") with true. cbn iota. by rewrite parseIPv4_dotted.
Qed.

(** ** Lemmas: the printed fields *)

Lemma dotted_v4 a b c d :
  Forall (in_range 8) [a; b; c; d] →
  dotted a b c d ≠ [] ∧ Forall (λ x, is_v4_char x = true) (dotted a b c d).
Proof.
  intros Hr. assert (∀ n, in_range 8 n → Forall (λ x, is_v4_char x = true) (dec 3 n)) as Hdec.
  { intros n Hn. assert (digits (dec 3 n)) as Hd by (apply dec_digits; unfold in_range in Hn; cbn; lia).
    eapply Forall_impl; [exact Hd|]. cbn beta. intros x Hx. unfold is_v4_char. by rewrite Hx. }
  rewrite !Forall_cons in Hr. destruct Hr as (Ha & Hb & Hc & Hd & _). split.
  - intros [H _]%app_nil. by apply dec_nonempty in H.
  - unfold dotted. repeat (apply Forall_app; split; [by apply Hdec|constructor; [done|]]).
    by apply Hdec.
Qed.

Lemma endpoint_text_wf e :
  valid_endpoint e →
  address_text (endpoint_text e).1 ∧ digits (endpoint_text e).2 ∧
  (endpoint_text e).1 ≠ chars "assigned".
Proof.
  destruct e as [|a b c d len]; intros He; [by repeat split; try left; try constructor|].
  destruct He as [Hr Hlen]. pose proof (dotted_v4 _ _ _ _ Hr) as [Hne Hv4].
  cbn [endpoint_text fst snd]. split; [right; by auto|]. split; [apply dec_digits; cbn; lia|].
  intros Heq. rewrite Heq in Hv4. apply Forall_cons in Hv4 as [H _]. done.
Qed.

Lemma endpoint_text_means e :
  valid_endpoint e →
  (endpoint_text e).1 = chars "any" ∧ (endpoint_text e).2 = [] ∧ endpoint_address e = zeroIpWMask ∨
  (endpoint_text e).1 ≠ chars "any" ∧
  address_means (endpoint_text e).1 (endpoint_text e).2 (endpoint_address e).
Proof.
  destruct e as [|a b c d len]; intros He; [by left|right].
  destruct He as [Hr Hlen]. pose proof (dotted_v4 _ _ _ _ Hr) as [_ Hv4].
  cbn [endpoint_text fst snd]. split.
  { intros Heq. rewrite Heq in Hv4. by apply Forall_cons in Hv4 as [H _]. }
  exists (v4InV6Prefix ++ [a; b; c; d]). split; [by apply ParseIP_dotted|].
  change (family (v4InV6Prefix ++ [a; b; c; d])) with (1, [a; b; c; d]). cbv zeta.
  right.
  rewrite dec_val by (cbn; lia). split; [apply dec_nonempty|]. split; [lia|].
  assert (int_of_uint64 len = len) as ->.
  { unfold int_of_uint64. by rewrite (proj2 (Z.ltb_lt len (2 ^ 63))) by lia. }
  change (8 * Z.of_nat (length [a; b; c; d])) with 32.
  assert (CIDRMask len 32 = Some ((λ i, mask_byte (len - 8 * i)) <$> [0; 1; 2; 3])) as ->.
  { unfold CIDRMask. change ((32 =? 32) || (32 =? 128)) with true. cbn [negb].
    rewrite (proj2 (Z.ltb_ge len 0)), (proj2 (Z.ltb_ge 32 len)) by lia. done. }
  by rewrite IPMask_same.
Qed.

Lemma ports_range_text_ok r :
  0 ≤ LowerBound r ≤ UpperBound r → UpperBound r ≤ 65535 →
  ports_text (ports_range_text r) ∧ ports_mean (ports_range_text r) r.
Proof.
  intros Hlo Hhi. assert (∀ n, 0 ≤ n ≤ 65535 → digits1 (dec 5 n) ∧ digits_val (dec 5 n) = n) as Hdec.
  { intros n Hn. split; [apply dec_digits1; cbn; lia|apply dec_val; cbn; lia]. }
  destruct (Hdec (LowerBound r)) as [Hd1 Hv1]; [lia|].
  destruct (Hdec (UpperBound r)) as [Hd2 Hv2]; [lia|]. split.
  - right. right. by exists (dec 5 (LowerBound r)), (dec 5 (UpperBound r)).
  - right. right. exists (dec 5 (LowerBound r)), (dec 5 (UpperBound r)). do 3 (split; [done|]). rewrite Hv1, Hv2. split; [by destruct r|lia].
Qed.

Lemma proto_text_ok n :
  0 ≤ n ≤ 4 →
  (proto_text n ∈ [chars "icmp"; chars "ip"; chars "tcp"; chars "udp"] ∨ digits1 (proto_text n)) ∧
  proto_means (proto_text n) n.
Proof.
  intros Hn. assert (n ∈ seqZ 0 5) as Hin by (apply elem_of_seqZ; lia). unfold proto_means.
  change (seqZ 0 5) with [0; 1; 2; 3; 4] in Hin. rewrite !elem_of_cons, elem_of_nil in Hin.
  rewrite !elem_of_cons, !elem_of_nil.
  destruct Hin as [->|[->|[->|[->|[->|[]]]]]]; (split; [|naive_solver]);
    try (left; naive_solver); right; by repeat constructor.
Qed.

(** C19: printing and parsing are inverse.  A filter printed as a flow
    description -- any of the five protocols, [any] or an IPv4 network with a
    prefix length, and port ranges -- is parsed back to that filter, with the
    address masked by its prefix. *)
Theorem ParseSdfFilter_print proto src sports dst dports :
  0 ≤ proto ≤ 4 → valid_endpoint src → valid_endpoint dst →
  0 ≤ LowerBound sports ≤ UpperBound sports → UpperBound sports ≤ 65535 →
  0 ≤ LowerBound dports ≤ UpperBound dports → UpperBound dports ≤ 65535 →
  ParseSdfFilter (print_filter proto src sports dst dports) =
  Ok (mkSdfFilter proto (endpoint_address src) sports (endpoint_address dst) dports).
Proof.
  intros Hp Hsrc Hdst Hs1 Hs2 Hd1 Hd2. apply ParseSdfFilter_spec. eexists.
  split; [|split; [apply chars_string|]].
  - destruct (endpoint_text_wf src Hsrc) as (? & ? & _), (endpoint_text_wf dst Hdst) as (? & ? & _).
    repeat split; cbn [ff_proto ff_src ff_src_mask ff_src_ports ff_dst ff_dst_mask ff_dst_ports];
      [by apply proto_text_ok|done|done|by apply ports_range_text_ok|by right|done|
       by apply ports_range_text_ok].
  - destruct (endpoint_text_wf dst Hdst) as (_ & _ & Hna).
    repeat split; cbn [ff_proto ff_src ff_src_mask ff_src_ports ff_dst ff_dst_mask ff_dst_ports
      Protocol SrcAddress SrcPortRange DstAddress DstPortRange];
      [by apply proto_text_ok|by apply endpoint_text_means|by apply ports_range_text_ok| |
       by apply ports_range_text_ok].
    rewrite !elem_of_cons, elem_of_nil.
    destruct (endpoint_text_means dst Hdst) as [(Ha & _ & Hz)|[Ha Hm]]; [left|right]; naive_solver.
Qed.

Lemma ParseSdfFilter_print_witness :
  print_filter 3 (Net4 10 0 1 77 24) (mkPortRange 22 23) AnyAddress (mkPortRange 0 65535) =
    "permit out udp from 10.0.1.77/24 22-23 to any 0-65535"%string ∧
  ParseSdfFilter (print_filter 3 (Net4 10 0 1 77 24) (mkPortRange 22 23) AnyAddress
    (mkPortRange 0 65535)) =
  Ok (mkSdfFilter 3 (mkIpWMask 1 (Some [10; 0; 1; 0]) (Some [255; 255; 255; 0]))
        (mkPortRange 22 23) zeroIpWMask (mkPortRange 0 65535)).
Proof.
  split; [vm_compute; reflexivity|].
  apply (ParseSdfFilter_print 3 (Net4 10 0 1 77 24) (mkPortRange 22 23) AnyAddress);
    try (cbn; lia). split; [|lia]. repeat constructor; cbn; lia.
Defined.
