(* ===== verification/Pfcp.v ===== *)
(** * PFCP messages and information elements

    github.com/wmnsk/go-pfcp parses and builds PFCP.  A received information
    element (IE) is a value of an abstract type with the accessors the source
    calls, each of which returns a value or an error; a message built for
    sending is kept as the constructor calls that build it. *)

From S2P Require Import Prelude Net.

(** ** Received information elements *)

(** The fields of [ie.FTEIDFields], [ie.UEIPAddressFields] and
    [ie.OuterHeaderCreationFields] the source reads. *)
Record FTEIDFields := mkFTEIDFields {
  fteid_Flags : Z;
  fteid_TEID : Z;
  ChooseID : Z;
  fteid_IPv4Address : NetIP;
  fteid_IPv6Address : NetIP
}.

Record UEIPAddressFields := mkUEIPFields {
  ueip_Flags : Z;
  IPv4Address : NetIP;
  IPv6Address : NetIP
}.

Record OuterHeaderCreationFields := mkOHCFields {
  OuterHeaderCreationDescription : Z;
  ohc_TEID : Z;
  ohc_IPv4Address : NetIP
}.

(** The pair of names or addresses [RedirectInformation] and
    [HeaderEnrichment] return, as text. *)
Record TextPair := mkTextPair { first_text : string; second_text : string }.

Class Pfcp := {
  IE : Type;
  IE_Type : IE → Z;
  ChildIEs : IE → list IE;

  (* identifiers of the types the source compares with *)
  ie_CreatePDR : Z;
  ie_UpdatePDR : Z;
  ie_CreateFAR : Z;
  ie_UpdateFAR : Z;
  ie_URRID : Z;
  ie_QERID : Z;
  ie_FTEID : Z;
  ie_UEIPAddress : Z;
  ie_TransportLevelMarking : Z;

  (* node level *)
  IE_NodeID : IE → result string;
  IE_Cause : IE → result Z;
  IE_CPFunctionFeatures : IE → result Z;
  IE_FSEID : IE → result Z;                       (* the field SEID *)
  IE_RecoveryTimeStamp : option IE → outcome Z;   (* also called on nil *)

  (* PDRs *)
  IE_PDRID : IE → result Z;
  IE_CreatePDR : IE → result (list IE);
  IE_UpdatePDR : IE → result (list IE);
  IE_PDI : IE → result (list IE);
  IE_OuterHeaderRemovalDescription : IE → result Z;
  IE_SDFFilter : IE → result string;              (* the field FlowDescription *)
  IE_FTEID : IE → result FTEIDFields;
  HasCh : FTEIDFields → bool;
  HasChID : FTEIDFields → bool;
  IE_UEIPAddress : IE → result UEIPAddressFields;

  (* FARs *)
  IE_FARID : IE → result Z;
  IE_ApplyAction : IE → result bytes;
  IE_ForwardingParameters : IE → result (list IE);
  IE_UpdateForwardingParameters : IE → result (list IE);
  IE_OuterHeaderCreation : IE → option OuterHeaderCreationFields * option error;
  HasIPv4 : OuterHeaderCreationFields → bool;
  HasIPv6 : OuterHeaderCreationFields → bool;
  IE_TransportLevelMarking : IE → result Z;

  (* QERs and URRs *)
  IE_QERID : IE → result Z;
  IE_GateStatusDL : IE → result Z;
  IE_GateStatusUL : IE → result Z;
  IE_MBRDL : IE → result Z;
  IE_MBRUL : IE → result Z;
  IE_QFI : IE → result Z;
  IE_URRID : IE → result Z;

  (* only printed; a structure or a time is the text [fmt] makes of it *)
  IE_BARID : IE → result Z;
  IE_DownlinkDataNotificationDelay : IE → result string;
  IE_SuggestedBufferingPacketsCount : IE → result Z;
  IE_MTEDTControlInformation : IE → result Z;
  IE_MeasurementMethod : IE → result Z;
  IE_VolumeThreshold : IE → result string;
  IE_TimeThreshold : IE → result Z;
  IE_MonitoringTime : IE → result string;
  IE_NetworkInstance : IE → result string;
  OuterHeaderCreation_text : option OuterHeaderCreationFields → string;
  IE_RedirectInformation : IE → result TextPair;
  IE_HeaderEnrichment : IE → result TextPair;
  IE_DuplicatingParameters : IE → result string;
  IE_SourceInterface : IE → result Z;
  RecoveryTimeStamp_text : Z → string
}.

(** ** Causes (docs/PfcpCauseCodes.md) *)

Definition CauseRequestAccepted : Z := 1.
Definition CauseRequestRejected : Z := 64.
Definition CauseSessionContextNotFound : Z := 65.
Definition CauseMandatoryIEMissing : Z := 66.
Definition CauseConditionalIEMissing : Z := 67.
Definition CauseInvalidLength : Z := 68.
Definition CauseMandatoryIEIncorrect : Z := 69.
Definition CauseInvalidForwardingPolicy : Z := 70.
Definition CauseInvalidFTEIDAllocationOption : Z := 71.
Definition CauseNoEstablishedPFCPAssociation : Z := 72.
Definition CauseRuleCreationModificationFailure : Z := 73.
Definition CausePFCPEntityInCongestion : Z := 74.
Definition CauseNoResourcesAvailable : Z := 75.
Definition CauseServiceNotSupported : Z := 76.
Definition CauseSystemFailure : Z := 77.
Definition CauseRedirectionRequested : Z := 78.

(* cmd/core/pfcp_session_handlers.go:523-560 causeToString *)
Definition causeToString (cause : Z) : string :=
  if cause =? CauseRequestAccepted then "RequestAccepted"
  else if cause =? CauseRequestRejected then "RequestRejected"
  else if cause =? CauseSessionContextNotFound then "SessionContextNotFound"
  else if cause =? CauseMandatoryIEMissing then "MandatoryIEMissing"
  else if cause =? CauseConditionalIEMissing then "ConditionalIEMissing"
  else if cause =? CauseInvalidLength then "InvalidLength"
  else if cause =? CauseMandatoryIEIncorrect then "MandatoryIEIncorrect"
  else if cause =? CauseInvalidForwardingPolicy then "InvalidForwardingPolicy"
  else if cause =? CauseInvalidFTEIDAllocationOption then "InvalidFTEIDAllocationOption"
  else if cause =? CauseNoEstablishedPFCPAssociation then "NoEstablishedPFCPAssociation"
  else if cause =? CauseRuleCreationModificationFailure then "RuleCreationModificationFailure"
  else if cause =? CausePFCPEntityInCongestion then "PFCPEntityInCongestion"
  else if cause =? CauseNoResourcesAvailable then "NoResourcesAvailable"
  else if cause =? CauseServiceNotSupported then "ServiceNotSupported"
  else if cause =? CauseSystemFailure then "SystemFailure"
  else if cause =? CauseRedirectionRequested then "RedirectionRequested"
  else "UnknownCause".

(** ** Built information elements and messages *)

(** One constructor per [ie.New*] the source calls; [NewEndTime] is always
    applied to the current time, which is left out. *)
Inductive OutIE :=
  | NewNodeID (ipv4 ipv6 fqdn : string)
  | NewCause (cause : Z)
  | NewFSEID (seid : Z) (v4 v6 : NetIP)
  | NewPDRID (id : Z)
  | NewUEIPAddress (flags : Z) (v4 v6 : string) (v6d v6pl : Z)
  | NewFTEID (flags teid : Z) (v4 v6 : NetIP) (chid : Z)
  | NewCreatedPDR (ies : list OutIE)
  | NewURRID (id : Z)
  | NewURSEQN (seqn : Z)
  | NewUsageReportTrigger (octets : bytes)
  | NewEndTime
  | NewVolumeMeasurement (flags total ul dl totalP ulP dlP : Z)
  | NewUsageReportWithinSessionDeletionResponse (ies : list OutIE)
  | NewUsageReportWithinSessionModificationResponse (ies : list OutIE)
  | NewRecoveryTimeStamp (ts : Z)
  | NewUPFunctionFeatures (octets : bytes).

Inductive MsgType :=
  | HeartbeatRequest
  | HeartbeatResponse
  | AssociationSetupRequest
  | AssociationSetupResponse
  | AssociationUpdateRequest
  | AssociationUpdateResponse
  | SessionEstablishmentRequest
  | SessionEstablishmentResponse
  | SessionDeletionRequest
  | SessionDeletionResponse
  | SessionModificationRequest
  | SessionModificationResponse
  | OtherMessage (code : Z).

#[export] Instance MsgType_eq_dec : EqDecision MsgType.
Proof. solve_decision. Defined.

(** A built message.  [out_seid] is the SEID argument of the session messages,
    0 in the others; [out_seq] the sequence number. *)
Record OutMsg := mkOutMsg {
  out_type : MsgType;
  out_seid : Z;
  out_seq : Z;
  out_ies : list OutIE
}.

(** The cause a message carries. *)
Definition cause_of (m : OutMsg) : option Z :=
  head (omap (λ i, match i with NewCause c => Some c | _ => None end) (out_ies m)).

(* cmd/core/pfcp_session_handlers.go:17-17 errMandatoryIeMissing *)
Definition errMandatoryIeMissing : error := Sentinel "mandatory IE missing".
(* cmd/core/pfcp_session_handlers.go:18-18 errNoEstablishedAssociation *)
Definition errNoEstablishedAssociation : error := Sentinel "no established association".

(* cmd/core/pfcp_session_handlers.go:486-496 convertErrorToIeCause *)
Definition convertErrorToIeCause (err : error) : OutIE :=
  if bool_decide (err = errMandatoryIeMissing) then NewCause CauseMandatoryIEMissing
  else if bool_decide (err = errNoEstablishedAssociation)
  then NewCause CauseNoEstablishedPFCPAssociation
  else NewCause CauseRequestRejected.

(* cmd/core/pfcp_handlers.go:182-191 newIeNodeID *)
Definition newIeNodeID (nodeID : string) : OutIE :=
  match ParseIP nodeID with
  | Some ip =>
      match To4 (Some ip) with
      | Some _ => NewNodeID nodeID "" ""
      | None => NewNodeID "" nodeID ""
      end
  | None => NewNodeID "" "" nodeID
  end.

(** A copy of nil is an empty slice, not nil. *)
(* cmd/core/pfcp_session_handlers.go:562-566 cloneIP *)
Definition cloneIP (ip : NetIP) : NetIP := Some (slice_bytes ip).

(** [id, _ := acc()] for an identifier. *)
Definition or_0 (r : result Z) : Z := match r with inr a => a | inl _ => 0 end.

Section pfcp.
Context `{Pfcp}.

(* cmd/core/pfcp_session_handlers.go:516-521 findIEindex *)
Definition findIEindex (ieArr : list IE) (ieType : Z) : Z :=
  match list_find (λ i, IE_Type i = ieType) ieArr with
  | Some (i, _) => Z.of_nat i
  | None => -1
  end.

(* cmd/core/pfcp_session_handlers.go:498-514 validateRequest *)
Definition validateRequest (nodeId cpfseid : option IE) : result Z :=
  match nodeId, cpfseid with
  | Some nodeId, Some cpfseid =>
      match IE_NodeID nodeId with
      | inl _ => inl errMandatoryIeMissing
      | inr _ =>
          match IE_FSEID cpfseid with
          | inl _ => inl errMandatoryIeMissing
          | inr fseid => inr fseid
          end
      end
  | _, _ => inl errMandatoryIeMissing
  end.

(* cmd/core/pdr_creation_context.go:29-64 GetURRIDs *)
Definition GetURRIDs (i : IE) : result (list Z) :=
  let urrids ies := omap (λ x, if IE_Type x =? ie_URRID
                               then match IE_URRID x with inr value => Some value | inl _ => None end
                               else None) ies in
  if IE_Type i =? ie_CreatePDR then
    match IE_CreatePDR i with inl err => inl err | inr ies => inr (urrids ies) end
  else if IE_Type i =? ie_UpdatePDR then
    match IE_UpdatePDR i with inl err => inl err | inr ies => inr (urrids ies) end
  else inl (Errorf "invalid type").

(* cmd/core/pfcp_session_handlers.go:632-639 GetTransportLevelMarking *)
Definition GetTransportLevelMarking (far : IE) : result Z :=
  match list_find (λ i, IE_Type i = ie_TransportLevelMarking) (ChildIEs far) with
  | Some (_, i) => IE_TransportLevelMarking i
  | None => inl (Errorf "no TransportLevelMarking found")
  end.

(** ** Messages received *)

Record SessionEstablishmentReq := mkEstablishmentReq {
  est_NodeID : option IE;
  est_CPFSEID : option IE;
  est_CreateFAR : list IE;
  est_CreateQER : list IE;
  est_CreateURR : list IE;
  est_CreatePDR : list IE;
  est_CreateBAR : option IE;
  est_Sequence : Z
}.

Record SessionDeletionReq := mkDeletionReq { del_SEID : Z; del_Sequence : Z }.

Record SessionModificationReq := mkModificationReq {
  mod_SEID : Z;
  mod_Sequence : Z;
  mod_CPFSEID : option IE;
  mod_CreateFAR : list IE;
  mod_UpdateFAR : list IE;
  mod_RemoveFAR : list IE;
  mod_CreateQER : list IE;
  mod_UpdateQER : list IE;
  mod_RemoveQER : list IE;
  mod_CreateURR : list IE;
  mod_UpdateURR : list IE;
  mod_RemoveURR : list IE;
  mod_CreatePDR : list IE;
  mod_UpdatePDR : list IE;
  mod_RemovePDR : list IE;
  mod_CreateBAR : option IE;
  mod_UpdateBAR : option IE;
  mod_RemoveBAR : option IE
}.

Record AssociationSetupReq := mkAssociationSetupReq {
  as_NodeID : option IE;
  as_RecoveryTimeStamp : option IE;
  as_Sequence : Z
}.

Record AssociationUpdateReq := mkAssociationUpdateReq { au_NodeID : option IE; au_Sequence : Z }.

Record AssociationSetupRes := mkAssociationSetupRes {
  asr_NodeID : option IE;
  asr_Cause : option IE;
  asr_CPFunctionFeatures : option IE
}.

Record HeartbeatMsg := mkHeartbeatMsg { hb_RecoveryTimeStamp : option IE; hb_Sequence : Z }.

Inductive Message :=
  | MHeartbeatRequest (m : HeartbeatMsg)
  | MHeartbeatResponse (m : HeartbeatMsg)
  | MAssociationSetupRequest (m : AssociationSetupReq)
  | MAssociationSetupResponse (m : AssociationSetupRes)
  | MAssociationUpdateRequest (m : AssociationUpdateReq)
  | MSessionEstablishmentRequest (m : SessionEstablishmentReq)
  | MSessionDeletionRequest (m : SessionDeletionReq)
  | MSessionModificationRequest (m : SessionModificationReq)
  | MOther (code : Z).

(** [msg.MessageType()] *)
Definition MessageType (m : Message) : MsgType :=
  match m with
  | MHeartbeatRequest _ => HeartbeatRequest
  | MHeartbeatResponse _ => HeartbeatResponse
  | MAssociationSetupRequest _ => AssociationSetupRequest
  | MAssociationSetupResponse _ => AssociationSetupResponse
  | MAssociationUpdateRequest _ => AssociationUpdateRequest
  | MSessionEstablishmentRequest _ => SessionEstablishmentRequest
  | MSessionDeletionRequest _ => SessionDeletionRequest
  | MSessionModificationRequest _ => SessionModificationRequest
  | MOther code => OtherMessage code
  end.

End pfcp.

(** ** Lemmas *)

Lemma findIEindex_spec `{Pfcp} l ty :
  (findIEindex l ty = -1 ∧ ∀ i, i ∈ l → IE_Type i ≠ ty) ∨
  ∃ n i, findIEindex l ty = Z.of_nat n ∧ l !! n = Some i ∧ IE_Type i = ty ∧
         ∀ k j, (k < n)%nat → l !! k = Some j → IE_Type j ≠ ty.
Proof.
  unfold findIEindex. destruct (list_find _ l) as [[n i]|] eqn:Hf.
  - right. apply list_find_Some in Hf as (Hn & Hi & Hmin). exists n, i. naive_solver.
  - left. apply list_find_None in Hf. rewrite Forall_forall in Hf. auto.
Qed.

(** The node ID is not a cause. *)
Lemma cause_of_node t seid seq n l :
  cause_of (mkOutMsg t seid seq (newIeNodeID n :: l)) = cause_of (mkOutMsg t seid seq l).
Proof. unfold newIeNodeID, cause_of. by repeat case_match. Qed.

Lemma validateRequest_error `{Pfcp} n f e :
  validateRequest n f = inl e → convertErrorToIeCause e = NewCause CauseMandatoryIEMissing.
Proof. unfold validateRequest. intros Hv. repeat case_match; by simplify_eq. Qed.

(** ** A concrete instance

    Elements as trees, with the type numbers of 3GPP TS 29.244; an accessor
    reads the first element of its type at or below its argument. *)

Inductive demo_ie :=
  | Val (ty n : Z)
  | Val2 (ty n1 n2 : Z)
  | Octets (ty : Z) (b : bytes)
  | Text (ty : Z) (s : string)
  | Fteid (f : FTEIDFields)
  | Ueip (f : UEIPAddressFields)
  | Ohc (f : option OuterHeaderCreationFields)
  | Grp (ty : Z) (l : list demo_ie).

Definition demo_type (i : demo_ie) : Z :=
  match i with
  | Val ty _ | Val2 ty _ _ | Octets ty _ | Text ty _ | Grp ty _ => ty
  | Fteid _ => 21
  | Ueip _ => 93
  | Ohc _ => 84
  end.

Definition demo_children (i : demo_ie) : list demo_ie :=
  match i with Grp _ l => l | _ => [] end.

Fixpoint demo_find (ty : Z) (i : demo_ie) : option demo_ie :=
  if demo_type i =? ty then Some i
  else match i with
       | Grp _ l => (fix go l := match l with
                                 | [] => None
                                 | j :: l' => match demo_find ty j with
                                              | Some x => Some x
                                              | None => go l'
                                              end
                                 end) l
       | _ => None
       end.

Definition demo_get {A} (ty : Z) (f : demo_ie → option A) (i : demo_ie) : result A :=
  match demo_find ty i ≫= f with Some a => inr a | None => inl (Errorf "IE not found") end.

Definition demo_num ty := demo_get ty (λ i, match i with Val _ n => Some n | _ => None end).
Definition demo_fst ty := demo_get ty (λ i, match i with Val2 _ n _ => Some n | _ => None end).
Definition demo_snd ty := demo_get ty (λ i, match i with Val2 _ _ n => Some n | _ => None end).
Definition demo_octets ty := demo_get ty (λ i, match i with Octets _ b => Some b | _ => None end).
Definition demo_text ty := demo_get ty (λ i, match i with Text _ s => Some s | _ => None end).
Definition demo_group ty := demo_get ty (λ i, match i with Grp _ l => Some l | _ => None end).

Definition demo_pfcp : Pfcp := {|
  IE := demo_ie;
  IE_Type := demo_type;
  ChildIEs := demo_children;
  ie_CreatePDR := 1;
  ie_UpdatePDR := 9;
  ie_CreateFAR := 3;
  ie_UpdateFAR := 10;
  ie_URRID := 81;
  ie_QERID := 109;
  ie_FTEID := 21;
  ie_UEIPAddress := 93;
  ie_TransportLevelMarking := 30;
  IE_NodeID := demo_text 60;
  IE_Cause := demo_num 19;
  IE_CPFunctionFeatures := demo_num 89;
  IE_FSEID := demo_num 57;
  IE_RecoveryTimeStamp o := match o with Some i => of_result (demo_num 96 i) | None => Panic end;
  IE_PDRID := demo_num 56;
  IE_CreatePDR := demo_group 1;
  IE_UpdatePDR := demo_group 9;
  IE_PDI := demo_group 2;
  IE_OuterHeaderRemovalDescription := demo_num 95;
  IE_SDFFilter := demo_text 23;
  IE_FTEID := demo_get 21 (λ i, match i with Fteid f => Some f | _ => None end);
  HasCh f := Z.testbit (fteid_Flags f) 2;
  HasChID f := Z.testbit (fteid_Flags f) 3;
  IE_UEIPAddress := demo_get 93 (λ i, match i with Ueip f => Some f | _ => None end);
  IE_FARID := demo_num 108;
  IE_ApplyAction := demo_octets 44;
  IE_ForwardingParameters := demo_group 4;
  IE_UpdateForwardingParameters := demo_group 11;
  IE_OuterHeaderCreation i :=
    match demo_find 84 i with
    | Some (Ohc (Some f)) => (Some f, None)
    | _ => (None, Some (Errorf "unexpected EOF"))
    end;
  HasIPv4 f := Z.testbit (OuterHeaderCreationDescription f) 8 ||
               Z.testbit (OuterHeaderCreationDescription f) 10;
  HasIPv6 f := Z.testbit (OuterHeaderCreationDescription f) 9 ||
               Z.testbit (OuterHeaderCreationDescription f) 11;
  IE_TransportLevelMarking := demo_num 30;
  IE_QERID := demo_num 109;
  IE_GateStatusDL := demo_fst 25;
  IE_GateStatusUL := demo_snd 25;
  IE_MBRDL := demo_fst 26;
  IE_MBRUL := demo_snd 26;
  IE_QFI := demo_num 124;
  IE_URRID := demo_num 81;
  IE_BARID := demo_num 88;
  IE_DownlinkDataNotificationDelay := demo_text 46;
  IE_SuggestedBufferingPacketsCount := demo_num 140;
  IE_MTEDTControlInformation := demo_num 249;
  IE_MeasurementMethod := demo_num 62;
  IE_VolumeThreshold := demo_text 31;
  IE_TimeThreshold := demo_num 32;
  IE_MonitoringTime := demo_text 33;
  IE_NetworkInstance := demo_text 22;
  OuterHeaderCreation_text o := match o with Some _ => "&{...}" | None => "<nil>" end;
  IE_RedirectInformation _ := inl (Errorf "IE not found");
  IE_HeaderEnrichment _ := inl (Errorf "IE not found");
  IE_DuplicatingParameters := demo_text 5;
  IE_SourceInterface := demo_num 20;
  RecoveryTimeStamp_text _ := "2023-11-14 22:13:20 +0000 UTC"
|}.
