(* ===== verification/Display.v ===== *)
(** * Printing requests (cmd/core/display_utils.go)

    Each request is printed to the log before it is handled.  The printers
    build a string from the accessors of [Pfcp]; one of them indexes a slice
    with the position of an element that may be missing, so printing can end
    the program.  [strings.Builder] is string concatenation. *)

From S2P Require Import Prelude Net Pfcp.

(** [%d] of an unsigned integer; 20 digits are enough for 64 bits. *)
Definition decimal (n : Z) : string := String.string_of_list_ascii (dec 20 n).
(** [%x] of a byte. *)
Definition hexadecimal (n : Z) : string := String.string_of_list_ascii (hex 2 n).

(** [%+v] of a byte slice. *)
Definition bytes_text (b : bytes) : string := "[" +:+ String.concat " " (decimal <$> b) +:+ "]".

(** [l[i]] *)
Definition slice_index {A} (l : list A) (i : Z) : outcome A :=
  match (if 0 <=? i then l !! Z.to_nat i else None) with Some a => Ok a | None => Panic end.

Definition newline : string := String (ascii_of_nat 10) "".

(* cmd/core/display_utils.go:14-18 writeLineTabbed *)
Definition writeLineTabbed (s : string) (tab : nat) : string :=
  String.concat "" (replicate tab "  ") +:+ s +:+ newline.

(** [if v, err := acc(); err == nil { writeLineTabbed(sb, f(v), tab) }] *)
Definition write_ok {A} (r : result A) (f : A → string) (tab : nat) : string :=
  match r with inr a => writeLineTabbed (f a) tab | inl _ => "" end.

(** [for _, x := range l { sb.WriteString(head); f(&sb, x) }] *)
Fixpoint write_all {A} (head : string) (f : A → outcome string) (l : list A) : outcome string :=
  match l with
  | [] => Ok ""
  | x :: l' => s ← f x; rest ← write_all head f l'; Ok (head +:+ s +:+ rest)
  end.

(** [if x != nil { sb.WriteString(head); f(&sb, x) }] *)
Definition write_opt {A} (head : string) (f : A → string) (o : option A) : string :=
  match o with Some x => head +:+ f x | None => "" end.

Section display.
Context `{Pfcp}.

(** The lines [displayBar] and the BARs to update have in common. *)
(* cmd/core/display_utils.go:191-202 displayBar *)
Definition bar_lines (bar : IE) : string :=
  write_ok (IE_DownlinkDataNotificationDelay bar)
    (λ v, "Downlink Data Notification Delay: " +:+ v +:+ " ") 2 +:+
  write_ok (IE_SuggestedBufferingPacketsCount bar)
    (λ v, "Suggested Buffering Packets Count: " +:+ decimal v +:+ " ") 2 +:+
  write_ok (IE_MTEDTControlInformation bar) (λ v, "MT EDI: " +:+ decimal v +:+ " ") 2.

(* cmd/core/display_utils.go:187-203 displayBar *)
Definition displayBar (bar : IE) : string :=
  "BAR ID: " +:+ decimal (or_0 (IE_BARID bar)) +:+ newline +:+ bar_lines bar.

(* cmd/core/display_utils.go:205-225 displayUrr *)
Definition displayUrr (urr : IE) : string :=
  "URR ID: " +:+ decimal (or_0 (IE_URRID urr)) +:+ " " +:+ newline +:+
  write_ok (IE_MeasurementMethod urr) (λ v, "Measurement Method: " +:+ decimal v +:+ " ") 2 +:+
  write_ok (IE_VolumeThreshold urr) (λ v, "Volume Threshold: " +:+ v +:+ " ") 2 +:+
  write_ok (IE_TimeThreshold urr) (λ v, "Time Threshold: " +:+ decimal v +:+ " ") 2 +:+
  write_ok (IE_MonitoringTime urr) (λ v, "Monitoring Time: " +:+ v +:+ " ") 2.

(* cmd/core/display_utils.go:227-251 displayQer *)
Definition displayQer (qer : IE) : string :=
  "QER ID: " +:+ decimal (or_0 (IE_QERID qer)) +:+ " " +:+ newline +:+
  write_ok (IE_GateStatusDL qer) (λ v, "Gate Status DL: " +:+ decimal v +:+ " ") 2 +:+
  write_ok (IE_GateStatusUL qer) (λ v, "Gate Status UL: " +:+ decimal v +:+ " ") 2 +:+
  write_ok (IE_MBRDL qer) (λ v, "Max Bitrate DL: " +:+ decimal (u32 v) +:+ " ") 2 +:+
  write_ok (IE_MBRUL qer) (λ v, "Max Bitrate UL: " +:+ decimal (u32 v) +:+ " ") 2 +:+
  write_ok (IE_QFI qer) (λ v, "QFI: " +:+ decimal v +:+ " ") 2.

(** The body of the two loops over forwarding parameters. *)
(* cmd/core/display_utils.go:264-281 displayFar *)
Definition displayForwardingParameter (p : IE) : string :=
  write_ok (IE_NetworkInstance p) (λ v, "Network Instance: " +:+ v +:+ " ") 3 +:+
  match IE_OuterHeaderCreation p with
  | (o, None) => writeLineTabbed ("Outer Header Creation: " +:+ OuterHeaderCreation_text o +:+ " ") 3
  | _ => ""
  end +:+
  write_ok (IE_RedirectInformation p)
    (λ v, "Redirect Information, server address: " +:+ first_text v +:+ " ") 3 +:+
  write_ok (IE_RedirectInformation p)
    (λ v, "Redirect Information, other server address: " +:+ second_text v +:+ " ") 3 +:+
  write_ok (IE_HeaderEnrichment p)
    (λ v, "Header Enrichment: " +:+ first_text v +:+ " : " +:+ second_text v +:+ " ") 3.

(** [if params, err := acc(); err == nil { title; one by one }] *)
Definition displayParameters (title : string) (r : result (list IE)) : string :=
  match r with
  | inr l => writeLineTabbed title 2 +:+ String.concat "" (displayForwardingParameter <$> l)
  | inl _ => ""
  end.

(* cmd/core/display_utils.go:253-323 displayFar *)
Definition displayFar (far : IE) : string :=
  "FAR ID: " +:+ decimal (or_0 (IE_FARID far)) +:+ " " +:+ newline +:+
  write_ok (IE_ApplyAction far) (λ v, "Apply Action: " +:+ bytes_text v +:+ " ") 2 +:+
  displayParameters "Forwarding Parameters:" (IE_ForwardingParameters far) +:+
  displayParameters "Update forwarding Parameters:" (IE_UpdateForwardingParameters far) +:+
  write_ok (IE_DuplicatingParameters far) (λ v, "Duplicating Parameters: " +:+ v +:+ " ") 2 +:+
  write_ok (IE_BARID far) (λ v, "BAR ID: " +:+ decimal v +:+ " ") 2 +:+
  match GetTransportLevelMarking far with
  | inr v =>
      writeLineTabbed ("Transport Level Marking: " +:+ decimal v) 2 +:+
      writeLineTabbed ("DSCP: " +:+ hexadecimal (Z.shiftr v 8)) 3 +:+
      writeLineTabbed ("ToS or Traffic Class mask: " +:+ hexadecimal (u8 v)) 3
  | inl _ => ""
  end.

(** [if i := findIEindex(pdi, ty); i != -1 { f(pdi[i]) }] *)
Definition display_at (pdi : list IE) (ty : Z) (f : IE → string) : outcome string :=
  let i := findIEindex pdi ty in
  if negb (i =? -1) then x ← slice_index pdi i; Ok (f x) else Ok "".

(** The source interface is looked up like the other elements of a PDI, but
    its position is used without a test. *)
(* cmd/core/display_utils.go:355-386 displayPdr *)
Definition displayPdi (pdi : list IE) : outcome string :=
  srcIface ← slice_index pdi (findIEindex pdi 20);
  teid ← display_at pdi 21 (λ i,
    write_ok (IE_FTEID i) (λ f, "TEID: " +:+ decimal (fteid_TEID f) +:+ " ") 2 +:+
    write_ok (IE_FTEID i) (λ f, "Ipv4: " +:+ IPString (fteid_IPv4Address f) +:+ " ") 2 +:+
    write_ok (IE_FTEID i) (λ f, "Ipv6: " +:+ IPString (fteid_IPv6Address f) +:+ " ") 2);
  ueip ← display_at pdi 93 (λ i,
    match IE_UEIPAddress i with
    | inr ueIp =>
        match IPv4Address ueIp with
        | Some _ => writeLineTabbed ("UE IPv4 Address: " +:+ IPString (IPv4Address ueIp) +:+ " ") 2
        | None => ""
        end +:+
        match IPv6Address ueIp with
        | Some _ => writeLineTabbed ("UE IPv6 Address: " +:+ IPString (IPv6Address ueIp) +:+ " ") 2
        | None => ""
        end
    | inl _ => ""
    end);
  sdf ← display_at pdi 23 (λ i, write_ok (IE_SDFFilter i) (λ d, "SDF Filter: " +:+ d +:+ " ") 2);
  Ok (writeLineTabbed ("Source Interface: " +:+ decimal (or_0 (IE_SourceInterface srcIface)) +:+ " ") 2
      +:+ teid +:+ ueip +:+ sdf).

(* cmd/core/display_utils.go:325-387 displayPdr *)
Definition displayPdr (pdr : IE) : outcome string :=
  let head :=
    "PDR ID: " +:+ decimal (or_0 (IE_PDRID pdr)) +:+ " " +:+ newline +:+
    write_ok (IE_OuterHeaderRemovalDescription pdr)
      (λ v, "Outer Header Removal: " +:+ decimal v +:+ " ") 2 +:+
    write_ok (IE_FARID pdr) (λ v, "FAR ID: " +:+ decimal v +:+ " ") 2 +:+
    String.concat "" ((λ x, if IE_Type x =? ie_QERID
                            then write_ok (IE_QERID x) (λ v, "QER ID: " +:+ decimal v +:+ " ") 2
                            else "") <$> ChildIEs pdr) +:+
    write_ok (IE_URRID pdr) (λ v, "URR ID: " +:+ decimal v +:+ " ") 2 +:+
    write_ok (IE_BARID pdr) (λ v, "BAR ID: " +:+ decimal v +:+ " ") 2 in
  match IE_PDI pdr with
  | inr pdi => rest ← displayPdi pdi; Ok (head +:+ rest)
  | inl _ => Ok head
  end.

(** ** The requests *)

(** PDRs, FARs, QERs and URRs under one heading, in this order. *)
Definition display_rules (head : string) (pdrs fars qers urrs : list IE) : outcome string :=
  pdr ← write_all head displayPdr pdrs;
  far ← write_all head (λ x, Ok (displayFar x)) fars;
  qer ← write_all head (λ x, Ok (displayQer x)) qers;
  urr ← write_all head (λ x, Ok (displayUrr x)) urrs;
  Ok (pdr +:+ far +:+ qer +:+ urr).

(** The node ID has been checked not to be nil. *)
(* cmd/core/display_utils.go:20-35 printAssociationSetupRequest *)
Definition printAssociationSetupRequest (nodeID : IE) (recoveryTimeStamp : option IE) : outcome string :=
  let node := write_ok (IE_NodeID nodeID) (λ n, "Node ID: " +:+ n) 1 in
  time ← match recoveryTimeStamp with
         | None => Ok ""
         | Some ts =>
             match IE_RecoveryTimeStamp (Some ts) with
             | Ok t => Ok (writeLineTabbed ("Recovery Time: " +:+ RecoveryTimeStamp_text t) 1)
             | Err _ => Ok ""
             | Panic => Panic
             end
         end;
  Ok (newline +:+ writeLineTabbed "Association Setup Request:" 0 +:+ node +:+ time).

(* cmd/core/display_utils.go:37-46 printAssociationUpdateRequest *)
Definition printAssociationUpdateRequest (nodeID : IE) : string :=
  newline +:+ writeLineTabbed "Association Update Request:" 0 +:+
  write_ok (IE_NodeID nodeID) (λ n, "Node ID: " +:+ n) 1.

(* cmd/core/display_utils.go:48-77 printSessionEstablishmentRequest *)
Definition printSessionEstablishmentRequest (req : SessionEstablishmentReq) : outcome string :=
  create ← display_rules "  Create" (est_CreatePDR req) (est_CreateFAR req) (est_CreateQER req)
             (est_CreateURR req);
  Ok (newline +:+ writeLineTabbed "Session Establishment Request:" 0 +:+ create +:+
      write_opt "  Create" displayBar (est_CreateBAR req)).

(* cmd/core/display_utils.go:80-178 printSessionModificationRequest *)
Definition printSessionModificationRequest (req : SessionModificationReq) : outcome string :=
  create ← display_rules "  Create" (mod_CreatePDR req) (mod_CreateFAR req) (mod_CreateQER req)
             (mod_CreateURR req);
  update ← display_rules "  Update" (mod_UpdatePDR req) (mod_UpdateFAR req) (mod_UpdateQER req)
             (mod_UpdateURR req);
  remove ← display_rules "  Remove" (mod_RemovePDR req) (mod_RemoveFAR req) (mod_RemoveQER req)
             (mod_RemoveURR req);
  let bar_id b := write_ok (IE_BARID b) (λ v, "BAR ID: " +:+ decimal v +:+ " ") 2 in
  Ok (newline +:+ writeLineTabbed "Session Modification Request:" 0 +:+
      create +:+ write_opt "  Create" displayBar (mod_CreateBAR req) +:+
      update +:+
      write_opt (writeLineTabbed "Update BAR:" 1) (λ b, bar_id b +:+ bar_lines b) (mod_UpdateBAR req) +:+
      remove +:+ write_opt (writeLineTabbed "Remove BAR:" 1) bar_id (mod_RemoveBAR req)).

(** Built, but never handed to the log. *)
(* cmd/core/display_utils.go:180-185 printSessionDeleteRequest *)
Definition printSessionDeleteRequest (req : SessionDeletionReq) : string :=
  newline +:+ writeLineTabbed "Session Deletion Request:" 0 +:+
  writeLineTabbed ("SEID: " +:+ decimal (del_SEID req)) 1.

(** ** When printing panics *)

(** A PDR that can be printed: its PDI, if it has one, has a source interface. *)
Definition has_source_interface (pdr : IE) : Prop :=
  ∀ pdi, IE_PDI pdr = inr pdi → ∃ i, i ∈ pdi ∧ IE_Type i = 20.

(** [o] is a value when [P] holds and a panic otherwise; never an error. *)
Definition ok_iff {A} (o : outcome A) (P : Prop) : Prop :=
  (is_ok o = true ∧ P) ∨ (o = Panic ∧ ¬ P).

Lemma ok_iff_ok {A} (a : A) : ok_iff (Ok a) True.
Proof. by left. Qed.

Lemma ok_iff_bind {A B} (m : outcome A) (k : A → outcome B) P Q :
  ok_iff m P → (∀ a, ok_iff (k a) Q) → ok_iff (m ≫= k) (P ∧ Q).
Proof.
  intros [[Hm HP]|[-> HP]] Hk; [|right; split; [done|tauto]].
  apply is_ok_true in Hm as [a ->]. destruct (Hk a) as [[? ?]|[? ?]]; [by left|right; tauto].
Qed.

Lemma ok_iff_proper {A} (o : outcome A) P Q : ok_iff o P → (P ↔ Q) → ok_iff o Q.
Proof. unfold ok_iff. tauto. Qed.

Lemma ok_iff_no_panic {A} (o : outcome A) P : ok_iff o P → P → no_panic o.
Proof. intros [[Ho _]|[_ ?]] ?; [|done]. apply is_ok_true in Ho as [a ->]. done. Qed.

Lemma slice_index_find pdi ty :
  ok_iff (slice_index pdi (findIEindex pdi ty)) (∃ i, i ∈ pdi ∧ IE_Type i = ty).
Proof.
  destruct (findIEindex_spec pdi ty) as [[-> Hno]|(n & i & -> & Hi & Ht & _)].
  - right. split; [done|]. intros (i & Hi & Ht). by destruct (Hno i Hi).
  - left. unfold slice_index. rewrite (proj2 (Z.leb_le 0 _)) by lia. rewrite Nat2Z.id, Hi.
    split; [done|]. exists i. split; [by eapply list_elem_of_lookup_2|done].
Qed.

Lemma display_at_ok pdi ty f : ok_iff (display_at pdi ty f) True.
Proof.
  unfold display_at. destruct (findIEindex_spec pdi ty) as [[-> _]|(n & i & Hn & Hi & _)]; [by left|].
  left. rewrite Hn. rewrite (proj2 (Z.eqb_neq _ (-1))) by lia. unfold slice_index.
  rewrite (proj2 (Z.leb_le 0 _)) by lia. by rewrite Nat2Z.id, Hi.
Qed.

Lemma displayPdr_spec pdr : ok_iff (displayPdr pdr) (has_source_interface pdr).
Proof.
  unfold displayPdr, has_source_interface. destruct (IE_PDI pdr) as [e|pdi]; [by left|].
  eapply ok_iff_proper.
  - apply ok_iff_bind; [|intros ?; apply ok_iff_ok]. apply ok_iff_bind; [apply slice_index_find|].
    intros src. do 3 (eapply ok_iff_bind; [apply display_at_ok|intros ?]). apply ok_iff_ok.
  - split; [intros [[? _] _] pdi' [= <-]; done|]. intros Hs. destruct (Hs pdi eq_refl) as (i & ? & ?).
    repeat split. by exists i.
Qed.

Lemma write_all_spec {A} head (f : A → outcome string) (P : A → Prop) l :
  (∀ x, ok_iff (f x) (P x)) → ok_iff (write_all head f l) (Forall P l).
Proof.
  intros Hf. induction l as [|x l IH]; cbn; [left; split; [done|constructor]|].
  eapply ok_iff_proper.
  - apply ok_iff_bind; [apply Hf|intros s]. apply ok_iff_bind; [exact IH|intros r; apply ok_iff_ok].
  - rewrite Forall_cons. tauto.
Qed.

Lemma display_rules_spec head pdrs fars qers urrs :
  ok_iff (display_rules head pdrs fars qers urrs) (Forall has_source_interface pdrs).
Proof.
  eapply ok_iff_proper.
  - apply ok_iff_bind; [apply write_all_spec, displayPdr_spec|intros p].
    do 3 (eapply ok_iff_bind; [apply (write_all_spec _ _ (λ _, True)); intros; apply ok_iff_ok|intros ?]).
    apply ok_iff_ok.
  - split; [by intros [? _]|]. intros Hp. repeat (split; [done || by apply Forall_true|]). done.
Qed.

Lemma print_establishment_spec req :
  ok_iff (printSessionEstablishmentRequest req) (Forall has_source_interface (est_CreatePDR req)).
Proof.
  eapply ok_iff_proper; [apply ok_iff_bind; [apply display_rules_spec|intros ?; apply ok_iff_ok]|tauto].
Qed.

Lemma print_setup_spec nodeID ts :
  (∀ t, ts = Some t → no_panic (IE_RecoveryTimeStamp (Some t))) →
  ok_iff (printAssociationSetupRequest nodeID ts) True.
Proof.
  intros Hts. left. split; [|done]. unfold printAssociationSetupRequest.
  destruct ts as [t|]; [|done]. specialize (Hts t eq_refl). by destruct (IE_RecoveryTimeStamp _).
Qed.

(** Running a printer inside a handler. *)
Lemma wp_printed {S A} (o : outcome A) P (s : S) Q (E : error → S → Prop) :
  ok_iff o P → P → (∀ a, Q a s) → wp (lift o) s Q E.
Proof.
  intros Ho HP HQ. apply wp_lift; [by eapply ok_iff_no_panic|done|].
  intros e ->. destruct Ho as [[? _]|[? _]]; done.
Qed.

(** The PDRs a modification request prints. *)
Definition mod_PDRs (req : SessionModificationReq) : list IE :=
  mod_CreatePDR req ++ mod_UpdatePDR req ++ mod_RemovePDR req.

Lemma print_modification_spec req :
  ok_iff (printSessionModificationRequest req) (Forall has_source_interface (mod_PDRs req)).
Proof.
  eapply ok_iff_proper.
  - do 3 (eapply ok_iff_bind; [apply display_rules_spec|intros ?]). apply ok_iff_ok.
  - unfold mod_PDRs. rewrite !Forall_app. tauto.
Qed.

End display.
