(* ===== verification/PdrContext.v ===== *)
(** * PDR creation (cmd/core/pdr_creation_context.go, pdr.go)

    [extractPDR] reads a PDR from its IE, allocating a TEID or a UE address
    where the control plane asks the UPF to choose; [applyPDR] and [deletePDR]
    install and remove it in the forwarding plane. *)

From S2P Require Import Prelude Net Config ForwardingPlane Dataplane TablePlane Resources Session Sdf Pfcp.

(** The session and the resource manager are shared objects: whoever builds a
    context passes their current contents and takes them back afterwards. *)
(* cmd/core/pdr_creation_context.go:15-19 PDRCreationContext *)
Record PDRCreationContext := mkPDRCreationContext {
  pc_Session : Session;
  pc_ResourceManager : option ResourceManager;
  TEIDCache : gmap Z Z
}.

(* cmd/core/pdr_creation_context.go:21-27 NewPDRCreationContext *)
Definition NewPDRCreationContext (session : Session) (rm : option ResourceManager)
    : PDRCreationContext :=
  mkPDRCreationContext session rm ∅.

Definition set_pc_Session s c := mkPDRCreationContext s (pc_ResourceManager c) (TEIDCache c).
Definition set_pc_ResourceManager r c := mkPDRCreationContext (pc_Session c) r (TEIDCache c).
Definition set_TEIDCache t c := mkPDRCreationContext (pc_Session c) (pc_ResourceManager c) t.

(** Field updates of [PdrInfo] and [SPDRInfo]. *)
Definition set_OuterHeaderRemoval v p :=
  mkPdrInfo v (FarId p) (QerId p) (Urr1Id p) (Urr2Id p) (SdfFilterPtr p).
Definition set_FarId v p :=
  mkPdrInfo (OuterHeaderRemoval p) v (QerId p) (Urr1Id p) (Urr2Id p) (SdfFilterPtr p).
Definition set_QerId v p :=
  mkPdrInfo (OuterHeaderRemoval p) (FarId p) v (Urr1Id p) (Urr2Id p) (SdfFilterPtr p).
Definition set_Urr1Id v p :=
  mkPdrInfo (OuterHeaderRemoval p) (FarId p) (QerId p) v (Urr2Id p) (SdfFilterPtr p).
Definition set_Urr2Id v p :=
  mkPdrInfo (OuterHeaderRemoval p) (FarId p) (QerId p) (Urr1Id p) v (SdfFilterPtr p).
Definition set_SdfFilter v p :=
  mkPdrInfo (OuterHeaderRemoval p) (FarId p) (QerId p) (Urr1Id p) (Urr2Id p) v.

Definition set_PdrInfo v s :=
  mkSPDRInfo (s_PdrID s) v (s_Teid s) (s_Ipv4 s) (s_Ipv6 s) (s_Allocated s).
Definition set_Teid v s :=
  mkSPDRInfo (s_PdrID s) (s_PdrInfo s) v (s_Ipv4 s) (s_Ipv6 s) (s_Allocated s).
Definition set_Ipv4 v s :=
  mkSPDRInfo (s_PdrID s) (s_PdrInfo s) (s_Teid s) v (s_Ipv6 s) (s_Allocated s).
Definition set_Ipv6 v s :=
  mkSPDRInfo (s_PdrID s) (s_PdrInfo s) (s_Teid s) (s_Ipv4 s) v (s_Allocated s).
Definition set_Allocated v s :=
  mkSPDRInfo (s_PdrID s) (s_PdrInfo s) (s_Teid s) (s_Ipv4 s) (s_Ipv6 s) v.

(** [if v, err := acc(); err == nil { x = set(v, x) }] *)
Definition when_ok {A B} (r : result A) (set : A → B → B) (x : B) : B :=
  match r with inr a => set a x | inl _ => x end.

(* cmd/core/pdr_creation_context.go:188-190 getFARID *)
Definition getFARID (c : PDRCreationContext) (farid : Z) : Z :=
  sf_GlobalId (SessionGetFar farid (pc_Session c)).
(* cmd/core/pdr_creation_context.go:192-194 getQERID *)
Definition getQERID (c : PDRCreationContext) (qerid : Z) : Z :=
  sq_GlobalId (SessionGetQer qerid (pc_Session c)).
(* cmd/core/pdr_creation_context.go:196-198 getURRID *)
Definition getURRID (c : PDRCreationContext) (urrid : Z) : Z :=
  su_GlobalId (SessionGetUrr urrid (pc_Session c)).

(* cmd/core/pdr_creation_context.go:224-227 hasTEIDCache *)
Definition hasTEIDCache (chooseID : Z) (c : PDRCreationContext) : option Z :=
  TEIDCache c !! chooseID.
(* cmd/core/pdr_creation_context.go:229-231 setTEIDCache *)
Definition setTEIDCache (chooseID teid : Z) : M PDRCreationContext unit :=
  modify (λ c, set_TEIDCache (<[chooseID:=teid]> (TEIDCache c)) c).

(* cmd/core/pdr_creation_context.go:233-235 hasCHV4 *)
Definition hasCHV4 (flags : Z) : bool := negb (Z.land flags (Z.shiftl 1 4) =? 0).

(** A method of a pool of the resource manager; a nil pointer on the way to
    the pool is dereferenced by the method. *)
Definition with_FTEIDM {A} (m : M FTEIDM A) : M (option ResourceManager) A := λ rm,
  match rm with
  | Some (mkResourceManager i (Some f)) =>
      let '(f', r) := m f in (Some (mkResourceManager i (Some f')), r)
  | _ => (rm, Panic)
  end.
Definition with_IPAM {A} (m : M IPAM A) : M (option ResourceManager) A := λ rm,
  match rm with
  | Some (mkResourceManager (Some i) f) =>
      let '(i', r) := m i in (Some (mkResourceManager (Some i') f), r)
  | _ => (rm, Panic)
  end.

Definition on_rm {A} (m : M (option ResourceManager) A) : M PDRCreationContext A :=
  zoom pc_ResourceManager set_pc_ResourceManager m.

Definition has_FTEIDM (rm : option ResourceManager) : bool :=
  match rm with Some (mkResourceManager _ (Some _)) => true | _ => false end.
Definition has_IPAM (rm : option ResourceManager) : bool :=
  match rm with Some (mkResourceManager (Some _) _) => true | _ => false end.

(* cmd/core/pdr_creation_context.go:200-211 getFTEID *)
Definition getFTEID (seID pdrID : Z) : M PDRCreationContext Z :=
  rm ← gets pc_ResourceManager;
  if negb (has_FTEIDM rm) then throw (Errorf "FTEID manager is nil")
  else on_result (on_rm (with_FTEIDM (AllocateTEID seID pdrID)))
         (λ allocatedTeid, mret allocatedTeid)
         (λ _, throw (Errorf ("Can't allocate TEID: " ++ causeToString CauseNoResourcesAvailable))).

(* cmd/core/pdr_creation_context.go:213-222 getIP *)
Definition getIP : M PDRCreationContext NetIP :=
  c ← gets (λ c, c);
  if negb (has_IPAM (pc_ResourceManager c)) then throw (Errorf "IP address manager is nil")
  else on_result (on_rm (with_IPAM (AllocateIP (RemoteSEID (pc_Session c)))))
         (λ allocatedIP, mret allocatedIP)
         (λ _, throw (Errorf ("can't allocate IP: " ++ causeToString CauseNoResourcesAvailable))).

Section pdr_context.
Context `{Pfcp} `{MapOrder} (Conf : UpfConfig).

(** The rule identifiers and the outer header removal of a PDR. *)
(* cmd/core/pdr_creation_context.go:67-85 extractPDR *)
Definition extract_rules (c : PDRCreationContext) (pdr : IE) (p : PdrInfo) : PdrInfo :=
  let p := when_ok (IE_OuterHeaderRemovalDescription pdr) set_OuterHeaderRemoval p in
  let p := when_ok (IE_FARID pdr) (λ farid, set_FarId (getFARID c farid)) p in
  let p := when_ok (IE_QERID pdr) (λ qerid, set_QerId (getQERID c qerid)) p in
  when_ok (GetURRIDs pdr) (λ urrs p,
    let p := match urrs with u1 :: _ => set_Urr1Id (getURRID c u1) p | _ => p end in
    match urrs with _ :: u2 :: _ => set_Urr2Id (getURRID c u2) p | _ => p end) p.

(** The SDF filter of a PDR, if it has one that is not empty. *)
(* cmd/core/pdr_creation_context.go:92-101 extractPDR *)
Definition extract_sdf (pdr : IE) (p : PdrInfo) : outcome PdrInfo :=
  match IE_SDFFilter pdr with
  | inr flowDescription =>
      if bool_decide (flowDescription = "") then Ok p
      else sdfFilterParsed ← ParseSdfFilter flowDescription;
           Ok (set_SdfFilter (Some sdfFilterParsed) p)
  | inl _ => Ok p
  end.

(** The TEID of a PDR with an F-TEID IE. *)
(* cmd/core/pdr_creation_context.go:103-134 extractPDR *)
Definition extract_teid (fteid : FTEIDFields) (spdrInfo : SPDRInfo)
    : M PDRCreationContext SPDRInfo :=
  if HasCh fteid then
    c ← gets (λ c, c);
    match (if HasChID fteid then hasTEIDCache (ChooseID fteid) c else None) with
    | Some teidFromCache => mret (set_Teid teidFromCache (set_Allocated true spdrInfo))
    | None =>
        on_result (getFTEID (RemoteSEID (pc_Session c)) (s_PdrID spdrInfo))
          (λ allocatedTeid,
             (if HasChID fteid then setTEIDCache (ChooseID fteid) allocatedTeid else mret tt) ≫= λ _,
             mret (set_Teid allocatedTeid (set_Allocated true spdrInfo)))
          (λ _, throw (Errorf ("can't allocate TEID: " ++ causeToString CauseNoResourcesAvailable)))
    end
  else mret (set_Teid (fteid_TEID fteid) spdrInfo).

(** The UE address of a PDR with a UE IP Address IE. *)
(* cmd/core/pdr_creation_context.go:136-158 extractPDR *)
Definition extract_ueip (ueIP : UEIPAddressFields) (spdrInfo : SPDRInfo)
    : M PDRCreationContext SPDRInfo :=
  let finish (v4 : NetIP) (spdrInfo : SPDRInfo) : M PDRCreationContext SPDRInfo :=
    match v4, IPv6Address ueIP with
    | Some _, _ => mret (set_Ipv4 (cloneIP v4) spdrInfo)
    | None, Some _ => mret (set_Ipv6 (cloneIP (IPv6Address ueIP)) spdrInfo)
    | None, None => throw (Errorf "UE IP Address IE is missing")
    end in
  if FeatureUEIP Conf && hasCHV4 (ueip_Flags ueIP) then
    on_result getIP
      (λ ip, finish (cloneIP ip) (set_Allocated true spdrInfo))
      (λ _, finish (IPv4Address ueIP) spdrInfo)
  else finish (IPv4Address ueIP) spdrInfo.

(** The result is what the out-parameter holds on success; on an error both
    callers drop it. *)
(* cmd/core/pdr_creation_context.go:66-163 extractPDR *)
Definition extractPDR (pdr : IE) (spdrInfo : SPDRInfo) : M PDRCreationContext SPDRInfo :=
  c ← gets (λ c, c);
  let p := extract_rules c pdr (s_PdrInfo spdrInfo) in
  match IE_PDI pdr with
  | inl _ => throw (Errorf "PDI IE is missing")
  | inr pdi =>
      p ← lift (extract_sdf pdr p);
      let spdrInfo := set_PdrInfo p spdrInfo in
      let teidPdiId := findIEindex pdi ie_FTEID in
      if negb (teidPdiId =? -1) then
        match pdi !! Z.to_nat teidPdiId with
        | None => panic
        | Some i =>
            match IE_FTEID i with
            | inl _ => throw (Errorf "F-TEID IE is missing")
            | inr fteid => extract_teid fteid spdrInfo
            end
        end
      else
        let ueipPdiId := findIEindex pdi ie_UEIPAddress in
        if negb (ueipPdiId =? -1) then
          match pdi !! Z.to_nat ueipPdiId with
          | None => panic
          | Some i =>
              match IE_UEIPAddress i with
              | inl _ => throw (Errorf "UE IP Address IE is missing")
              | inr ueIP => extract_ueip ueIP spdrInfo
              end
          end
        else (* Both F-TEID IE and UE IP Address IE are missing; err is nil here *)
          mret spdrInfo
  end.

(** ** The forwarding plane *)

Context `{ForwardingPlaneController F}.

(* cmd/core/pdr.go:13-31 applyPDR *)
Definition applyPDR (spdrInfo : SPDRInfo) : M F unit :=
  match s_Ipv4 spdrInfo, s_Ipv6 spdrInfo with
  | Some _, _ => PutPdrDownlink (s_Ipv4 spdrInfo) (s_PdrInfo spdrInfo)
  | None, Some _ => PutDownlinkPdrIp6 (s_Ipv6 spdrInfo) (s_PdrInfo spdrInfo)
  | None, None => PutPdrUplink (s_Teid spdrInfo) (s_PdrInfo spdrInfo)
  end.

Definition on_ctx {A} (m : M PDRCreationContext A) : M (PDRCreationContext * F) A :=
  zoom fst (λ c s, (c, s.2)) m.
Definition on_maps {A} (m : M F A) : M (PDRCreationContext * F) A :=
  zoom snd (λ f s, (s.1, f)) m.

(** The error of the forwarding plane is wrapped in a new one. *)
Definition wrap_err {S A} (msg : string) (m : M S A) : M S A :=
  on_result m (λ a, mret a) (λ _, throw (Errorf msg)).

(* cmd/core/pdr_creation_context.go:166-181 deletePDR *)
Definition delete_pdr_entry (spdrInfo : SPDRInfo) : M (PDRCreationContext * F) unit :=
  match s_Ipv4 spdrInfo, s_Ipv6 spdrInfo with
  | Some _, _ =>
      wrap_err "Can't delete IPv4 PDR" (on_maps (DeletePdrDownlink (s_Ipv4 spdrInfo)))
  | None, Some _ =>
      wrap_err "Can't delete IPv6 PDR" (on_maps (DeleteDownlinkPdrIp6 (s_Ipv6 spdrInfo)))
  | None, None =>
      c ← gets fst;
      match TEIDCache c !! u8 (s_Teid spdrInfo) with
      | Some _ => mret tt
      | None =>
          wrap_err "Can't delete GTP PDR" (on_maps (DeletePdrUplink (s_Teid spdrInfo))) ≫= λ _,
          on_ctx (modify (λ c, set_TEIDCache (<[u8 (s_Teid spdrInfo) := 0]> (TEIDCache c)) c))
      end
  end.

(* cmd/core/pdr_creation_context.go:165-186 deletePDR *)
Definition deletePDR (spdrInfo : SPDRInfo) : M (PDRCreationContext * F) unit :=
  delete_pdr_entry spdrInfo ≫= λ _,
  if s_Teid spdrInfo =? 0 then mret tt
  else c ← gets fst;
       on_ctx (on_rm (with_FTEIDM (ReleaseTEID (RemoteSEID (pc_Session c))))).

End pdr_context.

(* cmd/core/pdr.go:11-11 flagPresentIPv4 *)
Definition flagPresentIPv4 : Z := 2.

(* cmd/core/pdr.go:33-47 processCreatedPDRs *)
Definition processCreatedPDRs (createdPDRs : list SPDRInfo) (n3Address : NetIP) : list OutIE :=
  omap (λ pdr,
    if s_Allocated pdr then
      match s_Ipv4 pdr, s_Ipv6 pdr with
      | Some _, _ =>
          Some (NewCreatedPDR [NewPDRID (u16 (s_PdrID pdr));
                               NewUEIPAddress flagPresentIPv4 (IPString (s_Ipv4 pdr)) "" 0 0])
      | None, Some _ => None
      | None, None =>
          Some (NewCreatedPDR [NewPDRID (u16 (s_PdrID pdr));
                               NewFTEID 1 (s_Teid pdr) (cloneIP n3Address) None 0])
      end
    else None) createdPDRs.

(** ** PDR entries by key *)

(** The entry a PDR installs: by UE address if it has one, else by TEID. *)
Inductive pdr_key := KIp4 (ip : NetIP) | KIp6 (ip : NetIP) | KTeid (teid : Z).

#[export] Instance pdr_key_eq_dec : EqDecision pdr_key.
Proof. solve_decision. Defined.

Definition key_of (p : SPDRInfo) : pdr_key :=
  match s_Ipv4 p, s_Ipv6 p with
  | Some _, _ => KIp4 (s_Ipv4 p)
  | None, Some _ => KIp6 (s_Ipv6 p)
  | None, None => KTeid (s_Teid p)
  end.

Definition pdr_entry (v : FPView) (k : pdr_key) : option IpEntrypointPdrInfo :=
  match k with
  | KIp4 ip => v_ip4 v !! ip
  | KIp6 ip => v_ip6 v !! ip
  | KTeid teid => v_teid v !! teid
  end.

Definition put_entry (k : pdr_key) (e : IpEntrypointPdrInfo) (v : FPView) : FPView :=
  match k with
  | KIp4 ip => on_ip4 <[ip:=e]> v
  | KIp6 ip => on_ip6 <[ip:=e]> v
  | KTeid teid => on_teid <[teid:=e]> v
  end.

Definition delete_entry (k : pdr_key) (v : FPView) : FPView :=
  match k with
  | KIp4 ip => on_ip4 (delete ip) v
  | KIp6 ip => on_ip6 (delete ip) v
  | KTeid teid => on_teid (delete teid) v
  end.

(** The rule tables of a view. *)
Definition same_rules (v v' : FPView) : Prop :=
  v_far v' = v_far v ∧ v_qer v' = v_qer v ∧ v_urr v' = v_urr v.

Lemma pdr_entry_put k e v k' :
  pdr_entry (put_entry k e v) k' = if decide (k' = k) then Some e else pdr_entry v k'.
Proof.
  case_decide as Hk; [subst; destruct k; cbn; apply lookup_insert_eq|].
  destruct k, k'; cbn; try done; rewrite lookup_insert_ne; naive_solver.
Qed.

Lemma pdr_entry_delete k v k' :
  pdr_entry (delete_entry k v) k' = if decide (k' = k) then None else pdr_entry v k'.
Proof.
  case_decide as Hk; [subst; destruct k; cbn; apply lookup_delete_eq|].
  destruct k, k'; cbn; try done; rewrite lookup_delete_ne; naive_solver.
Qed.

Lemma same_rules_put k e v : same_rules v (put_entry k e v).
Proof. by destruct k. Qed.
Lemma same_rules_delete k v : same_rules v (delete_entry k v).
Proof. by destruct k. Qed.
Lemma same_rules_refl v : same_rules v v.
Proof. done. Qed.
Lemma same_rules_trans v1 v2 v3 : same_rules v1 v2 → same_rules v2 v3 → same_rules v1 v3.
Proof. unfold same_rules. naive_solver congruence. Qed.

#[export] Hint Resolve same_rules_put same_rules_delete same_rules_refl : eupf.

(** ** Lemmas: installing and removing a PDR *)

Section install.
Context `{Pfcp} `{MapOrder} `{ForwardingPlane F}.
Implicit Types (fp : F) (v : FPView) (c : PDRCreationContext).

Lemma applyPDR_spec fp v p :
  fp_repr fp v →
  wp (applyPDR p) fp
    (λ _ fp', fp_repr fp' (put_entry (key_of p)
                (store_pdr (pdr_entry v (key_of p)) (s_PdrInfo p)) v))
    (λ _ fp', pdr_entry v (key_of p) = None ∧ fp_repr fp' v).
Proof.
  intros Hv. unfold applyPDR, key_of.
  destruct (s_Ipv4 p) as [a|]; [|destruct (s_Ipv6 p) as [a|]].
  - by apply PutPdrDownlink_ok.
  - by apply PutDownlinkPdrIp6_ok.
  - by apply PutPdrUplink_ok.
Qed.

(** The pool of the resource manager of a context. *)
Definition ctx_FTEIDM c : option FTEIDM := pc_ResourceManager c ≫= rm_FTEIDM.

Definition put_FTEIDM (f : FTEIDM) c : PDRCreationContext :=
  set_pc_ResourceManager
    ((λ rm, mkResourceManager (rm_IPAM rm) (Some f)) <$> pc_ResourceManager c) c.

Lemma wp_with_FTEIDM {A} (m : M FTEIDM A) c f (Q : A → PDRCreationContext → Prop) E :
  ctx_FTEIDM c = Some f →
  wp m f (λ a f', Q a (put_FTEIDM f' c)) (λ e f', E e (put_FTEIDM f' c)) →
  wp (on_rm (with_FTEIDM m)) c Q E.
Proof.
  destruct c as [s [[i f0]|] t]; [|done]. cbn. intros -> Hm.
  apply wp_zoom. unfold wp, with_FTEIDM in *. cbn. by destruct (m f) as [f' [a|e|]].
Qed.

Lemma ctx_FTEIDM_put f f' c : ctx_FTEIDM c = Some f → ctx_FTEIDM (put_FTEIDM f' c) = Some f'.
Proof. destruct c as [s [[i f0]|] t]; naive_solver. Qed.

(** The two halves of [deletePDR]. *)
Definition cached c p : bool :=
  match key_of p with KTeid t => bool_decide (is_Some (TEIDCache c !! u8 t)) | _ => false end.

Definition mark_deleted p c : PDRCreationContext :=
  match key_of p with
  | KTeid t => if cached c p then c else set_TEIDCache (<[u8 t := 0]> (TEIDCache c)) c
  | _ => c
  end.

(** The entry goes unless the cache says it is gone. *)
Lemma delete_pdr_entry_spec c fp v p :
  fp_repr fp v →
  wp (delete_pdr_entry p) (c, fp)
    (λ _ s', fp_repr s'.2 (if cached c p then v else delete_entry (key_of p) v) ∧
       (cached c p = true ∨ is_Some (pdr_entry v (key_of p))) ∧ s'.1 = mark_deleted p c)
    (λ _ s', pdr_entry v (key_of p) = None ∧ cached c p = false ∧ fp_repr s'.2 v ∧ s'.1 = c).
Proof.
  intros Hv. unfold delete_pdr_entry.
  unfold cached, mark_deleted, cached, key_of, wrap_err, on_maps, on_ctx.
  destruct (s_Ipv4 p) as [a|]; [|destruct (s_Ipv6 p) as [a|]]; wp_go.
  - wp_call DeletePdrDownlink_ok; intros ? fp' [??]; wp_go; cbn; auto.
  - wp_call DeleteDownlinkPdrIp6_ok; intros ? fp' [??]; wp_go; cbn; auto.
  - destruct (TEIDCache c !! u8 (s_Teid p)) eqn:Hc; cbn [fst]; rewrite Hc.
    + wp_go. rewrite bool_decide_eq_true_2 by done. naive_solver.
    + rewrite bool_decide_eq_false_2 by (by intros []). wp_go.
      wp_call DeletePdrUplink_ok; intros ? fp' [??]; wp_go; cbn; auto.
Qed.

(** [deletePDR]: the entry, and the session's TEIDs when the PDR has one. *)
Lemma deletePDR_spec c fp v p :
  fp_repr fp v → (s_Teid p ≠ 0 → is_Some (ctx_FTEIDM c)) →
  wp (deletePDR p) (c, fp)
    (λ _ s', fp_repr s'.2 (if cached c p then v else delete_entry (key_of p) v) ∧
       (cached c p = true ∨ is_Some (pdr_entry v (key_of p))) ∧
       if s_Teid p =? 0 then s'.1 = mark_deleted p c
       else ∃ f f', ctx_FTEIDM c = Some f ∧ s'.1 = put_FTEIDM f' (mark_deleted p c) ∧
            ReleaseTEID (RemoteSEID (pc_Session c)) f = (f', Ok tt))
    (λ _ s', pdr_entry v (key_of p) = None ∧ cached c p = false ∧ fp_repr s'.2 v ∧ s'.1 = c).
Proof.
  intros Hv Hrm. unfold deletePDR. wp_step. wp_call (delete_pdr_entry_spec c fp v); [|done].
  intros _ [c1 fp1] (Hv1 & Hd & Hc1). cbn [fst snd] in *. subst c1.
  destruct (Z.eqb_spec (s_Teid p) 0) as [Ht|Ht]; wp_go; [done|].
  destruct (Hrm Ht) as [f Hf]. cbn [fst].
  assert (RemoteSEID (pc_Session (mark_deleted p c)) = RemoteSEID (pc_Session c) ∧
          ctx_FTEIDM (mark_deleted p c) = Some f) as [-> Hf'].
  { unfold mark_deleted. destruct (key_of p); try done. by destruct (cached c p). }
  unfold on_ctx. wp_step. cbn [fst]. apply (wp_with_FTEIDM _ _ f); [done|].
  unfold ReleaseTEID. wp_go. cbn [fst snd]. split; [done|]. split; [done|].
  eexists f, _. split; [done|]. split; [done|]. done.
Qed.

End install.

(** ** CHOOSE IDs *)

Section choose.
Context `{Pfcp} `{MapOrder} (Conf : UpfConfig).
Implicit Types c : PDRCreationContext.

(** The F-TEID of a PDR that asks the UPF to choose a TEID. *)
Definition chooses (pdr : IE) (fteid : FTEIDFields) : Prop :=
  ∃ pdi n i, IE_PDI pdr = inr pdi ∧ findIEindex pdi ie_FTEID = Z.of_nat n ∧
    pdi !! n = Some i ∧ IE_FTEID i = inr fteid ∧ HasCh fteid = true.

Definition same_choice (f g : FTEIDFields) : Prop :=
  HasChID f = true ∧ HasChID g = true ∧ ChooseID f = ChooseID g.

Lemma same_choice_sym f g : same_choice f g ↔ same_choice g f.
Proof. unfold same_choice. naive_solver. Qed.

(** The F-TEIDs read so far, with the TEIDs they got: the TEIDs come from
    [al], the cache holds those with a CHOOSE ID, and equal TEIDs are equal
    choices. *)
Definition cache_holds (R : list (FTEIDFields * Z)) (m : gmap Z Z) : Prop :=
  ∀ cid t, m !! cid = Some t ↔ ∃ f, (f, t) ∈ R ∧ HasChID f = true ∧ ChooseID f = cid.

Definition equal_choices (R : list (FTEIDFields * Z)) : Prop :=
  ∀ i j f g t u, i ≠ j → R !! i = Some (f, t) → R !! j = Some (g, u) → (t = u ↔ same_choice f g).

Definition choice_inv (R : list (FTEIDFields * Z)) (al : list Z) c : Prop :=
  (∀ f t, (f, t) ∈ R → t ∈ al) ∧ cache_holds R (TEIDCache c) ∧ equal_choices R ∧
  ∃ p m, ctx_FTEIDM c = Some p ∧ busyTEIDs p = Some m ∧ NoDup (al ++ freeTEIDs p).

Lemma wp_getFTEID c p m seID pdrID :
  ctx_FTEIDM c = Some p → busyTEIDs p = Some m →
  wp (getFTEID seID pdrID) c
    (λ teid c', ∃ rest m', freeTEIDs p = teid :: rest ∧
       c' = put_FTEIDM (mkFTEIDM rest (Some m')) c)
    (λ _ c', freeTEIDs p = [] ∧ c' = put_FTEIDM p c).
Proof.
  intros Hp Hm. unfold getFTEID. wp_go.
  assert (has_FTEIDM (pc_ResourceManager c) = true) as ->.
  { by destruct c as [s [[i [f|]]|] t]. }
  cbn [negb]. wp_go. apply (wp_with_FTEIDM _ _ p); [done|].
  wp_call (AllocateTEID_spec _ _ _ m).
  - intros teid p' (rest & Hrest & -> & _). wp_go. eauto.
  - intros e p' (_ & Hrest & ->). by wp_go.
Qed.

Lemma elem_of_snoc_lookup {A} (l : list A) x i y :
  (l ++ [x]) !! i = Some y → l !! i = Some y ∨ i = length l ∧ y = x.
Proof.
  intros [Hi|[Hle Hi]]%lookup_app_Some; [by left|right].
  apply list_lookup_singleton_Some in Hi as [? ->]. split; [lia|done].
Qed.

(** One more F-TEID. *)
Lemma equal_choices_snoc R fteid t :
  equal_choices R → (∀ j g u, R !! j = Some (g, u) → t = u ↔ same_choice fteid g) →
  equal_choices (R ++ [(fteid, t)]).
Proof.
  intros Hpair Hnew i j f g t' u Hij [Hi|[-> Hi]]%elem_of_snoc_lookup [Hj|[-> Hj]]%elem_of_snoc_lookup.
  - by eapply Hpair.
  - simplify_eq. rewrite same_choice_sym, <-(Hnew _ _ _ Hi). done.
  - simplify_eq. by eapply Hnew.
  - done.
Qed.

(** With a CHOOSE ID seen before. *)
Lemma cached_again R m fteid t :
  cache_holds R m → HasChID fteid = true → m !! ChooseID fteid = Some t → cache_holds (R ++ [(fteid, t)]) m.
Proof.
  intros Hcache Hid Hhit cid u. pose proof (proj1 (Hcache _ _) Hhit) as (f0 & Hin & Hf0 & Hc0).
  rewrite (Hcache cid u). setoid_rewrite elem_of_app. setoid_rewrite list_elem_of_singleton.
  split; [naive_solver|].
  intros (f & [Hf|[= -> ->]] & Hfid & <-); [eauto|]. exists f0. by rewrite Hc0.
Qed.

(** With a new CHOOSE ID, and without one. *)
Lemma cached_new R m fteid t :
  cache_holds R m → (HasChID fteid = true → m !! ChooseID fteid = None) →
  cache_holds (R ++ [(fteid, t)]) (if HasChID fteid then <[ChooseID fteid := t]> m else m).
Proof.
  intros Hcache Hmiss cid u. setoid_rewrite elem_of_app. setoid_rewrite list_elem_of_singleton.
  destruct (HasChID fteid) eqn:Hid.
  - rewrite lookup_insert. case_decide as Heq.
    + subst cid. split; [naive_solver|]. intros (f & [Hf|[= -> ->]] & Hf1 & Hf2); [|done].
      assert (m !! ChooseID fteid = Some u) by (apply Hcache; eauto). rewrite Hmiss in *; done.
    + rewrite (Hcache cid u). split; [intros (f & ? & ? & ?); eauto 6|].
      intros (f & [?|[= -> ->]] & ? & ?); [eauto|congruence].
  - rewrite (Hcache cid u). split; [intros (f & ? & ? & ?); eauto 6|].
    intros (f & [?|[= -> ->]] & ? & ?); [eauto|congruence].
Qed.

(** The choice of one F-TEID keeps the invariant. *)
Lemma extract_teid_choice R al c fteid spdr :
  HasCh fteid = true → choice_inv R al c →
  wp (extract_teid fteid spdr) c
    (λ s c', ∃ al', choice_inv (R ++ [(fteid, s_Teid s)]) al' c') (λ _ _, True).
Proof.
  intros Hch (Hal & Hcache & Hpair & p & m & Hp & Hm & Hnd). unfold extract_teid. rewrite Hch. wp_go.
  destruct (if HasChID fteid then _ else _) as [t|] eqn:Hhit.
  - (* from the cache *)
    destruct (HasChID fteid) eqn:Hid; [|done]. unfold hasTEIDCache in Hhit.
    wp_go. exists al. cbn [s_Teid set_Teid].
    pose proof (proj1 (Hcache _ _) Hhit) as (f0 & Hin & Hf0 & Hc0).
    apply list_elem_of_lookup_1 in Hin as Hk. destruct Hk as [k Hk]. split; [|split; [|split]].
    + intros f t'. rewrite elem_of_app, list_elem_of_singleton. naive_solver.
    + by apply cached_again.
    + apply equal_choices_snoc; [done|]. intros j g u Hj. destruct (decide (j = k)) as [->|Hne].
      * rewrite Hk in Hj. simplify_eq. split; [|done]. intros _. by split_and!.
      * rewrite (Hpair k j _ _ _ _ (not_eq_sym Hne) Hk Hj). unfold same_choice.
        rewrite <-Hc0, Hf0, Hid. tauto.
    + by exists p, m.
  - (* a fresh TEID *)
    wp_go. wp_call (wp_getFTEID _ p m); [|intros; by wp_go].
    intros t c' (rest & m' & Hrest & ->). rewrite Hrest in Hnd.
    assert (t ∉ al) as Hfresh.
    { apply NoDup_app in Hnd as (_ & Hd & _). intros Hin. apply (Hd t Hin). set_solver. }
    assert (HasChID fteid = true → TEIDCache c !! ChooseID fteid = None) as Hmiss.
    { intros Hid. by rewrite Hid in Hhit. }
    assert (∀ c2, ctx_FTEIDM c2 = ctx_FTEIDM (put_FTEIDM (mkFTEIDM rest (Some m')) c) →
      cache_holds (R ++ [(fteid, t)]) (TEIDCache c2) → choice_inv (R ++ [(fteid, t)]) (al ++ [t]) c2) as Hinv.
    { intros c2 Hc2 Hcache2. split; [|split; [done|split]].
      - intros f u. rewrite !elem_of_app, !list_elem_of_singleton. naive_solver.
      - apply equal_choices_snoc; [done|]. intros j g u Hj%list_elem_of_lookup_2.
        split; [intros <-; exfalso; by eapply Hfresh, Hal|]. intros (H1 & H2 & H3).
        assert (TEIDCache c !! ChooseID fteid = Some u) by (apply Hcache; eauto).
        rewrite Hmiss in *; done.
      - exists (mkFTEIDM rest (Some m')), m'. split; [rewrite Hc2; by eapply ctx_FTEIDM_put|].
        split; [done|]. cbn. by rewrite <-app_assoc. }
    pose proof (cached_new _ _ _ t Hcache Hmiss) as Hnew.
    destruct (HasChID fteid); unfold setTEIDCache; wp_go; exists (al ++ [t]); by apply Hinv.
Qed.

(** A PDR with a CHOOSE F-TEID gets its TEID from [extract_teid], or is refused
    for its SDF filter. *)
Lemma extractPDR_chooses c pdr fteid spdr Q (E : error → PDRCreationContext → Prop) :
  chooses pdr fteid → (∀ e, E e c) →
  (∀ p, wp (extract_teid fteid (set_PdrInfo p spdr)) c Q E) →
  wp (extractPDR Conf pdr spdr) c Q E.
Proof.
  intros (pdi & n & i & Hpdi & Hn & Hi & Hfteid & _) HE Hwp. unfold extractPDR. wp_go.
  rewrite Hpdi. wp_go. apply wp_lift.
  - unfold extract_sdf. destruct (IE_SDFFilter pdr) as [e|d]; [done|]. case_bool_decide; [done|].
    apply outcome_bind_no_panic; [apply ParseSdfFilter_spec|done].
  - intros p _. rewrite Hn. destruct (Z.eqb_spec (Z.of_nat n) (-1)); [lia|]. cbn [negb].
    rewrite Nat2Z.id, Hi, Hfteid. apply Hwp.
  - intros e _. apply HE.
Qed.

(** [extractPDR] on the PDRs of a request, in order. *)
Fixpoint extract_all (l : list (IE * SPDRInfo)) : M PDRCreationContext (list SPDRInfo) :=
  match l with
  | [] => mret []
  | (pdr, spdr) :: l' => s ← extractPDR Conf pdr spdr; r ← extract_all l'; mret (s :: r)
  end.

Lemma extract_all_choice l fs R al c :
  Forall2 (λ x f, chooses x.1 f) l fs → choice_inv R al c →
  wp (extract_all l) c
    (λ res c', ∃ al', length res = length fs ∧
               choice_inv (R ++ zip fs (s_Teid <$> res)) al' c') (λ _ _, True).
Proof.
  intros Hl. revert R al c. induction Hl as [|[pdr spdr] fteid l fs Hc Hl IH]; intros R al c Hinv;
    cbn [extract_all]; wp_go.
  { exists al. by rewrite app_nil_r. }
  apply (extractPDR_chooses _ _ fteid); [done..|]. intros p.
  wp_call extract_teid_choice; [by destruct Hc as (?&?&?&?&?&?&?&?)| |done].
  intros s c1 (al1 & Hinv1). wp_go. wp_call IH; [|done].
  intros res c2 (al2 & Hlen & Hinv2). wp_go. exists al2. split; [by cbn; f_equal|].
  by rewrite <-app_assoc in Hinv2.
Qed.

(** C34: PDRs that share a CHOOSE ID share a TEID, and only they do.  Take the
    PDRs of one request that ask the UPF to choose their TEID, in any order and
    number.  If they are all accepted, two of them have the same TEID exactly
    when both carry a CHOOSE ID and the IDs are equal. *)
Theorem choose_id_shares_teid rm i p m l fs session :
  rm = Some (mkResourceManager i (Some p)) → busyTEIDs p = Some m → NoDup (freeTEIDs p) →
  Forall2 (λ x f, chooses x.1 f) l fs →
  wp (extract_all l) (NewPDRCreationContext session rm)
    (λ res _, ∀ a b f g s t, a ≠ b → fs !! a = Some f → fs !! b = Some g →
       res !! a = Some s → res !! b = Some t →
       (s_Teid s = s_Teid t ↔ HasChID f = true ∧ HasChID g = true ∧ ChooseID f = ChooseID g))
    (λ _ _, True).
Proof.
  intros -> Hm Hnd Hl. wp_call (extract_all_choice l fs [] []); [| |done].
  - split; [intros f t []%elem_of_nil|]. split.
    { intros cid t. cbn. rewrite lookup_empty. split; [done|]. intros (f & []%elem_of_nil & _). }
    split; [done|]. exists p, m. by rewrite app_nil_l.
  - intros res c' (al' & Hlen & _ & _ & Hpair & _) a b f g s t Hab Hf Hg Hs Ht.
    eapply (Hpair a b); [done| |]; cbn; apply lookup_zip_with_Some;
      (eexists _, _; split; [done|]; split; [done|]); rewrite list_lookup_fmap;
      [by rewrite Hs|by rewrite Ht].
Qed.

End choose.

(** A PDR whose F-TEID asks for a TEID, with or without a CHOOSE ID. *)
Definition choose_pdr (id : Z) (chid : option Z) : demo_ie :=
  Grp 1 [Val 56 id; Grp 2 [Fteid (mkFTEIDFields (if chid is Some _ then 13 else 5) 0 (default 0 chid) None None)]].

Definition demo_rm : ResourceManager :=
  mkResourceManager (Some (mkIPAM [Some [10; 60; 0; 1]; Some [10; 60; 0; 2]] (Some ∅)))
    (Some (mkFTEIDM [1; 2; 3; 4] (Some ∅))).

Lemma choose_id_shares_teid_witness :
  let l := [(choose_pdr 1 (Some 9), zeroSPDRInfo); (choose_pdr 2 None, zeroSPDRInfo);
            (choose_pdr 3 (Some 9), zeroSPDRInfo)] in
  let c := NewPDRCreationContext (NewSession 2 77) (Some demo_rm) in
  (∃ r, (extract_all (H:=demo_pfcp) default_config l c).2 = Ok r ∧ s_Teid <$> r = [1; 2; 1]) ∧
  wp (extract_all (H:=demo_pfcp) default_config l) c
    (λ res _, ∀ s t, res !! 0%nat = Some s → res !! 2%nat = Some t → s_Teid s = s_Teid t)
    (λ _ _, True).
Proof.
  split; [eexists; split; vm_compute; reflexivity|].
  eapply wp_mono; [|intros res c' HQ s t Hs Ht|done].
  - apply (choose_id_shares_teid (H:=demo_pfcp) default_config (Some demo_rm)
      (rm_IPAM demo_rm) (mkFTEIDM [1; 2; 3; 4] (Some ∅)) ∅ _
      [mkFTEIDFields 13 0 9 None None; mkFTEIDFields 5 0 0 None None; mkFTEIDFields 13 0 9 None None]); [done..| |].
    + by apply (bool_decide_unpack _); vm_compute.
    + repeat constructor; eexists _, 0%nat, _; by vm_compute.
  - cbn beta in HQ. by apply (HQ 0%nat 2%nat _ _ s t ltac:(done) eq_refl eq_refl Hs Ht).
Defined.

(** ** Removing PDRs *)

Section removing.
Context `{Pfcp} `{MapOrder} `{ForwardingPlane F}.
Implicit Types (fp : F) (v : FPView) (c : PDRCreationContext).

(** Removing one PDR frees the TEIDs of the whole session.  [deletePDR]
    releases every TEID held under the session's remote SEID, so a TEID [t]
    that another PDR of the session holds -- or a PDR of another peer's session
    with the same remote SEID -- is free afterwards and will be assigned again,
    although its entry is still in the uplink table. *)
Theorem deletePDR_frees_other_teids c fp v spdr p m pid t :
  fp_repr fp v → ctx_FTEIDM c = Some p → busyTEIDs p = Some m →
  key_of spdr = KTeid (s_Teid spdr) → s_Teid spdr ≠ 0 →
  is_Some (v_teid v !! s_Teid spdr) →
  teid_held p (RemoteSEID (pc_Session c)) pid = Some t → t ≠ s_Teid spdr →
  is_Some (v_teid v !! t) →
  wp (deletePDR spdr) (c, fp)
    (λ _ s', ∃ p' v', ctx_FTEIDM s'.1 = Some p' ∧ t ∈ freeTEIDs p' ∧
       fp_repr s'.2 v' ∧ is_Some (v_teid v' !! t))
    (λ _ _, False).
Proof.
  intros Hv Hp Hm Hkey Ht0 Hent Hheld Hne Ht. wp_call (deletePDR_spec c fp v).
  - intros _ [c' fp'] (Hv' & _ & Hrest). cbn [fst snd] in *. rewrite (proj2 (Z.eqb_neq _ _) Ht0) in Hrest.
    destruct Hrest as (f & f' & Hf & -> & Hrel). rewrite Hp in Hf. simplify_eq.
    exists f'. pose proof (ReleaseTEID_spec f (RemoteSEID (pc_Session c)) m Hm) as Hspec.
    unfold wp in Hspec. rewrite Hrel in Hspec. destruct Hspec as (_ & Hfree & _).
    exists (if cached c spdr then v else delete_entry (key_of spdr) v).
    split; [|split; [|split; [done|]]].
    + apply (ctx_FTEIDM_put f). unfold mark_deleted. destruct (key_of spdr); try done.
      by destruct (cached c spdr).
    + rewrite Hfree. apply elem_of_app. right. unfold session_teids.
      unfold teid_held in Hheld. destruct (_ !! RemoteSEID (pc_Session c)) as [pdrs|]; [|done].
      cbn in Hheld |- *. unfold teids_of. rewrite vals_flat, elem_of_flat. set_solver.
    + destruct (cached c spdr); [done|]. rewrite Hkey. cbn. by rewrite lookup_delete_ne.
  - intros _ s' (Hnone & _). rewrite Hkey in Hnone. cbn in Hnone. rewrite Hnone in Hent.
    by destruct Hent.
Qed.

(** A PDR is skipped when its TEID has the low byte of one already
    removed.  The cache of removed TEIDs is keyed by [uint8(teid)]: when two
    uplink PDRs have different TEIDs that agree modulo 256, removing both
    reports success and leaves the entry of the second in the table. *)
Theorem deletePDR_skips_low_byte c fp v p1 p2 f m :
  fp_repr fp v → ctx_FTEIDM c = Some f → busyTEIDs f = Some m →
  key_of p1 = KTeid (s_Teid p1) → key_of p2 = KTeid (s_Teid p2) →
  s_Teid p1 ≠ s_Teid p2 → u8 (s_Teid p1) = u8 (s_Teid p2) →
  is_Some (v_teid v !! s_Teid p1) → is_Some (v_teid v !! s_Teid p2) →
  wp (deletePDR p1 ≫= λ _, deletePDR p2) (c, fp)
    (λ _ s', ∃ v', fp_repr s'.2 v' ∧ is_Some (v_teid v' !! s_Teid p2))
    (λ _ _, False).
Proof.
  intros Hv Hf Hm Hk1 Hk2 Hne Hlow He1 He2. wp_step. wp_call (deletePDR_spec c fp v).
  2:{ intros _ s' (Hnone & _). rewrite Hk1 in Hnone. cbn in Hnone. rewrite Hnone in He1.
      by destruct He1. }
  intros _ [c1 fp1] (Hv1 & _ & Hc1). cbn [fst snd] in *.
  assert (cached c1 p2 = true ∧ ∃ f1 m1, ctx_FTEIDM c1 = Some f1 ∧ busyTEIDs f1 = Some m1)
    as [Hcached Hf1].
  { assert (cached (mark_deleted p1 c) p2 = true ∧ ctx_FTEIDM (mark_deleted p1 c) = Some f)
      as [Hca Hfa].
    { unfold mark_deleted, cached. rewrite Hk1, Hk2, <-Hlow.
      destruct (bool_decide (is_Some (TEIDCache c !! u8 (s_Teid p1)))) eqn:Hb; [done|].
      cbn. by rewrite lookup_insert_eq. }
    case_match; [subst; eauto|].
    destruct Hc1 as (f0 & f' & Hf0 & -> & Hrel). rewrite Hf in Hf0. simplify_eq.
    split; [done|]. exists f', (delete (RemoteSEID (pc_Session c)) m).
    split; [by eapply ctx_FTEIDM_put|].
    pose proof (ReleaseTEID_spec f0 (RemoteSEID (pc_Session c)) m Hm) as Hspec.
    unfold wp in Hspec. rewrite Hrel in Hspec. apply Hspec. }
  eapply wp_mono; [eapply (deletePDR_spec c1 fp1); [done|]| |].
  - intros _. destruct Hf1 as (f1 & m1 & -> & _). done.
  - intros _ s' (Hv2 & _ & _). rewrite Hcached in Hv2. eexists. split; [done|].
    destruct (cached c p1); [done|]. rewrite Hk1. cbn. by rewrite lookup_delete_ne.
  - intros _ s' (_ & Hnc & _). congruence.
Qed.

End removing.

#[local] Existing Instance ascending_order.

(** A session with remote SEID 77 whose PDRs 1 and 2 hold TEIDs 1 and 257. *)
Definition demo_pool : FTEIDM := mkFTEIDM [3; 4] (Some {[77 := <[2 := 257]> {[1 := 1]}]}).
Definition demo_ctx : PDRCreationContext :=
  NewPDRCreationContext (NewSession 2 77) (Some (mkResourceManager None (Some demo_pool))).
Definition demo_teid_pdr (id teid : Z) : SPDRInfo := mkSPDRInfo id zeroPdrInfo teid None None true.
Definition demo_view : FPView :=
  mkFPView ∅ ∅ ∅ (<[1 := zeroPdrEntry]> (<[257 := zeroPdrEntry]> ∅)) ∅ ∅.

Lemma deletePDR_frees_other_teids_witness :
  wp (deletePDR (demo_teid_pdr 1 1)) (demo_ctx, demo_view)
    (λ _ s', ∃ p' v', ctx_FTEIDM s'.1 = Some p' ∧ 257 ∈ freeTEIDs p' ∧
       fp_repr s'.2 v' ∧ is_Some (v_teid v' !! 257))
    (λ _ _, False) ∧
  freeTEIDs <$> ctx_FTEIDM (deletePDR (demo_teid_pdr 1 1)
                              (demo_ctx, demo_view)).1.1 = Some [3; 4; 257; 1].
Proof.
  split; [|vm_compute; reflexivity].
  apply (deletePDR_frees_other_teids demo_ctx demo_view demo_view
    (demo_teid_pdr 1 1) demo_pool {[77 := <[2 := 257]> {[1 := 1]}]} 2 257); try done; by eexists.
Defined.

Lemma deletePDR_skips_low_byte_witness :
  wp (deletePDR (demo_teid_pdr 1 1) ≫= λ _,
      deletePDR (demo_teid_pdr 2 257)) (demo_ctx, demo_view)
    (λ _ s', ∃ v', fp_repr s'.2 v' ∧ is_Some (v_teid v' !! 257)) (λ _ _, False).
Proof.
  apply (deletePDR_skips_low_byte demo_ctx demo_view demo_view
    (demo_teid_pdr 1 1) (demo_teid_pdr 2 257) demo_pool {[77 := <[2 := 257]> {[1 := 1]}]});
    try done; by eexists.
Defined.

(** ** PDRs without an address *)

Section no_address.
Context `{Pfcp} (Conf : UpfConfig) `{ForwardingPlane F}.

(** A PDR without an F-TEID and without a UE address is accepted and
    installed under TEID 0.  The last [return err] of [extractPDR] returns the
    error of [pdr.PDI()], which is nil at that point: the new PDR keeps its
    zero TEID, and [applyPDR] replaces the uplink entry of TEID 0, shared by
    all such PDRs of all sessions. *)
Theorem extractPDR_without_address pdr pdi c fp v id :
  IE_PDI pdr = inr pdi → IE_SDFFilter pdr = inl (Errorf "IE not found") →
  (∀ i, i ∈ pdi → IE_Type i ≠ ie_FTEID ∧ IE_Type i ≠ ie_UEIPAddress) → fp_repr fp v →
  let spdr := mkSPDRInfo id zeroPdrInfo 0 None None false in
  wp (extractPDR Conf pdr spdr) c
    (λ s c', c' = c ∧ s_Teid s = 0 ∧
       wp (applyPDR s) fp
         (λ _ fp', ∃ e, fp_repr fp' (on_teid <[0 := e]> v)) (λ _ _, v_teid v !! 0 = None))
    (λ _ _, False).
Proof.
  intros Hpdi Hsdf Hno Hv spdr. unfold extractPDR. wp_go. rewrite Hpdi. wp_go.
  unfold extract_sdf. rewrite Hsdf. apply wp_lift; [done| |done]. intros p _.
  assert (∀ ty, (∀ i, i ∈ pdi → IE_Type i ≠ ty) → findIEindex pdi ty = -1) as Hidx.
  { intros ty Hty. destruct (findIEindex_spec pdi ty) as [[? _]|(n & i & _ & Hi & Heq & _)]; [done|].
    apply list_elem_of_lookup_2 in Hi. by destruct (Hty i Hi). }
  rewrite !Hidx by (intros i Hi; by apply Hno). cbn [negb Z.eqb]. wp_go. split; [done|]. split; [done|].
  wp_call applyPDR_spec.
  - intros _ fp' Hv'. change (key_of _) with (KTeid 0) in Hv'. eexists. exact Hv'.
  - intros _ fp' [Hnone _]. done.
Qed.

End no_address.

Lemma extractPDR_without_address_witness :
  let pdr := Grp 1 [Val 56 5; Grp 2 [Val 20 1]] in
  wp (extractPDR (H:=demo_pfcp) default_config pdr (mkSPDRInfo 5 zeroPdrInfo 0 None None false))
    demo_ctx (λ s _, s_Teid s = 0) (λ _ _, False).
Proof.
  intros pdr. eapply wp_mono.
  - apply (extractPDR_without_address (H:=demo_pfcp) default_config (F:=FPView) pdr [Val 20 1]
      demo_ctx demo_view demo_view 5); [done..| |done].
    apply Forall_forall. constructor; [split; vm_compute; discriminate|constructor].
  - by intros s c' (_ & Hs & _).
  - done.
Defined.
