(* ===== verification/Connection.v ===== *)
(** * The PFCP connection (cmd/core/pfcp_connection.go, node_association.go)

    The state all handlers work on: the associations with their sessions, the
    forwarding plane, the resource manager; and the operations on it that are
    not message handlers.  Effects outside the state -- metrics, messages
    sent, goroutines started -- are appended to a trace. *)

From S2P Require Import Prelude Net Config ForwardingPlane Resources Session Pfcp PdrContext.

(* cmd/core/node_association.go:13-23 NodeAssociation *)
Record NodeAssociation := mkNodeAssociation {
  ID : string;
  Addr : string;
  NextSessionID : Z;
  NextSequenceID : Z;
  Sessions : gmap Z Session
}.

(* cmd/core/node_association.go:25-35 NewNodeAssociation *)
Definition NewNodeAssociation (remoteNodeID addr : string) : NodeAssociation :=
  mkNodeAssociation remoteNodeID addr 1 1 ∅.

Definition on_Sessions f a :=
  mkNodeAssociation (ID a) (Addr a) (NextSessionID a) (NextSequenceID a) (f (Sessions a)).

(* cmd/core/node_association.go:37-40 NewLocalSEID *)
Definition NewLocalSEID : M NodeAssociation Z :=
  modify (λ a, mkNodeAssociation (ID a) (Addr a) (u64 (NextSessionID a + 1)) (NextSequenceID a)
                 (Sessions a)) ≫= λ _,
  gets NextSessionID.

(* cmd/core/node_association.go:42-48 NewSequenceID *)
Definition NewSequenceID : M NodeAssociation Z :=
  modify (λ a, mkNodeAssociation (ID a) (Addr a) (NextSessionID a) (u32 (NextSequenceID a + 1))
                 (Sessions a)) ≫= λ _,
  gets NextSequenceID.

Inductive event :=
  | Rx (t : MsgType)                           (* PfcpMessageRx *)
  | RxErrors (t : MsgType) (cause : string)    (* PfcpMessageRxErrors *)
  | Tx (t : MsgType)                           (* PfcpMessageTx *)
  | Sent (m : OutMsg) (addr : string)
  | GoScheduleHeartbeat (addr : string)
  | HeartbeatSend (addr : string) (seq : Z).   (* association.HeartbeatChannel <- seq *)

(** The only implementation of [AssociationConnector]; its other method is
    [sendAssociationSetupRequest]. *)
(* cmd/core/pfcp_connection.go:232-234 DefaultAssociationConnector *)
Record DefaultAssociationConnector := mkConnector { address : string }.

(* cmd/core/pfcp_connection.go:236-240 NewDefaultAssociationConnector *)
Definition NewDefaultAssociationConnector (address : string) : DefaultAssociationConnector := mkConnector address.

(* cmd/core/pfcp_connection.go:242-244 getAddress *)
Definition getAddress (connector : DefaultAssociationConnector) : string := address connector.

(* cmd/core/pfcp_connection.go:35-50 PfcpConnection *)
Record PfcpConnection (F : Type) := mkPfcpConnection {
  NodeAssociations : gmap string NodeAssociation;
  nodeId : string;
  nodeAddrV4 : NetIP;
  n3Address : NetIP;
  n9Address : NetIP;
  mapOperations : F;
  RecoveryTimestamp : Z;
  featuresOctets : bytes;
  conn_ResourceManager : option ResourceManager;
  nodes : list DefaultAssociationConnector;
  trace : list event
}.
Arguments mkPfcpConnection {F}.
Arguments NodeAssociations {F}.
Arguments nodeId {F}.
Arguments nodeAddrV4 {F}.
Arguments n3Address {F}.
Arguments n9Address {F}.
Arguments mapOperations {F}.
Arguments RecoveryTimestamp {F}.
Arguments featuresOctets {F}.
Arguments conn_ResourceManager {F}.
Arguments nodes {F}.
Arguments trace {F}.

Section connection.
Context {F : Type}.
Implicit Types c : PfcpConnection F.

Definition set_NodeAssociations n c := mkPfcpConnection n (nodeId c) (nodeAddrV4 c) (n3Address c)
  (n9Address c) (mapOperations c) (RecoveryTimestamp c) (featuresOctets c)
  (conn_ResourceManager c) (nodes c) (trace c).
Definition set_mapOperations (f : F) c := mkPfcpConnection (NodeAssociations c) (nodeId c) (nodeAddrV4 c)
  (n3Address c) (n9Address c) f (RecoveryTimestamp c) (featuresOctets c)
  (conn_ResourceManager c) (nodes c) (trace c).
Definition set_ResourceManager r c := mkPfcpConnection (NodeAssociations c) (nodeId c)
  (nodeAddrV4 c) (n3Address c) (n9Address c) (mapOperations c) (RecoveryTimestamp c)
  (featuresOctets c) r (nodes c) (trace c).
Definition set_nodes n c := mkPfcpConnection (NodeAssociations c) (nodeId c) (nodeAddrV4 c)
  (n3Address c) (n9Address c) (mapOperations c) (RecoveryTimestamp c) (featuresOctets c)
  (conn_ResourceManager c) n (trace c).
Definition set_trace t c := mkPfcpConnection (NodeAssociations c) (nodeId c) (nodeAddrV4 c)
  (n3Address c) (n9Address c) (mapOperations c) (RecoveryTimestamp c) (featuresOctets c)
  (conn_ResourceManager c) (nodes c) t.

Definition emit (e : event) : M (PfcpConnection F) unit :=
  modify (λ c, set_trace (trace c ++ [e]) c).

(** The pointer [GetAssociation] returns is followed by an update in place. *)
Definition update_association (addr : string) (f : NodeAssociation → NodeAssociation) c :=
  set_NodeAssociations (alter f addr (NodeAssociations c)) c.

(* cmd/core/pfcp_connection.go:52-57 GetAssociation *)
Definition GetAssociation (assocAddr : string) c : option NodeAssociation :=
  NodeAssociations c !! assocAddr.

(* cmd/core/pfcp_connection.go:109-111 SetRemoteNodes *)
Definition SetRemoteNodes (n : list DefaultAssociationConnector) : M (PfcpConnection F) unit := modify (set_nodes n).

(** Go ranges over the map; the sum does not depend on the order. *)
(* cmd/core/pfcp_connection.go:206-212 GetSessionCount *)
Definition GetSessionCount `{MapOrder} c : Z :=
  foldl (λ count a, count + Z.of_nat (size (Sessions a))) 0 (range_map (NodeAssociations c)).*2.

(* cmd/core/pfcp_connection.go:214-216 GetAssiciationCount *)
Definition GetAssiciationCount c : Z := Z.of_nat (size (NodeAssociations c)).

(* cmd/core/pfcp_connection.go:218-230 ReleaseResources *)
Definition ReleaseResources `{MapOrder} (seID : Z) : M (PfcpConnection F) unit :=
  let on_pool {A} (m : M (option ResourceManager) A) :=
    zoom conn_ResourceManager set_ResourceManager m in
  rm ← gets conn_ResourceManager;
  match rm with
  | None => mret tt
  | Some _ =>
      (if has_IPAM rm then on_pool (with_IPAM (ReleaseIP seID)) else mret tt) ≫= λ _,
      (if has_FTEIDM rm then on_pool (with_FTEIDM (ReleaseTEID seID)) else mret tt)
  end.

(** Code that works on a session's PDR context: the resource manager and the
    forwarding plane are those of the connection. *)
Definition with_pdr_context {A} (session : Session) (m : M (PDRCreationContext * F) A)
    : M (PfcpConnection F) A := λ c,
  let '((pc, fp), r) :=
    m (NewPDRCreationContext session (conn_ResourceManager c), mapOperations c) in
  (set_ResourceManager (pc_ResourceManager pc) (set_mapOperations fp c), r).

Definition on_plane {A} (m : M F A) : M (PfcpConnection F) A :=
  zoom mapOperations set_mapOperations m.

Context `{ForwardingPlaneController F} `{MapOrder}.

(* cmd/core/pfcp_connection.go:193-204 DeleteSession *)
Definition DeleteSession (session : Session) : M (PfcpConnection F) unit :=
  for_each (range_map (FARs session))
    (λ far, ignore_err (on_plane (DeleteFar (sf_GlobalId far.2)))) ≫= λ _,
  for_each (range_map (QERs session))
    (λ qer, ignore_err (on_plane (DeleteQer (sq_GlobalId qer.2)))) ≫= λ _,
  with_pdr_context session
    (for_each (range_map (PDRs session)) (λ pdr, ignore_err (deletePDR pdr.2))).

(** A nil association is dereferenced. *)
(* cmd/core/pfcp_connection.go:182-190 DeleteAssociation *)
Definition DeleteAssociation (assocAddr : string) : M (PfcpConnection F) unit :=
  assoc ← gets (GetAssociation assocAddr);
  match assoc with
  | None => panic
  | Some assoc =>
      for_each (range_map (Sessions assoc)) (λ s, DeleteSession s.2) ≫= λ _,
      modify (λ c, set_NodeAssociations (delete assocAddr (NodeAssociations c)) c)
  end.

End connection.

(** ** Creation and outgoing requests *)

(* cmd/core/pfcp_handlers.go:48-51 setBit *)
Definition setBit (n pos : Z) : Z := u8 (Z.lor n (Z.shiftl 1 pos)).

(* cmd/core/pfcp_connection.go:82-89 NewPfcpConnection *)
Definition features (Conf : UpfConfig) : bytes :=
  let f := [0; 0; 0] in
  let f := alter (λ o, setBit o 0) 1%nat f in
  let f := if FeatureFTUP Conf then alter (λ o, setBit o 4) 0%nat f else f in
  if FeatureUEIP Conf then alter (λ o, setBit o 2) 2%nat f else f.

Section network.
(** [net.ResolveUDPAddr] (the address), [net.ListenUDP], [time.Now], and
    [SendMessage] to a resolved peer. *)
Variable ResolveUDPAddr : string → result NetIP.
Variable ListenUDP : NetIP → result unit.
Variable SendMessage : OutMsg → NetIP → result unit.
Variable Now : Z.
Context (Conf : UpfConfig) {F : Type}.

(* cmd/core/pfcp_connection.go:59-107 NewPfcpConnection *)
Definition NewPfcpConnection (addr nodeId n3Ip n9Ip : string) (mapOperations : F)
    (rm : option ResourceManager) : outcome (PfcpConnection F) :=
  udpAddr ← of_result (ResolveUDPAddr addr);
  of_result (ListenUDP udpAddr) ≫= λ _,
  match ParseIP n3Ip with
  | None => Err (Errorf ("failed to parse N3 IP address ID: " ++ n3Ip))
  | Some n3Addr =>
      match ParseIP n9Ip with
      | None => Err (Errorf ("failed to parse N9 IP address ID: " ++ n9Ip))
      | Some n9Addr =>
          Ok (mkPfcpConnection ∅ nodeId udpAddr (Some n3Addr) (Some n9Addr) mapOperations Now
                (features Conf) rm [] [])
      end
  end.

(** Sending to a peer: an address that does not resolve or a failing send is
    only logged. *)
Definition send_to_peer (m : OutMsg) (address : string) : M (PfcpConnection F) unit :=
  match ResolveUDPAddr (address ++ ":8805") with
  | inl _ => mret tt
  | inr udpAddr =>
      match SendMessage m udpAddr with
      | inl _ => mret tt
      | inr _ => emit (Sent m address)
      end
  end.

(* cmd/core/pfcp_connection.go:246-264 sendAssociationSetupRequest *)
Definition sendAssociationSetupRequest (connector : DefaultAssociationConnector) : M (PfcpConnection F) unit :=
  let associationAddr := getAddress connector in
  c ← gets (λ c, c);
  send_to_peer (mkOutMsg AssociationSetupRequest 0 0
    [newIeNodeID (nodeId c); NewRecoveryTimeStamp (RecoveryTimestamp c);
     NewUPFunctionFeatures (featuresOctets c)]) associationAddr.

(* cmd/core/pfcp_hearbeat.go:42-53 SendHeartbeatRequest *)
Definition SendHeartbeatRequest (sequenceID : Z) (associationAddr : string)
    : M (PfcpConnection F) unit :=
  c ← gets (λ c, c);
  send_to_peer (mkOutMsg HeartbeatRequest 0 sequenceID [NewRecoveryTimeStamp (RecoveryTimestamp c)])
    associationAddr.

(* cmd/core/pfcp_connection.go:173-179 RefreshAssociations *)
Definition RefreshAssociations : M (PfcpConnection F) unit :=
  ns ← gets nodes;
  for_each ns (λ node,
    assoc ← gets (GetAssociation (getAddress node));
    match assoc with
    | None => sendAssociationSetupRequest node
    | Some _ => mret tt
    end).

End network.
