(* ===== verification/SessionHandlers.v ===== *)
(** * The session handlers (cmd/core/pfcp_session_handlers.go)

    Establishment, modification and deletion of PFCP sessions.  Each handler
    returns the message to send and an error, as in the source; the rules of a
    request are applied one by one, without rollback. *)

From S2P Require Import Prelude Net Config ForwardingPlane Resources Session Sdf Pfcp PdrContext.
From S2P Require Import Display Connection.

(** ** Reading rules *)

Definition set_Action v f := mkFarInfo v (OuterHeaderCreation f) (Teid f) (RemoteIP f)
  (TransportLevelMarking f).
Definition set_OuterHeaderCreation v f := mkFarInfo (Action f) v (Teid f) (RemoteIP f)
  (TransportLevelMarking f).
Definition set_FarTeid v f := mkFarInfo (Action f) (OuterHeaderCreation f) v (RemoteIP f)
  (TransportLevelMarking f).
Definition set_RemoteIP v f := mkFarInfo (Action f) (OuterHeaderCreation f) (Teid f) v
  (TransportLevelMarking f).
Definition set_TransportLevelMarking v f := mkFarInfo (Action f) (OuterHeaderCreation f) (Teid f)
  (RemoteIP f) v.

Definition set_GateStatusUL v q := mkQerInfo v (GateStatusDL q) (Qfi q) (MaxBitrateUL q)
  (MaxBitrateDL q) (StartUL q) (StartDL q).
Definition set_GateStatusDL v q := mkQerInfo (GateStatusUL q) v (Qfi q) (MaxBitrateUL q)
  (MaxBitrateDL q) (StartUL q) (StartDL q).
Definition set_Qfi v q := mkQerInfo (GateStatusUL q) (GateStatusDL q) v (MaxBitrateUL q)
  (MaxBitrateDL q) (StartUL q) (StartDL q).
Definition set_MaxBitrateUL v q := mkQerInfo (GateStatusUL q) (GateStatusDL q) (Qfi q) v
  (MaxBitrateDL q) (StartUL q) (StartDL q).
Definition set_MaxBitrateDL v q := mkQerInfo (GateStatusUL q) (GateStatusDL q) (Qfi q)
  (MaxBitrateUL q) v (StartUL q) (StartDL q).
Definition set_Starts v q := mkQerInfo (GateStatusUL q) (GateStatusDL q) (Qfi q)
  (MaxBitrateUL q) (MaxBitrateDL q) v v.

Section reading.
Context `{Pfcp}.

(** The outer header creation of the forwarding parameters.  The error of the
    accessor is dropped, and the pointer it returns is dereferenced. *)
(* cmd/core/pfcp_session_handlers.go:581-598 composeFarInfo *)
Definition compose_forward (forward : list IE) (farInfo : FarInfo) : outcome FarInfo :=
  let outerHeaderCreationIndex := findIEindex forward 84 in
  if outerHeaderCreationIndex =? -1 then Ok farInfo
  else
    match forward !! Z.to_nat outerHeaderCreationIndex with
    | None => Panic
    | Some i =>
        match (IE_OuterHeaderCreation i).1 with
        | None => Panic
        | Some outerHeaderCreation =>
            let farInfo := set_OuterHeaderCreation
              (u8 (Z.shiftr (OuterHeaderCreationDescription outerHeaderCreation) 8)) farInfo in
            let farInfo := set_FarTeid (ohc_TEID outerHeaderCreation) farInfo in
            farInfo ← if HasIPv4 outerHeaderCreation
                      then ip ← LittleEndian_Uint32 (ohc_IPv4Address outerHeaderCreation);
                           Ok (set_RemoteIP ip farInfo)
                      else Ok farInfo;
            if HasIPv6 outerHeaderCreation then Err (Errorf "IPv6 not supported yet")
            else Ok farInfo
        end
    end.

(* cmd/core/pfcp_session_handlers.go:568-604 composeFarInfo *)
Definition composeFarInfo (far : IE) (farInfo : FarInfo) : outcome FarInfo :=
  farInfo ← match IE_ApplyAction far with
            | inr (a :: _) => Ok (set_Action a farInfo)
            | inr [] => Panic
            | inl _ => Ok farInfo
            end;
  forward ← if IE_Type far =? ie_CreateFAR then Ok (IE_ForwardingParameters far)
            else if IE_Type far =? ie_UpdateFAR then Ok (IE_UpdateForwardingParameters far)
            else Err (Errorf "unsupported IE type");
  farInfo ← match forward with
            | inr forward => compose_forward forward farInfo
            | inl _ => Ok farInfo
            end;
  Ok (when_ok (GetTransportLevelMarking far) set_TransportLevelMarking farInfo).

(* cmd/core/pfcp_session_handlers.go:606-630 updateQer *)
Definition updateQer (qerInfo : QerInfo) (qer : IE) : QerInfo :=
  let q := when_ok (IE_GateStatusDL qer) set_GateStatusDL qerInfo in
  let q := when_ok (IE_GateStatusUL qer) set_GateStatusUL q in
  let q := when_ok (IE_MBRDL qer) (λ v, set_MaxBitrateDL (u32 (u32 v * 1000))) q in
  let q := when_ok (IE_MBRUL qer) (λ v, set_MaxBitrateUL (u32 (u32 v * 1000))) q in
  let q := when_ok (IE_QFI qer) set_Qfi q in
  set_Starts 0 q.

(* cmd/core/pfcp_session_handlers.go:642-649 updateUrr *)
Definition updateUrr (urrInfo : UrrInfo) (urr : IE) : UrrInfo := urrInfo.

End reading.

(** ** Applying rules *)

(** The variables the rule closures of the handlers work on: the PDR context
    with the session, the forwarding plane, and two accumulators. *)
Record HandlerState (F : Type) := mkHandlerState {
  h_ctx : PDRCreationContext;
  h_fp : F;
  createdPDRs : list SPDRInfo;
  removedURRs : list OutIE
}.
Arguments mkHandlerState {F}.
Arguments h_ctx {F}.
Arguments h_fp {F}.
Arguments createdPDRs {F}.
Arguments removedURRs {F}.

Section rules.
Context `{Pfcp} `{MapOrder} (Conf : UpfConfig) `{ForwardingPlaneController F}.
Implicit Types h : HandlerState F.

Definition h_session h : Session := pc_Session (h_ctx h).
Definition set_h_session s h :=
  mkHandlerState (set_pc_Session s (h_ctx h)) (h_fp h) (createdPDRs h) (removedURRs h).
Definition in_ctx {A} (m : M PDRCreationContext A) : M (HandlerState F) A :=
  zoom h_ctx (λ x h, mkHandlerState x (h_fp h) (createdPDRs h) (removedURRs h)) m.
Definition in_session {A} (m : M Session A) : M (HandlerState F) A :=
  zoom h_session set_h_session m.
Definition in_maps {A} (m : M F A) : M (HandlerState F) A :=
  zoom h_fp (λ x h, mkHandlerState (h_ctx h) x (createdPDRs h) (removedURRs h)) m.
Definition in_pdrs {A} (m : M (PDRCreationContext * F) A) : M (HandlerState F) A :=
  zoom (λ h, (h_ctx h, h_fp h))
    (λ x h, mkHandlerState x.1 x.2 (createdPDRs h) (removedURRs h)) m.

(** [id, err := acc(); if err != nil { return e }] *)
Definition need {S A} (e : error → error) (r : result A) : M S A :=
  match r with inr a => mret a | inl err => throw (e err) end.

Definition missing (msg : string) : error → error := λ _, Errorf msg.

(* cmd/core/pfcp_session_handlers.go:48-63 HandlePfcpSessionEstablishmentRequest *)
Definition create_far (far : IE) : M (HandlerState F) unit :=
  farInfo ← lift (composeFarInfo far zeroFarInfo);
  internalId ← in_maps (NewFar farInfo);
  in_session (SessionNewFar (or_0 (IE_FARID far)) internalId farInfo).

(* cmd/core/pfcp_session_handlers.go:65-79 HandlePfcpSessionEstablishmentRequest *)
Definition create_qer (qer : IE) : M (HandlerState F) unit :=
  qerId ← need (missing "QER ID missing") (IE_QERID qer);
  let qerInfo := updateQer zeroQerInfo qer in
  internalId ← in_maps (NewQer qerInfo);
  in_session (SessionNewQer qerId internalId qerInfo).

(* cmd/core/pfcp_session_handlers.go:81-95 HandlePfcpSessionEstablishmentRequest *)
Definition create_urr (urr : IE) : M (HandlerState F) unit :=
  urrId ← need (missing "URR ID missing") (IE_URRID urr);
  let urrInfo := updateUrr zeroUrrInfo urr in
  internalId ← in_maps (NewUrr urrInfo);
  in_session (SessionNewUrr urrId internalId urrInfo).

(** A new PDR.  The two requests differ in the error for a missing PDR ID. *)
(* cmd/core/pfcp_session_handlers.go:97-117 HandlePfcpSessionEstablishmentRequest *)
Definition create_pdr (no_id : error → error) (pdr : IE) : M (HandlerState F) unit :=
  pdrId ← need no_id (IE_PDRID pdr);
  spdrInfo ← in_ctx (extractPDR Conf pdr (mkSPDRInfo pdrId zeroPdrInfo 0 None None false));
  in_session (SessionPutPDR (s_PdrID spdrInfo) spdrInfo) ≫= λ _,
  in_maps (applyPDR spdrInfo) ≫= λ _,
  modify (λ h, mkHandlerState (h_ctx h) (h_fp h) (createdPDRs h ++ [spdrInfo]) (removedURRs h)).

(* cmd/core/pfcp_session_handlers.go:278-295 HandlePfcpSessionModificationRequest *)
Definition update_far (far : IE) : M (HandlerState F) unit :=
  farid ← need (λ err, err) (IE_FARID far);
  sFarInfo ← gets (λ h, SessionGetFar farid (h_session h));
  farInfo ← lift (composeFarInfo far (sf_FarInfo sFarInfo));
  in_session (SessionUpdateFar farid farInfo) ≫= λ _,
  in_maps (UpdateFar (sf_GlobalId sFarInfo) farInfo).

(* cmd/core/pfcp_session_handlers.go:297-305 HandlePfcpSessionModificationRequest *)
Definition remove_far (far : IE) : M (HandlerState F) unit :=
  sFarInfo ← in_session (SessionRemoveFar (or_0 (IE_FARID far)));
  in_maps (DeleteFar (sf_GlobalId sFarInfo)).

(* cmd/core/pfcp_session_handlers.go:323-336 HandlePfcpSessionModificationRequest *)
Definition update_qer (qer : IE) : M (HandlerState F) unit :=
  qerId ← need (missing "QER ID missing") (IE_QERID qer);
  sQerInfo ← gets (λ h, SessionGetQer qerId (h_session h));
  let qerInfo := updateQer (sq_QerInfo sQerInfo) qer in
  in_session (SessionUpdateQer qerId qerInfo) ≫= λ _,
  in_maps (UpdateQer (sq_GlobalId sQerInfo) qerInfo).

(* cmd/core/pfcp_session_handlers.go:338-349 HandlePfcpSessionModificationRequest *)
Definition remove_qer (qer : IE) : M (HandlerState F) unit :=
  qerId ← need (missing "QER ID missing") (IE_QERID qer);
  sQerInfo ← in_session (SessionRemoveQer qerId);
  in_maps (DeleteQer (sq_GlobalId sQerInfo)).

(* cmd/core/pfcp_session_handlers.go:367-380 HandlePfcpSessionModificationRequest *)
Definition update_urr (urr : IE) : M (HandlerState F) unit :=
  urrId ← need (missing "URR ID missing") (IE_URRID urr);
  sUrrInfo ← gets (λ h, SessionGetUrr urrId (h_session h));
  let urrInfo := updateUrr (su_UrrInfo sUrrInfo) urr in
  in_session (SessionUpdateUrr urrId urrInfo) ≫= λ _,
  in_maps (UpdateUrr (su_GlobalId sUrrInfo) urrInfo).

(** The usage report of a removed URR. *)
(* cmd/core/pfcp_session_handlers.go:397-403 HandlePfcpSessionModificationRequest *)
Definition usage_report (id seqn : Z) (urrInfo : UrrInfo) : list OutIE :=
  [NewURRID id; NewURSEQN seqn; NewUsageReportTrigger [0; Z.shiftl 1 3; 0]; NewEndTime;
   NewVolumeMeasurement 7 (u64 (UplinkVolume urrInfo + DownlinkVolume urrInfo))
     (UplinkVolume urrInfo) (DownlinkVolume urrInfo) 0 0 0].

(* cmd/core/pfcp_session_handlers.go:382-404 HandlePfcpSessionModificationRequest *)
Definition remove_urr (urr : IE) : M (HandlerState F) unit :=
  urrId ← need (missing "URR ID missing") (IE_URRID urr);
  sUrrInfo ← in_session (SessionRemoveUrr urrId);
  urrInfo ← in_maps (DeleteUrr (su_GlobalId sUrrInfo));
  let report := NewUsageReportWithinSessionModificationResponse
                  (usage_report urrId (u32 (su_ReportSeqNumber sUrrInfo + 1)) urrInfo) in
  modify (λ h, mkHandlerState (h_ctx h) (h_fp h) (createdPDRs h) (removedURRs h ++ [report])).

(* cmd/core/pfcp_session_handlers.go:429-445 HandlePfcpSessionModificationRequest *)
Definition update_pdr (pdr : IE) : M (HandlerState F) unit :=
  pdrId ← need (missing "PDR ID missing") (IE_PDRID pdr);
  spdrInfo ← gets (λ h, SessionGetPDR pdrId (h_session h));
  spdrInfo ← in_ctx (extractPDR Conf pdr spdrInfo);
  in_session (SessionPutPDR pdrId spdrInfo) ≫= λ _,
  in_maps (applyPDR spdrInfo).

(* cmd/core/pfcp_session_handlers.go:447-457 HandlePfcpSessionModificationRequest *)
Definition remove_pdr (pdr : IE) : M (HandlerState F) unit :=
  let pdrId := or_0 (IE_PDRID pdr) in
  ok ← gets (λ h, PDRs (h_session h) !! pdrId);
  match ok with
  | Some _ =>
      sPDRInfo ← in_session (SessionRemovePDR pdrId);
      in_pdrs (deletePDR sPDRInfo)
  | None => mret tt
  end.

(** The modification request has the same loop, with the accessor's error. *)
(* cmd/core/pfcp_session_handlers.go:406-427 HandlePfcpSessionModificationRequest *)
Definition add_pdr (pdr : IE) : M (HandlerState F) unit := create_pdr (λ err, err) pdr.

(* cmd/core/pfcp_session_handlers.go:46-120 HandlePfcpSessionEstablishmentRequest *)
Definition establish_rules (req : SessionEstablishmentReq) : M (HandlerState F) unit :=
  for_each (est_CreateFAR req) create_far ≫= λ _,
  for_each (est_CreateQER req) create_qer ≫= λ _,
  for_each (est_CreateURR req) create_urr ≫= λ _,
  for_each (est_CreatePDR req) (create_pdr (missing "PDR ID missing")).

(* cmd/core/pfcp_session_handlers.go:258-461 HandlePfcpSessionModificationRequest *)
Definition modify_rules (req : SessionModificationReq) : M (HandlerState F) unit :=
  for_each (mod_CreateFAR req) create_far ≫= λ _,
  for_each (mod_UpdateFAR req) update_far ≫= λ _,
  for_each (mod_RemoveFAR req) remove_far ≫= λ _,
  for_each (mod_CreateQER req) create_qer ≫= λ _,
  for_each (mod_UpdateQER req) update_qer ≫= λ _,
  for_each (mod_RemoveQER req) remove_qer ≫= λ _,
  for_each (mod_CreateURR req) create_urr ≫= λ _,
  for_each (mod_UpdateURR req) update_urr ≫= λ _,
  for_each (mod_RemoveURR req) remove_urr ≫= λ _,
  for_each (mod_CreatePDR req) add_pdr ≫= λ _,
  for_each (mod_UpdatePDR req) update_pdr ≫= λ _,
  for_each (mod_RemovePDR req) remove_pdr.

(** [err := func() error { ... }()] on a session of the connection. *)
Definition run_rules (session : Session) (m : M (HandlerState F) unit)
    : M (PfcpConnection F) (HandlerState F * option error) := λ c,
  let '(h, r) := m (mkHandlerState (NewPDRCreationContext session (conn_ResourceManager c))
                      (mapOperations c) [] []) in
  let c' := set_ResourceManager (pc_ResourceManager (h_ctx h)) (set_mapOperations (h_fp h) c) in
  match r with
  | Ok _ => (c', Ok (h, None))
  | Err e => (c', Ok (h, Some e))
  | Panic => (c', Panic)
  end.

(** ** The handlers *)

Abbreviation handler_result := (option OutMsg * option error)%type.

Definition reply (m : OutMsg) : handler_result := (Some m, None).

Definition rx_error (t : MsgType) (cause : Z) : M (PfcpConnection F) unit :=
  emit (RxErrors t (causeToString cause)).

(* cmd/core/pfcp_session_handlers.go:20-146 HandlePfcpSessionEstablishmentRequest *)
Definition HandlePfcpSessionEstablishmentRequest (req : SessionEstablishmentReq) (addr : string)
    : M (PfcpConnection F) handler_result :=
  let response seid ies :=
    mkOutMsg SessionEstablishmentResponse seid (est_Sequence req) ies in
  c ← gets (λ c, c);
  let nodeIE := newIeNodeID (nodeId c) in
  match validateRequest (est_NodeID req) (est_CPFSEID req) with
  | inl err =>
      rx_error SessionEstablishmentRequest CauseMandatoryIEMissing ≫= λ _,
      mret (reply (response 0 [nodeIE; convertErrorToIeCause err]))
  | inr remoteSEID =>
      match GetAssociation addr c with
      | None =>
          rx_error SessionEstablishmentRequest CauseNoEstablishedPFCPAssociation ≫= λ _,
          mret (reply (response 0 [nodeIE; NewCause CauseNoEstablishedPFCPAssociation]))
      | Some association =>
          let '(association, seid) := NewLocalSEID association in
          localSEID ← lift seid;
          modify (update_association addr (λ _, association)) ≫= λ _,
          lift (printSessionEstablishmentRequest req) ≫= λ _,
          r ← run_rules (NewSession localSEID remoteSEID) (establish_rules req);
          match r with
          | (_, Some err) =>
              rx_error SessionEstablishmentRequest CauseRuleCreationModificationFailure ≫= λ _,
              mret (reply (response remoteSEID
                             [nodeIE; NewCause CauseRuleCreationModificationFailure]))
          | (h, None) =>
              modify (update_association addr
                        (on_Sessions <[localSEID := h_session h]>)) ≫= λ _,
              let additionalIEs :=
                [nodeIE; NewCause CauseRequestAccepted;
                 NewFSEID localSEID (cloneIP (nodeAddrV4 c)) None] ++
                processCreatedPDRs (createdPDRs h) (cloneIP (n3Address c)) in
              rx_error SessionEstablishmentRequest CauseRequestAccepted ≫= λ _,
              mret (reply (response remoteSEID additionalIEs))
          end
      end
  end.

(** [for ... { if err != nil { continue }; acc = append(acc, x) }] *)
Fixpoint collect {S A B} (l : list A) (f : A → M S (option B)) : M S (list B) :=
  match l with
  | [] => mret []
  | a :: l' => o ← f a; r ← collect l' f; mret (option_list o ++ r)
  end.

(* cmd/core/pfcp_session_handlers.go:165-200 HandlePfcpSessionDeletionRequest *)
Definition delete_rules (session : Session) : M (PDRCreationContext * F) (list OutIE) :=
  for_each (range_map (PDRs session)) (λ pdr, deletePDR pdr.2) ≫= λ _,
  for_each (range_map (FARs session)) (λ far, on_maps (DeleteFar (sf_GlobalId far.2))) ≫= λ _,
  for_each (range_map (QERs session)) (λ qer, on_maps (DeleteQer (sq_GlobalId qer.2))) ≫= λ _,
  collect (range_map (URRs session)) (λ urr,
    on_result (on_maps (DeleteUrr (su_GlobalId urr.2)))
      (λ urrInfo, mret (Some (NewUsageReportWithinSessionDeletionResponse
         (usage_report urr.1 (u32 (su_ReportSeqNumber urr.2 + 1)) urrInfo))))
      (λ _, mret None)).

(* cmd/core/pfcp_session_handlers.go:148-217 HandlePfcpSessionDeletionRequest *)
Definition HandlePfcpSessionDeletionRequest (req : SessionDeletionReq) (addr : string)
    : M (PfcpConnection F) handler_result :=
  let response seid ies := mkOutMsg SessionDeletionResponse seid (del_Sequence req) ies in
  assoc ← gets (GetAssociation addr);
  match assoc with
  | None =>
      rx_error SessionDeletionRequest CauseNoEstablishedPFCPAssociation ≫= λ _,
      mret (reply (response 0 [NewCause CauseNoEstablishedPFCPAssociation]))
  | Some association =>
      lift (Ok (printSessionDeleteRequest req)) ≫= λ _,
      match Sessions association !! del_SEID req with
      | None =>
          rx_error SessionDeletionRequest CauseSessionContextNotFound ≫= λ _,
          mret (reply (response 0 [NewCause CauseSessionContextNotFound]))
      | Some session =>
          on_result (with_pdr_context session (delete_rules session))
            (λ deletedURRs,
               modify (update_association addr (on_Sessions (delete (del_SEID req)))) ≫= λ _,
               ReleaseResources (del_SEID req) ≫= λ _,
               rx_error SessionDeletionRequest CauseRequestAccepted ≫= λ _,
               mret (reply (response (RemoteSEID session)
                              (NewCause CauseRequestAccepted :: deletedURRs))))
            (λ err,
               rx_error SessionDeletionRequest CauseRuleCreationModificationFailure ≫= λ _,
               mret (Some (response 0 [NewCause CauseRuleCreationModificationFailure]), Some err))
      end
  end.

(** The end of the handler: [r] is the session and the error of the rules. *)
(* cmd/core/pfcp_session_handlers.go:461-484 HandlePfcpSessionModificationRequest *)
Definition answer_modification (req : SessionModificationReq) (n3Address : NetIP)
    (r : HandlerState F * option error) : M (PfcpConnection F) handler_result :=
  let response ies :=
    mkOutMsg SessionModificationResponse (RemoteSEID (h_session r.1)) (mod_Sequence req) ies in
  match r.2 with
  | Some err =>
      rx_error SessionModificationRequest CauseRuleCreationModificationFailure ≫= λ _,
      mret (reply (response [NewCause CauseRuleCreationModificationFailure]))
  | None =>
      let additionalIEs :=
        NewCause CauseRequestAccepted ::
        processCreatedPDRs (createdPDRs r.1) n3Address ++ removedURRs r.1 in
      rx_error SessionModificationRequest CauseRequestAccepted ≫= λ _,
      mret (reply (response additionalIEs))
  end.

(** The session is shared with the association: what the rules do to it stays,
    also when one of them fails. *)
(* cmd/core/pfcp_session_handlers.go:219-484 HandlePfcpSessionModificationRequest *)
Definition HandlePfcpSessionModificationRequest (req : SessionModificationReq) (addr : string)
    : M (PfcpConnection F) handler_result :=
  let response seid ies := mkOutMsg SessionModificationResponse seid (mod_Sequence req) ies in
  c ← gets (λ c, c);
  match GetAssociation addr c with
  | None =>
      rx_error SessionModificationRequest CauseNoEstablishedPFCPAssociation ≫= λ _,
      mret (reply (response (mod_SEID req) [NewCause CauseNoEstablishedPFCPAssociation]))
  | Some association =>
      match Sessions association !! mod_SEID req with
      | None =>
          rx_error SessionModificationRequest CauseSessionContextNotFound ≫= λ _,
          mret (reply (response 0 [NewCause CauseSessionContextNotFound]))
      | Some session =>
          let session := match IE_FSEID <$> mod_CPFSEID req with
                         | Some (inr remoteSEID) => set_RemoteSEID remoteSEID session
                         | _ => session
                         end in
          lift (printSessionModificationRequest req) ≫= λ _,
          r ← run_rules session (modify_rules req);
          modify (update_association addr
                    (on_Sessions <[mod_SEID req := h_session r.1]>)) ≫= λ _,
          answer_modification req (n3Address c) r
      end
  end.

(** The rule for the closures of the handlers. *)
Lemma wp_run_rules session m c (Q : HandlerState F * option error → PfcpConnection F → Prop) E :
  let finish h := set_ResourceManager (pc_ResourceManager (h_ctx h)) (set_mapOperations (h_fp h) c) in
  wp m (mkHandlerState (NewPDRCreationContext session (conn_ResourceManager c)) (mapOperations c) [] [])
    (λ _ h, Q (h, None) (finish h)) (λ e h, Q (h, Some e) (finish h)) →
  wp (run_rules session m) c Q E.
Proof. unfold wp, run_rules. cbn. by destruct (m _) as [h [[]|e|]]. Qed.

End rules.
