(* ===== verification/RuleFields.v ===== *)
(** * The fields of rules (cmd/core/pfcp_session_handlers.go, composeFarInfo and updateQer)

    FARs and QERs are structures of machine integers, shared byte for byte
    with the data plane.  Each of their fields is what the message says, and
    fits; bit rates are converted from kbit/s to bit/s in 32 bits. *)

From S2P Require Import Prelude Net ForwardingPlane Pfcp PdrContext SessionHandlers.

(** The widths of the structures (cmd/ebpf/pdr.go). *)
Definition far_fits (f : FarInfo) : Prop :=
  in_range 8 (Action f) ∧ in_range 8 (OuterHeaderCreation f) ∧ in_range 32 (Teid f) ∧
  in_range 32 (RemoteIP f) ∧ in_range 16 (TransportLevelMarking f).

Definition qer_fits (q : QerInfo) : Prop :=
  in_range 8 (GateStatusUL q) ∧ in_range 8 (GateStatusDL q) ∧ in_range 8 (Qfi q) ∧
  in_range 32 (MaxBitrateUL q) ∧ in_range 32 (MaxBitrateDL q) ∧
  in_range 64 (StartUL q) ∧ in_range 64 (StartDL q).

Section fields.
Context `{Pfcp}.

Definition value_fits (w : Z) (r : result Z) : Prop := ∀ v, r = inr v → in_range w v.

(** The values the accessors return on an element have their Go types. *)
Definition far_typed (far : IE) : Prop :=
  (∀ l, IE_ApplyAction far = inr l → Forall (in_range 8) l) ∧
  (∀ i, i ∈ ChildIEs far → value_fits 16 (IE_TransportLevelMarking i)) ∧
  ∀ forward i o, IE_ForwardingParameters far = inr forward ∨ IE_UpdateForwardingParameters far = inr forward →
    i ∈ forward → (IE_OuterHeaderCreation i).1 = Some o →
    in_range 32 (ohc_TEID o) ∧ Forall (in_range 8) (slice_bytes (ohc_IPv4Address o)).

Definition qer_typed (qer : IE) : Prop :=
  value_fits 8 (IE_GateStatusDL qer) ∧ value_fits 8 (IE_GateStatusUL qer) ∧ value_fits 8 (IE_QFI qer).

Lemma when_ok_keeps {A B} (P : B → Prop) (r : result A) (set : A → B → B) b :
  P b → (∀ a b, r = inr a → P b → P (set a b)) → P (when_ok r set b).
Proof. unfold when_ok. destruct r; eauto. Qed.

Lemma LittleEndian_fits b v :
  Forall (in_range 8) (slice_bytes b) → LittleEndian_Uint32 b = Ok v → in_range 32 v.
Proof.
  unfold LittleEndian_Uint32. intros Hb. destruct (slice_bytes b) as [|b0 [|b1 [|b2 [|b3 l]]]]; try done.
  rewrite !Forall_cons in Hb. destruct Hb as (H0 & H1 & H2 & H3 & _). intros [= <-].
  unfold in_range in *. lia.
Qed.

Lemma compose_forward_fits forward f f' :
  (∀ i o, i ∈ forward → (IE_OuterHeaderCreation i).1 = Some o →
     in_range 32 (ohc_TEID o) ∧ Forall (in_range 8) (slice_bytes (ohc_IPv4Address o))) →
  far_fits f → compose_forward forward f = Ok f' → far_fits f'.
Proof.
  intros Ht Hf. unfold compose_forward. case_match; [by intros [= <-]|].
  destruct (forward !! _) as [i|] eqn:Hi; [|done].
  destruct (IE_OuterHeaderCreation i).1 as [o|] eqn:Ho; [|done].
  apply list_elem_of_lookup_2 in Hi. destruct (Ht i o Hi Ho) as [Hteid Hip].
  destruct Hf as (Ha & _ & _ & Hr & Hm). intros Hc. apply outcome_bind_Ok in Hc as (f1 & Hf1 & Hc).
  assert (far_fits f1) as Hfit; [|by destruct (HasIPv6 o); simplify_eq].
  destruct (HasIPv4 o).
  - apply outcome_bind_Ok in Hf1 as (ip & Hle & [= <-]). apply LittleEndian_fits in Hle; [|done].
    split_and!; try done. apply u8_range.
  - injection Hf1 as <-. split_and!; try done. apply u8_range.
Qed.

Lemma composeFarInfo_fits far f f' :
  composeFarInfo far f = Ok f' → far_typed far → far_fits f → far_fits f'.
Proof.
  intros Hc (Hact & Htlm & Hfwd) Hf. unfold composeFarInfo in Hc. apply outcome_bind_Ok in Hc as (f1 & Hf1 & Hc).
  assert (far_fits f1) as Hfit1.
  { destruct (IE_ApplyAction far) as [e|[|a l]] eqn:Ha; [by injection Hf1 as <-|done|injection Hf1 as <-].
    specialize (Hact _ eq_refl). apply Forall_cons in Hact as [Hact _]. by destruct Hf as (_ & ?). }
  apply outcome_bind_Ok in Hc as (forward & Hforward & Hc).
  apply outcome_bind_Ok in Hc as (f2 & Hf2 & [= <-]).
  assert (far_fits f2) as Hfit2.
  { destruct forward as [e|forward]; [by injection Hf2 as <-|].
    eapply compose_forward_fits; [|exact Hfit1|exact Hf2]. intros i o. apply Hfwd.
    repeat case_match; try done; injection Hforward as <-; auto. }
  apply when_ok_keeps; [done|]. intros v f3 Hv (? & ? & ? & ? & _).
  split_and!; try done. unfold GetTransportLevelMarking in Hv.
  destruct (list_find _ _) as [[n i]|] eqn:Hi; [|done]. apply list_find_Some in Hi as (Hi & _).
  by apply (Htlm i (list_elem_of_lookup_2 _ _ _ Hi)).
Qed.

Lemma updateQer_fits qer q : qer_typed qer → qer_fits q → qer_fits (updateQer q qer).
Proof.
  intros (Hdl & Hul & Hqfi) Hq. unfold updateQer.
  assert (∀ q, qer_fits q → qer_fits (set_Starts 0 q)) as Hst.
  { intros q' (?&?&?&?&?&_). by split_and!. }
  apply Hst. repeat (apply when_ok_keeps; [|intros v q' Hv (?&?&?&?&?&?&?); split_and!; try done]).
  all: try apply u32_range; auto.
Qed.

(** ** What a message says *)

(** A value of the message, or what there was. *)
Definition given {A} (r : result A) (old : A) : A := match r with inr v => v | inl _ => old end.

(** The forwarding parameters, by the kind of the FAR. *)
Definition forwarding_of (far : IE) : result (list IE) :=
  if IE_Type far =? ie_CreateFAR then IE_ForwardingParameters far else IE_UpdateForwardingParameters far.

(** The first outer header creation (type 84) among them. *)
Definition tunnel_of (far : IE) : option IE :=
  match forwarding_of far with
  | inr l => snd <$> list_find (λ i, IE_Type i = 84) l
  | inl _ => None
  end.

(** Each field is the one the message gives, or stays: the first octet of the
    action, the high octet of the 16-bit description, the TEID, the peer's IPv4
    address, and the marking. *)
Definition far_reads (far : IE) (f f' : FarInfo) : Prop :=
  (∃ l, IE_ApplyAction far = inr (Action f' :: l)) ∨ (∃ e, IE_ApplyAction far = inl e) ∧ Action f' = Action f.

Definition tunnel_reads (far : IE) (f f' : FarInfo) : Prop :=
  match tunnel_of far with
  | Some i => ∃ o, (IE_OuterHeaderCreation i).1 = Some o ∧ HasIPv6 o = false ∧
      OuterHeaderCreation f' = (OuterHeaderCreationDescription o / 2 ^ 8) mod 2 ^ 8 ∧ Teid f' = ohc_TEID o ∧
      if HasIPv4 o then LittleEndian_Uint32 (ohc_IPv4Address o) = Ok (RemoteIP f')
      else RemoteIP f' = RemoteIP f
  | None => OuterHeaderCreation f' = OuterHeaderCreation f ∧ Teid f' = Teid f ∧ RemoteIP f' = RemoteIP f
  end.

(** Rates are in kbit/s in the message and in bit/s, in 32 bits, in the rule. *)
Definition qer_reads (qer : IE) (q q' : QerInfo) : Prop :=
  q' = mkQerInfo (given (IE_GateStatusUL qer) (GateStatusUL q)) (given (IE_GateStatusDL qer) (GateStatusDL q))
         (given (IE_QFI qer) (Qfi q))
         (given (sum_map id (λ v, (v * 1000) mod 2 ^ 32) (IE_MBRUL qer)) (MaxBitrateUL q))
         (given (sum_map id (λ v, (v * 1000) mod 2 ^ 32) (IE_MBRDL qer)) (MaxBitrateDL q)) 0 0.

Lemma compose_forward_reads far forward f f' :
  forwarding_of far = inr forward → compose_forward forward f = Ok f' →
  tunnel_reads far f f' ∧ Action f' = Action f ∧ TransportLevelMarking f' = TransportLevelMarking f.
Proof.
  intros Hfwd. unfold tunnel_reads, tunnel_of, compose_forward, findIEindex. rewrite Hfwd.
  destruct (list_find _ forward) as [[n i]|] eqn:Hi; cbn [fmap option_fmap option_map snd].
  - rewrite (proj2 (Z.eqb_neq (Z.of_nat n) (-1))), Nat2Z.id by lia.
    apply list_find_Some in Hi as (-> & _). destruct (IE_OuterHeaderCreation i).1 as [o|]; [|done].
    intros Hc. apply outcome_bind_Ok in Hc as (f1 & Hf1 & Hc).
    destruct (HasIPv6 o) eqn:H6; [done|]. injection Hc as ->.
    assert (∀ g, u8 (Z.shiftr (OuterHeaderCreationDescription o) 8) = g →
      g = (OuterHeaderCreationDescription o / 2 ^ 8) mod 2 ^ 8) as Hdesc.
    { intros g <-. by rewrite Z.shiftr_div_pow2. }
    destruct (HasIPv4 o) eqn:H4.
    + apply outcome_bind_Ok in Hf1 as (ip & Hle & [= <-]). split; [|done]. exists o. by rewrite H4, <-(Hdesc _ eq_refl).
    + injection Hf1 as <-. split; [|done]. exists o. by rewrite H4, <-(Hdesc _ eq_refl).
  - by intros [= <-].
Qed.

Lemma composeFarInfo_reads far f f' :
  composeFarInfo far f = Ok f' →
  (IE_Type far = ie_CreateFAR ∨ IE_Type far = ie_UpdateFAR) ∧ far_reads far f f' ∧ tunnel_reads far f f' ∧
  TransportLevelMarking f' = given (GetTransportLevelMarking far) (TransportLevelMarking f).
Proof.
  intros Hc. unfold composeFarInfo in Hc. apply outcome_bind_Ok in Hc as (f1 & Hf1 & Hc).
  assert (far_reads far f f1 ∧ f1 = set_Action (Action f1) f) as [Hact Hf1'].
  { unfold far_reads. destruct (IE_ApplyAction far) as [e|[|a l]]; [|done|]; injection Hf1 as <-.
    - split; [right; eauto|]. by destruct f.
    - split; [left; eauto|]. by destruct f. }
  apply outcome_bind_Ok in Hc as (forward & Hforward & Hc). apply outcome_bind_Ok in Hc as (f2 & Hf2 & [= <-]).
  assert ((IE_Type far = ie_CreateFAR ∨ IE_Type far = ie_UpdateFAR) ∧ forwarding_of far = forward) as [Hty Hfwd].
  { unfold forwarding_of. destruct (Z.eqb_spec (IE_Type far) ie_CreateFAR); [injection Hforward as ->; auto|].
    destruct (Z.eqb_spec (IE_Type far) ie_UpdateFAR); [injection Hforward as ->; auto|done]. }
  split; [done|].
  assert (tunnel_reads far f f2 ∧ Action f2 = Action f1 ∧ TransportLevelMarking f2 = TransportLevelMarking f)
    as (Htun & Ha2 & Hm2).
  { destruct forward as [e|forward].
    - injection Hf2 as <-. unfold tunnel_reads, tunnel_of. rewrite Hfwd, Hf1'. by destruct f.
    - destruct (compose_forward_reads far forward f1 f2 Hfwd Hf2) as (Ht & ? & ->). rewrite Hf1' in Ht |- *.
      by destruct f. }
  unfold given, when_ok. destruct (GetTransportLevelMarking far) as [e|m]; (split; [|split]);
    unfold far_reads in *; try rewrite Ha2; cbn; try rewrite Ha2; done.
Qed.

Lemma updateQer_reads qer q : qer_reads qer q (updateQer q qer).
Proof.
  unfold qer_reads, updateQer, when_ok, given, u32. destruct q.
  repeat case_match; cbn [sum_map] in *; simplify_eq; cbn -[Z.pow Z.modulo Z.mul]; try done;
    rewrite ?Zmult_mod_idemp_l; done.
Qed.

(** C17: what a message says is what its rules hold.  A FAR that
    [composeFarInfo] accepts has the message's action, tunnel and marking, or
    keeps what it had; a FAR with an IPv6 tunnel is refused.  A QER has the
    message's gates and QFI, for each direction its own maximum bit rate,
    converted to bit/s modulo 2^32, or keeps what it had, and its two windows
    start anew.  All values of the message in their Go types, the results fit
    the structures shared with the data plane. *)
Theorem rule_fields_read far qer f q :
  (∀ f', composeFarInfo far f = Ok f' →
     (IE_Type far = ie_CreateFAR ∨ IE_Type far = ie_UpdateFAR) ∧
     far_reads far f f' ∧ tunnel_reads far f f' ∧
     TransportLevelMarking f' = given (GetTransportLevelMarking far) (TransportLevelMarking f) ∧
     (far_typed far → far_fits f → far_fits f')) ∧
  qer_reads qer q (updateQer q qer) ∧ (qer_typed qer → qer_fits q → qer_fits (updateQer q qer)).
Proof.
  split; [|split; [apply updateQer_reads|intros ? ?; by apply updateQer_fits]].
  intros f' Hc. pose proof (composeFarInfo_fits far f f') as Hfits.
  destruct (composeFarInfo_reads far f f' Hc) as (? & ? & ? & ?). do 4 (split; [done|]). auto.
Qed.

(** The bit rates of a QER.  A maximum bit rate of the message, in kbit/s,
    becomes bit/s in 32 bits: it is exact up to 4294967 kbit/s, and above that
    the rate stored is smaller than the one asked for.  A rate that is not in
    the message stays, and the windows start anew. *)
Theorem updateQer_rates q qer dl ul :
  IE_MBRDL qer = inr dl → IE_MBRUL qer = inr ul → in_range 64 dl → in_range 64 ul →
  let q' := updateQer q qer in
  MaxBitrateDL q' = u32 (dl * 1000) ∧ MaxBitrateUL q' = u32 (ul * 1000) ∧
  (dl ≤ 4294967 → MaxBitrateDL q' = dl * 1000) ∧ (4294967 < dl → MaxBitrateDL q' < dl * 1000) ∧
  (ul ≤ 4294967 → MaxBitrateUL q' = ul * 1000) ∧ (4294967 < ul → MaxBitrateUL q' < ul * 1000) ∧
  StartUL q' = 0 ∧ StartDL q' = 0.
Proof.
  intros Hdl Hul Hdr Hur q'.
  assert (MaxBitrateDL q' = u32 (dl * 1000) ∧ MaxBitrateUL q' = u32 (ul * 1000) ∧ StartUL q' = 0 ∧ StartDL q' = 0)
    as (-> & -> & ? & ?).
  { unfold q', updateQer. rewrite Hdl, Hul. unfold when_ok, u32.
    repeat case_match; cbn -[Z.pow Z.modulo]; by rewrite !Zmult_mod_idemp_l. }
  assert (∀ r, in_range 64 r → (r ≤ 4294967 → u32 (r * 1000) = r * 1000) ∧ (4294967 < r → u32 (r * 1000) < r * 1000))
    as Hr.
  { intros r Hr. unfold in_range, u32 in *. split; intros Hle.
    - apply Z.mod_small. lia.
    - pose proof (Z.mod_pos_bound (r * 1000) (2 ^ 32)). lia. }
  destruct (Hr dl Hdr), (Hr ul Hur). done.
Qed.

End fields.

(** ** Concrete rules *)

#[local] Existing Instance demo_pfcp.

Definition demo_far_ie : IE :=
  Grp 3 [Val 108 1; Octets 44 [2]; Grp 4 [Ohc (Some (mkOHCFields 256 100 (Some [127; 0; 0; 1])))]; Val 30 7936].
(** 5 Gbit/s down, 1 Gbit/s up. *)
Definition demo_qer_ie : IE := Grp 7 [Val 109 1; Val2 25 0 1; Val2 26 5000000 1000000; Val 124 9].

Definition demo_far_read : FarInfo := mkFarInfo 2 1 100 16777343 7936.

(** The FAR of 127.0.0.1, and rates of 1 Gbit/s up and 5 Gbit/s down, which wraps. *)
Lemma rule_fields_read_witness :
  composeFarInfo demo_far_ie zeroFarInfo = Ok demo_far_read ∧
  tunnel_reads demo_far_ie zeroFarInfo demo_far_read ∧ far_fits demo_far_read ∧
  updateQer zeroQerInfo demo_qer_ie = mkQerInfo 1 0 9 1000000000 705032704 0 0.
Proof.
  destruct (rule_fields_read demo_far_ie demo_qer_ie zeroFarInfo zeroQerInfo) as (Hfar & Hqer & _).
  destruct (Hfar demo_far_read eq_refl) as (_ & _ & Htun & _ & Hfits).
  split; [reflexivity|]. split; [exact Htun|]. split; [|rewrite Hqer; vm_compute; reflexivity].
  apply Hfits; [split; [|split]|].
  - intros l [= <-]. repeat constructor; discriminate.
  - intros i Hi v Hv. repeat (apply elem_of_cons in Hi as [->|Hi]); [..|by apply elem_of_nil in Hi];
      try discriminate Hv. injection Hv as <-. split; reflexivity || discriminate.
  - intros forward i o [[= <-]|[=]] Hi Ho. repeat (apply elem_of_cons in Hi as [->|Hi]);
      [..|by apply elem_of_nil in Hi]; try discriminate Ho. injection Ho as <-.
    split; [split; reflexivity || discriminate|]. repeat constructor; discriminate.
  - repeat split; discriminate.
Defined.

(** The downlink rate wraps to about 705 Mbit/s. *)
Lemma updateQer_rates_witness :
  MaxBitrateDL (updateQer zeroQerInfo demo_qer_ie) = 705032704 ∧
  MaxBitrateUL (updateQer zeroQerInfo demo_qer_ie) = 1000000000.
Proof.
  destruct (updateQer_rates zeroQerInfo demo_qer_ie 5000000 1000000 eq_refl eq_refl) as (-> & -> & _);
    [split; reflexivity || discriminate..|]. split; reflexivity.
Defined.
