(* ===== verification/Ownership.v ===== *)
(** * Rule ownership

    Every FAR, QER and URR of a session names an entry of the forwarding plane
    by a global index.  The invariant of this file: the entry exists and holds
    the session's rule, and no other rule of any session has the same index.
    It is stated on one kind of rule at a time, then for a session among
    others, then for the whole connection; the session handlers keep it. *)

From S2P Require Import Prelude Net Config ForwardingPlane Dataplane TablePlane Resources Session.
From S2P Require Import Sdf Pfcp Display PdrContext Connection SessionHandlers.

(** ** One table *)

Section owns.
Context {E V : Type} (gid : E → Z) (info : E → V).
Implicit Types (m : gmap Z E) (t : gmap Z V) (O : gset Z).

(** The rules [m] own their entries of table [t]; [O] are the indices of the
    other sessions, whose entries are still what they were in [t0]. *)
Definition owns m O t0 t : Prop :=
  (∀ i e, m !! i = Some e → in_range 32 (gid e) ∧ t !! gid e = Some (info e) ∧ gid e ∉ O) ∧
  (∀ i j e e', m !! i = Some e → m !! j = Some e' → gid e = gid e' → i = j) ∧
  (∀ g, g ∈ O → t !! g = t0 !! g ∧ is_Some (t !! g)).

Lemma owns_create m O t0 t i e :
  owns m O t0 t → in_range 32 (gid e) → t !! gid e = None → owns (<[i:=e]> m) O t0 (<[gid e := info e]> t).
Proof.
  intros (Hm & Hinj & HO) Hr Hnew.
  assert (Hne : ∀ j e', m !! j = Some e' → gid e' ≠ gid e).
  { intros j e' Hj Heq. destruct (Hm _ _ Hj) as (_ & Ht & _). congruence. }
  assert (HnO : gid e ∉ O).
  { intros Hin. destruct (HO _ Hin) as [_ [x Hx]]. congruence. }
  split; [|split].
  - intros j e' [[-> ->]|[Hj He']]%lookup_insert_Some; [by rewrite lookup_insert_eq|].
    destruct (Hm _ _ He') as (? & ? & ?). rewrite lookup_insert_ne by (apply not_eq_sym; eauto). eauto.
  - intros j k e1 e2 [[-> ->]|[Hj He1]]%lookup_insert_Some [[-> ->]|[Hk He2]]%lookup_insert_Some Heq;
      [done| | |by eauto].
    + by destruct (Hne _ _ He2).
    + by destruct (Hne _ _ He1).
  - intros g Hg. rewrite lookup_insert_ne by naive_solver. auto.
Qed.

Lemma owns_update m O t0 t i e e' :
  owns m O t0 t → m !! i = Some e → gid e' = gid e →
  owns (<[i:=e']> m) O t0 (alter (λ _, info e') (gid e) t).
Proof.
  intros (Hm & Hinj & HO) Hi Hg. destruct (Hm _ _ Hi) as (Hr & Ht & HnO). split; [|split].
  - intros j e1 [[-> ->]|[Hj He1]]%lookup_insert_Some.
    + rewrite Hg, lookup_alter_eq, Ht. done.
    + destruct (Hm _ _ He1) as (? & ? & ?). rewrite lookup_alter_ne; [done|]. intros Heq. apply Hj. eauto.
  - assert (∀ k e2, <[i:=e']> m !! k = Some e2 → ∃ e3, m !! k = Some e3 ∧ gid e3 = gid e2) as Hsame.
    { intros k e2 [[-> ->]|[_ ?]]%lookup_insert_Some; eauto. }
    intros j k e1 e2 (e1' & Hj & H1)%Hsame (e2' & Hk & H2)%Hsame Heq.
    apply (Hinj j k e1' e2'); congruence.
  - intros g Hgin. rewrite lookup_alter_ne by (intros <-; done). auto.
Qed.

Lemma owns_remove m O t0 t i e :
  owns m O t0 t → m !! i = Some e → owns (delete i m) O t0 (delete (gid e) t).
Proof.
  intros (Hm & Hinj & HO) Hi. destruct (Hm _ _ Hi) as (Hr & Ht & HnO). split; [|split].
  - intros j e1 [Hj He1]%lookup_delete_Some. destruct (Hm _ _ He1) as (? & ? & ?).
    rewrite lookup_delete_ne; [done|].
    intros Heq. apply Hj. eauto.
  - intros j k e1 e2 [_ He1]%lookup_delete_Some [_ He2]%lookup_delete_Some. eauto.
  - intros g Hg. rewrite lookup_delete_ne by (intros <-; done). auto.
Qed.

(** Forgetting a rule leaves its entry without an owner. *)
Lemma owns_forget m m' O t0 t : owns m O t0 t → m' ⊆ m → owns m' O t0 t.
Proof.
  intros (Hm & Hinj & HO) Hsub. split; [|split; [|done]].
  - intros i e Hi. eapply Hm, lookup_weaken; done.
  - intros i j e e' Hi Hj. eapply Hinj; by eapply lookup_weaken.
Qed.

End owns.

(** ** The tables of a session *)

(** The other sessions' indices, per kind, and the view at the start. *)
Record Others := mkOthers { o_far : gset Z; o_qer : gset Z; o_urr : gset Z }.

Definition owns_fars (s : Session) (o : Others) (v0 v : FPView) : Prop :=
  owns sf_GlobalId sf_FarInfo (FARs s) (o_far o) (v_far v0) (v_far v).
Definition owns_qers (s : Session) (o : Others) (v0 v : FPView) : Prop :=
  owns sq_GlobalId sq_QerInfo (QERs s) (o_qer o) (v_qer v0) (v_qer v).
Definition owns_urrs (s : Session) (o : Others) (v0 v : FPView) : Prop :=
  owns su_GlobalId su_UrrInfo (URRs s) (o_urr o) (v_urr v0) (v_urr v).

Definition owns_rules (s : Session) (o : Others) (v0 v : FPView) : Prop :=
  owns_fars s o v0 v ∧ owns_qers s o v0 v ∧ owns_urrs s o v0 v.

Lemma owns_rules_same s o v0 v v' :
  same_rules v v' → owns_rules s o v0 v → owns_rules s o v0 v'.
Proof.
  unfold same_rules, owns_rules, owns_fars, owns_qers, owns_urrs. intros (-> & -> & ->). done.
Qed.

(** Session identifiers that are in use: removing and updating need them. *)
Record Known := mkKnown { k_far : gset Z; k_qer : gset Z; k_urr : gset Z }.

Definition knows (k : Known) (s : Session) : Prop :=
  k_far k ⊆ dom (FARs s) ∧ k_qer k ⊆ dom (QERs s) ∧ k_urr k ⊆ dom (URRs s).

(** The pools are usable: a pool with something to give has its map of users. *)
Definition pools_ok (rm : option ResourceManager) : Prop :=
  ∃ i f, rm = Some (mkResourceManager i (Some f)) ∧
    (freeTEIDs f ≠ [] → is_Some (busyTEIDs f)) ∧
    (∀ i0, i = Some i0 → freeIPs i0 ≠ [] → is_Some (busyIPs i0)).

Section invariant.
Context `{Pfcp} `{MapOrder} (Conf : UpfConfig) `{ForwardingPlane F}.
Context (o : Others) (v0 : FPView).
Implicit Types (h : HandlerState F) (k : Known).

(** The invariant of the rule closures of the handlers. *)
Definition rules_inv k h : Prop :=
  pools_ok (pc_ResourceManager (h_ctx h)) ∧
  knows k (h_session h) ∧
  ∃ v, fp_repr (h_fp h) v ∧ owns_rules (h_session h) o v0 v.

(** A step keeps the invariant, on success and on error. *)
Definition keeps (k k' : Known) (m : M (HandlerState F) unit) : Prop :=
  ∀ h, rules_inv k h → wp m h (λ _ h', rules_inv k' h') (λ _ h', ∃ k', rules_inv k' h').

Lemma rules_inv_weaken k h : rules_inv k h → rules_inv (mkKnown ∅ ∅ ∅) h.
Proof. intros (? & _ & ?). split; [done|]. split; [|done]. split_and!; cbn; set_solver. Qed.

Lemma create_far_keeps k far :
  no_panic (composeFarInfo far zeroFarInfo) → keeps k k (create_far far).
Proof.
  intros Hnp h Hinv. pose proof Hinv as (Hrm & Hk & v & Hv & Hf & Hq & Hu).
  unfold create_far, in_maps, in_session. wp_go. apply wp_lift; [done| |by eauto].
  intros info _. wp_go. wp_call NewFar_ok; wp_go.
  - intros g fp' (Hr & Hnew & Hv'). wp_go. split; [done|]. split.
    + destruct Hk as (? & ? & ?). split_and!; [|done..]. cbn. set_solver.
    + eexists. split; [exact Hv'|]. split_and!; [|done..].
      by apply (owns_create sf_GlobalId sf_FarInfo _ _ _ _ _ (mkSFarInfo info g)).
  - intros e fp' Hv'. exists k. split; [done|]. split; [done|]. by eexists.
Qed.

Lemma create_qer_keeps k qer : keeps k k (create_qer qer).
Proof.
  intros h Hinv. pose proof Hinv as (Hrm & Hk & v & Hv & Hf & Hq & Hu).
  unfold create_qer, in_maps, in_session, need. destruct (IE_QERID qer); wp_go; [by eauto|].
  wp_call NewQer_ok; wp_go.
  - intros g fp' (Hr & Hnew & Hv'). wp_go. split; [done|]. split.
    + destruct Hk as (? & ? & ?). split_and!; [done| |done]. cbn. set_solver.
    + eexists. split; [exact Hv'|]. split_and!; [done| |done].
      by apply (owns_create sq_GlobalId sq_QerInfo _ _ _ _ _ (mkSQerInfo _ g)).
  - intros e fp' Hv'. exists k. split; [done|]. split; [done|]. by eexists.
Qed.

Lemma create_urr_keeps k urr : keeps k k (create_urr urr).
Proof.
  intros h Hinv. pose proof Hinv as (Hrm & Hk & v & Hv & Hf & Hq & Hu).
  unfold create_urr, in_maps, in_session, need. destruct (IE_URRID urr); wp_go; [by eauto|].
  wp_call NewUrr_ok; wp_go.
  - intros g fp' (Hr & Hnew & Hv'). wp_go. split; [done|]. split.
    + destruct Hk as (? & ? & ?). split_and!; [done..|]. cbn. set_solver.
    + eexists. split; [exact Hv'|]. split_and!; [done..|].
      by apply (owns_create su_GlobalId su_UrrInfo _ _ _ _ _ (mkSUrrInfo _ g 0)).
  - intros e fp' Hv'. exists k. split; [done|]. split; [done|]. by eexists.
Qed.

(** The entry of a known identifier. *)
Lemma known_lookup {E} (m : gmap Z E) (K : gset Z) id :
  K ⊆ dom m → id ∈ K → ∃ e, m !! id = Some e.
Proof. intros Hsub Hid. apply elem_of_dom, Hsub, Hid. Qed.

Lemma update_far_keeps k far :
  (∀ info, no_panic (composeFarInfo far info)) → (∀ id, IE_FARID far = inr id → id ∈ k_far k) →
  keeps k k (update_far far).
Proof.
  intros Hnp Hid h Hinv. pose proof Hinv as (Hrm & Hk & v & Hv & Hf & Hq & Hu).
  unfold update_far, in_maps, in_session, need.
  destruct (IE_FARID far) as [e|id]; wp_go; [by eauto|].
  destruct (known_lookup _ _ id (proj1 Hk) (Hid id eq_refl)) as [e He].
  destruct (proj1 Hf _ _ He) as (Hr & Ht & _).
  unfold SessionUpdateFar, SessionGetFar. rewrite He. cbn [default from_option Datatypes.id].
  apply wp_lift; [done| |by eauto]. intros info _. wp_go. rewrite He. cbn [default from_option Datatypes.id].
  wp_call UpdateFar_ok.
  - intros _ fp' Hv'. split; [done|]. split.
    + destruct Hk as (? & ? & ?). split_and!; [|done..]. cbn. set_solver.
    + eexists. split; [exact Hv'|]. split_and!; [|done..].
      by apply (owns_update sf_GlobalId sf_FarInfo _ _ _ _ _ e (mkSFarInfo info (sf_GlobalId e))).
  - intros _ fp' [Hnone _]. congruence.
Qed.

Lemma update_qer_keeps k qer :
  (∀ id, IE_QERID qer = inr id → id ∈ k_qer k) → keeps k k (update_qer qer).
Proof.
  intros Hid h Hinv. pose proof Hinv as (Hrm & Hk & v & Hv & Hf & Hq & Hu).
  unfold update_qer, in_maps, in_session, need.
  destruct (IE_QERID qer) as [e|id]; wp_go; [by eauto|].
  destruct (known_lookup _ _ id (proj1 (proj2 Hk)) (Hid id eq_refl)) as [e He].
  destruct (proj1 Hq _ _ He) as (Hr & Ht & _).
  unfold SessionUpdateQer, SessionGetQer. wp_go. rewrite He. cbn [default from_option Datatypes.id].
  wp_call UpdateQer_ok.
  - intros _ fp' Hv'. split; [done|]. split.
    + destruct Hk as (? & ? & ?). split_and!; [done| |done]. cbn. set_solver.
    + eexists. split; [exact Hv'|]. split_and!; [done| |done].
      by apply (owns_update sq_GlobalId sq_QerInfo _ _ _ _ _ e (mkSQerInfo _ (sq_GlobalId e))).
  - intros _ fp' [Hnone _]. congruence.
Qed.

Lemma update_urr_keeps k urr :
  (∀ id, IE_URRID urr = inr id → id ∈ k_urr k) → keeps k k (update_urr urr).
Proof.
  intros Hid h Hinv. pose proof Hinv as (Hrm & Hk & v & Hv & Hf & Hq & Hu).
  unfold update_urr, in_maps, in_session, need.
  destruct (IE_URRID urr) as [e|id]; wp_go; [by eauto|].
  destruct (known_lookup _ _ id (proj2 (proj2 Hk)) (Hid id eq_refl)) as [e He].
  destruct (proj1 Hu _ _ He) as (Hr & Ht & _).
  unfold SessionUpdateUrr, SessionGetUrr. wp_go. rewrite He. cbn [default from_option Datatypes.id].
  wp_call UpdateUrr_ok.
  - intros _ fp' Hv'. split; [done|]. split.
    + destruct Hk as (? & ? & ?). split_and!; [done..|]. cbn. set_solver.
    + eexists. split; [exact Hv'|]. split_and!; [done..|].
      by apply (owns_update su_GlobalId su_UrrInfo _ _ _ _ _ e
        (mkSUrrInfo _ (su_GlobalId e) (su_ReportSeqNumber e))).
  - intros _ fp' [Hnone _]. congruence.
Qed.

Definition without_far id k := mkKnown (k_far k ∖ {[id]}) (k_qer k) (k_urr k).
Definition without_qer id k := mkKnown (k_far k) (k_qer k ∖ {[id]}) (k_urr k).
Definition without_urr id k := mkKnown (k_far k) (k_qer k) (k_urr k ∖ {[id]}).

Lemma remove_far_keeps k far :
  or_0 (IE_FARID far) ∈ k_far k → keeps k (without_far (or_0 (IE_FARID far)) k) (remove_far far).
Proof.
  intros Hid h Hinv. pose proof Hinv as (Hrm & Hk & v & Hv & Hf & Hq & Hu).
  destruct (known_lookup _ _ _ (proj1 Hk) Hid) as [e He].
  destruct (proj1 Hf _ _ He) as (Hr & Ht & _).
  unfold remove_far, in_maps, in_session, SessionRemoveFar, SessionGetFar. wp_go. rewrite He.
  cbn [default from_option Datatypes.id]. wp_call DeleteFar_ok.
  - intros _ fp' [_ Hv']. split; [done|]. split.
    + destruct Hk as (? & ? & ?). split_and!; [|done..]. cbn. set_solver.
    + eexists. split; [exact Hv'|]. split_and!; [|done..]. by apply owns_remove.
  - intros _ fp' [Hnone _]. congruence.
Qed.

Lemma remove_qer_keeps k qer id :
  IE_QERID qer = inr id → id ∈ k_qer k → keeps k (without_qer id k) (remove_qer qer).
Proof.
  intros Hq0 Hid h Hinv. pose proof Hinv as (Hrm & Hk & v & Hv & Hf & Hq & Hu).
  destruct (known_lookup _ _ _ (proj1 (proj2 Hk)) Hid) as [e He].
  destruct (proj1 Hq _ _ He) as (Hr & Ht & _).
  unfold remove_qer, in_maps, in_session, need, SessionRemoveQer, SessionGetQer.
  rewrite Hq0. wp_go. rewrite He. cbn [default from_option Datatypes.id]. wp_call DeleteQer_ok.
  - intros _ fp' [_ Hv']. split; [done|]. split.
    + destruct Hk as (? & ? & ?). split_and!; [done| |done]. cbn. set_solver.
    + eexists. split; [exact Hv'|]. split_and!; [done| |done]. by apply owns_remove.
  - intros _ fp' [Hnone _]. congruence.
Qed.

Lemma remove_urr_keeps k urr id :
  IE_URRID urr = inr id → id ∈ k_urr k → keeps k (without_urr id k) (remove_urr urr).
Proof.
  intros Hu0 Hid h Hinv. pose proof Hinv as (Hrm & Hk & v & Hv & Hf & Hq & Hu).
  destruct (known_lookup _ _ _ (proj2 (proj2 Hk)) Hid) as [e He].
  destruct (proj1 Hu _ _ He) as (Hr & Ht & _).
  unfold remove_urr, in_maps, in_session, need, SessionRemoveUrr, SessionGetUrr.
  rewrite Hu0. wp_go. rewrite He. cbn [default from_option Datatypes.id]. wp_call DeleteUrr_ok.
  - intros info fp' [_ Hv']. wp_go. split; [done|]. split.
    + destruct Hk as (? & ? & ?). split_and!; [done..|]. cbn. set_solver.
    + eexists. split; [exact Hv'|]. split_and!; [done..|]. by apply owns_remove.
  - intros _ fp' [Hnone _]. congruence.
Qed.

(** *** PDRs *)

(** Calls that use the pools keep them usable and leave the session alone. *)
Definition pools_keep {A} (m : M PDRCreationContext A) : Prop :=
  ∀ c, pools_ok (pc_ResourceManager c) →
    wp m c (λ _ c', pools_ok (pc_ResourceManager c') ∧ pc_Session c' = pc_Session c)
           (λ _ c', pools_ok (pc_ResourceManager c') ∧ pc_Session c' = pc_Session c).

Lemma getFTEID_pools seID pdrID : pools_keep (getFTEID seID pdrID).
Proof.
  intros [s rm t] (i & f & Hrm & Hbusy & Hip). cbn in Hrm. subst rm.
  unfold getFTEID. wp_go. cbn [has_FTEIDM negb pc_ResourceManager]. wp_go.
  apply (wp_with_FTEIDM _ _ f); [done|]. unfold AllocateTEID. wp_go.
  destruct (freeTEIDs f) as [|teid rest] eqn:Hfree; wp_go.
  { split; [|done]. exists i, f. by rewrite Hfree. }
  destruct (Hbusy ltac:(done)) as [m Hm]. rewrite Hm.
  apply wp_lift; [by case_match| |by case_match]. intros busy Hb. wp_go. split; [|done].
  exists i. eexists. split; [done|]. split; [|done]. intros _. cbn.
  case_match; injection Hb as <-; by eexists.
Qed.

Lemma wp_with_IPAM {A} (m : M IPAM A) i f s t (Q : A → PDRCreationContext → Prop) E :
  let c i := mkPDRCreationContext s (Some (mkResourceManager (Some i) f)) t in
  wp m i (λ a i', Q a (c i')) (λ e i', E e (c i')) →
  wp (on_rm (with_IPAM m)) (c i) Q E.
Proof.
  cbn. intros Hm. apply wp_zoom. unfold wp, with_IPAM in *. cbn. by destruct (m i) as [i' [a|e|]].
Qed.

Lemma getIP_pools : pools_keep getIP.
Proof.
  intros [s rm t] (i & f & Hrm & Hbusy & Hip). cbn in Hrm. subst rm.
  unfold getIP. wp_go. cbn [pc_ResourceManager]. destruct i as [i0|]; cbn [has_IPAM negb]; wp_go.
  2:{ split; [|done]. by exists None, f. }
  apply wp_with_IPAM. unfold AllocateIP. wp_go.
  destruct (freeIPs i0) as [|ip rest] eqn:Hfree; wp_go.
  { split; [|done]. exists (Some i0), f. split; [done|]. split; [done|].
    intros i1 [= <-]. by rewrite Hfree. }
  destruct (Hip i0 eq_refl ltac:(by rewrite Hfree)) as [m Hm]. rewrite Hm.
  apply wp_lift; [done| |done]. intros busy [= <-]. wp_go. split; [|done].
  eexists _, f. split; [done|]. split; [done|]. intros i1 [= <-] _. by eexists.
Qed.

(** What a PDR has from its IE whatever its key: its identifier, the rules it
    names, its filter. *)
Definition pdr_of (c : PDRCreationContext) (pdr : IE) (spdr spdr' : SPDRInfo) : Prop :=
  s_PdrID spdr' = s_PdrID spdr ∧
  extract_sdf pdr (extract_rules c pdr (s_PdrInfo spdr)) = Ok (s_PdrInfo spdr').

Lemma extractPDR_spec pdr spdr c :
  pools_ok (pc_ResourceManager c) →
  wp (extractPDR Conf pdr spdr) c
    (λ spdr' c', (pools_ok (pc_ResourceManager c') ∧ pc_Session c' = pc_Session c) ∧ pdr_of c pdr spdr spdr')
    (λ _ c', pools_ok (pc_ResourceManager c') ∧ pc_Session c' = pc_Session c).
Proof.
  intros Hc. unfold extractPDR. wp_go. destruct (IE_PDI pdr) as [e|pdi]; wp_go; [done|].
  apply wp_lift; [|intros p Hp|done].
  { unfold extract_sdf. destruct (IE_SDFFilter pdr); [done|]. case_bool_decide; [done|].
    apply outcome_bind_no_panic; [apply ParseSdfFilter_spec|done]. }
  destruct (findIEindex_spec pdi ie_FTEID) as [[-> _]|(n & i & -> & Hi & _)].
  2:{ destruct (Z.eqb_spec (Z.of_nat n) (-1)); [lia|]. cbn [negb]. rewrite Nat2Z.id, Hi.
      destruct (IE_FTEID i) as [e|fteid]; wp_go; [done|]. unfold extract_teid.
      destruct (HasCh fteid); wp_go; [|done]. destruct (if HasChID fteid then _ else _); wp_go; [done|].
      wp_call getFTEID_pools; intros ? c' [Hc' Hs]; wp_go; [|done].
      destruct (HasChID fteid); unfold setTEIDCache; by wp_go. }
  change (-1 =? -1) with true. cbn [negb].
  destruct (findIEindex_spec pdi ie_UEIPAddress) as [[-> _]|(n & i & -> & Hi & _)]; [by wp_go|].
  destruct (Z.eqb_spec (Z.of_nat n) (-1)); [lia|]. cbn [negb]. rewrite Nat2Z.id, Hi.
  destruct (IE_UEIPAddress i) as [e|ueip]; wp_go; [done|]. unfold extract_ueip.
  destruct (_ && _); wp_go.
  - wp_call getIP_pools; intros ? c' [Hc' Hs];
      destruct (IPv6Address ueip), (IPv4Address ueip); by wp_go.
  - destruct (IPv6Address ueip), (IPv4Address ueip); by wp_go.
Qed.

Lemma extractPDR_pools pdr spdr : pools_keep (extractPDR Conf pdr spdr).
Proof. intros c Hc. wp_call extractPDR_spec; [|done]. by intros ? ? [? _]. Qed.

Lemma create_pdr_keeps k no_id pdr : keeps k k (create_pdr Conf no_id pdr).
Proof.
  intros h Hinv. pose proof Hinv as (Hrm & Hk & v & Hv & Hown).
  unfold create_pdr, in_maps, in_session, in_ctx, need, SessionPutPDR.
  destruct (IE_PDRID pdr) as [e|id]; wp_go; [by eauto|]. wp_call extractPDR_pools.
  - intros spdr c' [Hrm' Hs]. wp_go. wp_call applyPDR_spec.
    + intros _ fp' Hv'. wp_go. split; [done|]. cbn. unfold h_session in *. cbn. rewrite Hs.
      split; [done|]. eexists. split; [exact Hv'|].
      eapply owns_rules_same; [apply same_rules_put|done].
    + intros e fp' [_ Hv']. exists k. split; [done|]. unfold h_session in *. cbn. rewrite Hs.
      split; [done|]. by eexists.
  - intros e c' [Hrm' Hs]. exists k. split; [done|]. unfold h_session in *. cbn. rewrite Hs.
    split; [done|]. by eexists.
Qed.

Lemma update_pdr_keeps k pdr : keeps k k (update_pdr Conf pdr).
Proof.
  intros h Hinv. pose proof Hinv as (Hrm & Hk & v & Hv & Hown).
  unfold update_pdr, in_maps, in_session, in_ctx, need, SessionPutPDR.
  destruct (IE_PDRID pdr) as [e|id]; wp_go; [by eauto|]. wp_call extractPDR_pools.
  - intros spdr c' [Hrm' Hs]. wp_go. wp_call applyPDR_spec.
    + intros _ fp' Hv'. split; [done|]. cbn. unfold h_session in *. cbn. rewrite Hs.
      split; [done|]. eexists. split; [exact Hv'|].
      eapply owns_rules_same; [apply same_rules_put|done].
    + intros e fp' [_ Hv']. exists k. split; [done|]. unfold h_session in *. cbn. rewrite Hs.
      split; [done|]. by eexists.
  - intros e c' [Hrm' Hs]. exists k. split; [done|]. unfold h_session in *. cbn. rewrite Hs.
    split; [done|]. by eexists.
Qed.

Lemma pools_ok_release c f f' :
  pools_ok (pc_ResourceManager c) → ctx_FTEIDM c = Some f →
  ReleaseTEID (RemoteSEID (pc_Session c)) f = (f', Ok tt) →
  pools_ok (pc_ResourceManager (put_FTEIDM f' c)).
Proof.
  destruct c as [s rm t]. intros (i & f0 & Hrm & Hbusy & Hip) Hf Hrel. cbn in *. subst rm.
  cbn in Hf. simplify_eq. exists i, f'. split; [done|]. split; [|done].
  unfold ReleaseTEID, modify in Hrel. injection Hrel as Hrel. subst f'.
  destruct (busyTEIDs f) as [m|] eqn:Hb; cbn [default from_option Datatypes.id].
  - destruct (m !! _); cbn; [by eexists|]. by rewrite Hb.
  - rewrite lookup_empty. intros Hne. destruct (Hbusy Hne) as [? [=]].
Qed.

Definition ipam_of (rm : option ResourceManager) : option IPAM := rm ≫= rm_IPAM.

Lemma deletePDR_pools c fp v p :
  fp_repr fp v → pools_ok (pc_ResourceManager c) →
  wp (deletePDR p) (c, fp)
    (λ _ s', pools_ok (pc_ResourceManager s'.1) ∧ pc_Session s'.1 = pc_Session c ∧
       ipam_of (pc_ResourceManager s'.1) = ipam_of (pc_ResourceManager c) ∧
       fp_repr s'.2 (if cached c p then v else delete_entry (key_of p) v) ∧
       (cached c p = true ∨ is_Some (pdr_entry v (key_of p))))
    (λ _ s', s'.1 = c ∧ fp_repr s'.2 v ∧ pdr_entry v (key_of p) = None).
Proof.
  intros Hv Hrm. pose proof Hrm as (i & f & Hrmeq & _).
  assert (ctx_FTEIDM c = Some f) as Hf by (unfold ctx_FTEIDM; by rewrite Hrmeq).
  assert (pc_ResourceManager (mark_deleted p c) = pc_ResourceManager c ∧
          pc_Session (mark_deleted p c) = pc_Session c) as [Hm1 Hm2].
  { unfold mark_deleted. destruct (key_of p); try done. by destruct (cached c p). }
  wp_call (deletePDR_spec c fp v).
  - intros _ [c' fp'] (Hv' & Hent & Hc'). cbn [fst snd] in *.
    destruct (s_Teid p =? 0).
    + subst c'. rewrite Hm1, Hm2. done.
    + destruct Hc' as (f0 & f' & Hf0 & -> & Hrel). rewrite <-Hm2 in Hrel.
      split; [|split; [|split; [|done]]].
      * eapply pools_ok_release; [by rewrite Hm1| |exact Hrel].
        unfold ctx_FTEIDM. by rewrite Hm1.
      * done.
      * cbn. by rewrite Hm1, Hrmeq.
  - intros _ [c' fp'] (Hnone & _ & Hv' & ->). done.
Qed.

Lemma remove_pdr_keeps k pdr : keeps k k (remove_pdr pdr).
Proof.
  intros h Hinv. pose proof Hinv as (Hrm & Hk & v & Hv & Hown).
  unfold remove_pdr, in_pdrs, in_session. wp_go.
  destruct (PDRs (h_session h) !! or_0 (IE_PDRID pdr)) as [p|]; wp_go; [|done].
  unfold SessionRemovePDR. wp_go. wp_call deletePDR_pools.
  - intros _ [c' fp'] (Hrm' & Hs & _ & Hv' & _). cbn [fst snd] in *. split; [done|].
    unfold h_session in *. cbn. rewrite Hs. split; [done|]. eexists. split; [exact Hv'|].
    destruct (cached _ _); [done|]. eapply owns_rules_same; [apply same_rules_delete|done].
  - intros e [c' fp'] (-> & Hv' & _). cbn [fst snd] in *. exists k. split; [done|].
    split; [done|]. by eexists.
Qed.

(** *** Whole requests *)

Lemma keeps_bind k1 k2 k3 m1 m2 :
  keeps k1 k2 m1 → keeps k2 k3 m2 → keeps k1 k3 (m1 ≫= λ _, m2).
Proof.
  intros H1' H2' h Hh. wp_go. eapply wp_mono; [by apply H1'| |done]. cbn beta. intros _ h' Hh'. by apply H2'.
Qed.

Lemma for_each_keeps {A} k (l : list A) f :
  (∀ x, x ∈ l → keeps k k (f x)) → keeps k k (for_each l f).
Proof.
  intros Hf h Hh. apply (wp_for_each l f (rules_inv k)); [|done]. intros x s Hx Hs. by apply Hf.
Qed.

(** A loop of removals: the identifiers are distinct, so each is still there. *)
Lemma for_each_removes {A} (l : list A) (f : A → M (HandlerState F) unit) (ids : A → Z)
    (get : Known → gset Z) (without : Z → Known → Known) k :
  (∀ id k, get (without id k) = get k ∖ {[id]}) →
  (∀ x k, x ∈ l → ids x ∈ get k → keeps k (without (ids x) k) (f x)) →
  NoDup (ids <$> l) → (∀ x, x ∈ l → ids x ∈ get k) →
  keeps k (foldl (λ k x, without (ids x) k) k l) (for_each l f).
Proof.
  intros Hget. revert k. induction l as [|x l IH]; intros k Hf Hnd Hin; cbn [foldl for_each].
  { intros h Hh. by apply wp_ret. }
  apply NoDup_cons in Hnd as [Hx Hnd]. eapply keeps_bind; [apply Hf; set_solver|].
  apply IH; [set_solver|done|]. intros y Hy. rewrite Hget. apply elem_of_difference.
  split; [set_solver|]. intros Heq%elem_of_singleton. apply Hx. rewrite <-Heq.
  by apply list_elem_of_fmap_2.
Qed.

Definition no_far_panic (far : IE) : Prop := ∀ info, no_panic (composeFarInfo far info).

Lemma establish_rules_keep k req :
  (∀ far, far ∈ est_CreateFAR req → no_far_panic far) →
  keeps k k (establish_rules Conf req).
Proof.
  intros Hfar. unfold establish_rules.
  eapply keeps_bind; [apply for_each_keeps; intros x Hx; by apply create_far_keeps, Hfar|].
  eapply keeps_bind; [apply for_each_keeps; intros x Hx; apply create_qer_keeps|].
  eapply keeps_bind; [apply for_each_keeps; intros x Hx; apply create_urr_keeps|].
  apply for_each_keeps. intros x Hx. apply create_pdr_keeps.
Qed.

(** A modification names rules the session has, and removes each at most once. *)
Record known_ids (req : SessionModificationReq) (s : Session) : Prop := {
  ki_create_far far : far ∈ mod_CreateFAR req → no_far_panic far;
  ki_update_far far : far ∈ mod_UpdateFAR req → no_far_panic far ∧
    ∀ id, IE_FARID far = inr id → id ∈ dom (FARs s);
  ki_remove_far far : far ∈ mod_RemoveFAR req → or_0 (IE_FARID far) ∈ dom (FARs s);
  ki_remove_far_once : NoDup ((λ far, or_0 (IE_FARID far)) <$> mod_RemoveFAR req);
  ki_update_qer qer id : qer ∈ mod_UpdateQER req → IE_QERID qer = inr id → id ∈ dom (QERs s);
  ki_remove_qer qer : qer ∈ mod_RemoveQER req → or_0 (IE_QERID qer) ∈ dom (QERs s);
  ki_remove_qer_once : NoDup ((λ qer, or_0 (IE_QERID qer)) <$> mod_RemoveQER req);
  ki_update_urr urr id : urr ∈ mod_UpdateURR req → IE_URRID urr = inr id → id ∈ dom (URRs s);
  ki_remove_urr urr : urr ∈ mod_RemoveURR req → or_0 (IE_URRID urr) ∈ dom (URRs s);
  ki_remove_urr_once : NoDup ((λ urr, or_0 (IE_URRID urr)) <$> mod_RemoveURR req)
}.

Definition known_of (s : Session) : Known := mkKnown (dom (FARs s)) (dom (QERs s)) (dom (URRs s)).

Lemma remove_qer_keeps' k qer :
  or_0 (IE_QERID qer) ∈ k_qer k → keeps k (without_qer (or_0 (IE_QERID qer)) k) (remove_qer qer).
Proof.
  destruct (IE_QERID qer) as [e|id] eqn:Hq; intros Hid; [|by apply remove_qer_keeps].
  intros h Hh. unfold remove_qer, need. rewrite Hq. wp_go. eauto.
Qed.

Lemma remove_urr_keeps' k urr :
  or_0 (IE_URRID urr) ∈ k_urr k → keeps k (without_urr (or_0 (IE_URRID urr)) k) (remove_urr urr).
Proof.
  destruct (IE_URRID urr) as [e|id] eqn:Hu; intros Hid; [|by apply remove_urr_keeps].
  intros h Hh. unfold remove_urr, need. rewrite Hu. wp_go. eauto.
Qed.

Lemma foldl_keep {A B} (g : B → gset Z) (f : B → A → B) l b :
  (∀ b a, g (f b a) = g b) → g (foldl f b l) = g b.
Proof. intros Hf. revert b. induction l as [|a l IH]; intros b; [done|]. cbn. by rewrite IH. Qed.

Lemma modify_rules_keep req s :
  known_ids req s → ∃ k', keeps (known_of s) k' (modify_rules Conf req).
Proof.
  intros K. eexists. unfold modify_rules.
  eapply keeps_bind; [apply for_each_keeps; intros x Hx; by eapply create_far_keeps, ki_create_far|].
  eapply keeps_bind.
  { apply for_each_keeps. intros x Hx. apply (ki_update_far _ _ K) in Hx as [Hnp Hid].
    by apply update_far_keeps. }
  eapply keeps_bind.
  { apply (for_each_removes _ _ (λ far, or_0 (IE_FARID far)) k_far without_far); [done| | |].
    - intros x k Hx. apply remove_far_keeps.
    - apply K.
    - apply K. }
  eapply keeps_bind; [apply for_each_keeps; intros x Hx; apply create_qer_keeps|].
  eapply keeps_bind.
  { apply for_each_keeps. intros x Hx. apply update_qer_keeps. intros id Hid.
    rewrite foldl_keep by done. by eapply ki_update_qer. }
  eapply keeps_bind.
  { apply (for_each_removes _ _ (λ qer, or_0 (IE_QERID qer)) k_qer without_qer); [done| | |].
    - intros x k Hx. apply remove_qer_keeps'.
    - apply K.
    - rewrite foldl_keep by done. apply K. }
  eapply keeps_bind; [apply for_each_keeps; intros x Hx; apply create_urr_keeps|].
  eapply keeps_bind.
  { apply for_each_keeps. intros x Hx. apply update_urr_keeps. intros id Hid.
    rewrite !foldl_keep by done. by eapply ki_update_urr. }
  eapply keeps_bind.
  { apply (for_each_removes _ _ (λ urr, or_0 (IE_URRID urr)) k_urr without_urr); [done| | |].
    - intros x k Hx. apply remove_urr_keeps'.
    - apply K.
    - rewrite !foldl_keep by done. apply K. }
  eapply keeps_bind; [apply for_each_keeps; intros x Hx; apply create_pdr_keeps|].
  eapply keeps_bind; [apply for_each_keeps; intros x Hx; apply update_pdr_keeps|].
  apply for_each_keeps. intros x Hx. apply remove_pdr_keeps.
Qed.

End invariant.

(** ** The connection *)

Section connection_owns.
Context {E V : Type} (get : Session → gmap Z E) (gid : E → Z) (info : E → V) {F : Type}.
Implicit Types (c : PfcpConnection F) (t : gmap Z V) (m : gmap Z E).

(** Rule [i] of session [s] of association [a]. *)
Definition rule_at c (a : string) (s i : Z) (e : E) : Prop :=
  ∃ assoc session, NodeAssociations c !! a = Some assoc ∧
    Sessions assoc !! s = Some session ∧ get session !! i = Some e.

Definition conn_owns c t : Prop :=
  (∀ a s i e, rule_at c a s i e → in_range 32 (gid e) ∧ t !! gid e = Some (info e)) ∧
  (∀ a s i e a' s' i' e', rule_at c a s i e → rule_at c a' s' i' e' → gid e = gid e' →
     a = a' ∧ s = s' ∧ i = i').

Definition gids m : gset Z := list_to_set ((λ x, gid x.2) <$> map_to_list m).

Lemma elem_of_gids m g : g ∈ gids m ↔ ∃ i e, m !! i = Some e ∧ gid e = g.
Proof.
  unfold gids. rewrite elem_of_list_to_set, list_elem_of_fmap. split.
  - intros ([i e] & -> & Hi%elem_of_map_to_list). eauto.
  - intros (i & e & Hi & <-). exists (i, e). by rewrite elem_of_map_to_list.
Qed.

(** The session with rules [m] against all others. *)
Lemma conn_owns_session c t a s m :
  conn_owns c t → (∀ i e, m !! i = Some e → rule_at c a s i e) →
  owns gid info m (dom t ∖ gids m) t t.
Proof.
  intros [Ht Hinj] Hm. split; [|split].
  - intros i e Hi. destruct (Ht _ _ _ _ (Hm _ _ Hi)) as [Hr Hte]. split; [done|]. split; [done|].
    rewrite elem_of_difference, elem_of_gids. intros [_ Hn]. apply Hn. eauto.
  - intros i j e e' Hi Hj Heq. by destruct (Hinj _ _ _ _ _ _ _ _ (Hm _ _ Hi) (Hm _ _ Hj) Heq) as (_ & _ & ?).
  - intros g Hg. split; [done|]. apply elem_of_dom. set_solver.
Qed.

(** Back to the connection: the session now has the rules [m'], the others are
    as before. *)
Lemma session_owns_conn c c' t t' a s m m' :
  conn_owns c t → (∀ i e, m !! i = Some e → rule_at c a s i e) →
  owns gid info m' (dom t ∖ gids m) t t' →
  (∀ a' s' i e, rule_at c' a' s' i e →
     a' = a ∧ s' = s ∧ m' !! i = Some e ∨ ¬ (a' = a ∧ s' = s) ∧ rule_at c a' s' i e) →
  conn_owns c' t'.
Proof.
  intros [Ht Hinj] Hm (Hm' & Hinj' & HO) Hc'.
  assert (∀ a' s' i e, ¬ (a' = a ∧ s' = s) → rule_at c a' s' i e → gid e ∈ dom t ∖ gids m) as Hother.
  { intros a' s' i e Hne Hat. destruct (Ht _ _ _ _ Hat) as [_ Hte].
    rewrite elem_of_difference, elem_of_dom, elem_of_gids. split; [by eexists|].
    intros (j & e' & Hj & Heq). apply Hne.
    by destruct (Hinj _ _ _ _ _ _ _ _ Hat (Hm _ _ Hj) (eq_sym Heq)) as (? & ? & _). }
  split.
  - intros a' s' i e [(-> & -> & Hi)|[Hne Hat]]%Hc'.
    + destruct (Hm' _ _ Hi) as (? & ? & _). done.
    + destruct (Ht _ _ _ _ Hat) as [Hr Hte]. split; [done|].
      by destruct (HO _ (Hother _ _ _ _ Hne Hat)) as [-> _].
  - intros a1 s1 i1 e1 a2 s2 i2 e2 [(-> & -> & H1)|[Hne1 H1]]%Hc' [(-> & -> & H2)|[Hne2 H2]]%Hc' Heq.
    + split; [done|]. split; [done|]. eauto.
    + destruct (Hm' _ _ H1) as (_ & _ & Hno). destruct Hno. rewrite Heq. by eapply Hother.
    + destruct (Hm' _ _ H2) as (_ & _ & Hno). destruct Hno. rewrite <-Heq. by eapply Hother.
    + eauto.
Qed.

Lemma rule_at_same c c' a s i e :
  NodeAssociations c' = NodeAssociations c → rule_at c' a s i e → rule_at c a s i e.
Proof. unfold rule_at. by intros ->. Qed.

End connection_owns.

Section handlers.
Context `{Pfcp} `{MapOrder} (Conf : UpfConfig) `{ForwardingPlane F}.
Implicit Types c : PfcpConnection F.

Definition rules_owned c (v : FPView) : Prop :=
  conn_owns FARs sf_GlobalId sf_FarInfo c (v_far v) ∧
  conn_owns QERs sq_GlobalId sq_QerInfo c (v_qer v) ∧
  conn_owns URRs su_GlobalId su_UrrInfo c (v_urr v).

(** The invariant of the connection. *)
Definition conn_inv c : Prop :=
  pools_ok (conn_ResourceManager c) ∧ ∃ v, fp_repr (mapOperations c) v ∧ rules_owned c v.

(** What [c'] shares with [c], but for one session's rules. *)
Definition changes_session (a : string) (s : Z) (session : Session) c c' : Prop :=
  ∀ E (get : Session → gmap Z E) a' s' i e, rule_at get c' a' s' i e →
    a' = a ∧ s' = s ∧ get session !! i = Some e ∨ ¬ (a' = a ∧ s' = s) ∧ rule_at get c a' s' i e.

Definition is_session c (a : string) (s : Z) (session : Session) : Prop :=
  ∃ assoc, NodeAssociations c !! a = Some assoc ∧ Sessions assoc !! s = Some session.

Definition others_of (v : FPView) (session : Session) : Others :=
  mkOthers (dom (v_far v) ∖ gids sf_GlobalId (FARs session))
           (dom (v_qer v) ∖ gids sq_GlobalId (QERs session))
           (dom (v_urr v) ∖ gids su_GlobalId (URRs session)).

(** A session of the connection, or a new one without rules. *)
Definition old_or_new c a s (session : Session) : Prop :=
  (∃ stored, is_session c a s stored ∧ FARs session = FARs stored ∧
     QERs session = QERs stored ∧ URRs session = URRs stored) ∨
  FARs session = ∅ ∧ QERs session = ∅ ∧ URRs session = ∅.

Lemma old_or_new_rule c a s session :
  old_or_new c a s session →
  (∀ i e, FARs session !! i = Some e → rule_at FARs c a s i e) ∧
  (∀ i e, QERs session !! i = Some e → rule_at QERs c a s i e) ∧
  (∀ i e, URRs session !! i = Some e → rule_at URRs c a s i e).
Proof.
  intros [(stored & (assoc & Ha & Hs) & HF & HQ & HU)|(HF & HQ & HU)].
  - unfold rule_at. rewrite HF, HQ, HU. split_and!; eauto.
  - rewrite HF, HQ, HU. split_and!; intros i e; by rewrite lookup_empty.
Qed.

Lemma rules_owned_session c v a s session :
  rules_owned c v → old_or_new c a s session → owns_rules session (others_of v session) v v.
Proof.
  intros (HF & HQ & HU) (RF & RQ & RU)%old_or_new_rule. split_and!; by eapply conn_owns_session.
Qed.

Lemma owns_rules_conn c c' v v' a s session session' :
  rules_owned c v → old_or_new c a s session →
  owns_rules session' (others_of v session) v v' → changes_session a s session' c c' →
  rules_owned c' v'.
Proof.
  intros (HF & HQ & HU) (RF & RQ & RU)%old_or_new_rule (OF & OQ & OU) Hch.
  split_and!; eapply session_owns_conn; try done; apply Hch.
Qed.

(** *** The rule closures on the connection *)

Lemma run_rules_spec k k' c v a s session m :
  pools_ok (conn_ResourceManager c) → fp_repr (mapOperations c) v → rules_owned c v →
  old_or_new c a s session → knows k session →
  keeps (F:=F) (others_of v session) v k k' m →
  wp (run_rules session m) c
    (λ r c', c' = set_ResourceManager (conn_ResourceManager c')
                    (set_mapOperations (mapOperations c') c) ∧
       pools_ok (conn_ResourceManager c') ∧
       ∃ v', fp_repr (mapOperations c') v' ∧
             owns_rules (h_session r.1) (others_of v session) v v')
    (λ _ _, False).
Proof.
  intros Hrm Hv Hown Hses Hk Hm. unfold run_rules.
  pose proof (Hm (mkHandlerState (NewPDRCreationContext session (conn_ResourceManager c))
                    (mapOperations c) [] [])) as Hwp.
  unfold wp in *. destruct (m _) as [h r].
  assert (rules_inv (others_of v session) v k
    (mkHandlerState (NewPDRCreationContext session (conn_ResourceManager c)) (mapOperations c) [] []))
    as Hinv.
  { split; [done|]. split; [done|]. exists v. split; [done|]. by eapply rules_owned_session. }
  specialize (Hwp Hinv). destruct r as [a0|e|]; [| |done].
  - destruct Hwp as (Hrm' & _ & v' & Hv' & Hown'). cbn. eauto.
  - destruct Hwp as (k1 & Hrm' & _ & v' & Hv' & Hown'). cbn. eauto.
Qed.

Lemma conn_inv_trace c t : conn_inv c → conn_inv (set_trace t c).
Proof. intros (? & v & ? & ?). split; [done|]. by exists v. Qed.

Lemma conn_inv_same_rules c c' :
  NodeAssociations c' = NodeAssociations c → conn_ResourceManager c' = conn_ResourceManager c →
  mapOperations c' = mapOperations c → conn_inv c → conn_inv c'.
Proof.
  intros Hn Hr Hf (Hrm & v & Hv & Hown). split; [by rewrite Hr|]. exists v. rewrite Hf.
  split; [done|]. revert Hown. unfold rules_owned, conn_owns, rule_at. by rewrite Hn.
Qed.

(** A table that keeps every entry in use. *)
Lemma conn_owns_extend {E V} (get : Session → gmap Z E) gid (info : E → V) c c' t t' :
  conn_owns get gid info c t → (∀ g, g ∈ dom t → t' !! g = t !! g) →
  (∀ a s i e, rule_at get c' a s i e → rule_at get c a s i e) →
  conn_owns get gid info c' t'.
Proof.
  intros [Ht Hinj] Hext Hc. split; [|eauto 10].
  intros a s i e Hat%Hc. destruct (Ht _ _ _ _ Hat) as [Hr Hte]. split; [done|].
  rewrite Hext; [done|]. apply elem_of_dom. by eexists.
Qed.

Lemma rules_owned_extend c c' v v' session session' :
  rules_owned c v → FARs session = ∅ → QERs session = ∅ → URRs session = ∅ →
  owns_rules session' (others_of v session) v v' →
  (∀ a assoc', NodeAssociations c' !! a = Some assoc' →
     ∃ assoc, NodeAssociations c !! a = Some assoc ∧ Sessions assoc' = Sessions assoc) →
  rules_owned c' v'.
Proof.
  intros (HF & HQ & HU) EF EQ EU (OF & OQ & OU) Hsame.
  assert (∀ E (get : Session → gmap Z E) a s i e, rule_at get c' a s i e → rule_at get c a s i e).
  { intros E get a s i e (assoc' & ses & Ha & Hs & Hi).
    destruct (Hsame _ _ Ha) as (assoc & Hassoc & Heq). exists assoc, ses. by rewrite <-Heq. }
  split_and!; (eapply conn_owns_extend; [done| |by auto]); intros g Hg.
  - apply OF. unfold others_of, gids. cbn. rewrite EF, map_to_list_empty. set_solver.
  - apply OQ. unfold others_of, gids. cbn. rewrite EQ, map_to_list_empty. set_solver.
  - apply OU. unfold others_of, gids. cbn. rewrite EU, map_to_list_empty. set_solver.
Qed.

Lemma put_session_changes c c' a s session assoc assoc' :
  NodeAssociations c !! a = Some assoc →
  NodeAssociations c' = <[a := assoc']> (NodeAssociations c) →
  Sessions assoc' = <[s := session]> (Sessions assoc) → changes_session a s session c c'.
Proof.
  intros Ha Hc' Hs' E get a' s' i e (x & ses & Hx & Hses & Hi). rewrite Hc' in Hx.
  apply lookup_insert_Some in Hx as [[-> <-]|[Hne Hx]].
  - rewrite Hs' in Hses. apply lookup_insert_Some in Hses as [[-> <-]|[Hnes Hses]]; [by left|].
    right. split; [naive_solver|]. by exists assoc, ses.
  - right. split; [naive_solver|]. by exists x, ses.
Qed.

Lemma drop_session_changes c c' a s session assoc assoc' :
  NodeAssociations c !! a = Some assoc →
  NodeAssociations c' = <[a := assoc']> (NodeAssociations c) →
  Sessions assoc' = delete s (Sessions assoc) → changes_session a s session c c'.
Proof.
  intros Ha Hc' Hs' E get a' s' i e (x & ses & Hx & Hses & Hi). right. rewrite Hc' in Hx.
  apply lookup_insert_Some in Hx as [[-> <-]|[Hne Hx]].
  - rewrite Hs' in Hses. apply lookup_delete_Some in Hses as [Hnes Hses].
    split; [naive_solver|]. by exists assoc, ses.
  - split; [naive_solver|]. by exists x, ses.
Qed.

Lemma alter_assoc {A} (f : A → A) (m : gmap string A) a x :
  m !! a = Some x → alter f a m = <[a := f x]> m.
Proof.
  intros Ha. apply map_eq. intros b. rewrite lookup_alter, lookup_insert.
  case_decide; [|done]. subst. by rewrite Ha.
Qed.

(** The association after [NewLocalSEID]. *)
Definition next_session (a : NodeAssociation) : NodeAssociation :=
  mkNodeAssociation (ID a) (Addr a) (u64 (NextSessionID a + 1)) (NextSequenceID a) (Sessions a).

Lemma NewLocalSEID_eq a :
  NewLocalSEID a = (next_session a, Ok (u64 (NextSessionID a + 1))).
Proof. done. Qed.

Lemma conn_inv_emit e c : conn_inv c → conn_inv (set_trace (trace c ++ [e]) c).
Proof. apply conn_inv_trace. Qed.

(** *** The handlers *)

(** An establishment request that can be printed and whose FARs can be read. *)
Definition readable_establishment (req : SessionEstablishmentReq) : Prop :=
  (∀ far, far ∈ est_CreateFAR req → no_far_panic far) ∧
  Forall has_source_interface (est_CreatePDR req).

(** The handler, branch by branch. *)
Lemma wp_establishment c req addr (Q : option OutMsg * option error → PfcpConnection F → Prop) :
  let nodeIE := newIeNodeID (nodeId c) in
  let answer seid ies := reply (mkOutMsg SessionEstablishmentResponse seid (est_Sequence req) ies) in
  let logged c ev := set_trace (trace c ++ [ev]) c in
  Forall has_source_interface (est_CreatePDR req) →
  (∀ err ev, validateRequest (est_NodeID req) (est_CPFSEID req) = inl err →
     Q (answer 0 [nodeIE; convertErrorToIeCause err]) (logged c ev)) →
  (∀ remote ev, validateRequest (est_NodeID req) (est_CPFSEID req) = inr remote →
     NodeAssociations c !! addr = None →
     Q (answer 0 [nodeIE; NewCause CauseNoEstablishedPFCPAssociation]) (logged c ev)) →
  (∀ remote a, validateRequest (est_NodeID req) (est_CPFSEID req) = inr remote →
     NodeAssociations c !! addr = Some a →
     let seid := u64 (NextSessionID a + 1) in
     wp (run_rules (NewSession seid remote) (establish_rules Conf req)) (update_association addr (λ _, next_session a) c)
       (λ r c2, ∀ ev,
          match r with
          | (_, Some _) => Q (answer remote [nodeIE; NewCause CauseRuleCreationModificationFailure]) (logged c2 ev)
          | (h, None) =>
              Q (answer remote ([nodeIE; NewCause CauseRequestAccepted; NewFSEID seid (cloneIP (nodeAddrV4 c)) None] ++
                                processCreatedPDRs (createdPDRs h) (cloneIP (n3Address c))))
                (logged (update_association addr (on_Sessions <[seid := h_session h]>) c2) ev)
          end) (λ _ _, False)) →
  wp (HandlePfcpSessionEstablishmentRequest Conf req addr) c Q (λ _ _, False).
Proof.
  intros nodeIE answer logged Hsrc Hbad Hnone Hsome.
  unfold HandlePfcpSessionEstablishmentRequest, rx_error, emit. wp_go.
  destruct (validateRequest _ _) as [err|remote] eqn:Hval; wp_go; [by apply Hbad|].
  unfold GetAssociation. destruct (NodeAssociations c !! addr) as [assoc|] eqn:Ha; wp_go;
    [|by eapply Hnone].
  rewrite NewLocalSEID_eq. wp_step. apply wp_lift; [done| |done]. intros local [= <-]. wp_go.
  eapply wp_printed; [apply print_establishment_spec|done|intros _]. wp_go.
  eapply wp_mono; [by apply (Hsome remote assoc)| |done]. cbn beta. intros [h [err|]] c2 HQ; wp_go; apply HQ.
Qed.

Lemma next_session_at c addr a :
  NodeAssociations c !! addr = Some a →
  NodeAssociations (update_association addr (λ _, next_session a) c) = <[addr := next_session a]> (NodeAssociations c).
Proof. intros Ha. unfold update_association. cbn. by erewrite alter_assoc. Qed.

(** A new session identifier changes no rule. *)
Lemma next_session_owned c v addr a :
  NodeAssociations c !! addr = Some a → rules_owned c v →
  rules_owned (update_association addr (λ _, next_session a) c) v.
Proof.
  intros Ha Hown. eapply (rules_owned_extend c _ v v (NewSession 0 0)); [done..| |].
  - apply (rules_owned_session c v addr 0 (NewSession 0 0)); [done|by right].
  - intros b x. rewrite next_session_at by done. intros [[-> <-]|[_ Hx]]%lookup_insert_Some; eauto.
Qed.

Lemma establishment_inv c req addr :
  conn_inv c → readable_establishment req →
  wp (HandlePfcpSessionEstablishmentRequest Conf req addr) c
    (λ _ c', conn_inv c') (λ _ _, False).
Proof.
  intros Hinv [Hfar Hsrc]. pose proof Hinv as (Hrm & v & Hv & Hown).
  apply wp_establishment; [done|intros; by apply conn_inv_emit..|].
  intros remote assoc Hval Ha seid. pose proof (next_session_owned _ _ _ _ Ha Hown) as Hown1.
  pose proof (next_session_at _ _ _ Ha) as Hc1. set (c1 := update_association _ _ c) in *.
  wp_call (run_rules_spec (mkKnown ∅ ∅ ∅) (mkKnown ∅ ∅ ∅) c1 v addr seid);
    [by right|by apply establish_rules_keep| |done].
  intros [h oerr] c2 (Hc2 & Hrm2 & v' & Hv' & Hown') ev. cbn [fst] in Hown'. rewrite Hc2.
  destruct oerr as [err|]; apply conn_inv_emit; (split; [done|]); exists v'; (split; [done|]).
  - eapply (rules_owned_extend c1 _ v v' (NewSession seid remote)); [done..|]. cbn. eauto.
  - eapply (owns_rules_conn c1 _ v v' addr seid (NewSession seid remote)); [done|by right|done|].
    assert (NodeAssociations c1 !! addr = Some (next_session assoc)) as Ha1 by (by rewrite Hc1, lookup_insert_eq).
    eapply (put_session_changes _ _ _ _ _ (next_session assoc)); [done| |].
    + unfold update_association. cbn -[c1]. by erewrite alter_assoc.
    + done.
Qed.

(** C12: session establishment keeps rule ownership.  Whatever the request --
    also one that fails half-way, and whatever elements are missing -- the
    handler returns without a panic, every FAR, QER and URR of every session
    still owns its entry of the forwarding plane, and no two rules share one.
    The only condition is that the request can be read: reading its FARs does
    not panic, and each PDI has a source interface. *)
Theorem establishment_keeps_ownership c req addr :
  conn_inv c → readable_establishment req →
  wp (HandlePfcpSessionEstablishmentRequest Conf req addr) c
    (λ _ c', conn_inv c') (λ _ _, False).
Proof. apply establishment_inv. Qed.

(** The session the rules of a modification start from. *)
Definition addressed (req : SessionModificationReq) (session : Session) : Session :=
  match IE_FSEID <$> mod_CPFSEID req with
  | Some (inr remoteSEID) => set_RemoteSEID remoteSEID session
  | _ => session
  end.

Lemma addressed_rules req session :
  PDRs (addressed req session) = PDRs session ∧ FARs (addressed req session) = FARs session ∧
  QERs (addressed req session) = QERs session ∧ URRs (addressed req session) = URRs session.
Proof. unfold addressed. by destruct (IE_FSEID <$> mod_CPFSEID req) as [[]|]. Qed.

(** The handler, branch by branch. *)
Lemma wp_modification c req addr (Q : option OutMsg * option error → PfcpConnection F → Prop) :
  let answer seid ies := reply (mkOutMsg SessionModificationResponse seid (mod_Sequence req) ies) in
  let logged c ev := set_trace (trace c ++ [ev]) c in
  Forall has_source_interface (mod_PDRs req) →
  (∀ ev, NodeAssociations c !! addr = None →
     Q (answer (mod_SEID req) [NewCause CauseNoEstablishedPFCPAssociation]) (logged c ev)) →
  (∀ ev a, NodeAssociations c !! addr = Some a → Sessions a !! mod_SEID req = None →
     Q (answer 0 [NewCause CauseSessionContextNotFound]) (logged c ev)) →
  (∀ a session, NodeAssociations c !! addr = Some a → Sessions a !! mod_SEID req = Some session →
     wp (run_rules (addressed req session) (modify_rules Conf req)) c
       (λ r c2, ∀ ev,
          let s' := h_session r.1 in
          let c3 := update_association addr (on_Sessions <[mod_SEID req := s']>) c2 in
          match r.2 with
          | Some _ => Q (answer (RemoteSEID s') [NewCause CauseRuleCreationModificationFailure]) (logged c3 ev)
          | None => ∀ ies, Q (answer (RemoteSEID s') (NewCause CauseRequestAccepted :: ies)) (logged c3 ev)
          end) (λ _ _, False)) →
  wp (HandlePfcpSessionModificationRequest Conf req addr) c Q (λ _ _, False).
Proof.
  intros answer logged Hsrc Hnone Hnosession Hsome.
  unfold HandlePfcpSessionModificationRequest, answer_modification, rx_error, emit. wp_go. unfold GetAssociation.
  destruct (NodeAssociations c !! addr) as [a|] eqn:Ha; wp_go; [|by apply Hnone].
  destruct (Sessions a !! mod_SEID req) as [session|] eqn:Hs; wp_go; [|by eapply Hnosession].
  eapply wp_printed; [apply print_modification_spec|done|intros _]. wp_go. fold (addressed req session).
  eapply wp_mono; [by apply (Hsome a session)| |done]. cbn beta zeta. intros [h [err|]] c2 HQ; wp_go; apply HQ.
Qed.

Lemma modification_inv c req addr :
  conn_inv c → Forall has_source_interface (mod_PDRs req) →
  (∀ session, is_session c addr (mod_SEID req) session → known_ids req session) →
  wp (HandlePfcpSessionModificationRequest Conf req addr) c
    (λ _ c', conn_inv c') (λ _ _, False).
Proof.
  intros Hinv Hsrc Hreq. pose proof Hinv as (Hrm & v & Hv & Hown).
  apply wp_modification; [done|intros; by apply conn_inv_emit..|]. intros assoc session Ha Hs.
  assert (is_session c addr (mod_SEID req) session) as Hses by (by exists assoc).
  destruct (modify_rules_keep Conf (others_of v session) v req session (Hreq _ Hses)) as [k' Hk'].
  destruct (addressed_rules req session) as (_ & EF & EQ & EU). set (session1 := addressed req session) in *.
  assert (others_of v session1 = others_of v session) as Ho by
    (unfold others_of; by rewrite EF, EQ, EU).
  wp_call (run_rules_spec (known_of session) k' c v addr (mod_SEID req) session1).
  - left. by exists session.
  - unfold known_of, knows. by rewrite EF, EQ, EU.
  - by rewrite Ho.
  - intros [h oerr] c2 (Hc2 & Hrm2 & v' & Hv' & Hown') ev. cbn [fst snd] in *.
    assert (conn_inv (update_association addr (on_Sessions <[mod_SEID req := h_session h]>) c2))
      as Hfinal.
    { split; [done|]. exists v'. split; [done|].
      eapply (owns_rules_conn c _ v v' addr (mod_SEID req) session1); [done| |done|].
      + left. by exists session.
      + eapply (put_session_changes _ _ _ _ _ assoc); [done| |].
        * rewrite Hc2. unfold update_association. cbn. by erewrite alter_assoc.
        * done. }
    destruct oerr as [err|]; [|intros ies]; by apply conn_inv_emit.
  - done.
Qed.

(** C13: session modification keeps rule ownership, provided it names rules the
    session has: the FARs, QERs and URRs it updates exist, those it removes
    exist and are removed once; reading the FARs does not panic and each PDI
    has a source interface.  Then the
    handler does not panic, and on success and on every error, however far the
    rules got, all rules of all sessions own their entries. *)
Theorem modification_keeps_ownership c req addr :
  conn_inv c → Forall has_source_interface (mod_PDRs req) →
  (∀ session, is_session c addr (mod_SEID req) session → known_ids req session) →
  wp (HandlePfcpSessionModificationRequest Conf req addr) c
    (λ _ c', conn_inv c') (λ _ _, False).
Proof. apply modification_inv. Qed.

(** *** Deletion *)

Definition set_FARs m (s : Session) := on_FARs (λ _, m) s.
Definition set_QERs m (s : Session) := on_QERs (λ _, m) s.
Definition set_URRs m (s : Session) := on_URRs (λ _, m) s.

(** What remains of a session while its rules are deleted. *)
Definition plane_owns (o : Others) (v0 : FPView) (s : Session) (fp : F) : Prop :=
  ∃ v, fp_repr fp v ∧ owns_rules s o v0 v.

Definition remains (o : Others) (v0 : FPView) (i : option IPAM) (s : Session)
    (st : PDRCreationContext * F) : Prop :=
  (pools_ok (pc_ResourceManager st.1) ∧ ipam_of (pc_ResourceManager st.1) = i) ∧
  plane_owns o v0 s st.2.

(** A loop over a map that deletes what it visits. *)
Lemma foldl_delete_lookup {E} (visited : list (Z * E)) (m : gmap Z E) j :
  foldl (λ m x, delete x.1 m) m visited !! j = if decide (j ∈ visited.*1) then None else m !! j.
Proof.
  revert m. induction visited as [|x visited IH]; intros m; [done|]. cbn [foldl].
  rewrite IH. destruct (decide (j ∈ visited.*1)) as [Hj|Hj].
  - rewrite decide_True by (rewrite fmap_cons; set_solver). done.
  - destruct (decide (j = x.1)) as [->|Hne].
    + rewrite lookup_delete_eq, decide_True by (rewrite fmap_cons; set_solver). done.
    + rewrite lookup_delete_ne by done. by rewrite decide_False by (rewrite fmap_cons; set_solver).
Qed.

Lemma delete_loop {S E} (m : gmap Z E) (P : gmap Z E → S → Prop) (f : Z * E → M S unit)
    (Er : error → S → Prop) st :
  (∀ m i e st, m !! i = Some e → P m st →
     wp (f (i, e)) st (λ _ st', P (delete i m) st') Er) →
  P m st → wp (for_each (range_map m) f) st (λ _ st', P ∅ st') Er.
Proof.
  intros Hf HP. set (rest := foldl (λ m (x : Z * E), delete x.1 m) m).
  assert (rest (range_map m) = ∅) as Hall.
  { apply map_empty. intros j. unfold rest. rewrite foldl_delete_lookup. case_decide as Hj; [done|].
    destruct (m !! j) as [e|] eqn:He; [|done]. destruct Hj. apply list_elem_of_fmap.
    exists (j, e). split; [done|]. by apply elem_of_range_map. }
  rewrite <-Hall. apply (wp_for_each_prefix _ _ (λ visited, P (rest visited)) Er); [|done].
  intros visited [i e] tail s Hl HP'. pose proof (NoDup_range_map m) as Hnd. rewrite Hl in Hnd.
  rewrite fmap_app, fmap_cons in Hnd. apply NoDup_app in Hnd as (_ & Hdisj & _).
  unfold rest. rewrite foldl_app. cbn [foldl]. apply Hf; [|done]. fold (rest visited).
  unfold rest. rewrite foldl_delete_lookup, decide_False
    by (intros Hin; apply (Hdisj _ Hin); set_solver).
  apply elem_of_range_map. rewrite Hl. set_solver.
Qed.

Lemma DeleteFar_owns o v0 s m i e fp :
  m !! i = Some e → plane_owns o v0 (set_FARs m s) fp →
  wp (DeleteFar (sf_GlobalId e)) fp
    (λ _ fp', plane_owns o v0 (set_FARs (delete i m) s) fp') (λ _ _, False).
Proof.
  intros Hi (v & Hv & HF & HQ & HU). destruct (proj1 HF i e Hi) as (Hr & Ht & _).
  wp_call DeleteFar_ok.
  - intros _ fp' [_ Hv']. eexists. split; [exact Hv'|]. split_and!; [|done..].
    by apply (owns_remove _ _ m).
  - intros _ fp' [Hnone _]. congruence.
Qed.

Lemma DeleteQer_owns o v0 s m i e fp :
  m !! i = Some e → plane_owns o v0 (set_QERs m s) fp →
  wp (DeleteQer (sq_GlobalId e)) fp
    (λ _ fp', plane_owns o v0 (set_QERs (delete i m) s) fp') (λ _ _, False).
Proof.
  intros Hi (v & Hv & HF & HQ & HU). destruct (proj1 HQ i e Hi) as (Hr & Ht & _).
  wp_call DeleteQer_ok.
  - intros _ fp' [_ Hv']. eexists. split; [exact Hv'|]. split_and!; [done| |done].
    by apply (owns_remove _ _ m).
  - intros _ fp' [Hnone _]. congruence.
Qed.

Lemma DeleteUrr_owns o v0 s m i e fp :
  m !! i = Some e → plane_owns o v0 (set_URRs m s) fp →
  wp (DeleteUrr (su_GlobalId e)) fp
    (λ _ fp', plane_owns o v0 (set_URRs (delete i m) s) fp') (λ _ _, False).
Proof.
  intros Hi (v & Hv & HF & HQ & HU). destruct (proj1 HU i e Hi) as (Hr & Ht & _).
  wp_call DeleteUrr_ok.
  - intros _ fp' [_ Hv']. eexists. split; [exact Hv'|]. split_and!; [done..|].
    by apply (owns_remove _ _ m).
  - intros _ fp' [Hnone _]. congruence.
Qed.

Lemma delete_far_remains o v0 ip s m i e st :
  m !! i = Some e → remains o v0 ip (set_FARs m s) st →
  wp (on_maps (DeleteFar (sf_GlobalId e))) st
    (λ _ st', remains o v0 ip (set_FARs (delete i m) s) st') (λ _ _, False).
Proof.
  intros Hi [Hrm Hv]. unfold on_maps. wp_go. by wp_call (DeleteFar_owns o v0 s m i e).
Qed.

Lemma delete_qer_remains o v0 ip s m i e st :
  m !! i = Some e → remains o v0 ip (set_QERs m s) st →
  wp (on_maps (DeleteQer (sq_GlobalId e))) st
    (λ _ st', remains o v0 ip (set_QERs (delete i m) s) st') (λ _ _, False).
Proof.
  intros Hi [Hrm Hv]. unfold on_maps. wp_go. by wp_call (DeleteQer_owns o v0 s m i e).
Qed.

Lemma delete_urr_remains o v0 ip s m i e st :
  m !! i = Some e → remains o v0 ip (set_URRs m s) st →
  wp (on_maps (DeleteUrr (su_GlobalId e))) st
    (λ _ st', remains o v0 ip (set_URRs (delete i m) s) st') (λ _ _, False).
Proof.
  intros Hi [Hrm Hv]. unfold on_maps. wp_go. by wp_call (DeleteUrr_owns o v0 s m i e).
Qed.

Lemma delete_pdr_remains o v0 ip s p st :
  remains o v0 ip s st → wp (deletePDR p) st (λ _ st', remains o v0 ip s st') (λ _ st', remains o v0 ip s st').
Proof.
  destruct st as [pc fp]. intros ((Hrm & Hip) & v & Hv & Hown). wp_call deletePDR_pools.
  - intros _ [pc' fp'] (Hrm' & _ & Hip' & Hv' & _). cbn [fst snd] in *. cbn in Hip. split; [split; [done|cbn; congruence]|].
    eexists. split; [exact Hv'|]. destruct (cached _ _); [done|].
    eapply owns_rules_same; [apply same_rules_delete|done].
  - intros _ [pc' fp'] (Hc & Hv' & _). cbn [fst] in Hc. subst pc'. split; [done|]. by exists v.
Qed.

(** A loop that collects: as [for_each] on the state. *)
Lemma wp_collect {A B} (l : list A) (f : A → M (PDRCreationContext * F) (option B)) st
    (Q : PDRCreationContext * F → Prop) Er :
  wp (for_each l (λ a, f a ≫= λ _, mret tt)) st (λ _ st', Q st') Er →
  wp (collect l f) st (λ _ st', Q st') Er.
Proof.
  revert st. induction l as [|a l IH]; intros st; cbn [collect for_each]; [done|].
  unfold wp, mbind, M_bind, mret, M_ret. destruct (f a st) as [st1 [o|e|]]; [|done..].
  intros Hrest. specialize (IH st1). unfold wp in IH. destruct (for_each l _ st1) as [st2 [[]|e|]];
    specialize (IH Hrest); destruct (collect l f st1) as [st3 [bs|e'|]]; done.
Qed.

(** Deleting a session's rules: when it fails, none of them is gone yet. *)
Lemma delete_rules_remains o v0 ip s st :
  remains o v0 ip s st →
  wp (delete_rules s) st (λ _ st', ∃ s', remains o v0 ip s' st') (λ _ st', remains o v0 ip s st').
Proof.
  intros Hst. unfold delete_rules. wp_step.
  eapply wp_mono; [apply (wp_for_each _ _ (remains o v0 ip s)); [|done]| |intros e s' HE; exact HE].
  { intros [i p] s' _ Hs'. apply delete_pdr_remains, Hs'. }
  cbn beta. intros _ st1 Hst1. wp_step.
  eapply wp_mono; [apply (delete_loop (FARs s) (λ m, remains o v0 ip (set_FARs m s)) _ (λ _ _, False))| |done].
  { intros m i e s' Hi HP. by apply delete_far_remains. }
  { by destruct s. }
  cbn beta. intros _ st2 Hst2. wp_step.
  eapply wp_mono; [apply (delete_loop (QERs s) (λ m, remains o v0 ip (set_QERs m (set_FARs ∅ s))) _
    (λ _ _, False))| |done].
  { intros m i e s' Hi HP. by apply delete_qer_remains. }
  { by destruct s. }
  cbn beta. intros _ st3 Hst3.
  eapply wp_mono; [apply (wp_collect _ _ _
    (remains o v0 ip (set_URRs ∅ (set_QERs ∅ (set_FARs ∅ s)))) (λ _ _, False))| |done].
  - apply (delete_loop (URRs s)
      (λ m, remains o v0 ip (set_URRs m (set_QERs ∅ (set_FARs ∅ s))))); [|by destruct s].
    intros m i e s' Hi HP. wp_go. wp_call (delete_urr_remains o v0 ip); [|done].
    intros info s1 Hs1. by wp_go.
  - cbn beta. eauto.
Qed.

Lemma ReleaseResources_spec seid c :
  pools_ok (conn_ResourceManager c) →
  wp (ReleaseResources seid) c
    (λ _ c', c' = set_ResourceManager (conn_ResourceManager c') c ∧ pools_ok (conn_ResourceManager c') ∧
       ipam_of (conn_ResourceManager c') =
         (λ i, (ReleaseIP seid i).1) <$> ipam_of (conn_ResourceManager c))
    (λ _ _, False).
Proof.
  intros (i & f & Hrm & Hbusy & Hip). unfold ReleaseResources. wp_go. rewrite Hrm. cbn [has_IPAM has_FTEIDM].
  assert (Hrel : ∀ f, (freeTEIDs f ≠ [] → is_Some (busyTEIDs f)) →
    ∃ f', ReleaseTEID seid f = (f', Ok tt) ∧ (freeTEIDs f' ≠ [] → is_Some (busyTEIDs f'))).
  { intros g Hg. eexists. split; [done|]. destruct (busyTEIDs g) as [m|] eqn:Hm; cbn.
    - destruct (m !! seid); cbn; [by eexists|]. by rewrite Hm.
    - rewrite lookup_empty. by rewrite Hm. }
  assert (Hreli : ∀ i, (freeIPs i ≠ [] → is_Some (busyIPs i)) →
    ∃ i', ReleaseIP seid i = (i', Ok tt) ∧ (freeIPs i' ≠ [] → is_Some (busyIPs i'))).
  { intros g Hg. eexists. split; [done|]. destruct (busyIPs g) as [m|] eqn:Hm; cbn.
    - destruct (m !! seid); cbn; [by eexists|]. by rewrite Hm.
    - rewrite lookup_empty. by rewrite Hm. }
  destruct (Hrel f Hbusy) as (f' & Hf & Hf').
  destruct i as [i|]; wp_go.
  - destruct (Hreli i (Hip i eq_refl)) as (i' & Hi & Hi').
    unfold wp, with_IPAM, with_FTEIDM, zoom. rewrite Hrm, Hi. cbn -[ReleaseTEID].
    rewrite Hf. split; [done|]. split.
    + eexists _, f'. split; [done|]. split; [done|]. intros i1 [= <-]. done.
    + unfold ReleaseIP, modify in Hi. injection Hi as <-. done.
  - unfold wp, with_IPAM, with_FTEIDM, zoom. rewrite Hrm. cbv iota beta. rewrite Hf. split; [done|].
    split; [by exists None, f'|done].
Qed.

Lemma deletion_inv c req addr :
  conn_inv c →
  wp (HandlePfcpSessionDeletionRequest req addr) c (λ _ c', conn_inv c') (λ _ _, False).
Proof.
  intros Hinv. pose proof Hinv as (Hrm & v & Hv & Hown).
  unfold HandlePfcpSessionDeletionRequest, rx_error, emit. wp_go. unfold GetAssociation.
  destruct (NodeAssociations c !! addr) as [assoc|] eqn:Ha; wp_go; [|by apply conn_inv_emit].
  destruct (Sessions assoc !! del_SEID req) as [session|] eqn:Hs; wp_go; [|by apply conn_inv_emit].
  assert (old_or_new c addr (del_SEID req) session) as Hses.
  { left. exists session. split; [by exists assoc|done]. }
  pose proof (rules_owned_session _ _ _ _ _ Hown Hses) as Hsown.
  pose proof (delete_rules_remains (others_of v session) v (ipam_of (conn_ResourceManager c)) session
    (NewPDRCreationContext session (conn_ResourceManager c), mapOperations c)) as Hdel.
  unfold wp at 1. unfold wp at 1 in Hdel. unfold with_pdr_context.
  destruct (delete_rules session _) as [[pc fp] [reports|err|]];
    specialize (Hdel ltac:(split; [done|by exists v])); cbn [fst snd] in Hdel; [| |done].
  - destruct Hdel as (s' & [Hrm1 _] & v1 & Hv1 & Hown1). cbn [fst snd] in *.
    set (c1 := set_ResourceManager (pc_ResourceManager pc) (set_mapOperations fp c)). wp_go.
    wp_call ReleaseResources_spec; [|done]. intros _ c2 (Hc2 & Hrm2 & _). wp_go. apply conn_inv_emit.
    split; [done|]. exists v1. rewrite Hc2. split; [done|].
    eapply (owns_rules_conn c _ v v1 addr (del_SEID req) session s'); [done..|].
    eapply (drop_session_changes _ _ _ _ _ assoc (on_Sessions (delete (del_SEID req)) assoc));
      [done| |done].
    unfold update_association. cbn. by erewrite alter_assoc.
  - destruct Hdel as ([Hrm1 _] & v1 & Hv1 & Hown1). cbn [fst snd] in *. wp_go. apply conn_inv_emit.
    split; [done|]. exists v1. split; [done|].
    eapply (owns_rules_conn c _ v v1 addr (del_SEID req) session session); [done..|].
    intros E get a' s' i e Hat. destruct (decide (a' = addr ∧ s' = del_SEID req)) as [[-> ->]|Hne];
      [left|by right].
    destruct Hat as (x & ses & Hx & Hses' & Hi). cbn in Hx. simplify_eq. done.
Qed.

(** C14: session deletion keeps rule ownership.  The handler does not panic;
    whether it succeeds or gives up at a PDR it cannot remove, all rules of
    all sessions left own their entries -- in particular a failed deletion
    has not removed any of the session's FARs, QERs and URRs. *)
Theorem deletion_keeps_ownership c req addr :
  conn_inv c →
  wp (HandlePfcpSessionDeletionRequest req addr) c (λ _ c', conn_inv c') (λ _ _, False).
Proof. apply deletion_inv. Qed.

End handlers.

(** ** A connection with two sessions

    Session 2 of the peer 10.0.0.1 owns FAR 1 at index 0 and has a PDR under
    TEID 1 and the UE address 10.60.0.1; session 3 has no rules. *)

#[local] Existing Instance ascending_order.
#[local] Existing Instance demo_pfcp.

Definition demo_far : FarInfo := mkFarInfo 2 1 100 16777343 0.
Definition demo_session : Session :=
  mkSession 2 77 {[1 := demo_teid_pdr 1 1]} {[1 := mkSFarInfo demo_far 0]} ∅ ∅.
Definition demo_association : NodeAssociation :=
  mkNodeAssociation "smf" "10.0.0.1" 3 1 (<[2 := demo_session]> {[3 := NewSession 3 78]}).
Definition demo_plane : FPView :=
  mkFPView {[0 := demo_far]} ∅ ∅ {[1 := zeroPdrEntry]} ∅ ∅.
Definition demo_pools : ResourceManager :=
  mkResourceManager (Some (mkIPAM [Some [10; 60; 0; 2]] (Some {[77 := Some [10; 60; 0; 1]]})))
    (Some (mkFTEIDM [2; 3] (Some {[77 := {[1 := 1]}]}))).
Definition demo_conn : PfcpConnection FPView :=
  mkPfcpConnection {["10.0.0.1" := demo_association]} "upf" (Some [10; 0; 0; 9])
    (Some [10; 3; 0; 1]) (Some [10; 9; 0; 1]) demo_plane 1700000000 [0; 1; 0] (Some demo_pools) [] [].

Lemma demo_session_at a s ses :
  is_session demo_conn a s ses →
  a = "10.0.0.1"%string ∧ s = 2 ∧ ses = demo_session ∨
  a = "10.0.0.1"%string ∧ s = 3 ∧ ses = NewSession 3 78.
Proof.
  intros (assoc & Ha & Hs).
  change (NodeAssociations demo_conn) with
    ({["10.0.0.1"%string := demo_association]} : gmap string NodeAssociation) in Ha.
  apply lookup_singleton_Some in Ha as [<- <-].
  change (Sessions demo_association) with
    (<[2 := demo_session]> {[3 := NewSession 3 78]} : gmap Z Session) in Hs.
  apply lookup_insert_Some in Hs as [[<- <-]|[_ Hs]]; [by left|].
  apply lookup_singleton_Some in Hs as [<- <-]. by right.
Qed.

Lemma demo_rule_at {E} (get : Session → gmap Z E) a s i e :
  get (NewSession 3 78) = ∅ → rule_at get demo_conn a s i e →
  a = "10.0.0.1"%string ∧ s = 2 ∧ get demo_session !! i = Some e.
Proof.
  intros H3 (assoc & ses & Ha & Hs & Hi).
  destruct (demo_session_at a s ses) as [(-> & -> & ->)|(-> & -> & ->)]; [by exists assoc|done|].
  by rewrite H3, lookup_empty in Hi.
Qed.

Lemma demo_conn_inv : conn_inv demo_conn.
Proof.
  split.
  - eexists _, _. split; [done|]. split; [by eexists|]. intros i [= <-] _. by eexists.
  - exists demo_plane. split; [done|]. split_and!; split.
    + intros a s i e (-> & -> & Hi)%demo_rule_at; [|done]. cbn in Hi.
      apply lookup_singleton_Some in Hi as [<- <-]. done.
    + intros a s i e a' s' i' e' (-> & -> & Hi)%demo_rule_at (-> & -> & Hi')%demo_rule_at _; [|done..].
      cbn in Hi, Hi'. apply lookup_singleton_Some in Hi as [<- <-].
      apply lookup_singleton_Some in Hi' as [<- <-]. done.
    + intros a s i e (-> & -> & Hi)%demo_rule_at; [|done]. cbn in Hi. by rewrite lookup_empty in Hi.
    + intros a s i e ???? (-> & -> & Hi)%demo_rule_at; [|done]. cbn in Hi. by rewrite lookup_empty in Hi.
    + intros a s i e (-> & -> & Hi)%demo_rule_at; [|done]. cbn in Hi. by rewrite lookup_empty in Hi.
    + intros a s i e ???? (-> & -> & Hi)%demo_rule_at; [|done]. cbn in Hi. by rewrite lookup_empty in Hi.
Qed.

(** Elements: identifiers, a FAR that forwards, a PDR that uses it. *)
Definition demo_node_id : demo_ie := Text 60 "smf".
Definition demo_fseid (seid : Z) : demo_ie := Val 57 seid.
Definition demo_create_far (id : Z) : demo_ie :=
  Grp 3 [Val 108 id; Octets 44 [2]; Grp 4 [Ohc (Some (mkOHCFields 256 100 (Some [127; 0; 0; 1])))]].
Definition demo_create_pdr (id far : Z) : demo_ie :=
  Grp 1 [Val 56 id; Grp 2 [Val 20 0; Fteid (mkFTEIDFields 5 0 0 None None)]; Val 108 far].

Definition demo_establish : SessionEstablishmentReq :=
  mkEstablishmentReq (Some demo_node_id) (Some (demo_fseid 79)) [demo_create_far 1] [] []
    [demo_create_pdr 1 1] None 12.

Lemma demo_create_pdr_source id far : has_source_interface (H:=demo_pfcp) (demo_create_pdr id far).
Proof. intros pdi [= <-]. exists (Val 20 0). split; [by left|done]. Qed.

Lemma demo_create_far_no_panic id : no_far_panic (H:=demo_pfcp) (demo_create_far id).
Proof. by intros [? ? ? ? ?]. Qed.

Lemma demo_establish_readable : readable_establishment (H:=demo_pfcp) demo_establish.
Proof.
  split; [|by constructor; [apply demo_create_pdr_source|]].
  apply Forall_forall. by constructor; [apply demo_create_far_no_panic|].
Qed.

Lemma establishment_keeps_ownership_witness :
  wp (HandlePfcpSessionEstablishmentRequest default_config demo_establish "10.0.0.1") demo_conn
    (λ _ c', conn_inv c') (λ _ _, False) ∧
  v_far (mapOperations (HandlePfcpSessionEstablishmentRequest default_config demo_establish
    "10.0.0.1" demo_conn).1) !! 1 = Some demo_far.
Proof.
  split; [|vm_compute; reflexivity].
  apply (establishment_keeps_ownership default_config demo_conn demo_establish "10.0.0.1" demo_conn_inv).
  apply demo_establish_readable.
Defined.

Definition demo_modify : SessionModificationReq :=
  mkModificationReq 2 13 None [demo_create_far 2] [] [Grp 15 [Val 108 1]] [] [] [] [] [] [] [] [] []
    None None None.

Lemma demo_known_ids : known_ids (H:=demo_pfcp) demo_modify demo_session.
Proof.
  split; cbn [demo_modify mod_CreateFAR mod_UpdateFAR mod_RemoveFAR mod_UpdateQER mod_RemoveQER
    mod_UpdateURR mod_RemoveURR fmap list_fmap]; try (intros ? Hin; by apply elem_of_nil in Hin);
    try (intros ? ? Hin; by apply elem_of_nil in Hin); try apply NoDup_nil_2; try apply NoDup_singleton.
  - apply Forall_forall. constructor; [apply demo_create_far_no_panic|constructor].
  - apply Forall_forall. constructor; [by vm_compute|constructor].
Qed.

Lemma modification_keeps_ownership_witness :
  wp (HandlePfcpSessionModificationRequest default_config demo_modify "10.0.0.1") demo_conn
    (λ _ c', conn_inv c') (λ _ _, False).
Proof.
  apply (modification_keeps_ownership default_config demo_conn demo_modify "10.0.0.1" demo_conn_inv); [by constructor|].
  intros session [(_ & _ & ->)|(_ & [=] & _)]%demo_session_at. apply demo_known_ids.
Defined.

Lemma deletion_keeps_ownership_witness :
  wp (HandlePfcpSessionDeletionRequest (mkDeletionReq 2 14) "10.0.0.1") demo_conn
    (λ _ c', conn_inv c') (λ _ _, False) ∧
  v_far (mapOperations (HandlePfcpSessionDeletionRequest (mkDeletionReq 2 14) "10.0.0.1"
    demo_conn).1) !! 0 = None.
Proof.
  split; [|vm_compute; reflexivity].
  apply (deletion_keeps_ownership demo_conn (mkDeletionReq 2 14) "10.0.0.1" demo_conn_inv).
Defined.
