(* ===== verification/SessionFacts.v ===== *)
(** * What the session handlers answer and what they leave behind

    The replies of the handlers on every branch, the addresses and rules that
    outlive their session, and the requests that stop the process. *)

From S2P Require Import Prelude Net Config ForwardingPlane Dataplane TablePlane Resources Session.
From S2P Require Import Sdf Pfcp Display PdrContext Connection SessionHandlers Ownership.

(** ** Rules never change the identity of a session *)

Section seids.
Context `{Pfcp} `{MapOrder} (Conf : UpfConfig) `{ForwardingPlaneController F}.
Implicit Types h : HandlerState F.

Definition seids_of (s : Session) : Z * Z := (LocalSEID s, RemoteSEID s).
Definition seids h : Z * Z := seids_of (h_session h).

Lemma getFTEID_preserves seID pdrID : preserves pc_Session (getFTEID seID pdrID).
Proof.
  unfold getFTEID, on_rm. preserve; by apply preserves_zoom.
Qed.

Lemma getIP_preserves : preserves pc_Session getIP.
Proof. unfold getIP, on_rm. preserve; by apply preserves_zoom. Qed.

Hint Resolve getFTEID_preserves getIP_preserves : preserves.

Lemma extractPDR_preserves pdr spdr : preserves pc_Session (extractPDR Conf pdr spdr).
Proof.
  unfold extractPDR, extract_teid, extract_ueip, setTEIDCache. preserve.
Qed.

Lemma in_ctx_preserves {A} (m : M PDRCreationContext A) :
  preserves pc_Session m → preserves seids (in_ctx (F:=F) m).
Proof.
  intros Hm. apply (preserves_zoom_in seids h_ctx _ m (λ c, seids_of (pc_Session c))); [done..|].
  intros c. by rewrite (Hm c).
Qed.

Lemma in_maps_preserves {A} (m : M F A) : preserves seids (in_maps m).
Proof. by apply preserves_zoom. Qed.

Lemma in_session_preserves {A} (m : M Session A) :
  preserves seids_of m → preserves seids (in_session (F:=F) m).
Proof. intros Hm. by apply (preserves_zoom_in seids h_session _ m seids_of). Qed.

Hint Resolve extractPDR_preserves in_ctx_preserves in_maps_preserves : preserves.

Ltac rule_preserves :=
  unfold need; preserve; try (apply in_session_preserves);
  unfold SessionNewFar, SessionNewQer, SessionNewUrr, SessionPutPDR; preserve.

Lemma establish_rules_preserves req : preserves seids (establish_rules Conf req).
Proof.
  unfold establish_rules, create_far, create_qer, create_urr, create_pdr. rule_preserves.
Qed.

End seids.

(** ** Session establishment *)

Section establishment.
Context `{Pfcp} `{MapOrder} (Conf : UpfConfig) `{ForwardingPlane F}.
Implicit Types c : PfcpConnection F.

(** C15: the answer to a session establishment, branch by branch.  There is
    always exactly one response, with the sequence number of the request.  It
    rejects with cause 66 a request without a usable Node ID or CP F-SEID and
    with cause 72 one from a peer without association, changing no session.
    Otherwise the association consumes one local SEID, and either the rules
    fail -- cause 73, no session is added -- or the request is accepted: the
    response goes to the peer's SEID and carries the local one, and exactly
    that session, with both identifiers, is added. *)
Theorem establishment_reply c req addr :
  conn_inv c → readable_establishment req →
  wp (HandlePfcpSessionEstablishmentRequest Conf req addr) c
    (λ r c', ∃ m, r = (Some m, None) ∧ out_type m = SessionEstablishmentResponse ∧
       out_seq m = est_Sequence req ∧
       match validateRequest (est_NodeID req) (est_CPFSEID req), NodeAssociations c !! addr with
       | inl _, _ => cause_of m = Some 66 ∧ NodeAssociations c' = NodeAssociations c
       | inr _, None => cause_of m = Some 72 ∧ NodeAssociations c' = NodeAssociations c
       | inr remote, Some a =>
           let seid := u64 (NextSessionID a + 1) in
           out_seid m = remote ∧
           (cause_of m = Some 73 ∧
            NodeAssociations c' = <[addr := next_session a]> (NodeAssociations c) ∨
            cause_of m = Some 1 ∧ NewFSEID seid (cloneIP (nodeAddrV4 c)) None ∈ out_ies m ∧
            ∃ session, LocalSEID session = seid ∧ RemoteSEID session = remote ∧
              NodeAssociations c' =
                <[addr := on_Sessions <[seid := session]> (next_session a)]> (NodeAssociations c))
       end)
    (λ _ _, False).
Proof.
  intros Hinv [Hfar Hsrc]. pose proof Hinv as (Hrm & v & Hv & Hown). apply wp_establishment; [done|..].
  - intros err ev Hval. eexists. do 3 (split; [done|]). rewrite Hval. split; [|done].
    by rewrite (validateRequest_error _ _ _ Hval), cause_of_node.
  - intros remote ev Hval Ha. eexists. do 3 (split; [done|]). rewrite Hval, Ha. by rewrite cause_of_node.
  - intros remote a Hval Ha seid. pose proof (next_session_owned _ _ _ _ Ha Hown) as Hown1.
    pose proof (next_session_at _ _ _ Ha) as Hc1. set (c1 := update_association _ _ c) in *.
    assert (wp (run_rules (NewSession seid remote) (establish_rules Conf req)) c1
      (λ r c', NodeAssociations c' = NodeAssociations c1 ∧ seids r.1 = (seid, remote)) (λ _ _, False)) as Hrun.
    { pose proof (run_rules_spec (mkKnown ∅ ∅ ∅) (mkKnown ∅ ∅ ∅) c1 v addr seid (NewSession seid remote)
        (establish_rules Conf req) Hrm Hv Hown1 ltac:(by right) ltac:(done)
        ltac:(by apply establish_rules_keep)) as Hspec.
      unfold wp, run_rules in *.
      pose proof (establish_rules_preserves Conf req (mkHandlerState (NewPDRCreationContext
        (NewSession seid remote) (conn_ResourceManager c1)) (mapOperations c1) [] [])) as Hseids.
      destruct (establish_rules Conf req _) as [h [a0|e|]]; done. }
    eapply wp_mono; [exact Hrun| |done]. cbn beta. intros [h oerr] c2 [Hc2 Hids] ev. cbn [fst] in Hids.
    injection Hids as Hlocal Hremote. rewrite Hc1 in Hc2. rewrite Hval, Ha.
    destruct oerr as [err|]; (eexists; split; [done|]; do 2 (split; [done|]); split; [done|]).
    + left. split; [by rewrite cause_of_node|]. cbn. by rewrite Hc2.
    + right. split; [cbn [app]; by rewrite cause_of_node|]. split; [cbn; set_solver|]. exists (h_session h).
      do 2 (split; [done|]). unfold update_association. cbn. rewrite Hc2.
      erewrite alter_assoc by apply lookup_insert_eq. by rewrite insert_insert_eq.
Qed.

End establishment.

(** ** Session deletion *)

Section deletion.
Context `{Pfcp} `{MapOrder} `{ForwardingPlane F}.
Implicit Types c : PfcpConnection F.

(** The UE address [seid] holds. *)
Definition address_of (rm : option ResourceManager) (seid : Z) : option NetIP :=
  i ← ipam_of rm; m ← busyIPs i; m !! seid.

(** What deletion does; [k] is the cause it answers and reports with. *)
Lemma deletion_spec c req addr :
  conn_inv c →
  wp (HandlePfcpSessionDeletionRequest req addr) c
    (λ r c', ∃ m k, r.1 = Some m ∧ cause_of m = Some k ∧
       trace c' = trace c ++ [RxErrors SessionDeletionRequest (causeToString k)] ∧
       out_type m = SessionDeletionResponse ∧ out_seq m = del_Sequence req ∧
       match NodeAssociations c !! addr with
       | None => k = 72 ∧ r.2 = None ∧ NodeAssociations c' = NodeAssociations c
       | Some a =>
           match Sessions a !! del_SEID req with
           | None => k = 65 ∧ r.2 = None ∧ NodeAssociations c' = NodeAssociations c
           | Some session =>
               k = 1 ∧ r.2 = None ∧ out_seid m = RemoteSEID session ∧
               NodeAssociations c' =
                 <[addr := on_Sessions (delete (del_SEID req)) a]> (NodeAssociations c) ∨
               k = 73 ∧ is_Some r.2 ∧ NodeAssociations c' = NodeAssociations c
           end
       end)
    (λ _ _, False).
Proof.
  intros Hinv. pose proof Hinv as (Hrm & v & Hv & Hown).
  unfold HandlePfcpSessionDeletionRequest, rx_error, emit. wp_go. unfold GetAssociation.
  destruct (NodeAssociations c !! addr) as [assoc|] eqn:Ha; wp_go; [|by eexists _, _].
  destruct (Sessions assoc !! del_SEID req) as [session|] eqn:Hs; wp_go; [|by eexists _, _].
  assert (old_or_new c addr (del_SEID req) session) as Hses.
  { left. exists session. split; [by exists assoc|done]. }
  pose proof (rules_owned_session _ _ _ _ _ Hown Hses) as Hsown.
  pose proof (delete_rules_remains (others_of v session) v (ipam_of (conn_ResourceManager c)) session
    (NewPDRCreationContext session (conn_ResourceManager c), mapOperations c)) as Hdel.
  unfold wp at 1. unfold wp at 1 in Hdel. unfold with_pdr_context.
  destruct (delete_rules session _) as [[pc fp] [reports|err|]];
    specialize (Hdel ltac:(split; [done|by exists v])); cbn [fst snd] in Hdel; [| |done].
  - destruct Hdel as (s' & [Hrm1 _] & _). cbn [fst snd] in *. wp_go.
    wp_call ReleaseResources_spec; [|done]. intros _ c2 (Hc2 & _ & _). wp_go. eexists _, _.
    do 2 (split; [done|]). split; [by rewrite Hc2|]. do 2 (split; [done|]). left.
    do 3 (split; [done|]). cbn. rewrite Hc2. unfold update_association. cbn. by erewrite alter_assoc.
  - wp_go. eexists _, _. do 5 (split; [done|]). right. split; [done|]. split; [by eexists|done].
Qed.

(** C16: the answer to a session deletion.  Cause 72 without an association,
    65 for an unknown SEID; otherwise the session is gone and the peer's SEID
    is answered with cause 1, or a PDR could not be removed: then the session
    stays, and the handler returns an error next to its response. *)
Theorem deletion_reply c req addr :
  conn_inv c →
  wp (HandlePfcpSessionDeletionRequest req addr) c
    (λ r c', ∃ m, r.1 = Some m ∧ out_type m = SessionDeletionResponse ∧
       out_seq m = del_Sequence req ∧
       match NodeAssociations c !! addr with
       | None => cause_of m = Some 72 ∧ r.2 = None ∧ NodeAssociations c' = NodeAssociations c
       | Some a =>
           match Sessions a !! del_SEID req with
           | None => cause_of m = Some 65 ∧ r.2 = None ∧ NodeAssociations c' = NodeAssociations c
           | Some session =>
               cause_of m = Some 1 ∧ r.2 = None ∧ out_seid m = RemoteSEID session ∧
               NodeAssociations c' =
                 <[addr := on_Sessions (delete (del_SEID req)) a]> (NodeAssociations c) ∨
               cause_of m = Some 73 ∧ is_Some r.2 ∧ NodeAssociations c' = NodeAssociations c
           end
       end)
    (λ _ _, False).
Proof.
  intros Hinv. wp_call deletion_spec; [|done]. intros r c' (m & k & Hr & Hk & _ & Ht & Hs & Hcases).
  exists m. do 3 (split; [done|]). rewrite Hk. repeat case_match; naive_solver.
Qed.

(** Deleting a session releases the wrong UE address.  Addresses are
    allocated under the peer's (remote) SEID, but deletion releases the one
    held under the local SEID: unless the two numbers happen to be equal, the
    session's own address stays allocated, and the address of whatever session
    has the local SEID as its remote SEID is given back while in use. *)
Theorem deletion_releases_local_seid c req addr assoc session :
  conn_inv c → NodeAssociations c !! addr = Some assoc →
  Sessions assoc !! del_SEID req = Some session → RemoteSEID session ≠ del_SEID req →
  wp (HandlePfcpSessionDeletionRequest req addr) c
    (λ r c', r.2 = None →
       address_of (conn_ResourceManager c') (RemoteSEID session) =
         address_of (conn_ResourceManager c) (RemoteSEID session) ∧
       address_of (conn_ResourceManager c') (del_SEID req) = None)
    (λ _ _, False).
Proof.
  intros Hinv Ha Hs Hne. pose proof Hinv as (Hrm & v & Hv & Hown).
  unfold HandlePfcpSessionDeletionRequest, rx_error, emit. wp_go. unfold GetAssociation.
  rewrite Ha, Hs. wp_go.
  assert (old_or_new c addr (del_SEID req) session) as Hses.
  { left. exists session. split; [by exists assoc|done]. }
  pose proof (rules_owned_session _ _ _ _ _ Hown Hses) as Hsown.
  pose proof (delete_rules_remains (others_of v session) v (ipam_of (conn_ResourceManager c)) session
    (NewPDRCreationContext session (conn_ResourceManager c), mapOperations c)) as Hdel.
  unfold wp at 1. unfold wp at 1 in Hdel. unfold with_pdr_context.
  destruct (delete_rules session _) as [[pc fp] [reports|err|]];
    specialize (Hdel ltac:(split; [done|by exists v])); cbn [fst snd] in Hdel; [| |done].
  - destruct Hdel as (s' & [Hrm1 Hip1] & _). cbn [fst snd] in *. wp_go.
    wp_call ReleaseResources_spec; [|done]. intros _ c2 (Hc2 & _ & Hip2). wp_go. intros _.
    unfold address_of. cbn [conn_ResourceManager set_trace].
    rewrite Hip2. unfold update_association. cbn [conn_ResourceManager set_NodeAssociations
      set_ResourceManager]. rewrite Hip1.
    destruct (ipam_of (conn_ResourceManager c)) as [i|]; cbn; [|done].
    destruct (busyIPs i) as [m|] eqn:Hm; cbn.
    + destruct (m !! del_SEID req) eqn:Hk; cbn.
      * by rewrite lookup_delete_ne, lookup_delete_eq.
      * rewrite Hm. done.
    + rewrite lookup_empty, Hm. done.
  - wp_go. done.
Qed.

End deletion.

(** ** Requests that go wrong *)

Section wrong.
Context `{Pfcp} `{MapOrder} (Conf : UpfConfig) `{ForwardingPlane F}.
Implicit Types c : PfcpConnection F.

Definition remove_one_far (seid seq : Z) (far : IE) : SessionModificationReq :=
  mkModificationReq seid seq None [] [] [far] [] [] [] [] [] [] [] [] []
    None None None.

(** Removing a FAR the session does not have deletes the FAR with global
    index 0, whoever owns it.  [RemoveFar] of a missing identifier yields the
    zero value, whose global index is 0; the request is accepted, and if FAR
    [i] of another session lives at index 0, that session still lists it while
    its entry is gone: ownership is broken. *)
Theorem remove_unknown_far_deletes_index_0 c seid seq addr far session a s i e :
  conn_inv c → is_session c addr seid session →
  or_0 (IE_FARID far) ∉ dom (FARs session) →
  rule_at FARs c a s i e → sf_GlobalId e = 0 → (a, s) ≠ (addr, seid) →
  wp (HandlePfcpSessionModificationRequest Conf (remove_one_far seid seq far) addr) c
    (λ r c', (∃ m, r = (Some m, None) ∧ cause_of m = Some 1) ∧ rule_at FARs c' a s i e ∧
       ∃ v', fp_repr (mapOperations c') v' ∧ v_far v' !! 0 = None)
    (λ _ _, False).
Proof.
  intros (Hrm & v & Hv & Hown) (assoc & Ha & Hs) Hunknown Hat Hg Hne.
  unfold HandlePfcpSessionModificationRequest, rx_error, emit. wp_go. unfold GetAssociation.
  rewrite Ha. cbn [mod_SEID remove_one_far]. rewrite Hs. change (IE_FSEID <$> mod_CPFSEID (remove_one_far seid seq far)) with (None : option (result Z)).
  wp_go. eapply wp_printed; [apply print_modification_spec|by constructor|intros _]. wp_go.
  apply wp_run_rules. unfold modify_rules. cbn [remove_one_far mod_CreateFAR mod_UpdateFAR
    mod_RemoveFAR mod_CreateQER mod_UpdateQER mod_RemoveQER mod_CreateURR mod_UpdateURR
    mod_RemoveURR mod_CreatePDR mod_UpdatePDR mod_RemovePDR for_each].
  apply not_elem_of_dom in Hunknown. unfold remove_far at 1.
  generalize dependent (or_0 (IE_FARID far)). intros id Hunknown.
  unfold in_session, in_maps, SessionRemoveFar, SessionGetFar. wp_go.
  unfold h_session. cbn [h_ctx pc_Session NewPDRCreationContext]. rewrite Hunknown.
  cbn [default from_option sf_GlobalId zeroSFarInfo h_fp set_h_session h_session]. wp_call DeleteFar_ok.
  2:{ intros er fp' [Hnone _]. destruct (proj1 (proj1 Hown) _ _ _ _ Hat) as [_ Ht].
      rewrite Hg in Ht. congruence. }
  intros _ fp' [_ Hv']. wp_go. split; [by eexists|]. split.
  - destruct Hat as (x & ses & Hx & Hses & Hi). unfold rule_at, update_association. cbn.
    destruct (decide (a = addr)) as [->|Hna].
    + exists (on_Sessions <[seid := on_FARs (delete id) session]> x), ses.
      rewrite lookup_alter_eq, Hx. split; [done|]. split; [|done]. cbn.
      by rewrite lookup_insert_ne by naive_solver.
    + exists x, ses. by rewrite lookup_alter_ne.
  - exists (on_far (delete 0) v). split; [done|]. apply lookup_delete_eq.
Qed.

(** A FAR whose outer header creation does not parse stops the process.
    The error of the accessor is ignored and the pointer it returned, nil, is
    dereferenced: an establishment request whose first FAR has such an element
    panics in the handler, which nothing recovers. *)
Theorem malformed_outer_header_panics c req addr far rest fwd n i assoc remote :
  validateRequest (est_NodeID req) (est_CPFSEID req) = inr remote →
  NodeAssociations c !! addr = Some assoc →
  est_CreateFAR req = far :: rest → IE_Type far = ie_CreateFAR →
  IE_ApplyAction far ≠ inr [] →
  IE_ForwardingParameters far = inr fwd → findIEindex fwd 84 = Z.of_nat n →
  fwd !! n = Some i → (IE_OuterHeaderCreation i).1 = None →
  (HandlePfcpSessionEstablishmentRequest Conf req addr c).2 = Panic.
Proof.
  intros Hval Ha Hfars Hty Happly Hfwd Hidx Hn Hnil.
  assert (composeFarInfo far zeroFarInfo = Panic) as Hpanic.
  { unfold composeFarInfo. assert (∀ info, compose_forward fwd info = Panic) as Hc.
    { intros info. unfold compose_forward. rewrite Hidx.
      destruct (Z.eqb_spec (Z.of_nat n) (-1)); [lia|]. by rewrite Nat2Z.id, Hn, Hnil. }
    rewrite Hty, Hfwd, Z.eqb_refl.
    destruct (IE_ApplyAction far) as [er|[|b bs]]; [|done|]; cbn; by rewrite Hc. }
  unfold HandlePfcpSessionEstablishmentRequest, mbind, M_bind, gets. cbv zeta.
  rewrite Hval. unfold GetAssociation. rewrite Ha, NewLocalSEID_eq. unfold lift, modify, run_rules.
  destruct (print_establishment_spec req) as [[Hp _]|[Hp _]]; [|by rewrite Hp].
  apply is_ok_true in Hp as [text ->].
  unfold establish_rules, mbind, M_bind. rewrite Hfars. cbn [for_each].
  assert (∀ h : HandlerState F, create_far far h = (h, Panic)) as Hcreate.
  { intros h. unfold create_far, mbind, M_bind, lift. by rewrite Hpanic. }
  unfold mbind, M_bind. by rewrite Hcreate.
Qed.

End wrong.

(** ** Concrete runs *)

#[local] Existing Instance ascending_order.
#[local] Existing Instance demo_pfcp.

Lemma establishment_reply_witness :
  wp (HandlePfcpSessionEstablishmentRequest default_config demo_establish "10.0.0.1") demo_conn
    (λ r c', ∃ m, r = (Some m, None) ∧ out_seid m = 79 ∧ out_seq m = 12) (λ _ _, False) ∧
  cause_of <$> match (HandlePfcpSessionEstablishmentRequest default_config demo_establish "10.0.0.1"
                        demo_conn).2 with Ok (m, _) => m | _ => None end = Some (Some 1).
Proof.
  split; [|vm_compute; reflexivity].
  eapply wp_mono.
  - apply (establishment_reply default_config demo_conn demo_establish "10.0.0.1" demo_conn_inv).
    apply demo_establish_readable.
  - intros r c' (m & -> & _ & Hseq & Hm). exists m. split; [done|]. split; [|done].
    exact (proj1 Hm).
  - done.
Defined.

Lemma deletion_reply_witness :
  wp (HandlePfcpSessionDeletionRequest (mkDeletionReq 5 14) "10.0.0.1") demo_conn
    (λ r c', ∃ m, r.1 = Some m ∧ cause_of m = Some 65) (λ _ _, False) ∧
  cause_of <$> match (HandlePfcpSessionDeletionRequest (mkDeletionReq 2 14) "10.0.0.1"
                        demo_conn).2 with Ok (m, _) => m | _ => None end = Some (Some 1).
Proof.
  split; [|vm_compute; reflexivity].
  eapply wp_mono; [apply (deletion_reply demo_conn (mkDeletionReq 5 14) "10.0.0.1" demo_conn_inv)| |done].
  intros r c' (m & Hr & _ & _ & Hm). exists m. split; [done|]. exact (proj1 Hm).
Defined.

Lemma deletion_releases_local_seid_witness :
  wp (HandlePfcpSessionDeletionRequest (mkDeletionReq 2 14) "10.0.0.1") demo_conn
    (λ r c', r.2 = None → address_of (conn_ResourceManager c') 77 = Some (Some [10; 60; 0; 1]))
    (λ _ _, False) ∧
  is_ok (HandlePfcpSessionDeletionRequest (mkDeletionReq 2 14) "10.0.0.1" demo_conn).2 = true.
Proof.
  split; [|vm_compute; reflexivity].
  eapply wp_mono; [apply (deletion_releases_local_seid demo_conn (mkDeletionReq 2 14) "10.0.0.1"
    demo_association demo_session demo_conn_inv)| |done]; [done|done|done|].
  intros r c' Hr Hnone. destruct (Hr Hnone) as [Heq _]. etrans; [exact Heq|vm_compute; reflexivity].
Defined.

Definition demo_remove_far : IE := Grp 15 [Val 108 9].

Lemma remove_unknown_far_deletes_index_0_witness :
  wp (HandlePfcpSessionModificationRequest default_config
        (remove_one_far 3 15 demo_remove_far) "10.0.0.1") demo_conn
    (λ r c', rule_at FARs c' "10.0.0.1" 2 1 (mkSFarInfo demo_far 0) ∧
       ∃ v', fp_repr (mapOperations c') v' ∧ v_far v' !! 0 = None)
    (λ _ _, False).
Proof.
  eapply wp_mono; [apply (remove_unknown_far_deletes_index_0 default_config demo_conn 3 15 "10.0.0.1"
    demo_remove_far (NewSession 3 78) "10.0.0.1" 2 1 (mkSFarInfo demo_far 0) demo_conn_inv)| |done].
  - by exists demo_association.
  - by apply not_elem_of_dom.
  - by exists demo_association, demo_session.
  - done.
  - done.
  - by intros r c' (_ & Hat & Hv).
Defined.

Lemma malformed_outer_header_panics_witness :
  let far : IE := Grp 3 [Val 108 1; Grp 4 [Ohc None]] in
  let req := mkEstablishmentReq (Some demo_node_id) (Some (demo_fseid 79)) [far] [] [] [] None 12 in
  (HandlePfcpSessionEstablishmentRequest default_config req "10.0.0.1" demo_conn).2 = Panic.
Proof.
  intros far req. apply (malformed_outer_header_panics default_config demo_conn req "10.0.0.1" far []
    [Ohc None] 0 (Ohc None) demo_association 79); done.
Defined.
