(* ===== verification/Accepted.v ===== *)
(** * What an accepted request leaves in its session (cmd/core/pfcp_session_handlers.go)

    What the session holds for each FAR, QER and PDR of an accepted
    establishment request, that its PDRs are installed in the forwarding plane,
    and how a modification that updates FARs changes it. *)

From S2P Require Import Prelude Net Config ForwardingPlane Resources Session Pfcp Display PdrContext.
From S2P Require Import Connection SessionHandlers Ownership SessionFacts.

(** ** Reading a request into a session *)

(** A loop that puts one entry per element into a map. *)
Lemma loop_inserts {S A E} (get : S → gmap Z E) (I : S → Prop) (id : A → Z) (R : A → E → Prop)
    (f : A → M S unit) (l : list A) s :
  (∀ x s, x ∈ l → I s → get s !! id x = None →
     wp (f x) s (λ _ s', I s' ∧ ∃ e, R x e ∧ get s' = <[id x := e]> (get s)) (λ _ _, True)) →
  NoDup (id <$> l) → I s → get s = ∅ →
  wp (for_each l f) s (λ _ s', I s' ∧ ∀ x, x ∈ l → ∃ e, get s' !! id x = Some e ∧ R x e) (λ _ _, True).
Proof.
  intros Hf Hnd Hs Hempty.
  eapply wp_mono; [apply (wp_for_each_prefix l f (λ done s, I s ∧ dom (get s) ⊆ list_to_set (id <$> done) ∧
    ∀ x, x ∈ done → ∃ e, get s !! id x = Some e ∧ R x e) (λ _ _, True))| |done].
  - intros done x rest s1 Hl (HI & Hdom & Hdone).
    assert (Hfresh : id x ∉ id <$> done).
    { rewrite Hl, fmap_app, fmap_cons in Hnd. apply NoDup_app in Hnd as (_ & Hd & _). intros Hin.
      apply (Hd _ Hin). by left. }
    eapply wp_mono; [apply Hf; [rewrite Hl; set_solver|done|]| |done].
    { apply not_elem_of_dom. intros Hin%Hdom. by rewrite elem_of_list_to_set in Hin. }
    cbn beta. intros [] s2 (HI' & e & HR & Hget). split; [done|]. rewrite Hget. split.
    + rewrite dom_insert_L, fmap_app, list_to_set_app_L. cbn. set_solver.
    + intros y [Hy|Hy]%elem_of_app.
      * destruct (Hdone _ Hy) as (e' & He' & HR'). exists e'. split; [|done].
        rewrite lookup_insert_ne; [done|]. intros Heq. apply Hfresh. rewrite Heq. by apply list_elem_of_fmap_2.
      * apply list_elem_of_singleton in Hy as ->. exists e. by rewrite lookup_insert_eq.
  - split; [done|]. rewrite Hempty, dom_empty_L. split; [apply empty_subseteq|]. by intros x ?%elem_of_nil.
  - cbn beta. intros _ s' (HI & _ & Hall). done.
Qed.

Section installing.
Context `{Pfcp} `{MapOrder} (Conf : UpfConfig) `{ForwardingPlane F}.
Implicit Types (h : HandlerState F) (s : Session) (fp : F).

(** The elements of one kind name different rules. *)
Definition far_id_of (far : IE) : Z := or_0 (IE_FARID far).
Definition qer_id_of (qer : IE) : Z := or_0 (IE_QERID qer).
Definition pdr_id_of (pdr : IE) : Z := or_0 (IE_PDRID pdr).

Record distinct_ids (req : SessionEstablishmentReq) : Prop := {
  di_far : NoDup (far_id_of <$> est_CreateFAR req);
  di_qer : NoDup (qer_id_of <$> est_CreateQER req);
  di_pdr : NoDup (pdr_id_of <$> est_CreatePDR req)
}.

(** No other PDR of the session has the key. *)
Definition sole_key s (id : Z) (k : pdr_key) : Prop :=
  ∀ id' spdr', PDRs s !! id' = Some spdr' → key_of spdr' = k → id' = id.

Definition installed s fp : Prop :=
  ∃ v, fp_repr fp v ∧ ∀ id spdr, PDRs s !! id = Some spdr → sole_key s id (key_of spdr) →
    ∃ old, pdr_entry v (key_of spdr) = Some (store_pdr old (s_PdrInfo spdr)).

(** What [establish_rules] makes of each element. *)
Definition far_read (far : IE) (e : SFarInfo) : Prop := composeFarInfo far zeroFarInfo = Ok (sf_FarInfo e).
Definition qer_read (qer : IE) (e : SQerInfo) : Prop := sq_QerInfo e = updateQer zeroQerInfo qer.
Definition pdr_read s (pdr : IE) (spdr : SPDRInfo) : Prop :=
  extract_sdf pdr (extract_rules (NewPDRCreationContext s None) pdr zeroPdrInfo) = Ok (s_PdrInfo spdr).

Record established (req : SessionEstablishmentReq) s fp : Prop := {
  es_far far : far ∈ est_CreateFAR req → ∃ e, FARs s !! far_id_of far = Some e ∧ far_read far e;
  es_qer qer : qer ∈ est_CreateQER req → ∃ e, QERs s !! qer_id_of qer = Some e ∧ qer_read qer e;
  es_pdr pdr : pdr ∈ est_CreatePDR req → ∃ spdr, PDRs s !! pdr_id_of pdr = Some spdr ∧ pdr_read s pdr spdr;
  es_plane : installed s fp
}.

(** The state the loops work on: usable pools and plane. *)
Definition workable h : Prop := pools_ok (pc_ResourceManager (h_ctx h)) ∧ ∃ v, fp_repr (h_fp h) v.

Lemma create_far_reads far h :
  no_panic (composeFarInfo far zeroFarInfo) → workable h →
  wp (create_far far) h (λ _ h', workable h' ∧ ∃ e, far_read far e ∧
       h_session h' = on_FARs <[far_id_of far := e]> (h_session h)) (λ _ _, True).
Proof.
  intros Hnp (Hrm & v & Hv). unfold create_far, in_maps, in_session. wp_go. apply wp_lift; [done| |done].
  intros info Hinfo. wp_go. wp_call NewFar_ok; wp_go; [|done].
  intros g fp' (_ & _ & Hv'). wp_go. split; [split; [done|by eexists]|]. by exists (mkSFarInfo info g).
Qed.

Lemma create_qer_reads qer h :
  workable h →
  wp (create_qer qer) h (λ _ h', workable h' ∧ ∃ e, qer_read qer e ∧
       h_session h' = on_QERs <[qer_id_of qer := e]> (h_session h)) (λ _ _, True).
Proof.
  intros (Hrm & v & Hv). unfold create_qer, in_maps, in_session, need, qer_id_of.
  destruct (IE_QERID qer) as [e|id]; wp_go; [done|]. wp_call NewQer_ok; wp_go; [|done].
  intros g fp' (_ & _ & Hv'). wp_go. split; [split; [done|by eexists]|]. by exists (mkSQerInfo (updateQer zeroQerInfo qer) g).
Qed.

Lemma create_urr_reads urr h :
  workable h →
  wp (create_urr urr) h (λ _ h', workable h' ∧ ∃ id e, h_session h' = on_URRs <[id := e]> (h_session h))
     (λ _ _, True).
Proof.
  intros (Hrm & v & Hv). unfold create_urr, in_maps, in_session, need.
  destruct (IE_URRID urr) as [e|id]; wp_go; [done|]. wp_call NewUrr_ok; wp_go; [|done].
  intros g fp' (_ & _ & Hv'). wp_go. split; [split; [done|by eexists]|].
  by exists id, (mkSUrrInfo (updateUrr zeroUrrInfo urr) g 0).
Qed.

(** A PDR is read against the rules of the session. *)
Lemma extract_rules_same c c' pdr p :
  FARs (pc_Session c') = FARs (pc_Session c) → QERs (pc_Session c') = QERs (pc_Session c) →
  URRs (pc_Session c') = URRs (pc_Session c) → extract_rules c' pdr p = extract_rules c pdr p.
Proof.
  intros HF HQ HU. unfold extract_rules, getFARID, getQERID, getURRID, SessionGetFar, SessionGetQer, SessionGetUrr.
  by rewrite HF, HQ, HU.
Qed.

Lemma create_pdr_reads no_id pdr h :
  workable h → installed (h_session h) (h_fp h) → PDRs (h_session h) !! pdr_id_of pdr = None →
  wp (create_pdr Conf no_id pdr) h (λ _ h', workable h' ∧ installed (h_session h') (h_fp h') ∧
       ∃ spdr, pdr_read (h_session h) pdr spdr ∧
         h_session h' = on_PDRs <[pdr_id_of pdr := spdr]> (h_session h)) (λ _ _, True).
Proof.
  intros (Hrm & _) (v & Hv & Hin) Hfresh. unfold create_pdr, in_maps, in_session, in_ctx, need, pdr_id_of in *.
  destruct (IE_PDRID pdr) as [e|id]; wp_go; [done|]. cbn in Hfresh. wp_call extractPDR_spec; [|done].
  intros spdr c' ((Hrm' & Hs) & Hid & Hread). cbn in Hid. unfold SessionPutPDR. wp_go.
  wp_call applyPDR_spec; [|done]. intros _ fp' Hv'. wp_go.
  set (h' := mkHandlerState _ _ _ _). destruct h as [[s rm t] fp l1 l2]. cbn in Hrm, Hfresh, Hs, Hid, Hin.
  assert (Hses : h_session h' = on_PDRs <[id := spdr]> s) by (unfold h', h_session; cbn; by rewrite Hs, Hid).
  assert (h_fp h' = fp') as Hfp by done. rewrite Hses, Hfp. split; [split; [done|by eexists]|].
  unfold h_session. cbn [h_ctx pc_Session]. split.
  - eexists. split; [exact Hv'|]. unfold sole_key. cbn [PDRs on_PDRs]. intros id' spdr' Hl Hsole.
    rewrite pdr_entry_put. case_decide as Hk.
    + assert (id = id') as <- by (symmetry in Hk; exact (Hsole id spdr (lookup_insert_eq _ _ _) Hk)).
      rewrite lookup_insert_eq in Hl. injection Hl as <-. by eexists.
    + rewrite lookup_insert_ne in Hl by (intros ->; rewrite lookup_insert_eq in Hl; congruence).
      apply (Hin id'); [done|]. intros id2 spdr2 Hl2 Hk2. apply (Hsole id2 spdr2); [|done].
      rewrite lookup_insert_ne; [done|]. intros ->. congruence.
  - exists spdr. split; [|done]. unfold pdr_read. by rewrite <-Hread.
Qed.

(** The session of an accepted request, before its first rule. *)
Lemma establish_rules_reads req h :
  (∀ far, far ∈ est_CreateFAR req → no_far_panic far) → distinct_ids req → workable h →
  FARs (h_session h) = ∅ → QERs (h_session h) = ∅ → URRs (h_session h) = ∅ → PDRs (h_session h) = ∅ →
  wp (establish_rules Conf req) h (λ _ h', established req (h_session h') (h_fp h')) (λ _ _, True).
Proof.
  intros Hnp [Df Dq Dp] Hw HF HQ HU HP. unfold establish_rules. wp_step.
  eapply wp_mono; [apply (loop_inserts (λ h, FARs (h_session h)) (λ h, workable h ∧ QERs (h_session h) = ∅ ∧
    PDRs (h_session h) = ∅) far_id_of far_read); [|done..]| |done].
  { intros far h1 Hfar (Hw1 & HQ1 & HP1) _. eapply wp_mono; [by apply create_far_reads; [apply Hnp|]| |done].
    cbn beta. intros _ h2 (Hw2 & e & He & ->). split; [done|]. by exists e. }
  cbn beta. intros _ h1 ((Hw1 & HQ1 & HP1) & Hfars). wp_step. set (mF := FARs (h_session h1)) in *.
  eapply wp_mono; [apply (loop_inserts (λ h, QERs (h_session h)) (λ h, workable h ∧ FARs (h_session h) = mF ∧
    PDRs (h_session h) = ∅) qer_id_of qer_read); [|done..]| |done].
  { intros qer h2 _ (Hw2 & HF2 & HP2) _. eapply wp_mono; [by apply create_qer_reads| |done].
    cbn beta. intros _ h3 (Hw3 & e & He & ->). split; [done|]. by exists e. }
  cbn beta. intros _ h2 ((Hw2 & HF2 & HP2) & Hqers). wp_step. set (mQ := QERs (h_session h2)) in *.
  eapply wp_mono; [apply (wp_for_each _ _ (λ h, workable h ∧ FARs (h_session h) = mF ∧ QERs (h_session h) = mQ ∧
    PDRs (h_session h) = ∅)); [|done]| |done].
  { intros urr h3 _ (Hw3 & HF3 & HQ3 & HP3). eapply wp_mono; [by apply create_urr_reads| |done].
    cbn beta. intros _ h4 (Hw4 & id & e & ->). done. }
  cbn beta. intros _ h3 (Hw3 & HF3 & HQ3 & HP3). set (s3 := h_session h3) in *.
  eapply wp_mono; [apply (loop_inserts (λ h, PDRs (h_session h)) (λ h, workable h ∧ installed (h_session h) (h_fp h) ∧
    FARs (h_session h) = mF ∧ QERs (h_session h) = mQ ∧ URRs (h_session h) = URRs s3) pdr_id_of (pdr_read s3));
    [|done| |done]| |done].
  { intros pdr h4 _ (Hw4 & Hi4 & HF4 & HQ4 & HU4) Hfresh. eapply wp_mono; [by apply create_pdr_reads| |done].
    cbn beta. intros _ h5 (Hw5 & Hi5 & spdr & Hr & Hs5). split; [by rewrite Hs5 in *|]. exists spdr.
    split; [|by rewrite Hs5]. unfold pdr_read in *. rewrite <-Hr. f_equal. apply extract_rules_same; cbn; congruence. }
  { split; [done|]. split; [|done]. destruct Hw3 as [_ [v Hv]]. exists v. split; [done|]. intros id spdr.
    unfold s3 in HP3. by rewrite HP3, lookup_empty. }
  cbn beta. intros _ h4 ((Hw4 & Hi4 & HF4 & HQ4 & HU4) & Hpdrs). split.
  - intros far Hfar. rewrite HF4. by apply Hfars.
  - intros qer Hqer. rewrite HQ4. by apply Hqers.
  - intros pdr Hpdr. destruct (Hpdrs _ Hpdr) as (spdr & Hl & Hr). exists spdr. split; [done|].
    unfold pdr_read in *. rewrite <-Hr. f_equal. apply extract_rules_same; cbn; congruence.
  - done.
Qed.

(** The session of the connection an accepted request has created. *)
Definition accepted (req : SessionEstablishmentReq) (addr : string) (c' : PfcpConnection F) (s : Session) : Prop :=
  is_session c' addr (LocalSEID s) s ∧ established req s (mapOperations c').

Lemma establishment_accepted c req addr :
  conn_inv c → readable_establishment req → distinct_ids req →
  wp (HandlePfcpSessionEstablishmentRequest Conf req addr) c
    (λ r c', conn_inv c' ∧ ∀ m, r = (Some m, None) → cause_of m = Some CauseRequestAccepted →
       ∃ s, accepted req addr c' s)
    (λ _ _, False).
Proof.
  intros Hinv Hread Hids.
  enough (wp (HandlePfcpSessionEstablishmentRequest Conf req addr) c
    (λ r c', ∀ m, r = (Some m, None) → cause_of m = Some CauseRequestAccepted → ∃ s, accepted req addr c' s)
    (λ _ _, False)) as Hacc.
  { eapply wp_mono; [exact (wp_conj _ _ _ _ _ _ (establishment_inv Conf c req addr Hinv Hread) Hacc)|done|by intros ? ? []]. }
  pose proof Hinv as (Hrm & v & Hv & Hown). pose proof Hread as [Hfar Hsrc]. apply wp_establishment; [done|..].
  - intros err ev Hval m [= <-]. rewrite (validateRequest_error _ _ _ Hval), cause_of_node. done.
  - intros remote ev Hval Ha m [= <-]. rewrite cause_of_node. done.
  - intros remote a Hval Ha seid. pose proof (next_session_owned _ _ _ _ Ha Hown) as Hown1.
    pose proof (next_session_at _ _ _ Ha) as Hc1. set (c1 := update_association _ _ c) in *.
    pose proof (run_rules_spec (mkKnown ∅ ∅ ∅) (mkKnown ∅ ∅ ∅) c1 v addr seid (NewSession seid remote)
      (establish_rules Conf req) Hrm Hv Hown1 ltac:(by right) ltac:(done) ltac:(by apply establish_rules_keep)) as Hspec.
    set (h0 := mkHandlerState (NewPDRCreationContext (NewSession seid remote) (conn_ResourceManager c1))
      (mapOperations c1) [] []).
    pose proof (establish_rules_reads req h0 Hfar Hids ltac:(by split; [|exists v])
      eq_refl eq_refl eq_refl eq_refl) as Hreads.
    pose proof (establish_rules_preserves Conf req h0) as Hseids.
    unfold wp, run_rules in *. fold h0 in Hspec |- *.
    destruct (establish_rules Conf req h0) as [h [[]|e|]]; [|intros ev m [= <-]; by rewrite cause_of_node|done].
    intros ev m [= <-] _. injection Hseids as Hlocal _. exists (h_session h). split; [|done].
    exists (on_Sessions <[seid := h_session h]> (next_session a)).
    unfold update_association. cbn -[c1]. rewrite Hc1. erewrite alter_assoc by apply lookup_insert_eq. rewrite insert_insert_eq, lookup_insert_eq.
    split; [done|]. unfold on_Sessions. cbn. rewrite Hlocal. by rewrite lookup_insert_eq.
Qed.

(** ** Updating FARs *)

(** A modification that only updates FARs, each at most once. *)
Record updates_fars (req : SessionModificationReq) : Prop := {
  uf_lists : mod_CreateFAR req = [] ∧ mod_RemoveFAR req = [] ∧ mod_CreateQER req = [] ∧ mod_UpdateQER req = [] ∧
    mod_RemoveQER req = [] ∧ mod_CreateURR req = [] ∧ mod_UpdateURR req = [] ∧ mod_RemoveURR req = [] ∧
    mod_CreatePDR req = [] ∧ mod_UpdatePDR req = [] ∧ mod_RemovePDR req = [];
  uf_once : NoDup (far_id_of <$> mod_UpdateFAR req)
}.

(** What an Update FAR makes of a FAR: new contents at the same index. *)
Definition far_update (upd : IE) (e e' : SFarInfo) : Prop :=
  composeFarInfo upd (sf_FarInfo e) = Ok (sf_FarInfo e') ∧ sf_GlobalId e' = sf_GlobalId e.

Definition fars_updated (done : list IE) s s' : Prop :=
  PDRs s' = PDRs s ∧ QERs s' = QERs s ∧
  (∀ upd, upd ∈ done → ∃ e e', FARs s !! far_id_of upd = Some e ∧ FARs s' !! far_id_of upd = Some e' ∧ far_update upd e e') ∧
  (∀ i, i ∉ far_id_of <$> done → FARs s' !! i = FARs s !! i).

Lemma update_far_reads upd h e :
  no_far_panic upd → workable h → installed (h_session h) (h_fp h) →
  (∀ id, IE_FARID upd = inr id → in_range 32 (sf_GlobalId e) ∧ FARs (h_session h) !! id = Some e) →
  wp (update_far upd) h (λ _ h', workable h' ∧ installed (h_session h') (h_fp h') ∧
       ∃ e', far_update upd e e' ∧ FARs (h_session h) !! far_id_of upd = Some e ∧
         h_session h' = on_FARs <[far_id_of upd := e']> (h_session h)) (λ _ _, True).
Proof.
  intros Hnp (Hrm & _) (v & Hv & Hin) He. unfold update_far, in_maps, in_session, need, far_id_of.
  destruct (IE_FARID upd) as [er|id]; wp_go; [done|]. destruct (He id eq_refl) as [Hr Hid].
  unfold SessionUpdateFar, SessionGetFar. rewrite Hid. cbn [default from_option Datatypes.id].
  apply wp_lift; [done| |done]. intros info Hinfo. wp_go. rewrite Hid. cbn [default from_option Datatypes.id].
  wp_call UpdateFar_ok; [|done]. intros _ fp' Hv'. destruct h as [[s rm t] fp l1 l2].
  split; [split; [done|by eexists]|]. split.
  - eexists. split; [exact Hv'|]. intros id' spdr Hl Hsole. destruct (Hin id' spdr Hl Hsole) as [old Hold].
    exists old. by destruct (key_of spdr).
  - by exists (mkSFarInfo info (sf_GlobalId e)).
Qed.

Lemma update_fars_reads l h :
  NoDup (far_id_of <$> l) →
  (∀ upd, upd ∈ l → no_far_panic upd ∧ ∀ id, IE_FARID upd = inr id → id ∈ dom (FARs (h_session h))) →
  (∀ id e, FARs (h_session h) !! id = Some e → in_range 32 (sf_GlobalId e)) →
  workable h → installed (h_session h) (h_fp h) →
  wp (for_each l update_far) h
    (λ _ h', installed (h_session h') (h_fp h') ∧ fars_updated l (h_session h) (h_session h')) (λ _ _, True).
Proof.
  intros Hnd Hl Hr Hw Hi.
  eapply wp_mono; [apply (wp_for_each_prefix l update_far (λ done h', workable h' ∧ installed (h_session h') (h_fp h') ∧
    fars_updated done (h_session h) (h_session h')) (λ _ _, True))| |done].
  - intros done upd rest h1 Hsplit (Hw1 & Hi1 & HP & HQ & Hdone & Hother).
    assert (Hfresh : far_id_of upd ∉ far_id_of <$> done).
    { rewrite Hsplit, fmap_app, fmap_cons in Hnd. apply NoDup_app in Hnd as (_ & Hd & _). intros Hin.
      apply (Hd _ Hin). by left. }
    destruct (Hl upd) as [Hnp Hdom]; [rewrite Hsplit; set_solver|].
    eapply wp_mono; [apply (update_far_reads upd h1 (default zeroSFarInfo (FARs (h_session h) !! far_id_of upd))); [done..|]| |done].
    { intros id Hid. assert (far_id_of upd = id) as Hfid by (unfold far_id_of; by rewrite Hid).
      rewrite <-Hfid, Hother by done. specialize (Hdom _ Hid). rewrite <-Hfid in Hdom.
      apply elem_of_dom in Hdom as [e He]. rewrite He. split; [by eapply Hr|done]. }
    cbn beta. intros [] h2 (Hw2 & Hi2 & e' & Hupd & Hold & Hs2). rewrite Hother in Hold by done.
    split; [done|]. split; [done|]. rewrite Hs2. split; [done|]. split; [done|]. cbn. split.
    + intros upd' [Hin|Hin]%elem_of_app.
      * destruct (Hdone _ Hin) as (e1 & e2 & ? & ? & ?). exists e1, e2. split; [done|]. split; [|done].
        rewrite lookup_insert_ne; [done|]. intros Heq. apply Hfresh. rewrite Heq. by apply list_elem_of_fmap_2.
      * apply list_elem_of_singleton in Hin as ->. eexists _, e'. split; [exact Hold|].
        by rewrite lookup_insert_eq.
    + intros i Hi'. rewrite fmap_app in Hi'. rewrite lookup_insert_ne by (intros <-; apply Hi'; set_solver).
      apply Hother. set_solver.
  - split; [done|]. split; [done|]. do 2 (split; [done|]). split; [by intros upd ?%elem_of_nil|done].
  - cbn beta. intros _ h' (_ & ? & ?). done.
Qed.

Lemma modification_accepted c req addr s :
  conn_inv c → Forall has_source_interface (mod_PDRs req) → is_session c addr (mod_SEID req) s →
  known_ids req s → updates_fars req → installed s (mapOperations c) →
  wp (HandlePfcpSessionModificationRequest Conf req addr) c
    (λ r c', conn_inv c' ∧ ∀ m, r = (Some m, None) → cause_of m = Some CauseRequestAccepted →
       ∃ s', is_session c' addr (mod_SEID req) s' ∧ fars_updated (mod_UpdateFAR req) s s' ∧
         installed s' (mapOperations c'))
    (λ _ _, False).
Proof.
  intros Hinv Hsrc Hses Hknown [(L1 & L2 & L3 & L4 & L5 & L6 & L7 & L8 & L9 & L10 & L11) Honce] Hinst.
  assert (∀ s', is_session c addr (mod_SEID req) s' → s' = s) as Honly.
  { intros s' (a' & Ha' & Hs'). destruct Hses as (a & Ha & Hs). congruence. }
  enough (wp (HandlePfcpSessionModificationRequest Conf req addr) c
    (λ r c', ∀ m, r = (Some m, None) → cause_of m = Some CauseRequestAccepted →
       ∃ s', is_session c' addr (mod_SEID req) s' ∧ fars_updated (mod_UpdateFAR req) s s' ∧
         installed s' (mapOperations c')) (λ _ _, False)) as Hacc.
  { eapply wp_mono; [exact (wp_conj _ _ _ _ _ _ (modification_inv Conf c req addr Hinv Hsrc
      ltac:(by intros s' ->%Honly)) Hacc)|done|by intros ? ? []]. }
  pose proof Hinv as (Hrm & v & Hv & Hown). apply wp_modification; [done|by intros ev ? m [= <-]|by intros ev a ? ? m [= <-]|].
  intros a session Ha Hs. assert (session = s) as -> by (apply Honly; by exists a).
  destruct (addressed_rules req s) as (EP & EF & EQ & EU). set (s1 := addressed req s) in *.
  destruct (modify_rules_keep Conf (others_of v s) v req s Hknown) as [k' Hk'].
  assert (others_of v s1 = others_of v s) as Ho by (unfold others_of; by rewrite EF, EQ, EU).
  rewrite <-Ho in Hk'. assert (old_or_new c addr (mod_SEID req) s1) as Hon by (left; by exists s).
  assert (knows (known_of s) s1) as Hkn by (unfold known_of, knows; by rewrite EF, EQ, EU).
  pose proof (run_rules_spec (known_of s) k' c v addr (mod_SEID req) s1 (modify_rules Conf req) Hrm Hv Hown Hon Hkn Hk')
    as Hspec.
  set (h0 := mkHandlerState (NewPDRCreationContext s1 (conn_ResourceManager c)) (mapOperations c) [] []).
  assert (modify_rules Conf req h0 = for_each (mod_UpdateFAR req) update_far h0) as Hmod.
  { unfold modify_rules. rewrite L1, L2, L3, L4, L5, L6, L7, L8, L9, L10, L11. cbn [for_each].
    unfold mbind, M_bind, mret, M_ret. by destruct (for_each _ _ h0) as [h [[]|e|]]. }
  assert (wp (for_each (mod_UpdateFAR req) update_far) h0 (λ _ h', installed (h_session h') (h_fp h') ∧
    fars_updated (mod_UpdateFAR req) s1 (h_session h')) (λ _ _, True)) as Hreads.
  { apply (update_fars_reads _ h0); [done|..].
    - intros upd Hupd. change (h_session h0) with s1. rewrite EF. by apply (ki_update_far _ _ Hknown).
    - intros id e. change (h_session h0) with s1. rewrite EF. intros He.
      apply (proj1 (proj1 Hown) addr (mod_SEID req) id e). by exists a, s.
    - split; [done|by exists v].
    - change (h_session h0) with s1. unfold installed, sole_key in *. by rewrite EP. }
  unfold wp, run_rules in *. fold h0 in Hspec |- *. rewrite Hmod in Hspec |- *.
  destruct (for_each (mod_UpdateFAR req) update_far h0) as [h [[]|e|]]; [|by intros ev m [= <-]|done].
  intros ev ies m [= <-] _. destruct Hreads as [Hinst' Hupd]. exists (h_session h). split.
  - exists (on_Sessions <[mod_SEID req := h_session h]> a). unfold update_association. cbn.
    rewrite lookup_alter_eq, Ha. split; [done|]. cbn. by rewrite lookup_insert_eq.
  - split; [|done]. unfold fars_updated in *. by rewrite <-EP, <-EQ, <-EF.
Qed.

End installing.
