(* ===== verification/Association.v ===== *)
(** * Associations, heartbeats and dispatch (cmd/core/pfcp_handlers.go, pfcp_hearbeat.go)

    The node-level handlers, the table that maps a message type to its
    handler, [Handle], which parses, dispatches and answers, and the body of
    the receive loop.  What each of them promises is proved in
    [AssociationFacts], [EventLoop] and [Heartbeat]. *)

From S2P Require Import Prelude Net Config ForwardingPlane Resources Session Pfcp PdrContext.
From S2P Require Import Display Connection SessionHandlers.

Section association.
Context `{Pfcp} `{MapOrder} (Conf : UpfConfig) `{ForwardingPlaneController F}.

(** A handler's pair of a message to send and an error. *)
Definition handled (m : option OutMsg) (err : option error)
    : M (PfcpConnection F) (option OutMsg * option error) := mret (m, err).

(** A new association, unless the peer has one, and its heartbeats. *)
(* cmd/core/pfcp_handlers.go:103-120 HandlePfcpAssociationSetupRequest *)
Definition store_association (remoteNodeID addr : string) : M (PfcpConnection F) unit :=
  c ← gets (λ c, c);
  match NodeAssociations c !! addr with
  | Some _ => mret tt
  | None =>
      modify (set_NodeAssociations
                (<[addr := NewNodeAssociation remoteNodeID addr]> (NodeAssociations c))) ≫= λ _,
      if negb (HeartbeatTimeout Conf =? 0) then emit (GoScheduleHeartbeat addr) else mret tt
  end.

(* cmd/core/pfcp_handlers.go:54-133 HandlePfcpAssociationSetupRequest *)
Definition HandlePfcpAssociationSetupRequest (asreq : AssociationSetupReq) (addr : string)
    : M (PfcpConnection F) (option OutMsg * option error) :=
  let respond ies := handled (Some (mkOutMsg AssociationSetupResponse 0 (as_Sequence asreq) ies)) None in
  let reject cause :=
    rx_error AssociationSetupRequest cause ≫= λ _, respond [NewCause cause] in
  match as_NodeID asreq with
  | None => reject CauseMandatoryIEMissing
  | Some nodeID =>
      lift (printAssociationSetupRequest nodeID (as_RecoveryTimeStamp asreq)) ≫= λ _,
      match IE_NodeID nodeID with
      | inl _ => reject CauseMandatoryIEIncorrect
      | inr remoteNodeID =>
          match as_RecoveryTimeStamp asreq with
          | None => reject CauseMandatoryIEMissing
          | Some ts =>
              on_result (lift (IE_RecoveryTimeStamp (Some ts)))
                (λ _,
                   store_association remoteNodeID addr ≫= λ _,
                   c ← gets (λ c, c);
                   rx_error AssociationSetupRequest CauseRequestAccepted ≫= λ _,
                   respond [NewCause CauseRequestAccepted; newIeNodeID (nodeId c);
                            NewRecoveryTimeStamp (RecoveryTimestamp c);
                            NewUPFunctionFeatures (featuresOctets c)])
                (λ _, reject CauseMandatoryIEIncorrect)
          end
      end
  end.

(* cmd/core/pfcp_handlers.go:135-180 HandlePfcpAssociationUpdateRequest *)
Definition HandlePfcpAssociationUpdateRequest (asreq : AssociationUpdateReq) (addr : string)
    : M (PfcpConnection F) (option OutMsg * option error) :=
  let respond ies := handled (Some (mkOutMsg AssociationUpdateResponse 0 (au_Sequence asreq) ies)) None in
  let reject cause :=
    rx_error AssociationUpdateRequest cause ≫= λ _, respond [NewCause cause] in
  match au_NodeID asreq with
  | None => reject CauseMandatoryIEMissing
  | Some nodeID =>
      lift (Ok (printAssociationUpdateRequest nodeID)) ≫= λ _,
      match IE_NodeID nodeID with
      | inl _ => reject CauseMandatoryIEIncorrect
      | inr _ =>
          c ← gets (λ c, c);
          match NodeAssociations c !! addr with
          | None => reject CauseNoEstablishedPFCPAssociation
          | Some _ =>
              rx_error AssociationUpdateRequest CauseRequestAccepted ≫= λ _,
              respond [newIeNodeID (nodeId c); NewCause CauseRequestAccepted]
          end
      end
  end.

(** The answer to the request [RefreshAssociations] sends; it has no answer. *)
(* cmd/core/pfcp_handlers.go:193-262 HandlePfcpAssociationSetupResponse *)
Definition HandlePfcpAssociationSetupResponse (asres : AssociationSetupRes) (addr : string)
    : M (PfcpConnection F) (option OutMsg * option error) :=
  let drop cause err := rx_error AssociationSetupResponse cause ≫= λ _, handled None err in
  match asr_NodeID asres with
  | None => drop CauseMandatoryIEMissing None
  | Some nodeID =>
      match IE_NodeID nodeID with
      | inl err => drop CauseMandatoryIEIncorrect (Some err)
      | inr remoteNodeID =>
          match asr_Cause asres with
          | None => drop CauseMandatoryIEMissing None
          | Some causeIE =>
              match IE_Cause causeIE with
              | inl err => drop CauseMandatoryIEIncorrect (Some err)
              | inr cause =>
                  if negb (cause =? CauseRequestAccepted) then drop cause None
                  else
                    match asr_CPFunctionFeatures asres with
                    | None => drop CauseConditionalIEMissing None
                    | Some features =>
                        match IE_CPFunctionFeatures features with
                        | inl err => drop CauseConditionalIEMissing (Some err)
                        | inr _ =>
                            store_association remoteNodeID addr ≫= λ _, handled None None
                        end
                    end
              end
          end
      end
  end.

(* cmd/core/pfcp_hearbeat.go:11-24 HandlePfcpHeartbeatRequest *)
Definition HandlePfcpHeartbeatRequest (hbreq : HeartbeatMsg) (addr : string)
    : M (PfcpConnection F) (option OutMsg * option error) :=
  on_result (lift (IE_RecoveryTimeStamp (hb_RecoveryTimeStamp hbreq)))
    (λ _,
       c ← gets (λ c, c);
       handled (Some (mkOutMsg HeartbeatResponse 0 (hb_Sequence hbreq)
                        [NewRecoveryTimeStamp (RecoveryTimestamp c)])) None)
    (λ err, handled None (Some err)).

(** The send on the association's channel blocks until its heartbeat routine
    receives; here it is an event, its blocking is the subject of [Heartbeat]. *)
(* cmd/core/node_association.go:80-82 HandleHeartbeat *)
Definition HandleHeartbeat (addr : string) (sequence : Z) : M (PfcpConnection F) unit :=
  emit (HeartbeatSend addr sequence).

(* cmd/core/pfcp_hearbeat.go:26-40 HandlePfcpHeartbeatResponse *)
Definition HandlePfcpHeartbeatResponse (hbresp : HeartbeatMsg) (addr : string)
    : M (PfcpConnection F) (option OutMsg * option error) :=
  on_result (lift (IE_RecoveryTimeStamp (hb_RecoveryTimeStamp hbresp)))
    (λ _,
       association ← gets (GetAssociation addr);
       match association with
       | Some _ => HandleHeartbeat addr (hb_Sequence hbresp)
       | None => mret tt
       end ≫= λ _,
       handled None None)
    (λ err, handled None (Some err)).

(** ** Dispatch *)

(* cmd/core/pfcp_handlers.go:13-13 PfcpFunc *)
Definition PfcpFunc : Type :=
  Message → string → M (PfcpConnection F) (option OutMsg * option error).

(** The table; each handler asserts the type of its message, and an assertion
    that fails panics. *)
(* cmd/core/pfcp_connection.go:24-33 pfcpHandlers *)
Definition pfcpHandlers (t : MsgType) : option PfcpFunc :=
  match t with
  | HeartbeatRequest => Some (λ msg addr, match msg with
      | MHeartbeatRequest m => HandlePfcpHeartbeatRequest m addr | _ => panic end)
  | HeartbeatResponse => Some (λ msg addr, match msg with
      | MHeartbeatResponse m => HandlePfcpHeartbeatResponse m addr | _ => panic end)
  | AssociationSetupRequest => Some (λ msg addr, match msg with
      | MAssociationSetupRequest m => HandlePfcpAssociationSetupRequest m addr | _ => panic end)
  | AssociationSetupResponse => Some (λ msg addr, match msg with
      | MAssociationSetupResponse m => HandlePfcpAssociationSetupResponse m addr | _ => panic end)
  | AssociationUpdateRequest => Some (λ msg addr, match msg with
      | MAssociationUpdateRequest m => HandlePfcpAssociationUpdateRequest m addr | _ => panic end)
  | SessionEstablishmentRequest => Some (λ msg addr, match msg with
      | MSessionEstablishmentRequest m => HandlePfcpSessionEstablishmentRequest Conf m addr
      | _ => panic end)
  | SessionDeletionRequest => Some (λ msg addr, match msg with
      | MSessionDeletionRequest m => HandlePfcpSessionDeletionRequest m addr | _ => panic end)
  | SessionModificationRequest => Some (λ msg addr, match msg with
      | MSessionModificationRequest m => HandlePfcpSessionModificationRequest Conf m addr
      | _ => panic end)
  | _ => None
  end.

(** [message.Parse], [net.ResolveUDPAddr] and sending on the socket. *)
Variable Parse : bytes → result Message.
Variable ResolveUDPAddr : string → result NetIP.
Variable Send : OutMsg → NetIP → result unit.

(** What is marshalled and written to the socket is kept as the message. *)
(* cmd/core/pfcp_connection.go:160-171 SendMessage *)
Definition SendMessage (msg : OutMsg) (addr : NetIP) : M (PfcpConnection F) unit :=
  match Send msg addr with
  | inl err => throw err
  | inr _ => emit (Sent msg (IPString addr))
  end.

(** A handler that returns an error answers nothing, also when it built a
    message. *)
(* cmd/core/pfcp_handlers.go:17-46 Handle *)
Definition HandlerMap_Handle (buf : bytes) (addr : NetIP) : M (PfcpConnection F) unit :=
  match Parse buf with
  | inl err => throw err
  | inr incomingMsg =>
      emit (Rx (MessageType incomingMsg)) ≫= λ _,
      match pfcpHandlers (MessageType incomingMsg) with
      | Some handler =>
          r ← handler incomingMsg (IPString addr);
          match r with
          | (_, Some err) => throw err
          | (Some outgoingMsg, None) =>
              emit (Tx (out_type outgoingMsg)) ≫= λ _, SendMessage outgoingMsg addr
          | (None, None) => mret tt
          end
      | None => mret tt
      end
  end.

(* cmd/core/pfcp_connection.go:149-154 Handle *)
Definition Handle (b : bytes) (addr : NetIP) : M (PfcpConnection F) unit :=
  ignore_err (HandlerMap_Handle b addr).

(** ** The receive loop

    One turn of the loop takes one of three branches: the association timer, a
    peer whose heartbeats failed, or a datagram, which the socket may fail to
    deliver within a second. *)

Inductive LoopEvent :=
  | Tick
  | HeartbeatFailed (associationAddr : string)
  | Received (datagram : bytes) (addr : NetIP)
  | ReadFailed (timeout : bool).     (* a *net.OpError, as the socket's errors are *)

(** The buffer of [Run] takes 1500 bytes; the rest of a longer datagram is
    lost. *)
(* cmd/core/pfcp_connection.go:145-147 Receive *)
Definition Receive (datagram : bytes) : bytes := take 1500 datagram.

(* cmd/core/pfcp_connection.go:113-139 Run *)
Definition Run_turn (e : LoopEvent) : M (PfcpConnection F) unit :=
  match e with
  | Tick => RefreshAssociations ResolveUDPAddr Send
  | HeartbeatFailed associationAddr => DeleteAssociation associationAddr
  | Received datagram addr => Handle (Receive datagram) addr
  | ReadFailed _ => mret tt    (* logged, unless it is a timeout, and tried again *)
  end.

(** [time.NewTicker] panics on a period that is not positive. *)
(* cmd/core/pfcp_connection.go:113-139 Run *)
Definition Run (events : list LoopEvent) : M (PfcpConnection F) unit :=
  if bool_decide (AssociationSetupTimeout Conf ≤ 0) then panic else for_each events Run_turn.

End association.
