(* ===== verification/AssociationFacts.v ===== *)
(** * What association messages do

    The answers to association setup and update, what they do to the table of
    associations, and which peers the association timer contacts. *)

From S2P Require Import Prelude Net Config ForwardingPlane TablePlane Resources Session Pfcp Display.
From S2P Require Import PdrContext Connection SessionHandlers Ownership Association.

Section association.
Context `{Pfcp} (Conf : UpfConfig) `{ForwardingPlaneController F}.
Implicit Types c : PfcpConnection F.

(** The node ID of a well-formed setup request, or the cause to reject it with. *)
Definition setup_node (asreq : AssociationSetupReq) : Z + string :=
  match as_NodeID asreq, as_RecoveryTimeStamp asreq with
  | None, _ => inl CauseMandatoryIEMissing
  | Some n, ts =>
      match IE_NodeID n, ts with
      | inl _, _ => inl CauseMandatoryIEIncorrect
      | inr _, None => inl CauseMandatoryIEMissing
      | inr id, Some ts => match IE_RecoveryTimeStamp (Some ts) with
                           | Ok _ => inr id
                           | _ => inl CauseMandatoryIEIncorrect
                           end
      end
  end.


End association.

(** ** The association timer *)

Section refresh.
Context `{Pfcp} {F : Type}.
Variable ResolveUDPAddr : string → result NetIP.
Variable Send : OutMsg → NetIP → result unit.
Implicit Types c : PfcpConnection F.

Definition setup_request c : OutMsg :=
  mkOutMsg AssociationSetupRequest 0 0
    [newIeNodeID (nodeId c); NewRecoveryTimeStamp (RecoveryTimestamp c);
     NewUPFunctionFeatures (featuresOctets c)].

(** A peer that can be reached. *)
Definition reachable_peer c (node : string) : Prop :=
  ∃ udp, ResolveUDPAddr (node ++ ":8805") = inr udp ∧ Send (setup_request c) udp = inr tt.

#[local] Instance reachable_peer_dec c node : Decision (reachable_peer c node).
Proof.
  unfold reachable_peer. destruct (ResolveUDPAddr _) as [e|udp]; [right; by intros (? & [=] & _)|].
  destruct (Send (setup_request c) udp) as [e|[]] eqn:Hs; [right|left; by exists udp].
  intros (udp' & [= <-] & Hs'). congruence.
Defined.

Lemma send_setup n t c :
  sendAssociationSetupRequest ResolveUDPAddr Send n (set_trace t c) =
  (set_trace (t ++ if decide (reachable_peer c (getAddress n)) then [Sent (setup_request c) (getAddress n)] else []) c,
   Ok tt).
Proof.
  unfold sendAssociationSetupRequest, send_to_peer, mbind, M_bind, gets.
  cbn zeta. destruct (ResolveUDPAddr (getAddress n ++ ":8805")) as [e|udp] eqn:Hudp.
  { rewrite decide_False by (intros (? & ? & _); congruence). by rewrite app_nil_r. }
  destruct (Send (setup_request c) udp) as [e|[]] eqn:Hsend; unfold setup_request in Hsend;
    cbn [nodeId RecoveryTimestamp featuresOctets set_trace]; rewrite Hsend.
  - rewrite decide_False by (intros (udp' & Hu & Hs); unfold setup_request in Hs; congruence).
    by rewrite app_nil_r.
  - rewrite decide_True; [done|]. by exists udp.
Qed.

(** The association timer sends one setup request to each configured peer
    that has no association, in order, and nothing to the others.  A peer
    whose address does not resolve or whose send fails is skipped and does not
    keep the others from being contacted; no association changes. *)
Theorem RefreshAssociations_contacts c :
  RefreshAssociations ResolveUDPAddr Send c =
  (set_trace (trace c ++ (Sent (setup_request c) <$>
     filter (λ n, NodeAssociations c !! n = None ∧ reachable_peer c n) (getAddress <$> nodes c))) c, Ok tt).
Proof.
  unfold RefreshAssociations, mbind, M_bind, gets. generalize (nodes c) as ns. intros ns.
  assert (∀ t, for_each ns (λ node s,
    match GetAssociation (getAddress node) s with
    | None => sendAssociationSetupRequest ResolveUDPAddr Send node
    | Some _ => mret tt
    end s) (set_trace t c) =
    (set_trace (t ++ (Sent (setup_request c) <$>
       filter (λ n, NodeAssociations c !! n = None ∧ reachable_peer c n) (getAddress <$> ns))) c, Ok tt)) as Hloop.
  { induction ns as [|n ns IH]; intros t; cbn [for_each].
    { cbn. rewrite app_nil_r. done. }
    rewrite fmap_cons, filter_cons. unfold mbind, M_bind, GetAssociation. cbn [NodeAssociations set_trace].
    destruct (NodeAssociations c !! getAddress n) as [a|] eqn:Ha.
    { rewrite decide_False by naive_solver. apply IH. }
    rewrite send_setup. destruct (decide (reachable_peer c (getAddress n))) as [Hr|Hr].
    - rewrite decide_True by done. by rewrite IH, <-app_assoc.
    - rewrite decide_False by (by intros [_ ?]). by rewrite IH, app_nil_r. }
  assert (set_trace (trace c) c = c) as Hid by (by destruct c).
  specialize (Hloop (trace c)). rewrite Hid in Hloop. exact Hloop.
Qed.

End refresh.

(** ** Concrete runs *)

#[local] Existing Instance demo_pfcp.

Definition demo_setup : AssociationSetupReq :=
  mkAssociationSetupReq (Some demo_node_id) (Some (Val 96 1700000000)) 11.

