(* ===== verification/EventLoop.v ===== *)
(** * The receive loop keeps the forwarding plane consistent

    Association deletion, the node-level handlers, and the loop: every turn
    keeps the ownership invariant of [Ownership], so it holds in every state
    the program reaches. *)

From S2P Require Import Prelude Net Config ForwardingPlane Dataplane TablePlane Resources Session.
From S2P Require Import Pfcp Display PdrContext Connection SessionHandlers Ownership SessionFacts Association.

(** ** Deleting associations *)

Section deletion.
Context `{Pfcp} `{MapOrder} `{ForwardingPlane F}.
Implicit Types c : PfcpConnection F.

Lemma wp_with_pdr_context {A} session (m : M (PDRCreationContext * F) A) c Q E :
  let finish st := set_ResourceManager (pc_ResourceManager st.1) (set_mapOperations st.2 c) in
  wp m (NewPDRCreationContext session (conn_ResourceManager c), mapOperations c)
    (λ a st, Q a (finish st)) (λ e st, E e (finish st)) →
  wp (with_pdr_context session m) c Q E.
Proof. unfold wp, with_pdr_context. cbn. by destruct (m _) as [[pc fp] [a|e|]]. Qed.

(** Only the pools and the forwarding plane differ. *)
Definition same_but_pools c c' : Prop :=
  c' = set_ResourceManager (conn_ResourceManager c') (set_mapOperations (mapOperations c') c).

(** What remains of a session's rules after [DeleteSession]: its URRs. *)
Lemma DeleteSession_spec o v0 s c :
  pools_ok (conn_ResourceManager c) → plane_owns o v0 s (mapOperations c) →
  wp (DeleteSession s) c
    (λ _ c', same_but_pools c c' ∧ pools_ok (conn_ResourceManager c') ∧
       ipam_of (conn_ResourceManager c') = ipam_of (conn_ResourceManager c) ∧
       plane_owns o v0 (set_QERs ∅ (set_FARs ∅ s)) (mapOperations c'))
    (λ _ _, False).
Proof.
  intros Hrm Hown. unfold DeleteSession. wp_step.
  eapply wp_mono; [apply (delete_loop (FARs s) (λ m c', c' = set_mapOperations (mapOperations c') c ∧
    plane_owns o v0 (set_FARs m s) (mapOperations c')) _ (λ _ _, False))| |done].
  { intros m i e c' Hi [-> Hc']. unfold on_plane. wp_go. by wp_call (DeleteFar_owns o v0 s m i e). }
  { by destruct c, s. }
  cbn beta. intros _ c1 [Hc1 Hown1]. wp_step.
  eapply wp_mono; [apply (delete_loop (QERs s) (λ m c', c' = set_mapOperations (mapOperations c') c ∧
    plane_owns o v0 (set_QERs m (set_FARs ∅ s)) (mapOperations c')) _ (λ _ _, False))| |done].
  { intros m i e c' Hi [-> Hc']. unfold on_plane. wp_go.
    by wp_call (DeleteQer_owns o v0 (set_FARs ∅ s) m i e). }
  { by destruct s. }
  cbn beta. intros _ c2 [Hc2 Hown2]. apply wp_with_pdr_context.
  assert (conn_ResourceManager c2 = conn_ResourceManager c) as Hrm2 by (by rewrite Hc2).
  eapply wp_mono; [apply (wp_for_each _ _ (remains o v0 (ipam_of (conn_ResourceManager c))
    (set_QERs ∅ (set_FARs ∅ s))) (λ _ _, False))| |done].
  - intros [i p] st _ Hst. wp_go. by wp_call (delete_pdr_remains o v0).
  - split; [|done]. cbn. by rewrite Hrm2.
  - cbn beta. intros _ [pc fp] [[Hrm' Hip] Hown']. cbn [fst snd] in *. split; [|done].
    unfold same_but_pools. rewrite Hc2. by destruct c.
Qed.

(** The association at [addr] with the sessions [m]. *)
Definition with_sessions (addr : string) (m : gmap Z Session) c : PfcpConnection F :=
  update_association addr (on_Sessions (λ _, m)) c.

Lemma with_sessions_rule_at {E} (get : Session → gmap Z E) addr assoc m c a s i e :
  NodeAssociations c !! addr = Some assoc → m ⊆ Sessions assoc →
  rule_at get (with_sessions addr m c) a s i e → rule_at get c a s i e.
Proof.
  intros Ha Hm (x & ses & Hx & Hs & Hi). cbn in Hx. erewrite alter_assoc in Hx by done.
  apply lookup_insert_Some in Hx as [[<- <-]|[_ Hx]]; [|by exists x, ses].
  exists assoc, ses. split; [done|]. split; [|done]. by eapply lookup_weaken.
Qed.

(** The URRs of the sessions that are gone are still in the table. *)
Definition leaked (assoc : NodeAssociation) (m : gmap Z Session) (v : FPView) : Prop :=
  ∀ s session i u, Sessions assoc !! s = Some session → m !! s = None →
    URRs session !! i = Some u → v_urr v !! su_GlobalId u = Some (su_UrrInfo u).

(** The state while the sessions of [assoc] are deleted; [m] are left. *)
Definition pruning (addr : string) (assoc : NodeAssociation) c (m : gmap Z Session) c' : Prop :=
  same_but_pools c c' ∧ pools_ok (conn_ResourceManager c') ∧
  ipam_of (conn_ResourceManager c') = ipam_of (conn_ResourceManager c) ∧ m ⊆ Sessions assoc ∧
  ∃ v, fp_repr (mapOperations c') v ∧ rules_owned (with_sessions addr m c) v ∧ leaked assoc m v.

Lemma prune_step addr assoc c v m s session c' :
  NodeAssociations c !! addr = Some assoc → rules_owned c v →
  m !! s = Some session → pruning addr assoc c m c' →
  wp (DeleteSession session) c' (λ _ c'', pruning addr assoc c (delete s m) c'') (λ _ _, False).
Proof.
  intros Ha Hc Hs (Hsame & Hrm & Hip & Hsub & v1 & Hv1 & Hown & Hleak).
  set (c1 := with_sessions addr m c) in *.
  assert (NodeAssociations c1 = <[addr := on_Sessions (λ _, m) assoc]> (NodeAssociations c)) as Hc1.
  { cbn. by apply alter_assoc. }
  assert (NodeAssociations c1 !! addr = Some (on_Sessions (λ _, m) assoc)) as Ha1.
  { by rewrite Hc1, lookup_insert_eq. }
  assert (old_or_new c1 addr s session) as Hses.
  { left. exists session. split; [|done]. by eexists. }
  pose proof (rules_owned_session _ _ _ _ _ Hown Hses) as Hsown.
  wp_call (DeleteSession_spec (others_of v1 session) v1 session c'); [by exists v1| |done].
  intros _ c'' (Hsame' & Hrm' & Hip' & v2 & Hv2 & Hown2).
  split; [unfold same_but_pools in *; rewrite Hsame', Hsame; done|]. split; [done|].
  split; [congruence|]. split; [by etrans; [apply delete_subseteq|]|]. exists v2. split; [done|]. split.
  - eapply (owns_rules_conn c1 _ v1 v2 addr s session); [done..|].
    apply (drop_session_changes _ _ _ _ _ (on_Sessions (λ _, m) assoc)
      (on_Sessions (λ _, delete s m) assoc)); [done| |done].
    rewrite Hc1, insert_insert_eq. cbn. by apply alter_assoc.
  - intros s' ses i u Hs' Hgone Hu. destruct Hown2 as (_ & _ & HU2 & _ & HO2). cbn in HO2.
    destruct (decide (s' = s)) as [->|Hne].
    { assert (ses = session) as -> by (eapply lookup_weaken in Hs; [|done]; congruence).
      by destruct (HU2 _ _ Hu) as (_ & ? & _). }
    rewrite lookup_delete_ne in Hgone by done. pose proof (Hleak _ _ _ _ Hs' Hgone Hu) as Hv.
    destruct (HO2 (su_GlobalId u)) as [-> _]; [|done].
    rewrite elem_of_difference, elem_of_dom, elem_of_gids. split; [by eexists|].
    intros (j & u' & Hj & Heq). destruct Hc as (_ & _ & _ & Hinj).
    destruct (Hinj addr s j u' addr s' i u) as (_ & ? & _); [|by exists assoc, ses|done|done].
    exists assoc, session. split; [done|]. split; [by eapply lookup_weaken|done].
Qed.

Lemma DeleteAssociation_spec addr assoc c :
  conn_inv c → NodeAssociations c !! addr = Some assoc →
  wp (DeleteAssociation addr) c
    (λ _ c', conn_inv c' ∧ NodeAssociations c' = delete addr (NodeAssociations c) ∧
       ipam_of (conn_ResourceManager c') = ipam_of (conn_ResourceManager c) ∧
       ∃ v, fp_repr (mapOperations c') v ∧ leaked assoc ∅ v)
    (λ _ _, False).
Proof.
  intros (Hrm & v & Hv & Hown) Ha. unfold DeleteAssociation, GetAssociation. wp_go. rewrite Ha. wp_step.
  eapply wp_mono; [apply (delete_loop (Sessions assoc) (pruning addr assoc c) _ (λ _ _, False))| |done].
  - intros m s session c' Hs HP. by eapply prune_step.
  - split; [by destruct c|]. split; [done|]. split; [done|]. split; [done|]. exists v. split; [done|].
    split.
    + destruct Hown as (HF & HQ & HU). split_and!;
        (eapply conn_owns_extend; [done|done|]; intros a s i e; by eapply with_sessions_rule_at).
    + intros s session i u Hs Hnone. congruence.
  - cbn beta. intros _ c' (Hsame & Hrm' & Hip & _ & v' & Hv' & Hown' & Hleak). wp_go.
    rewrite Hsame. cbn [NodeAssociations set_ResourceManager set_mapOperations].
    split; [|split; [done|split; [done|by exists v']]]. split; [done|]. exists v'. split; [done|].
    destruct Hown' as (HF & HQ & HU). split_and!; (eapply conn_owns_extend; [done|done|]);
      intros a s i e (x & ses & Hx & Hs & Hi); cbn in Hx; apply lookup_delete_Some in Hx as [Hne Hx];
      exists x, ses; (split; [|done]); cbn; by rewrite lookup_alter_ne.
Qed.

(** Deleting an association -- what the loop does when its heartbeats fail
    -- removes it and keeps the rules of all other sessions, but leaks.  It
    does not remove the URRs of the deleted sessions: each is still in the
    table, where its index can never be given out again; and no UE address is
    released. *)
Theorem DeleteAssociation_leaks addr assoc c :
  conn_inv c → NodeAssociations c !! addr = Some assoc →
  wp (DeleteAssociation addr) c
    (λ _ c', conn_inv c' ∧ NodeAssociations c' = delete addr (NodeAssociations c) ∧
       ipam_of (conn_ResourceManager c') = ipam_of (conn_ResourceManager c) ∧
       ∃ v, fp_repr (mapOperations c') v ∧
         ∀ s session i u, Sessions assoc !! s = Some session → URRs session !! i = Some u →
           v_urr v !! su_GlobalId u = Some (su_UrrInfo u))
    (λ _ _, False).
Proof.
  intros Hinv Ha. wp_call DeleteAssociation_spec; [|done].
  intros _ c' (? & ? & ? & v & ? & Hleak). do 3 (split; [done|]). exists v. split; [done|].
  intros s session i u Hs Hu. by eapply Hleak.
Qed.

End deletion.

(** ** Every turn of the loop *)

Section loop.
Context `{Pfcp} `{MapOrder} (Conf : UpfConfig) `{ForwardingPlane F}.
Variable Parse : bytes → result Message.
Variable ResolveUDPAddr : string → result NetIP.
Variable Send : OutMsg → NetIP → result unit.
Implicit Types c : PfcpConnection F.

(** A program that keeps the invariant and does not panic. *)
Definition safe {A} (m : M (PfcpConnection F) A) : Prop :=
  ∀ c, conn_inv c → wp m c (λ _ c', conn_inv c') (λ _ c', conn_inv c').

Lemma safe_ret {A} (a : A) : safe (mret a).
Proof. by intros c. Qed.
Lemma safe_throw {A} e : safe (throw e : M (PfcpConnection F) A).
Proof. by intros c. Qed.
Lemma safe_gets {A} (f : PfcpConnection F → A) : safe (gets f).
Proof. by intros c. Qed.
Lemma safe_emit e : safe (emit e).
Proof. intros c Hc. unfold emit. wp_go. by apply conn_inv_emit. Qed.
Lemma safe_lift {A} (o : outcome A) : no_panic o → safe (lift o).
Proof. intros Ho c Hc. by apply wp_lift. Qed.

Lemma safe_bind {A B} (m : M (PfcpConnection F) A) (k : A → M (PfcpConnection F) B) :
  safe m → (∀ a, safe (k a)) → safe (m ≫= k).
Proof.
  intros Hm Hk c Hc. apply wp_bind. eapply wp_mono; [by apply Hm| |done].
  intros a c' Hc'. by apply Hk.
Qed.

Lemma safe_on_result {A B} (m : M (PfcpConnection F) A) (ok : A → M _ B) bad :
  safe m → (∀ a, safe (ok a)) → (∀ e, safe (bad e)) → safe (on_result m ok bad).
Proof.
  intros Hm Hok Hbad c Hc. apply wp_on_result.
  eapply wp_mono; [by apply Hm|intros a c' Hc'; by apply Hok|intros e c' Hc'; by apply Hbad].
Qed.

Lemma safe_for_each {A} (l : list A) f : (∀ x, safe (f x)) → safe (for_each l f).
Proof. intros Hf c Hc. apply (wp_for_each l f conn_inv); [|done]. intros x c' _. apply Hf. Qed.

Lemma safe_no_error {A} (m : M (PfcpConnection F) A) c :
  wp m c (λ _ c', conn_inv c') (λ _ _, False) → wp m c (λ _ c', conn_inv c') (λ _ c', conn_inv c').
Proof. intros Hm. by eapply wp_mono. Qed.

Lemma store_association_safe id addr : safe (store_association (F:=F) Conf id addr).
Proof.
  intros c Hc. unfold store_association. wp_go.
  destruct (NodeAssociations c !! addr) as [assoc|] eqn:Ha; wp_go; [done|].
  assert (conn_inv (set_NodeAssociations (<[addr:=NewNodeAssociation id addr]> (NodeAssociations c)) c))
    as Hc'.
  { destruct Hc as (Hrm & v & Hv & HF & HQ & HU). split; [done|]. exists v. split; [done|].
    split_and!; (eapply conn_owns_extend; [done|done|]); intros a s i e (x & ses & Hx & Hs & Hi);
      cbn in Hx; apply lookup_insert_Some in Hx as [[<- <-]|[Hne Hx]]; try done; by exists x, ses. }
  destruct (negb _); [by apply safe_emit|done].
Qed.

(** Programs that only read and report. *)
Ltac safe :=
  repeat first
    [ progress auto using safe_ret, safe_throw, safe_gets, safe_emit, store_association_safe
    | apply safe_bind; [|intros ?]
    | apply safe_on_result; [|intros ?|intros ?]
    | apply safe_for_each; intros ?
    | progress case_match ].

(** What a message has to satisfy: reading its FARs and time stamps does not
    panic, its PDRs can be printed, and a modification names rules its session
    has. *)
Definition message_ok c (addr : string) (msg : Message) : Prop :=
  match msg with
  | MHeartbeatRequest m | MHeartbeatResponse m =>
      no_panic (IE_RecoveryTimeStamp (hb_RecoveryTimeStamp m))
  | MAssociationSetupRequest m =>
      ∀ ts, as_RecoveryTimeStamp m = Some ts → no_panic (IE_RecoveryTimeStamp (Some ts))
  | MSessionEstablishmentRequest m => readable_establishment m
  | MSessionModificationRequest m =>
      Forall has_source_interface (mod_PDRs m) ∧
      ∀ session, is_session c addr (mod_SEID m) session → known_ids m session
  | _ => True
  end.

Definition event_ok c (e : LoopEvent) : Prop :=
  match e with
  | Tick => True
  | HeartbeatFailed addr => is_Some (NodeAssociations c !! addr)
  | Received datagram addr => ∀ msg, Parse (Receive datagram) = inr msg → message_ok c (IPString addr) msg
  | ReadFailed _ => True
  end.

Lemma message_ok_emit c ev addr msg :
  message_ok c addr msg → message_ok (set_trace (trace c ++ [ev]) c) addr msg.
Proof. by destruct msg. Qed.

Lemma handler_safe msg addr c handler :
  conn_inv c → message_ok c addr msg → pfcpHandlers Conf (MessageType msg) = Some handler →
  wp (handler msg addr) c (λ _ c', conn_inv c') (λ _ c', conn_inv c').
Proof.
  intros Hc Hok Hh. destruct msg as [m|m|m|m|m|m|m|m|code]; cbn in Hh; simplify_eq; cbn in Hok.
  - unfold HandlePfcpHeartbeatRequest, handled.
    apply safe_on_result; [by apply safe_lift|intros ?; safe..|done].
  - unfold HandlePfcpHeartbeatResponse, HandleHeartbeat, handled.
    apply safe_on_result; [by apply safe_lift|intros ?; safe..|done].
  - enough (safe (HandlePfcpAssociationSetupRequest Conf m addr)) as Hs by (by apply Hs).
    unfold HandlePfcpAssociationSetupRequest, rx_error, handled. safe.
    + apply safe_lift. eapply ok_iff_no_panic; [by apply print_setup_spec|done].
    + apply safe_lift. by apply Hok.
  - enough (safe (HandlePfcpAssociationSetupResponse Conf m addr)) as Hs by (by apply Hs).
    unfold HandlePfcpAssociationSetupResponse, rx_error, handled. safe.
  - enough (safe (HandlePfcpAssociationUpdateRequest m addr)) as Hs by (by apply Hs).
    unfold HandlePfcpAssociationUpdateRequest, rx_error, handled. safe. by apply safe_lift.
  - by apply safe_no_error, establishment_inv.
  - by apply safe_no_error, deletion_inv.
  - destruct Hok. by apply safe_no_error, modification_inv.
Qed.

Lemma RefreshAssociations_inv c :
  conn_inv c → wp (RefreshAssociations ResolveUDPAddr Send) c (λ _ c', conn_inv c') (λ _ _, False).
Proof.
  intros Hc. unfold RefreshAssociations. wp_go. apply (wp_for_each _ _ conn_inv); [|done].
  intros node c' _ Hc'. wp_go. destruct (GetAssociation (getAddress node) c'); [done|].
  unfold sendAssociationSetupRequest, send_to_peer, emit. wp_go.
  destruct (ResolveUDPAddr _) as [e|udp]; [done|]. destruct (Send _ udp); [done|]. wp_go.
  by apply conn_inv_emit.
Qed.

Lemma Handle_safe buf addr c :
  conn_inv c → (∀ msg, Parse buf = inr msg → message_ok c (IPString addr) msg) →
  wp (Handle Conf Parse Send buf addr) c (λ _ c', conn_inv c') (λ _ _, False).
Proof.
  intros Hc Hok. unfold Handle. apply wp_ignore_err. unfold HandlerMap_Handle.
  destruct (Parse buf) as [e|msg] eqn:Hparse; [done|]. unfold emit. wp_go.
  apply (conn_inv_emit (Rx (MessageType msg))) in Hc.
  destruct (pfcpHandlers Conf (MessageType msg)) as [handler|] eqn:Hh; [|done]. wp_step.
  eapply wp_mono; [by apply handler_safe; [| |exact Hh]; [|by apply message_ok_emit, Hok]| |done].
  cbn beta. intros [[m|] [err|]] c' Hc'; cbv iota; [done| |done..].
  unfold SendMessage, emit. wp_go. apply (conn_inv_emit (Tx (out_type m))) in Hc'.
  destruct (Send m addr) as [e|u]; [done|]. wp_go. by apply (conn_inv_emit (Sent m (IPString addr))) in Hc'.
Qed.

(** A turn of the loop. *)
Lemma Run_turn_inv c e :
  conn_inv c → event_ok c e →
  wp (Run_turn Conf Parse ResolveUDPAddr Send e) c (λ _ c', conn_inv c') (λ _ _, False).
Proof.
  intros Hc Hok. destruct e as [|addr|datagram addr|timeout]; cbn.
  - by apply RefreshAssociations_inv.
  - destruct Hok as [assoc Ha]. wp_call (DeleteAssociation_spec addr assoc); [|done]. by intros _ c' [? _].
  - by apply Handle_safe.
  - done.
Qed.

(** A session deletion is answered only when it succeeds.  The response
    that reports a PDR that could not be removed is built and counted, but the
    handler returns it together with the error, and [Handle] then sends
    nothing: the peer gets no answer and the session stays. *)
Theorem failed_deletion_unanswered c buf addr req a session :
  conn_inv c → Parse buf = inr (MSessionDeletionRequest req) → (∀ m, Send m addr = inr tt) →
  NodeAssociations c !! IPString addr = Some a → Sessions a !! del_SEID req = Some session →
  wp (Handle Conf Parse Send buf addr) c
    (λ _ c',
       (∃ m, cause_of m = Some 1 ∧ Sent m (IPString addr) ∈ trace c' ∧
          NodeAssociations c' =
            <[IPString addr := on_Sessions (delete (del_SEID req)) a]> (NodeAssociations c)) ∨
       NodeAssociations c' = NodeAssociations c ∧
       trace c' = trace c ++ [Rx SessionDeletionRequest;
         RxErrors SessionDeletionRequest "RuleCreationModificationFailure"])
    (λ _ _, False).
Proof.
  intros Hc Hparse Hsend Ha Hs. unfold Handle. apply wp_ignore_err. unfold HandlerMap_Handle.
  rewrite Hparse. unfold emit. wp_go. cbn [MessageType pfcpHandlers].
  apply (conn_inv_emit (Rx SessionDeletionRequest)) in Hc. wp_step.
  wp_call (deletion_spec _ req (IPString addr) Hc); [|done].
  intros [m err] c' (m' & k & [= ->] & Hk & Ht & _ & _ & Hcase). cbn in Hcase, Ht.
  rewrite Ha, Hs in Hcase. destruct Hcase as [(-> & -> & _ & Hdone)|(-> & [e ->] & Hsame)].
  - cbn [fst snd]. unfold SendMessage, emit. rewrite Hsend. wp_go. left. exists m'. cbn.
    split; [done|]. split; [|done]. set_solver.
  - wp_go. right. split; [done|]. by rewrite Ht, <-app_assoc.
Qed.

(** A request on an association (a modification: on a session) of the peer
    with a PDR whose PDI has no source interface. *)
Definition unprintable c (addr : string) (msg : Message) : Prop :=
  match msg with
  | MSessionEstablishmentRequest m =>
      (∃ remote, validateRequest (est_NodeID m) (est_CPFSEID m) = inr remote) ∧
      is_Some (NodeAssociations c !! addr) ∧ ¬ Forall has_source_interface (est_CreatePDR m)
  | MSessionModificationRequest m =>
      (∃ session, is_session c addr (mod_SEID m) session) ∧
      ¬ Forall has_source_interface (mod_PDRs m)
  | _ => False
  end.

(** C29: one datagram can end the program.  Requests are printed before they
    are handled, and the printer indexes the PDI with the position of its
    source interface, which is -1 when there is none: an establishment request
    from a peer with an association, or a modification of an existing session,
    that has such a PDR panics in the turn of the loop, and nothing recovers. *)
Theorem missing_source_interface_crashes c datagram addr msg :
  Parse (Receive datagram) = inr msg → unprintable c (IPString addr) msg →
  (Run_turn Conf Parse ResolveUDPAddr Send (Received datagram addr) c).2 = Panic.
Proof.
  intros Hparse Hmsg. cbn. unfold Handle, ignore_err, on_result.
  enough ((HandlerMap_Handle Conf Parse Send (Receive datagram) addr c).2 = Panic) as Hp.
  { destruct (HandlerMap_Handle _ _ _ _ _ c) as [c' o]. cbn in Hp. by subst o. }
  unfold HandlerMap_Handle. rewrite Hparse. unfold emit, modify, mbind at 1, M_bind at 1.
  destruct msg as [m|m|m|m|m|m|m|m|code]; try done; cbn [MessageType pfcpHandlers].
  - destruct Hmsg as ([remote Hv] & [a Ha] & Hno).
    destruct (print_establishment_spec m) as [[_ ?]|[Hp _]]; [done|].
    unfold HandlePfcpSessionEstablishmentRequest, mbind, M_bind, gets. cbv zeta. rewrite Hv.
    unfold GetAssociation. cbn [NodeAssociations set_trace]. rewrite Ha, NewLocalSEID_eq.
    unfold lift, modify. by rewrite Hp.
  - destruct Hmsg as ([session (a & Ha & Hs)] & Hno).
    destruct (print_modification_spec m) as [[_ ?]|[Hp _]]; [done|].
    unfold HandlePfcpSessionModificationRequest, mbind, M_bind, gets. cbv zeta.
    unfold GetAssociation. cbn [NodeAssociations set_trace]. rewrite Ha, Hs.
    unfold lift. by rewrite Hp.
Qed.

(** The states of the program: the connection as created, then turns of the
    loop on events that are as above. *)
Inductive reaches c0 : PfcpConnection F → Prop :=
  | reaches_start : reaches c0 c0
  | reaches_turn c e c' :
      reaches c0 c → event_ok c e →
      Run_turn Conf Parse ResolveUDPAddr Send e c = (c', Ok tt) → reaches c0 c'.

Lemma reaches_inv c0 c : conn_inv c0 → reaches c0 c → conn_inv c.
Proof.
  intros H0'. induction 1 as [|c e c' _ IH Hok Hrun]; [done|].
  pose proof (Run_turn_inv c e IH Hok) as Hwp. unfold wp in Hwp. by rewrite Hrun in Hwp.
Qed.

(** The pools [NewResourceManager] returns. *)
Lemma NewResourceManager_pools_ok ipnetgen_New fuel cidr n rm :
  NewResourceManager ipnetgen_New fuel cidr n = Some (Ok rm) → pools_ok (Some rm).
Proof.
  unfold NewResourceManager. intros Hnew.
  destruct (if bool_decide (cidr = "") then _ else _) as [ipam|e|] eqn:Hip; [|done..].
  assert (freeIPs ipam ≠ [] → is_Some (busyIPs ipam)) as Hips.
  { case_bool_decide; [by simplify_eq|]. destruct (ipnetgen_New cidr); cbn in Hip; by simplify_eq. }
  destruct (n =? 0); [|destruct (teid_loop fuel 1 n) as [teids|]; [|done]]; cbn in Hnew; simplify_eq;
    (eexists _, _; split; [done|]; split; [done|]; by intros i [= <-]).
Qed.

(** The connection [main] starts with. *)
Variable ListenUDP : NetIP → result unit.
Variable ipnetgen_New : string → result (list NetIP).
Variable Now : Z.

(* cmd/main.go:84-102 main *)
Definition start_connection (fuel : nat) (mapOperations : F) : option (outcome (PfcpConnection F)) :=
  rm ← NewResourceManager ipnetgen_New fuel (UEIPPool Conf) (FTEIDPool Conf);
  Some (c ← NewPfcpConnection ResolveUDPAddr ListenUDP Now Conf (PfcpAddress Conf) (PfcpNodeId Conf)
              (N3Address Conf) (N9Address Conf) mapOperations
              (match rm with Ok rm => Some rm | _ => None end);
        Ok (SetRemoteNodes (NewDefaultAssociationConnector <$> PfcpRemoteNode Conf) c).1).

Lemma start_connection_inv fuel fp v rm c0 :
  fp_repr fp v →
  NewResourceManager ipnetgen_New fuel (UEIPPool Conf) (FTEIDPool Conf) = Some (Ok rm) →
  start_connection fuel fp = Some (Ok c0) → conn_inv c0.
Proof.
  intros Hv Hrm Hstart. unfold start_connection in Hstart. rewrite Hrm in Hstart.
  cbn in Hstart. unfold NewPfcpConnection in Hstart.
  destruct (ResolveUDPAddr _); [done|]. cbn in Hstart. destruct (ListenUDP _); [done|].
  cbn in Hstart. repeat case_match; try done. cbn in Hstart. simplify_eq. split.
  - by eapply NewResourceManager_pools_ok.
  - exists v. split; [done|]. split_and!; split; try by (intros a s i e0 (x & ses & Hx & _)).
    all: by intros a s i e0 a' s' i' e0' (x & ses & Hx & _).
Qed.

Lemma Run_turn_completes c e :
  conn_inv c → event_ok c e → ∃ c', Run_turn Conf Parse ResolveUDPAddr Send e c = (c', Ok tt).
Proof.
  intros Hc Hok. pose proof (Run_turn_inv c e Hc Hok) as Hwp. unfold wp in Hwp.
  destruct (Run_turn _ _ _ _ e c) as [c' [[]|er|]]; [by exists c'|done..].
Qed.

(** Each event is as [event_ok] says in the state it meets. *)
Fixpoint run_ok c (events : list LoopEvent) : Prop :=
  match events with
  | [] => True
  | e :: events => event_ok c e ∧ run_ok (Run_turn Conf Parse ResolveUDPAddr Send e c).1 events
  end.

Lemma run_completes events : ∀ c,
  conn_inv c → run_ok c events →
  ∃ c', for_each events (Run_turn Conf Parse ResolveUDPAddr Send) c = (c', Ok tt) ∧ conn_inv c'.
Proof.
  induction events as [|e events IH]; intros c Hc Hok; [by exists c|]. destruct Hok as [He Hok].
  pose proof (Run_turn_inv c e Hc He) as Hwp. unfold wp in Hwp. cbn.
  unfold mbind, M_bind. destruct (Run_turn _ _ _ _ e c) as [c1 [[]|er|]]; [|done..].
  by apply IH.
Qed.

(** C6: the program is safe on the messages of a well-behaved peer.  In every
    state the receive loop reaches by such events, each FAR, QER and URR of
    each session of each association owns its entry in the forwarding plane, no
    two share one, and on any such event next -- the timer, a failed read, a
    reported peer that has an association, a datagram that does not parse or
    holds any message -- the loop completes the turn.  Such events
    ([event_ok]): the time stamps and FARs of a datagram's message can be read
    without a panic of the library, each PDI of an establishment or
    modification has a source interface, and a modification names only rules
    its session has and removes each at most once.  Without these conditions it
    is false: [missing_source_interface_crashes], and a removal of an unknown
    FAR deletes the entry of index 0.  Start: the connection [main] creates
    over any forwarding plane that meets its contract, when the pools could be
    created. *)
Theorem program_safe fuel fp v rm c0 c :
  fp_repr fp v →
  NewResourceManager ipnetgen_New fuel (UEIPPool Conf) (FTEIDPool Conf) = Some (Ok rm) →
  start_connection fuel fp = Some (Ok c0) → reaches c0 c →
  conn_inv c ∧
  ∀ e, event_ok c e → ∃ c', Run_turn Conf Parse ResolveUDPAddr Send e c = (c', Ok tt).
Proof.
  intros Hv Hrm Hstart Hreach. assert (conn_inv c) as Hc.
  { eapply reaches_inv; [|exact Hreach]. by eapply start_connection_inv. }
  split; [done|]. intros e Hok. by apply Run_turn_completes.
Qed.

End loop.

(** ** Concrete runs

    A peer sets up an association, establishes a session with a FAR, a URR and
    a PDR, and disappears. *)

#[local] Existing Instance ascending_order.
#[local] Existing Instance demo_pfcp.

Definition demo_config : UpfConfig := mkUpfConfig [] "generic" ":8080" "127.0.0.1:8805" "127.0.0.1"
  ["10.0.0.2"%string] 5 ":9090" "10.3.0.1" "10.9.0.1" [] 10 0 0 0 0 65535 3 5 5 "info" "" 3 false true.

Definition demo_peer : NetIP := Some [10; 0; 0; 2].

Definition demo_establish_urr : SessionEstablishmentReq :=
  mkEstablishmentReq (Some demo_node_id) (Some (demo_fseid 79)) [demo_create_far 1] []
    [Grp 6 [Val 81 4]] [demo_create_pdr 1 1] None 12.

(** The same with a PDI that holds only an F-TEID. *)
Definition demo_establish_sourceless : SessionEstablishmentReq :=
  mkEstablishmentReq (Some demo_node_id) (Some (demo_fseid 79)) [] [] []
    [Grp 1 [Val 56 1; Grp 2 [Fteid (mkFTEIDFields 5 0 0 None None)]]] None 14.

Definition demo_parse (buf : bytes) : result Message :=
  match buf with
  | [1] => inr (MAssociationSetupRequest (mkAssociationSetupReq (Some demo_node_id)
                  (Some (Val 96 1700000000)) 11))
  | [2] => inr (MSessionEstablishmentRequest demo_establish_urr)
  | [3] => inr (MSessionDeletionRequest (mkDeletionReq 2 13))
  | [4] => inr (MSessionEstablishmentRequest demo_establish_sourceless)
  | _ => inl (Errorf "too short")
  end.

Definition demo_resolve (a : string) : result NetIP := inr demo_peer.
Definition demo_send (m : OutMsg) (a : NetIP) : result unit := inr tt.
Definition demo_listen (a : NetIP) : result unit := inr tt.

Definition demo_turn (e : LoopEvent) (c : PfcpConnection FPView) : PfcpConnection FPView :=
  (Run_turn demo_config demo_parse demo_resolve demo_send e c).1.

Definition demo_start : option (outcome (PfcpConnection FPView)) :=
  start_connection demo_config demo_resolve demo_listen demo_ipnetgen 1700000000 4
    (mkFPView ∅ ∅ ∅ ∅ ∅ ∅).
Definition demo_c0 : PfcpConnection FPView := default demo_conn (demo_start ≫= λ o,
  match o with Ok c => Some c | _ => None end).
Definition demo_c1 : PfcpConnection FPView := demo_turn (Received [1] demo_peer) demo_c0.
Definition demo_c2 : PfcpConnection FPView := demo_turn (Received [2] demo_peer) demo_c1.

Lemma demo_reaches : reaches demo_config demo_parse demo_resolve demo_send demo_c0 demo_c2.
Proof.
  eapply (reaches_turn _ _ _ _ _ demo_c1 (Received [2] demo_peer)); [|intros msg [= <-]|by vm_compute].
  - eapply (reaches_turn _ _ _ _ _ demo_c0 (Received [1] demo_peer)); [constructor| |by vm_compute].
    intros msg [= <-] ts [= <-]. by vm_compute.
  - split; [apply demo_establish_readable|by constructor; [apply demo_create_pdr_source|]].
Defined.

Lemma demo_c0_inv : conn_inv demo_c0.
Proof.
  split.
  - apply (NewResourceManager_pools_ok demo_ipnetgen 4 "" 3). by vm_compute.
  - exists (mkFPView ∅ ∅ ∅ ∅ ∅ ∅). split; [by vm_compute|].
    split_and!; split; try by (intros a s i e0 (x & ses & Hx & _)).
    all: by intros a s i e0 a' s' i' e0' (x & ses & Hx & _).
Qed.

Lemma demo_c2_inv : conn_inv demo_c2.
Proof. eapply reaches_inv; [apply demo_c0_inv|apply demo_reaches]. Qed.

Lemma program_safe_witness :
  conn_inv demo_c2 ∧
  (∃ c', Run_turn demo_config demo_parse demo_resolve demo_send (Received [3] demo_peer) demo_c2 =
     (c', Ok tt)) ∧
  v_urr (mapOperations demo_c2) !! 0 = Some zeroUrrInfo.
Proof.
  destruct (program_safe demo_config demo_parse demo_resolve demo_send demo_listen demo_ipnetgen
    1700000000 4 (mkFPView ∅ ∅ ∅ ∅ ∅ ∅) (mkFPView ∅ ∅ ∅ ∅ ∅ ∅)
    (mkResourceManager (Some zeroIPAM) (Some (mkFTEIDM [1; 2; 3] (Some ∅)))) demo_c0 demo_c2) as [Hc Hrun].
  - done.
  - by vm_compute.
  - by vm_compute.
  - apply demo_reaches.
  - split; [exact Hc|]. split; [|by vm_compute]. apply Hrun. by intros msg [= <-].
Defined.

Lemma DeleteAssociation_leaks_witness :
  wp (DeleteAssociation "10.0.0.2") demo_c2
    (λ _ c', NodeAssociations c' = ∅ ∧ ∃ v, fp_repr (mapOperations c') v ∧ v_urr v !! 0 = Some zeroUrrInfo)
    (λ _ _, False).
Proof.
  eapply wp_mono; [apply (DeleteAssociation_leaks "10.0.0.2" (default (NewNodeAssociation "" "")
    (NodeAssociations demo_c2 !! "10.0.0.2")) demo_c2 demo_c2_inv); by vm_compute| |done].
  intros _ c' (_ & Hn & _ & v & Hv & Hleak). split; [rewrite Hn; by vm_compute|]. exists v.
  split; [done|]. by apply (Hleak 2 (default (NewSession 0 0) (Sessions (default (NewNodeAssociation "" "")
    (NodeAssociations demo_c2 !! "10.0.0.2")) !! 2)) 4 (mkSUrrInfo zeroUrrInfo 0 0)); vm_compute.
Defined.

Lemma failed_deletion_unanswered_witness :
  wp (Handle demo_config demo_parse demo_send [3] demo_peer) demo_c2
    (λ _ c', NodeAssociations c' !! "10.0.0.2" ≠ NodeAssociations demo_c2 !! "10.0.0.2" ∨
       trace c' = trace demo_c2 ++ [Rx SessionDeletionRequest;
         RxErrors SessionDeletionRequest "RuleCreationModificationFailure"])
    (λ _ _, False).
Proof.
  eapply wp_mono; [apply (failed_deletion_unanswered demo_config demo_parse demo_send demo_c2 [3] demo_peer
    (mkDeletionReq 2 13) (default (NewNodeAssociation "" "") (NodeAssociations demo_c2 !! "10.0.0.2"))
    (default (NewSession 0 0) (Sessions (default (NewNodeAssociation "" "")
      (NodeAssociations demo_c2 !! "10.0.0.2")) !! 2)) demo_c2_inv); by vm_compute| |done].
  intros _ c' [(m & _ & _ & Hn)|[_ Ht]]; [left|by right]. rewrite Hn. by vm_compute.
Defined.

Lemma missing_source_interface_crashes_witness :
  (Run_turn demo_config demo_parse demo_resolve demo_send (Received [4] demo_peer) demo_c2).2 = Panic.
Proof.
  apply (missing_source_interface_crashes demo_config demo_parse demo_resolve demo_send demo_c2 [4]
    demo_peer (MSessionEstablishmentRequest demo_establish_sourceless)); [done|].
  split; [by exists 79|]. split; [by eexists; vm_compute|].
  intros [Hs _]%Forall_cons. destruct (Hs _ eq_refl) as (i & [->|[]%elem_of_nil]%elem_of_cons & Ht). done.
Defined.
