(* ===== verification/Heartbeat.v ===== *)
(** * Heartbeat routines and the receive loop as concurrent processes

    Every association has a routine ([ScheduleHeartbeat]) that runs next to the
    receive loop and meets it on two unbuffered channels: the loop hands it
    heartbeat responses, it hands the loop the address of a peer that stopped
    answering.  A step of this system is a turn of the loop, a branch of a
    routine, or a meeting on a channel; a process waiting for a meeting stays
    where it is.  Steps carry labels, and theorems about what a peer sees are
    about the labels of whole runs.

    The routines are a list: nothing but the program keeps two of them from
    running for the same association. *)

From stdpp Require Import relations.
From S2P Require Import Prelude Net Config ForwardingPlane Dataplane TablePlane Resources Session.
From S2P Require Import Pfcp Display PdrContext Connection SessionHandlers Ownership Association.
From S2P Require Import AssociationFacts EventLoop.

(** Where a routine stands: about to send, in the [select], in the pause after
    a response, or waiting to report its peer. *)
(* cmd/core/node_association.go:50-78 ScheduleHeartbeat *)
Inductive Routine :=
  | Sending (failedHeartbeats : Z)
  | Selecting (sequence failedHeartbeats : Z)
  | Pausing
  | Reporting.

(** Where the loop stands: it can take a turn, or it waits in
    [HandleHeartbeat] for the routine of a peer to take a response. *)
(* cmd/core/node_association.go:80-82 HandleHeartbeat *)
Inductive MainLoop :=
  | Idle
  | Delivering (addr : string) (sequence : Z).

(** The routines that run, each with the address of its association.  A
    routine ends only with its report, after which its association is deleted:
    none outlives the association it was started for. *)
Record System (F : Type) := mkSystem {
  sys_conn : PfcpConnection F;
  sys_main : MainLoop;
  sys_routines : list (string * Routine)
}.
Arguments mkSystem {F}.
Arguments sys_conn {F}.
Arguments sys_main {F}.
Arguments sys_routines {F}.

Definition is_heartbeat_event (e : event) : Prop :=
  match e with GoScheduleHeartbeat _ | HeartbeatSend _ _ => True | _ => False end.

#[export] Instance is_heartbeat_event_dec e : Decision (is_heartbeat_event e).
Proof. destruct e; apply _. Defined.

(** What a step does, and which peer it concerns. *)
Inductive Label :=
  | Turn (e : LoopEvent)
  | Report (addr : string)
  | Deliver (addr : string)
  | SendRequest (addr : string)
  | TimeOut (addr : string)
  | Resume (addr : string).

Definition peer_of (l : Label) : option string :=
  match l with
  | Turn _ => None
  | Report a | Deliver a | SendRequest a | TimeOut a | Resume a => Some a
  end.

(** The steps of a run that concern one peer's routine. *)
Definition steps_of (addr : string) (ls : list Label) : list Label :=
  filter (λ l, peer_of l = Some addr) ls.

Section system.
Context `{Pfcp} `{MapOrder} (Conf : UpfConfig) `{ForwardingPlaneController F}.
Variable Parse : bytes → result Message.
Variable ResolveUDPAddr : string → result NetIP.
Variable Send : OutMsg → NetIP → result unit.
Implicit Types (s : System F) (c : PfcpConnection F).

(** The top of the routine's loop. *)
(* cmd/core/node_association.go:55-56 ScheduleHeartbeat *)
Definition send_heartbeat (addr : string) (association : NodeAssociation)
    : M (PfcpConnection F) Z :=
  let '(association, sequence) := NewSequenceID association in
  sequence ← lift sequence;
  modify (update_association addr (λ _, association)) ≫= λ _,
  SendHeartbeatRequest ResolveUDPAddr Send sequence (Addr association) ≫= λ _,
  mret sequence.

(** The two branches of the [select]: the timer, and a response. *)
(* cmd/core/node_association.go:60-66 ScheduleHeartbeat *)
Definition on_timeout (failedHeartbeats : Z) : Routine :=
  let failedHeartbeats := u32 (failedHeartbeats + 1) in
  if HeartbeatRetries Conf <=? failedHeartbeats then Reporting else Sending failedHeartbeats.

(* cmd/core/node_association.go:67-72 ScheduleHeartbeat *)
Definition on_response (sequence failedHeartbeats seq : Z) : Routine :=
  if sequence =? seq then Pausing else Sending failedHeartbeats.

(** What a turn of the loop starts, and what it waits for at its end. *)
Definition heartbeat_events c c' : list event :=
  drop (length (filter is_heartbeat_event (trace c))) (filter is_heartbeat_event (trace c')).

(** The routines a turn starts: one for each [go], whether its association has
    a routine or not. *)
(* cmd/core/pfcp_handlers.go:117-119 HandlePfcpAssociationSetupRequest *)
Definition started (events : list event) : list (string * Routine) :=
  omap (λ e, match e with GoScheduleHeartbeat a => Some (a, Sending 0) | _ => None end) events.

Definition delivery (events : list event) : MainLoop :=
  match last events with Some (HeartbeatSend a seq) => Delivering a seq | _ => Idle end.

(* cmd/core/node_association.go:50-78 ScheduleHeartbeat *)
Inductive step : Label → System F → System F → Prop :=
  | step_turn c rs e c' :
      (∀ addr, e ≠ HeartbeatFailed addr) →
      Run_turn Conf Parse ResolveUDPAddr Send e c = (c', Ok tt) →
      step (Turn e) (mkSystem c Idle rs)
        (mkSystem c' (delivery (heartbeat_events c c')) (rs ++ started (heartbeat_events c c')))
  | step_report c rs1 rs2 addr c' :
      Run_turn Conf Parse ResolveUDPAddr Send (HeartbeatFailed addr) c = (c', Ok tt) →
      step (Report addr) (mkSystem c Idle (rs1 ++ (addr, Reporting) :: rs2))
        (mkSystem c' Idle (rs1 ++ rs2))
  | step_deliver c rs1 rs2 addr seq sequence failed :
      step (Deliver addr)
        (mkSystem c (Delivering addr seq) (rs1 ++ (addr, Selecting sequence failed) :: rs2))
        (mkSystem c Idle (rs1 ++ (addr, on_response sequence failed seq) :: rs2))
  | step_send c main rs1 rs2 addr failed a c' sequence :
      NodeAssociations c !! addr = Some a → send_heartbeat addr a c = (c', Ok sequence) →
      step (SendRequest addr) (mkSystem c main (rs1 ++ (addr, Sending failed) :: rs2))
        (mkSystem c' main (rs1 ++ (addr, Selecting sequence failed) :: rs2))
  | step_timeout c main rs1 rs2 addr sequence failed :
      step (TimeOut addr) (mkSystem c main (rs1 ++ (addr, Selecting sequence failed) :: rs2))
        (mkSystem c main (rs1 ++ (addr, on_timeout failed) :: rs2))
  | step_resume c main rs1 rs2 addr :
      step (Resume addr) (mkSystem c main (rs1 ++ (addr, Pausing) :: rs2))
        (mkSystem c main (rs1 ++ (addr, Sending 0) :: rs2)).

(** Runs, from their first step to their last. *)
Inductive run : list Label → System F → System F → Prop :=
  | run_nil s : run [] s s
  | run_snoc ls l s s1 s' : run ls s s1 → step l s1 s' → run (ls ++ [l]) s s'.

End system.

(** ** What a turn does to associations and heartbeats *)

Section effects.
Context `{Pfcp} `{MapOrder} (Conf : UpfConfig) `{ForwardingPlaneController F}.
Variable Parse : bytes → result Message.
Variable ResolveUDPAddr : string → result NetIP.
Variable Send : OutMsg → NetIP → result unit.
Implicit Types c : PfcpConnection F.

Definition heartbeats_of c : list event := filter is_heartbeat_event (trace c).

(** The part of the connection heartbeats depend on. *)
Definition hb_state c : gset string * list event := (dom (NodeAssociations c), heartbeats_of c).

Lemma heartbeats_emit e c :
  heartbeats_of (set_trace (trace c ++ [e]) c) =
  heartbeats_of c ++ (if decide (is_heartbeat_event e) then [e] else []).
Proof. unfold heartbeats_of. cbn. by rewrite filter_app, filter_cons, filter_nil. Qed.

Lemma emit_quiet e : ¬ is_heartbeat_event e → preserves hb_state (emit (F:=F) e).
Proof.
  intros He c. unfold emit, modify, hb_state. cbn [fst]. rewrite heartbeats_emit, decide_False by done.
  by rewrite app_nil_r.
Qed.

Lemma update_association_quiet addr f :
  preserves hb_state (modify (update_association (F:=F) addr f)).
Proof. apply preserves_modify. intros c. unfold hb_state. cbn. by rewrite dom_alter_L. Qed.

Lemma run_rules_quiet session m : preserves hb_state (run_rules (F:=F) session m).
Proof. intros c. unfold run_rules. by destruct (m _) as [h [a|e|]]. Qed.

Lemma with_pdr_context_quiet {A} session (m : M (PDRCreationContext * F) A) :
  preserves hb_state (with_pdr_context session m).
Proof. intros c. unfold with_pdr_context. by destruct (m _) as [[pc fp] r]. Qed.

Lemma ReleaseResources_quiet seid : preserves hb_state (ReleaseResources (F:=F) seid).
Proof. unfold ReleaseResources. preserve; by apply preserves_zoom. Qed.

Lemma rx_error_quiet t k : preserves hb_state (rx_error (F:=F) t k).
Proof. by apply emit_quiet; intros []. Qed.

Hint Resolve update_association_quiet run_rules_quiet with_pdr_context_quiet ReleaseResources_quiet
  rx_error_quiet : preserves.

Lemma establishment_quiet req addr :
  preserves hb_state (HandlePfcpSessionEstablishmentRequest (F:=F) Conf req addr).
Proof. unfold HandlePfcpSessionEstablishmentRequest. preserve. Qed.

Lemma deletion_quiet req addr : preserves hb_state (HandlePfcpSessionDeletionRequest (F:=F) req addr).
Proof. unfold HandlePfcpSessionDeletionRequest. preserve. Qed.

Lemma modification_quiet req addr :
  preserves hb_state (HandlePfcpSessionModificationRequest (F:=F) Conf req addr).
Proof. unfold HandlePfcpSessionModificationRequest, answer_modification. preserve. Qed.

Lemma association_update_quiet req addr :
  preserves hb_state (HandlePfcpAssociationUpdateRequest (F:=F) req addr).
Proof. unfold HandlePfcpAssociationUpdateRequest, handled. preserve. Qed.

Lemma heartbeat_request_quiet req addr :
  preserves hb_state (HandlePfcpHeartbeatRequest (F:=F) req addr).
Proof. unfold HandlePfcpHeartbeatRequest, handled. preserve. Qed.

Lemma send_to_peer_quiet m a : preserves hb_state (send_to_peer (F:=F) ResolveUDPAddr Send m a).
Proof. unfold send_to_peer. preserve. by apply emit_quiet; intros []. Qed.

Lemma RefreshAssociations_quiet : preserves hb_state (RefreshAssociations (F:=F) ResolveUDPAddr Send).
Proof. unfold RefreshAssociations, sendAssociationSetupRequest. preserve; apply send_to_peer_quiet. Qed.

(** Nothing, a new association with its routine, or a response to deliver. *)
Inductive effect c c' : Prop :=
  | effect_none : hb_state c' = hb_state c → effect c c'
  | effect_new a :
      a ∉ dom (NodeAssociations c) → HeartbeatTimeout Conf ≠ 0 →
      hb_state c' = ({[a]} ∪ dom (NodeAssociations c), heartbeats_of c ++ [GoScheduleHeartbeat a]) →
      effect c c'
  | effect_new_silent a :
      HeartbeatTimeout Conf = 0 →
      hb_state c' = ({[a]} ∪ dom (NodeAssociations c), heartbeats_of c) → effect c c'
  | effect_deliver a q :
      a ∈ dom (NodeAssociations c) →
      hb_state c' = (dom (NodeAssociations c), heartbeats_of c ++ [HeartbeatSend a q]) → effect c c'.

Definition has_effect {A} (m : M (PfcpConnection F) A) : Prop := ∀ c, effect c (m c).1.

Lemma effect_before c c1 c' : hb_state c1 = hb_state c → effect c1 c' → effect c c'.
Proof.
  intros [= Hd Hh]. destruct 1 as [He|a Ha Ht He|a Ht He|a q Ha He]; rewrite ?Hd, ?Hh in *.
  - constructor. rewrite He. unfold hb_state. by rewrite Hd, Hh.
  - by eapply effect_new.
  - by eapply effect_new_silent.
  - by eapply effect_deliver.
Qed.

Lemma effect_after c c1 c' : effect c c1 → hb_state c' = hb_state c1 → effect c c'.
Proof. destruct 1 as [He|a Ha Ht He|a Ht He|a q Ha He]; intros Heq; rewrite <-Heq in He;
  [by constructor|by eapply effect_new|by eapply effect_new_silent|by eapply effect_deliver]. Qed.

Lemma quiet_effect {A} (m : M (PfcpConnection F) A) : preserves hb_state m → has_effect m.
Proof. intros Hm c. constructor. apply Hm. Qed.

Lemma quiet_bind_effect {A B} (m : M (PfcpConnection F) A) (k : A → M _ B) :
  preserves hb_state m → (∀ a, has_effect (k a)) → has_effect (m ≫= k).
Proof.
  intros Hm Hk c. specialize (Hm c). unfold mbind, M_bind. destruct (m c) as [c1 [a|e|]]; cbn in *;
    [by eapply effect_before; [|apply Hk]|by constructor..].
Qed.

Lemma effect_bind_quiet {A B} (m : M (PfcpConnection F) A) (k : A → M _ B) :
  has_effect m → (∀ a, preserves hb_state (k a)) → has_effect (m ≫= k).
Proof.
  intros Hm Hk c. specialize (Hm c). unfold mbind, M_bind. destruct (m c) as [c1 [a|e|]]; cbn in *;
    [|done..]. eapply effect_after; [done|]. apply Hk.
Qed.

Lemma effect_on_result {A B} (m : M (PfcpConnection F) A) (ok : A → M _ B) bad :
  preserves hb_state m → (∀ a, has_effect (ok a)) → (∀ e, has_effect (bad e)) →
  has_effect (on_result m ok bad).
Proof.
  intros Hm Hok Hbad c. specialize (Hm c). unfold on_result. destruct (m c) as [c1 [a|e|]]; cbn in *;
    [eapply effect_before; [done|apply Hok]|eapply effect_before; [done|apply Hbad]|by constructor].
Qed.

Lemma store_association_effect id addr : has_effect (store_association (F:=F) Conf id addr).
Proof.
  intros c. unfold store_association, gets, modify, mbind, M_bind.
  destruct (NodeAssociations c !! addr) as [a|] eqn:Ha; [by constructor|].
  destruct (Z.eqb_spec (HeartbeatTimeout Conf) 0) as [Ht|Ht]; cbn [negb].
  - eapply (effect_new_silent _ _ addr); [done|]. unfold hb_state. cbn. by rewrite dom_insert_L.
  - eapply (effect_new _ _ addr); [by apply not_elem_of_dom|done|]. unfold emit, modify. cbn [fst].
    unfold hb_state. rewrite heartbeats_emit, decide_True by done. cbn. by rewrite dom_insert_L.
Qed.

Lemma association_setup_effect req addr :
  has_effect (HandlePfcpAssociationSetupRequest (F:=F) Conf req addr).
Proof.
  unfold HandlePfcpAssociationSetupRequest, handled.
  destruct (as_NodeID req) as [n|]; [|apply quiet_effect; preserve].
  apply quiet_bind_effect; [preserve|intros _].
  destruct (IE_NodeID n) as [e|id]; [apply quiet_effect; preserve|].
  destruct (as_RecoveryTimeStamp req) as [ts|]; [|apply quiet_effect; preserve].
  apply effect_on_result; [done|intros ?|intros ?; apply quiet_effect; preserve].
  apply effect_bind_quiet; [apply store_association_effect|intros ?; preserve].
Qed.

Lemma association_response_effect res addr :
  has_effect (HandlePfcpAssociationSetupResponse (F:=F) Conf res addr).
Proof.
  unfold HandlePfcpAssociationSetupResponse, handled.
  repeat case_match; try (apply quiet_effect; solve [preserve]).
  apply effect_bind_quiet; [apply store_association_effect|intros ?; preserve].
Qed.

Lemma heartbeat_response_effect m addr : has_effect (HandlePfcpHeartbeatResponse (F:=F) m addr).
Proof.
  unfold HandlePfcpHeartbeatResponse, handled.
  apply effect_on_result; [done|intros ?|intros ?; by apply quiet_effect].
  intros c. unfold gets, mbind, M_bind, GetAssociation.
  destruct (NodeAssociations c !! addr) as [assoc|] eqn:Ha; [|by constructor].
  unfold HandleHeartbeat, emit, modify. cbn [fst]. eapply (effect_deliver _ _ addr (hb_Sequence m)).
  - apply elem_of_dom. by eexists.
  - unfold hb_state, mret, M_ret. cbn [fst]. by rewrite heartbeats_emit, decide_True by done.
Qed.

Lemma handler_effect msg addr t handler :
  pfcpHandlers (F:=F) Conf t = Some handler → has_effect (handler msg addr).
Proof.
  destruct t; cbn; intros [= <-]; destruct msg; try (by apply quiet_effect);
    first [ apply quiet_effect;
            first [ apply heartbeat_request_quiet | apply association_update_quiet
                  | apply establishment_quiet | apply deletion_quiet | apply modification_quiet ]
          | apply heartbeat_response_effect | apply association_setup_effect
          | apply association_response_effect ].
Qed.

Lemma turn_effect c e c' o :
  (∀ addr, e ≠ HeartbeatFailed addr) →
  Run_turn Conf Parse ResolveUDPAddr Send e c = (c', o) → effect c c'.
Proof.
  intros He Hrun. replace c' with (Run_turn Conf Parse ResolveUDPAddr Send e c).1 by (by rewrite Hrun).
  clear c' o Hrun. destruct e as [|addr|datagram addr|timeout]; cbn [Run_turn];
    [constructor; apply RefreshAssociations_quiet|by destruct (He addr)| |by apply quiet_effect].
  clear He. revert c. set (buf := Receive datagram). change (has_effect (Handle Conf Parse Send buf addr)).
  unfold Handle, ignore_err.
  assert (has_effect (HandlerMap_Handle Conf Parse Send buf addr)) as Hmap.
  2:{ intros c. specialize (Hmap c). unfold on_result.
      by destruct (HandlerMap_Handle _ _ _ _ _ c) as [c1 [a|er|]]. }
  unfold HandlerMap_Handle. destruct (Parse buf) as [er|msg]; [by apply quiet_effect|].
  apply quiet_bind_effect; [by apply emit_quiet; intros []|intros _].
  destruct (pfcpHandlers Conf (MessageType msg)) as [handler|] eqn:Hh; [|by apply quiet_effect].
  apply effect_bind_quiet; [by eapply handler_effect|]. intros [[m|] [er|]]; preserve.
  - by apply emit_quiet; intros [].
  - unfold SendMessage. preserve. by apply emit_quiet; intros [].
Qed.

End effects.

(** ** Routines and associations *)

Section runs.
Context `{Pfcp} `{MapOrder} (Conf : UpfConfig) `{ForwardingPlane F}.
Variable Parse : bytes → result Message.
Variable ResolveUDPAddr : string → result NetIP.
Variable Send : OutMsg → NetIP → result unit.
Implicit Types (s : System F) (c : PfcpConnection F).

Abbreviation hb_step := (step Conf Parse ResolveUDPAddr Send).
Abbreviation hb_run := (run Conf Parse ResolveUDPAddr Send).

Lemma DeleteSession_quiet session : preserves hb_state (DeleteSession (F:=F) session).
Proof.
  unfold DeleteSession, ignore_err. preserve; try (by apply preserves_zoom).
  apply with_pdr_context_quiet.
Qed.

Lemma DeleteAssociation_effect addr c c' :
  DeleteAssociation addr c = (c', Ok tt) →
  dom (NodeAssociations c') = dom (NodeAssociations c) ∖ {[addr]} ∧ heartbeats_of c' = heartbeats_of c.
Proof.
  unfold DeleteAssociation, gets, modify, mbind, M_bind, GetAssociation.
  destruct (NodeAssociations c !! addr) as [assoc|]; [|done].
  pose proof (preserves_for_each hb_state (range_map (Sessions assoc)) (λ x, DeleteSession x.2)
    (λ x, DeleteSession_quiet x.2) c) as Hq.
  destruct (for_each _ _ c) as [c1 [[]|e|]]; [|done..]. intros [= <-].
  injection Hq as Hd Hh. cbn in *. by rewrite dom_delete_L, Hd.
Qed.

Lemma SendHeartbeatRequest_ok q a c :
  ∃ l, SendHeartbeatRequest (F:=F) ResolveUDPAddr Send q a c = (set_trace (trace c ++ l) c, Ok tt) ∧
       filter is_heartbeat_event l = [].
Proof.
  unfold SendHeartbeatRequest, send_to_peer, gets, mbind, M_bind.
  assert (set_trace (trace c ++ []) c = c) as Hid by (destruct c; unfold set_trace; cbn; by rewrite app_nil_r).
  destruct (ResolveUDPAddr _) as [e|udp]; [exists []; by rewrite Hid|].
  destruct (Send _ udp) as [e|u]; [exists []; by rewrite Hid|]. eexists [_]. split; [done|].
  by rewrite filter_cons, filter_nil.
Qed.

(** A heartbeat is always sent, and changes nothing but the sequence number. *)
Lemma send_heartbeat_ok addr a c :
  NodeAssociations c !! addr = Some a →
  ∃ l, let q := u32 (NextSequenceID a + 1) in
    filter is_heartbeat_event l = [] ∧
    send_heartbeat (F:=F) ResolveUDPAddr Send addr a c =
      (set_trace (trace c ++ l) (update_association addr (λ _, (NewSequenceID a).1) c), Ok q).
Proof.
  intros Ha. set (a' := (NewSequenceID a).1).
  destruct (SendHeartbeatRequest_ok (u32 (NextSequenceID a + 1)) (Addr a')
    (update_association addr (λ _, a') c)) as (l & Hl & Hq).
  exists l. split; [done|]. unfold send_heartbeat. change (NewSequenceID a) with
    (a', Ok (A:=Z) (u32 (NextSequenceID a + 1))).
  unfold lift, modify, mbind, M_bind. by rewrite Hl.
Qed.

Lemma send_heartbeat_state addr a c c' o :
  NodeAssociations c !! addr = Some a →
  send_heartbeat (F:=F) ResolveUDPAddr Send addr a c = (c', o) → hb_state c' = hb_state c.
Proof.
  intros Ha Hsend. destruct (send_heartbeat_ok addr a c Ha) as (l & Hl & Heq).
  rewrite Heq in Hsend. injection Hsend as <- _. unfold hb_state, heartbeats_of. cbn.
  by rewrite dom_alter_L, filter_app, Hl, app_nil_r.
Qed.

Lemma heartbeat_events_app c c' l :
  heartbeats_of c' = heartbeats_of c ++ l → heartbeat_events c c' = l.
Proof. unfold heartbeat_events, heartbeats_of. intros ->. by rewrite drop_app_length. Qed.

Lemma heartbeat_events_same c c' : heartbeats_of c' = heartbeats_of c → heartbeat_events c c' = [].
Proof. intros Heq. apply heartbeat_events_app. by rewrite app_nil_r. Qed.

(** *** Runs *)

Lemma run_one l s s' : hb_step l s s' → hb_run [l] s s'.
Proof. intros Hl. apply (run_snoc _ _ _ _ [] l s s s'); [constructor|done]. Qed.

Lemma run_trans ls ls' s s1 s' : hb_run ls s s1 → hb_run ls' s1 s' → hb_run (ls ++ ls') s s'.
Proof.
  intros Hr1s. induction 1 as [|ls' l s1 s2 s3 _ IH Hl]; [by rewrite app_nil_r|].
  rewrite app_assoc. eapply run_snoc; [by apply IH|done].
Qed.

Lemma run_snoc_inv ls l s s' : hb_run (ls ++ [l]) s s' → ∃ s1, hb_run ls s s1 ∧ hb_step l s1 s'.
Proof.
  intros Hrun. remember (ls ++ [l]) as ls' eqn:Hls. destruct Hrun as [|ls' l' s s1 s' Hrun Hl].
  - by apply app_cons_not_nil in Hls.
  - apply app_inj_tail in Hls as [-> ->]. by exists s1.
Qed.

(** *** The routine of a peer *)

Definition sole (addr : string) (r : Routine) (rs : list (string * Routine)) : Prop :=
  filter (λ x, x.1 = addr) rs = [(addr, r)].

Lemma sole_here addr r x rs1 rs2 :
  sole addr r (rs1 ++ (addr, x) :: rs2) → x = r ∧ ∀ y, sole addr y (rs1 ++ (addr, y) :: rs2).
Proof.
  unfold sole. rewrite filter_app, filter_cons_True by done. intros Hf.
  assert (filter (λ x, x.1 = addr) rs1 = []) as Hr1s.
  { destruct (filter _ rs1) as [|z l]; [done|]. injection Hf as _ Hf.
    by destruct (app_cons_not_nil _ _ _ (eq_sym Hf)). }
  rewrite Hr1s in Hf. injection Hf as -> Hr2s. split; [done|]. intros y.
  by rewrite filter_app, filter_cons_True, Hr1s, Hr2s by done.
Qed.

Lemma sole_elsewhere addr a r x rs1 rs2 :
  a ≠ addr → sole addr r (rs1 ++ (a, x) :: rs2) ↔ sole addr r (rs1 ++ rs2).
Proof. intros Ha. unfold sole. by rewrite !filter_app, filter_cons_False by done. Qed.

Lemma sole_replaced addr a r x y rs1 rs2 :
  a ≠ addr → sole addr r (rs1 ++ (a, x) :: rs2) → sole addr r (rs1 ++ (a, y) :: rs2).
Proof. intros Ha. by rewrite !sole_elsewhere. Qed.

Lemma no_routine addr (l : list (string * Routine)) :
  addr ∉ l.*1 → filter (λ x, x.1 = addr) l = [].
Proof.
  induction l as [|[a r] l IH]; [done|]. intros [Ha Hl]%not_elem_of_cons. cbn in Ha.
  rewrite filter_cons_False by (cbn; congruence). by apply IH.
Qed.

Lemma sole_started addr r rs l : sole addr r rs → addr ∉ l.*1 → sole addr r (rs ++ l).
Proof.
  unfold sole. intros Hs Hl. rewrite filter_app, Hs. cut (filter (λ x, x.1 = addr) l = []); [by intros ->|].
  by apply no_routine.
Qed.

Lemma sole_in addr r rs : sole addr r rs → (addr, r) ∈ rs.
Proof. intros Hs. assert ((addr, r) ∈ filter (λ x, x.1 = addr) rs) as [_ Hin]%list_elem_of_filter; [|done].
  rewrite Hs. by apply list_elem_of_singleton. Qed.

Lemma NoDup_sole addr r rs1 rs2 :
  NoDup (rs1 ++ (addr, r) :: rs2).*1 → sole addr r (rs1 ++ (addr, r) :: rs2).
Proof.
  rewrite fmap_app, fmap_cons, NoDup_app, NoDup_cons. cbn. intros (_ & Hx & Ha & _).
  assert (addr ∉ rs1.*1) as Hr1s by (intros Hin; apply (Hx _ Hin); by left).
  unfold sole. rewrite filter_app, filter_cons_True by done.
  by rewrite !no_routine.
Qed.

(** One routine per association; a response is delivered to one of them. *)
Definition routines_match s : Prop :=
  NoDup (sys_routines s).*1 ∧
  list_to_set (sys_routines s).*1 = dom (D:=gset string) (NodeAssociations (sys_conn s)) ∧
  match sys_main s with
  | Delivering addr _ => addr ∈ dom (NodeAssociations (sys_conn s))
  | Idle => True
  end.

Lemma keys_replaced (rs1 rs2 : list (string * Routine)) addr x y :
  (rs1 ++ (addr, x) :: rs2).*1 = (rs1 ++ (addr, y) :: rs2).*1.
Proof. by rewrite !fmap_app. Qed.

Lemma turn_routines_match c rs c' :
  HeartbeatTimeout Conf ≠ 0 → effect Conf c c' → routines_match (mkSystem c Idle rs) →
  routines_match (mkSystem c' (delivery (heartbeat_events c c')) (rs ++ started (heartbeat_events c c'))).
Proof.
  unfold routines_match. cbn [sys_conn sys_main sys_routines]. intros Ht He (Hnd & Hdom & _).
  destruct He as [[= Hd Hh]|a Ha _ [= Hd Hh]|a Hz|a q Ha [= Hd Hh]]; [| |done|]; rewrite Hd.
  - rewrite (heartbeat_events_same _ _ Hh). cbn. by rewrite app_nil_r.
  - rewrite (heartbeat_events_app _ _ _ Hh). cbn. rewrite fmap_app, list_to_set_app_L, Hdom. cbn.
    split; [|set_solver]. apply NoDup_app. split; [done|]. split; [|apply NoDup_singleton].
    intros x Hx ->%list_elem_of_singleton. apply Ha. rewrite <-Hdom. by apply elem_of_list_to_set.
  - rewrite (heartbeat_events_app _ _ _ Hh). cbn. by rewrite app_nil_r.
Qed.

Lemma step_routines_match l s s' :
  HeartbeatTimeout Conf ≠ 0 → hb_step l s s' → routines_match s → routines_match s'.
Proof.
  intros Ht. destruct 1 as [c rs e c' He Hrun|c rs1 rs2 addr c' Hrun|c rs1 rs2 addr seq q failed
    |c main rs1 rs2 addr failed a c' q Ha Hsend|c main rs1 rs2 addr q failed|c main rs1 rs2 addr].
  { apply turn_routines_match; [done|]. by eapply turn_effect. }
  all: unfold routines_match; cbn [sys_conn sys_main sys_routines]; intros (Hnd & Hdom & Hmain).
  - apply DeleteAssociation_effect in Hrun as [-> _].
    rewrite fmap_app, fmap_cons in Hnd, Hdom. rewrite fmap_app. cbn [fst] in *.
    apply NoDup_app in Hnd as (Hr1s & Hx & [Ha Hr2s]%NoDup_cons).
    rewrite list_to_set_app_L, list_to_set_cons in Hdom. split_and!; [|..|done].
    + apply NoDup_app. split; [done|]. split; [|done]. intros x Hin Hin2. apply (Hx x Hin). by right.
    + rewrite <-Hdom, list_to_set_app_L.
      assert (addr ∉ rs1.*1) as Ha1 by (intros Hin; apply (Hx _ Hin); by left). set_solver.
  - by rewrite (keys_replaced _ _ _ _ (Selecting q failed)).
  - apply send_heartbeat_state in Hsend as [= -> _]; [|done].
    by rewrite (keys_replaced _ _ _ _ (Sending failed)).
  - by rewrite (keys_replaced _ _ _ _ (Selecting q failed)).
  - by rewrite (keys_replaced _ _ _ _ Pausing).
Qed.

Lemma run_routines_match ls s s' :
  HeartbeatTimeout Conf ≠ 0 → hb_run ls s s' → routines_match s → routines_match s'.
Proof. intros Ht. induction 1 as [|ls l s s1 s' _ IH Hl]; [done|]. eauto using step_routines_match. Qed.

(** C26: with heartbeats enabled the routines that run are exactly one for
    each association, in every state the loop and the routines reach from an
    empty table, whatever the interleaving.  So the peer a routine reports
    always has its association -- the loop never deletes one that is missing,
    which would stop the process -- and the routine a response is handed to
    exists. *)
Theorem heartbeat_routines_match c0 ls s :
  HeartbeatTimeout Conf ≠ 0 → NodeAssociations c0 = ∅ → hb_run ls (mkSystem c0 Idle []) s →
  (sys_routines s).*1 ≡ₚ elements (dom (D:=gset string) (NodeAssociations (sys_conn s))) ∧
  (∀ addr, (addr, Reporting) ∈ sys_routines s → event_ok Parse (sys_conn s) (HeartbeatFailed addr)) ∧
  ∀ addr seq, sys_main s = Delivering addr seq → ∃ r, (addr, r) ∈ sys_routines s.
Proof.
  intros Ht Hempty Hrun. apply run_routines_match in Hrun as (Hnd & Hdom & Hmain); [|done|].
  2:{ split; [constructor|]. cbn. by rewrite Hempty, dom_empty_L. }
  assert (∀ addr, addr ∈ dom (NodeAssociations (sys_conn s)) ↔ ∃ r, (addr, r) ∈ sys_routines s) as Hin.
  { intros addr. rewrite <-Hdom, elem_of_list_to_set, list_elem_of_fmap. split.
    - intros ([a r] & -> & Hr). by exists r.
    - intros [r Hr]. by exists (addr, r). }
  split; [rewrite <-Hdom; symmetry; by apply elements_list_to_set|]. split.
  - intros addr Hr. apply elem_of_dom, Hin. by exists Reporting.
  - intros addr seq Hd. rewrite Hd in Hmain. by apply Hin.
Qed.

(** ** Responses that arrive too late *)

(** Handling a heartbeat response of an associated peer. *)
Lemma response_turn c buf peer m ts addr :
  IPString peer = addr → is_Some (NodeAssociations c !! addr) →
  Parse (Receive buf) = inr (MHeartbeatResponse m) → IE_RecoveryTimeStamp (hb_RecoveryTimeStamp m) = Ok ts →
  Run_turn Conf Parse ResolveUDPAddr Send (Received buf peer) c =
    (set_trace (trace c ++ [Rx HeartbeatResponse; HeartbeatSend addr (hb_Sequence m)]) c, Ok tt).
Proof.
  intros Haddr [a Ha] Hparse Hts. cbn. unfold Handle, ignore_err, on_result, HandlerMap_Handle.
  rewrite Hparse. unfold mbind, M_bind, emit, modify. cbn [MessageType pfcpHandlers].
  unfold HandlePfcpHeartbeatResponse, on_result, lift. rewrite Hts, Haddr.
  unfold gets, mbind, M_bind, GetAssociation. cbn [NodeAssociations set_trace]. rewrite Ha.
  unfold HandleHeartbeat, emit, modify, handled, mret, M_ret. cbn. by rewrite <-app_assoc.
Qed.

Definition deadlocked (addr : string) (seq : Z) c s : Prop :=
  sys_main s = Delivering addr seq ∧ sole addr Reporting (sys_routines s) ∧
  mapOperations (sys_conn s) = mapOperations c ∧
  dom (NodeAssociations (sys_conn s)) = dom (NodeAssociations c).

Lemma send_heartbeat_plane addr a c c' q :
  NodeAssociations c !! addr = Some a →
  send_heartbeat (F:=F) ResolveUDPAddr Send addr a c = (c', Ok q) → mapOperations c' = mapOperations c.
Proof.
  intros Ha Hsend. destruct (send_heartbeat_ok addr a c Ha) as (l & _ & Heq).
  rewrite Heq in Hsend. by injection Hsend as <- _.
Qed.

(** A step of a routine of the list is not one of a sole routine in another
    state. *)
Lemma sole_not_here addr a r x rs1 rs2 :
  sole addr r (rs1 ++ (a, x) :: rs2) → x ≠ r → a ≠ addr.
Proof. intros Hs Hx ->. by apply sole_here in Hs as [-> _]. Qed.

Lemma deadlock_step addr seq c l s s' :
  hb_step l s s' → deadlocked addr seq c s → deadlocked addr seq c s'.
Proof.
  destruct 1 as [c1 rs e c' He Hrun|c1 rs1 rs2 a c' Hrun|c1 rs1 rs2 a q' q failed
    |c1 main rs1 rs2 a failed assoc c' q Ha Hsend|c1 main rs1 rs2 a q failed|c1 main rs1 rs2 a];
    unfold deadlocked; cbn [sys_conn sys_main sys_routines]; intros (Hmain & Hrep & Hmap & Hdom);
    [done|done|..]; pose proof (sole_not_here _ _ _ _ _ _ Hrep ltac:(done)) as Hne;
    apply (sole_replaced _ _ _ _ Pausing) in Hrep; try done.
  - by injection Hmain as -> ->.
  - split; [done|]. split; [by eapply sole_replaced|].
    rewrite (send_heartbeat_plane _ _ _ _ _ Ha Hsend).
    apply send_heartbeat_state in Hsend as [= -> _]; done.
  - split; [done|]. split; [by eapply sole_replaced|done].
  - split; [done|]. split; [by eapply sole_replaced|done].
Qed.

(** C27: a response that arrives after the last time-out stops the UPF.  A
    routine whose timer has just counted its last retry waits to report its
    peer; if the loop takes that peer's heartbeat response off the socket
    first, it waits for the routine to take the response.  Each waits for the
    other: two steps after any state in which a last response is outstanding
    -- the time-out and the turn with the response -- the loop is where it
    never handles another message and never changes a session again, whatever
    the other routines do. *)
Theorem late_response_deadlocks c rs1 rs2 buf peer m ts q failed :
  let rs := rs1 ++ (IPString peer, Selecting q failed) :: rs2 in
  NoDup rs.*1 →
  HeartbeatRetries Conf ≤ u32 (failed + 1) → is_Some (NodeAssociations c !! IPString peer) →
  Parse (Receive buf) = inr (MHeartbeatResponse m) → IE_RecoveryTimeStamp (hb_RecoveryTimeStamp m) = Ok ts →
  ∃ s, hb_run [TimeOut (IPString peer); Turn (Received buf peer)] (mkSystem c Idle rs) s ∧
    ∀ ls s', hb_run ls s s' →
      sys_main s' = Delivering (IPString peer) (hb_Sequence m) ∧
      (IPString peer, Reporting) ∈ sys_routines s' ∧
      mapOperations (sys_conn s') = mapOperations c ∧
      dom (NodeAssociations (sys_conn s')) = dom (NodeAssociations c).
Proof.
  intros rs Hnd Hlast Ha Hparse Hts. pose proof (response_turn c buf peer m ts _ eq_refl Ha Hparse Hts) as Hturn.
  set (c' := set_trace _ c) in Hturn. set (rs' := rs1 ++ (IPString peer, Reporting) :: rs2).
  assert (heartbeat_events c c' = [HeartbeatSend (IPString peer) (hb_Sequence m)]) as Hev.
  { apply heartbeat_events_app. unfold heartbeats_of. cbn [trace set_trace c'].
    by rewrite filter_app, !filter_cons, filter_nil. }
  exists (mkSystem c' (Delivering (IPString peer) (hb_Sequence m)) rs'). split.
  - pose proof (step_timeout Conf Parse ResolveUDPAddr Send c Idle rs1 rs2 (IPString peer) q failed) as Hout.
    unfold on_timeout in Hout. rewrite (proj2 (Z.leb_le _ _) Hlast) in Hout.
    apply (run_trans [_] [_] _ _ _ (run_one _ _ _ Hout)). apply run_one.
    pose proof (step_turn Conf Parse ResolveUDPAddr Send c rs' (Received buf peer) c') as Hstep.
    rewrite Hev in Hstep. cbn [started omap list_omap] in Hstep. rewrite app_nil_r in Hstep. apply Hstep; eauto.
  - intros ls s' Hrun.
    assert (deadlocked (IPString peer) (hb_Sequence m) c s') as (Hmain & Hsole & Hmap & Hdom).
    2:{ split_and!; try done. by apply sole_in. }
    remember (mkSystem c' _ rs') as s eqn:Hs. induction Hrun as [|ls l s s1 s2 _ IH Hstep].
    + subst s. split; [done|]. split; [|done]. apply NoDup_sole.
      by rewrite (keys_replaced _ _ _ _ (Selecting q failed)).
    + by eapply deadlock_step, IH.
Qed.

Lemma disabled_run ls s s' :
  HeartbeatTimeout Conf = 0 → hb_run ls s s' → sys_routines s = [] → sys_routines s' = [].
Proof.
  intros Ht Hrun Hempty. induction Hrun as [|ls l s s1 s' _ IH Hstep]; [done|]. specialize (IH Hempty).
  destruct Hstep as [c1 rs1 e c' He Hstep| | | | | ]; cbn [sys_routines] in *;
    try (by destruct (app_cons_not_nil _ _ _ (eq_sym IH))).
  subst rs1. apply turn_effect in Hstep; [|done].
  destruct Hstep as [[= _ Hh]|a _ Hz|a _ [= _ Hh]|a q _ [= _ Hh]]; [|done|..].
  - by rewrite (heartbeat_events_same _ _ Hh).
  - by rewrite (heartbeat_events_same _ _ Hh).
  - by rewrite (heartbeat_events_app _ _ _ Hh).
Qed.

(** With heartbeats disabled one response stops the UPF.  No association
    has a routine then, so a heartbeat response from any associated peer --
    solicited or not -- leaves the loop waiting with no step left to take. *)
Theorem heartbeats_disabled_block c0 ls c rs buf peer m ts :
  HeartbeatTimeout Conf = 0 → hb_run ls (mkSystem c0 Idle []) (mkSystem c Idle rs) →
  is_Some (NodeAssociations c !! IPString peer) →
  Parse (Receive buf) = inr (MHeartbeatResponse m) → IE_RecoveryTimeStamp (hb_RecoveryTimeStamp m) = Ok ts →
  rs = [] ∧
  ∃ s, hb_step (Turn (Received buf peer)) (mkSystem c Idle rs) s ∧
       sys_main s = Delivering (IPString peer) (hb_Sequence m) ∧ ∀ l s', ¬ hb_step l s s'.
Proof.
  intros Ht Hrun Ha Hparse Hts. apply disabled_run in Hrun; [|done..]. cbn in Hrun. subst rs. split; [done|].
  pose proof (response_turn c buf peer m ts _ eq_refl Ha Hparse Hts) as Hturn.
  set (c' := set_trace _ c) in Hturn.
  assert (heartbeat_events c c' = [HeartbeatSend (IPString peer) (hb_Sequence m)]) as Hev.
  { apply heartbeat_events_app. unfold heartbeats_of. cbn [trace set_trace c'].
    by rewrite filter_app, !filter_cons, filter_nil. }
  exists (mkSystem c' (Delivering (IPString peer) (hb_Sequence m)) []). split; [|split; [done|]].
  - pose proof (step_turn Conf Parse ResolveUDPAddr Send c [] (Received buf peer) c') as Hstep.
    rewrite Hev in Hstep. apply Hstep; eauto.
  - intros l s' Hstep. inversion Hstep; subst;
      match goal with Hs : _ ++ _ :: _ = [] |- _ => by destruct (app_cons_not_nil _ _ _ (eq_sym Hs)) end.
Qed.

(** ** Peers that never answer *)

Lemma send_heartbeat_inv addr a c :
  conn_inv c → NodeAssociations c !! addr = Some a →
  ∃ c' a' q, send_heartbeat (F:=F) ResolveUDPAddr Send addr a c = (c', Ok q) ∧ conn_inv c' ∧
    NodeAssociations c' = <[addr := a']> (NodeAssociations c) ∧ Sessions a' = Sessions a.
Proof.
  intros (Hrm & v & Hv & HF & HQ & HU) Ha. destruct (send_heartbeat_ok addr a c Ha) as (l & _ & Heq).
  assert (NodeAssociations (update_association addr (λ _, (NewSequenceID a).1) c) =
    <[addr := (NewSequenceID a).1]> (NodeAssociations c)) as Hn.
  { unfold update_association. cbn -[NewSequenceID]. exact (alter_assoc (λ _, _) _ _ _ Ha). }
  eexists _, (NewSequenceID a).1, _. split; [exact Heq|]. split; [|split; [exact Hn|done]].
  split; [done|]. exists v. split; [done|].
  assert (∀ E (get : Session → gmap Z E) a1 sid i e, rule_at get (set_trace (trace c ++ l)
    (update_association addr (λ _, (NewSequenceID a).1) c)) a1 sid i e → rule_at get c a1 sid i e) as Hsame.
  { intros E get a1 sid i e (x & ses & Hx & Hs & Hi).
    change (NodeAssociations (update_association addr (λ _, (NewSequenceID a).1) c) !! a1 = Some x) in Hx.
    rewrite Hn in Hx. apply lookup_insert_Some in Hx as [[<- <-]|[_ Hx]];
      [by exists a, ses|by exists x, ses]. }
  split_and!; (eapply conn_owns_extend; [done|done|]; apply Hsame).
Qed.

(** [k] requests that time out. *)
Definition rounds (addr : string) (k : nat) : list Label :=
  concat (replicate k [SendRequest addr; TimeOut addr]).

Definition attempts : nat := Z.to_nat (Z.max 1 (HeartbeatRetries Conf)).

Lemma rounds_S addr k : rounds addr (S k) = (rounds addr k ++ [SendRequest addr]) ++ [TimeOut addr].
Proof.
  unfold rounds. rewrite replicate_S_end, concat_app. cbn. by rewrite <-app_assoc.
Qed.

Lemma on_timeout_counts k :
  0 ≤ HeartbeatRetries Conf < 2 ^ 32 → (k < attempts)%nat →
  on_timeout Conf (Z.of_nat k) = if decide (S k = attempts) then Reporting else Sending (Z.of_nat (S k)).
Proof.
  unfold attempts. intros Hmax Hk. unfold on_timeout. rewrite u32_small by (unfold in_range; lia).
  destruct (decide _) as [He|He]; [rewrite (proj2 (Z.leb_le _ _))|rewrite (proj2 (Z.leb_gt _ _))];
    (done || lia || f_equal; lia).
Qed.

Lemma one_round addr failed a c rs1 rs2 :
  conn_inv c → NodeAssociations c !! addr = Some a →
  ∃ c' a', hb_run ([SendRequest addr] ++ [TimeOut addr]) (mkSystem c Idle (rs1 ++ (addr, Sending failed) :: rs2))
      (mkSystem c' Idle (rs1 ++ (addr, on_timeout Conf failed) :: rs2)) ∧
    conn_inv c' ∧ NodeAssociations c' = <[addr := a']> (NodeAssociations c).
Proof.
  intros Hc Ha. destruct (send_heartbeat_inv addr a c Hc Ha) as (c' & a' & q & Hsend & Hc' & Hn & _).
  exists c', a'. split; [|done]. eapply run_trans; apply run_one; [by eapply step_send|constructor].
Qed.

(** The requests of a peer that has had [k] of them in vain. *)
Lemma unanswered_rounds k addr a c rs1 rs2 :
  0 ≤ HeartbeatRetries Conf < 2 ^ 32 → (k < attempts)%nat →
  conn_inv c → NodeAssociations c !! addr = Some a →
  ∃ c' a', hb_run (rounds addr k) (mkSystem c Idle (rs1 ++ (addr, Sending 0) :: rs2))
      (mkSystem c' Idle (rs1 ++ (addr, Sending (Z.of_nat k)) :: rs2)) ∧
    conn_inv c' ∧ NodeAssociations c' = <[addr := a']> (NodeAssociations c).
Proof.
  intros Hmax Hk Hc Ha. induction k as [|k IH].
  { exists c, a. split; [constructor|]. by rewrite insert_id. }
  destruct IH as (c1 & a1 & Hrun & Hc1 & Hn1); [lia|].
  destruct (one_round addr (Z.of_nat k) a1 c1 rs1 rs2 Hc1) as (c2 & a2 & Hround & Hc2 & Hn2).
  { by rewrite Hn1, lookup_insert_eq. }
  rewrite on_timeout_counts, decide_False in Hround by lia.
  exists c2, a2. rewrite rounds_S, <-app_assoc. split; [by eapply run_trans|]. split; [done|].
  by rewrite Hn2, Hn1, insert_insert_eq.
Qed.

(** What a peer that does not answer has seen when its routine stands at [r]. *)
Definition silence (addr : string) (r : Routine) (seen : list Label) : Prop :=
  match r with
  | Sending failed => ∃ k, (k < attempts)%nat ∧ failed = Z.of_nat k ∧ seen = rounds addr k
  | Selecting _ failed =>
      ∃ k, (k < attempts)%nat ∧ failed = Z.of_nat k ∧ seen = rounds addr k ++ [SendRequest addr]
  | Reporting => seen = rounds addr attempts
  | Pausing => False
  end.

Definition unanswered (addr : string) (seen : list Label) s : Prop :=
  addr ∈ dom (NodeAssociations (sys_conn s)) ∧
  ∃ r, sole addr r (sys_routines s) ∧ silence addr r seen.

Lemma steps_of_snoc addr ls l :
  steps_of addr (ls ++ [l]) = steps_of addr ls ++ (if decide (peer_of l = Some addr) then [l] else []).
Proof. unfold steps_of. by rewrite filter_app, filter_cons, filter_nil. Qed.

Lemma turn_unanswered addr seen c rs c' :
  effect Conf c c' → unanswered addr seen (mkSystem c Idle rs) →
  unanswered addr seen (mkSystem c' (delivery (heartbeat_events c c')) (rs ++ started (heartbeat_events c c'))).
Proof.
  unfold unanswered. cbn [sys_conn sys_routines]. intros He (Ha & r & Hs & Hseen).
  destruct He as [[= -> Hh]|a Hn _ [= -> Hh]|a _ [= -> Hh]|a q _ [= -> Hh]];
    (split; [set_solver|]); exists r; (split; [|done]); apply sole_started; try done.
  - rewrite (heartbeat_events_same _ _ Hh). apply not_elem_of_nil.
  - rewrite (heartbeat_events_app _ _ _ Hh). cbn. intros ->%list_elem_of_singleton. done.
  - rewrite (heartbeat_events_same _ _ Hh). apply not_elem_of_nil.
  - rewrite (heartbeat_events_app _ _ _ Hh). apply not_elem_of_nil.
Qed.

(** Steps of other peers change neither the routine nor the association. *)
Lemma elsewhere_unanswered addr seen c main c' main' a x rs1 rs2 rs' :
  a ≠ addr → dom (NodeAssociations c) ∖ {[a]} ⊆ dom (D:=gset string) (NodeAssociations c') →
  (∀ r, sole addr r (rs1 ++ rs2) → sole addr r rs') →
  unanswered addr seen (mkSystem c main (rs1 ++ (a, x) :: rs2)) →
  unanswered addr seen (mkSystem c' main' rs').
Proof.
  unfold unanswered. cbn [sys_conn sys_routines]. intros Ha Hdom Hrs (Hin & r & Hs & Hseen).
  split; [set_solver|]. exists r. split; [|done]. apply Hrs. by rewrite sole_elsewhere in Hs.
Qed.

Lemma step_unanswered addr ls l s s' :
  0 ≤ HeartbeatRetries Conf < 2 ^ 32 → hb_step l s s' → l ≠ Deliver addr → l ≠ Report addr →
  unanswered addr (steps_of addr ls) s → unanswered addr (steps_of addr (ls ++ [l])) s'.
Proof.
  intros Hmax Hstep Hnd Hnr. rewrite steps_of_snoc.
  destruct Hstep as [c rs e c' He Hrun|c rs1 rs2 a c' Hrun|c rs1 rs2 a seq q failed
    |c main rs1 rs2 a failed x c' q Ha Hsend|c main rs1 rs2 a q failed|c main rs1 rs2 a]; cbn [peer_of].
  { rewrite decide_False, app_nil_r by done. apply turn_unanswered. by eapply turn_effect. }
  all: destruct (decide (Some a = Some addr)) as [[= ->]|Hne]; try done.
  all: try (assert (a ≠ addr) as Hn by congruence; rewrite app_nil_r;
    eapply elsewhere_unanswered; [exact Hn| |intros r; by rewrite ?sole_elsewhere by done]; cbn).
  - apply DeleteAssociation_effect in Hrun as [-> _]. done.
  - set_solver.
  - intros (Hin & r & Hs & Hseen). cbn [sys_conn sys_routines] in *. apply sole_here in Hs as [<- Hs].
    destruct Hseen as (k & Hk & -> & ->). apply send_heartbeat_state in Hsend as [= Hd _]; [|done].
    split; [cbn; by rewrite Hd|]. eexists. split; [apply Hs|]. by exists k.
  - apply send_heartbeat_state in Hsend as [= -> _]; [set_solver|done].
  - intros (Hin & r & Hs & Hseen). cbn [sys_conn sys_routines] in *. apply sole_here in Hs as [<- Hs].
    destruct Hseen as (k & Hk & -> & ->). split; [done|]. eexists. split; [apply Hs|].
    rewrite on_timeout_counts by done. rewrite <-rounds_S.
    destruct (decide _) as [Heq|Hlast]; [unfold silence; by rewrite Heq|].
    exists (S k). split; [lia|done].
  - set_solver.
  - intros (Hin & r & Hs & Hseen). cbn [sys_conn sys_routines] in *. by apply sole_here in Hs as [<- Hs].
  - set_solver.
Qed.

(** C28: a peer that never answers is given up after exactly
    [max 1 heartbeat_retries] requests.  From a state in which its routine
    starts to send: (1) that many rounds of a request and a time-out and one
    report are a run to the state without the association and without the
    routine, in which the rules of all other sessions are intact; (2) in every
    run, whatever the loop, the other routines and the network do, in which no
    response of this peer is delivered, its routine's steps up to its first
    report are exactly these, no request fewer and none more, and the report
    deletes the association. *)
Theorem unanswered_peer_deleted addr c rs1 rs2 :
  let rs := rs1 ++ (addr, Sending 0) :: rs2 in
  let given_up := rounds addr attempts ++ [Report addr] in
  0 ≤ HeartbeatRetries Conf < 2 ^ 32 → conn_inv c → is_Some (NodeAssociations c !! addr) → NoDup rs.*1 →
  (∃ c', hb_run given_up (mkSystem c Idle rs) (mkSystem c' Idle (rs1 ++ rs2)) ∧
         conn_inv c' ∧ NodeAssociations c' = delete addr (NodeAssociations c)) ∧
  ∀ main ls s, hb_run (ls ++ [Report addr]) (mkSystem c main rs) s →
    Deliver addr ∉ ls → Report addr ∉ ls →
    steps_of addr (ls ++ [Report addr]) = given_up ∧ addr ∉ dom (NodeAssociations (sys_conn s)).
Proof.
  intros rs given_up Hmax Hc [a Ha] Hnd. split.
  - destruct (unanswered_rounds (attempts - 1) addr a c rs1 rs2) as (c1 & a1 & Hrun & Hc1 & Hn1);
      [done|unfold attempts; lia|done..|].
    destruct (one_round addr (Z.of_nat (attempts - 1)) a1 c1 rs1 rs2 Hc1) as (c2 & a2 & Hround & Hc2 & Hn2).
    { by rewrite Hn1, lookup_insert_eq. }
    assert (S (attempts - 1) = attempts) as Hlast by (unfold attempts; lia).
    rewrite on_timeout_counts, decide_True in Hround by lia.
    pose proof (run_trans _ _ _ _ _ Hrun Hround) as Hall. rewrite app_assoc, <-rounds_S, Hlast in Hall.
    rewrite Hn1, insert_insert_eq in Hn2.
    assert (NodeAssociations c2 !! addr = Some a2) as Ha2 by (by rewrite Hn2, lookup_insert_eq).
    pose proof (DeleteAssociation_spec addr a2 c2 Hc2 Ha2) as Hdel. unfold wp in Hdel.
    destruct (DeleteAssociation addr c2) as [c3 [[]|e|]] eqn:Hd; [|done..].
    destruct Hdel as (Hc3 & Hn3 & _). exists c3.
    split; [eapply run_snoc; [exact Hall|by apply step_report]|]. by rewrite Hn3, Hn2, delete_insert_eq.
  - intros main ls s Hrun Hdel Hrep. apply run_snoc_inv in Hrun as (s1 & Hrun & Hlast).
    assert (unanswered addr (steps_of addr ls) s1) as Hs1.
    { clear Hlast. remember (mkSystem c main rs) as s0 eqn:Hs0. induction Hrun as [|ls l s0 s1 s2 _ IH Hstep].
      - subst s0. split; [by apply elem_of_dom_2 in Ha|]. exists (Sending 0).
        split; [by apply NoDup_sole|]. exists 0%nat. unfold attempts. split; [lia|done].
      - apply not_elem_of_app in Hdel as [Hd1 [Hd2 _]%not_elem_of_cons], Hrep as [Hr1 [Hr2 _]%not_elem_of_cons].
        eapply step_unanswered; [done|exact Hstep|by intros ->..|by apply IH]. }
    inversion Hlast as [|c1 qs1 qs2 a1 c' Hturn| | | | ]; subst.
    destruct Hs1 as (_ & r & Hs & Hseen). cbn [sys_routines] in Hs. apply sole_here in Hs as [<- _].
    rewrite steps_of_snoc, decide_True, Hseen by done. split; [done|].
    cbn [sys_conn]. apply DeleteAssociation_effect in Hturn as [-> _]. set_solver.
Qed.

End runs.

(** ** Concrete runs *)

#[local] Existing Instance ascending_order.
#[local] Existing Instance demo_pfcp.

(** [demo_config] of [EventLoop] with one retry, and with heartbeats off. *)
Definition demo_hb_config (timeout : Z) : UpfConfig := mkUpfConfig [] "generic" ":8080"
  "127.0.0.1:8805" "127.0.0.1" [] 5 ":9090" "10.3.0.1" "10.9.0.1" [] 10 0 0 0 0 65535 1 5 timeout
  "info" "" 3 false true.

Definition demo_hb_msg : HeartbeatMsg := mkHeartbeatMsg (Some (Val 96 1700000000)) 2.

Definition demo_hb_parse (buf : bytes) : result Message :=
  match buf with
  | [1] => inr (MAssociationSetupRequest demo_setup)
  | [4] => inr (MHeartbeatResponse demo_hb_msg)
  | _ => inl (Errorf "too short")
  end.

Abbreviation demo_step timeout :=
  (step (F:=FPView) (demo_hb_config timeout) demo_hb_parse demo_resolve demo_send).
Abbreviation demo_run timeout :=
  (run (F:=FPView) (demo_hb_config timeout) demo_hb_parse demo_resolve demo_send).

(** An association is set up and its first heartbeat request is sent. *)
Definition demo_hb (timeout : Z) : PfcpConnection FPView :=
  (Run_turn (demo_hb_config timeout) demo_hb_parse demo_resolve demo_send (Received [1] demo_peer)
     demo_c0).1.
Definition demo_hb_assoc : NodeAssociation := NewNodeAssociation "smf" "10.0.0.2".
Definition demo_hb_sent : PfcpConnection FPView :=
  (send_heartbeat demo_resolve demo_send "10.0.0.2" demo_hb_assoc (demo_hb 5)).1.

Lemma demo_hb_run timeout rs :
  timeout = 5 ∧ rs = [("10.0.0.2"%string, Sending 0)] ∨ timeout = 0 ∧ rs = [] →
  demo_run timeout [Turn (Received [1] demo_peer)] (mkSystem demo_c0 Idle [])
    (mkSystem (demo_hb timeout) Idle rs).
Proof.
  intros Hcase. apply run_one.
  pose proof (step_turn (F:=FPView) (demo_hb_config timeout) demo_hb_parse demo_resolve demo_send demo_c0 []
    (Received [1] demo_peer) (demo_hb timeout) ltac:(eauto)) as Hstep.
  destruct Hcase as [[-> ->]|[-> ->]]; apply Hstep; by vm_compute.
Qed.

Lemma demo_hb_sent_run :
  demo_run 5 ([Turn (Received [1] demo_peer)] ++ [SendRequest "10.0.0.2"]) (mkSystem demo_c0 Idle [])
    (mkSystem demo_hb_sent Idle [("10.0.0.2"%string, Selecting 2 0)]).
Proof.
  eapply run_snoc; [apply (demo_hb_run 5 [("10.0.0.2"%string, Sending 0)]); by left|].
  apply (step_send (F:=FPView) (demo_hb_config 5) demo_hb_parse demo_resolve demo_send (demo_hb 5) Idle
    [] [] "10.0.0.2" 0 demo_hb_assoc demo_hb_sent 2); by vm_compute.
Qed.

Lemma heartbeat_routines_match_witness :
  ["10.0.0.2"%string] ≡ₚ elements (dom (D:=gset string) (NodeAssociations demo_hb_sent)).
Proof.
  refine (proj1 (heartbeat_routines_match (demo_hb_config 5) demo_hb_parse demo_resolve demo_send demo_c0
    _ (mkSystem demo_hb_sent Idle [("10.0.0.2"%string, Selecting 2 0)]) _ _ _)); [done|by vm_compute|].
  apply demo_hb_sent_run.
Defined.

Lemma late_response_deadlocks_witness :
  ∃ ls s, demo_run 5 ls (mkSystem demo_c0 Idle []) s ∧
    ∀ ls' s', demo_run 5 ls' s s' → sys_main s' = Delivering "10.0.0.2" 2.
Proof.
  destruct (late_response_deadlocks (demo_hb_config 5) demo_hb_parse demo_resolve demo_send
    demo_hb_sent [] [] [4] demo_peer demo_hb_msg 1700000000 2 0) as (s & Hrun & Hdead).
  - apply NoDup_singleton.
  - by vm_compute.
  - by eexists; vm_compute.
  - done.
  - by vm_compute.
  - eexists _, s. split; [exact (run_trans _ _ _ _ _ _ _ _ _ demo_hb_sent_run Hrun)|].
    intros ls' s' Hs'. apply (Hdead ls' s' Hs').
Defined.

Lemma heartbeats_disabled_block_witness :
  ∃ l s, demo_step 0 l (mkSystem (demo_hb 0) Idle []) s ∧ ∀ l' s', ¬ demo_step 0 l' s s'.
Proof.
  destruct (heartbeats_disabled_block (demo_hb_config 0) demo_hb_parse demo_resolve demo_send
    demo_c0 [Turn (Received [1] demo_peer)] (demo_hb 0) [] [4] demo_peer demo_hb_msg 1700000000)
    as (_ & s & Hs & _ & Hstuck).
  - done.
  - apply demo_hb_run. by right.
  - by eexists; vm_compute.
  - done.
  - by vm_compute.
  - by eexists _, s.
Defined.

Lemma demo_hb_inv : conn_inv (demo_hb 5).
Proof.
  pose proof (Run_turn_inv (demo_hb_config 5) demo_hb_parse demo_resolve demo_send demo_c0
    (Received [1] demo_peer) demo_c0_inv) as Hwp.
  unfold wp in Hwp. unfold demo_hb. destruct (Run_turn _ _ _ _ _ demo_c0) as [c' [[]|e|]];
    apply Hwp || destruct Hwp; intros msg [= <-] ts [= <-]; by vm_compute.
Qed.

(** With one retry: one request, its time-out, the report. *)
Lemma unanswered_peer_deleted_witness :
  ∃ c', demo_run 5 [SendRequest "10.0.0.2"; TimeOut "10.0.0.2"; Report "10.0.0.2"]
          (mkSystem (demo_hb 5) Idle [("10.0.0.2"%string, Sending 0)]) (mkSystem c' Idle []) ∧
        NodeAssociations c' = ∅.
Proof.
  destruct (unanswered_peer_deleted (demo_hb_config 5) demo_hb_parse demo_resolve demo_send "10.0.0.2"
    (demo_hb 5) [] []) as [(c' & Hrun & _ & Hn) _].
  - done.
  - apply demo_hb_inv.
  - by eexists; vm_compute.
  - apply NoDup_singleton.
  - exists c'. split; [exact Hrun|]. rewrite Hn. by vm_compute.
Defined.
