(* ===== verification/Stats.v ===== *)
(** * Data plane statistics (cmd/ebpf/stats.go, cmd/core/metrics.go)

    The counters the data plane keeps per CPU, their sums and differences on
    uint64, and the counters exported to Prometheus on each scrape.  What a
    read of a kernel map returns is an argument.  What is exported is converted
    to float64: exact below 2^53, the nearest such number above. *)

From S2P Require Import Prelude.

(* cmd/ebpf/stats.go:13-26 UpfCounters *)
Record UpfCounters := mkUpfCounters {
  RxArp : Z;
  RxIcmp : Z;
  RxIcmp6 : Z;
  RxIp4 : Z;
  RxIp6 : Z;
  RxTcp : Z;
  RxUdp : Z;
  RxOther : Z;
  RxGtpEcho : Z;
  RxGtpPdu : Z;
  RxGtpOther : Z;
  RxGtpUnexp : Z
}.

(* cmd/ebpf/xdp/statistics.h:37-42 struct n3_n6_counters *)
Record N3N6Counters := mkN3N6Counters { RxN3 : Z; TxN3 : Z; RxN6 : Z; TxN6 : Z }.

(** One CPU's entry of the map [upf_ext_stat]: Go's [IpEntrypointUpfStatistic]. *)
(* cmd/ebpf/xdp/statistics.h:47-51 struct upf_statistic *)
Record UpfStatistic := mkUpfStatistic {
  upf_counters : UpfCounters;
  upf_n3_n6_counter : N3N6Counters;
  XdpActions : list Z                (* EUPF_MAX_XDP_ACTION = 8 entries *)
}.

(** One CPU's entry of the map [upf_route_stat]. *)
(* cmd/ebpf/xdp/utils/routing.h:30-39 struct route_stat *)
Record RouteStat := mkRouteStat {
  FibLookupIp4Cache : Z;
  FibLookupIp4Ok : Z;
  FibLookupIp4ErrorDrop : Z;
  FibLookupIp4ErrorPass : Z;
  FibLookupIp6Cache : Z;
  FibLookupIp6Ok : Z;
  FibLookupIp6ErrorDrop : Z;
  FibLookupIp6ErrorPass : Z
}.

Definition zeroCounters : UpfCounters := mkUpfCounters 0 0 0 0 0 0 0 0 0 0 0 0.
Definition zeroRouteStat : RouteStat := mkRouteStat 0 0 0 0 0 0 0 0.

(** ** Sums and differences on uint64 *)

(** [RxGtpUnexp] is missing from the additions of the source: it stays. *)
(* cmd/ebpf/stats.go:33-45 Add *)
Definition Counters_Add (current new : UpfCounters) : UpfCounters :=
  mkUpfCounters
    (u64 (RxArp current + RxArp new)) (u64 (RxIcmp current + RxIcmp new))
    (u64 (RxIcmp6 current + RxIcmp6 new)) (u64 (RxIp4 current + RxIp4 new))
    (u64 (RxIp6 current + RxIp6 new)) (u64 (RxTcp current + RxTcp new))
    (u64 (RxUdp current + RxUdp new)) (u64 (RxOther current + RxOther new))
    (u64 (RxGtpEcho current + RxGtpEcho new)) (u64 (RxGtpPdu current + RxGtpPdu new))
    (u64 (RxGtpOther current + RxGtpOther new))
    (RxGtpUnexp current).

(* cmd/ebpf/stats.go:47-63 Delta *)
Definition Counters_Delta (current new : UpfCounters) : UpfCounters :=
  mkUpfCounters
    (u64 (RxArp new - RxArp current)) (u64 (RxIcmp new - RxIcmp current))
    (u64 (RxIcmp6 new - RxIcmp6 current)) (u64 (RxIp4 new - RxIp4 current))
    (u64 (RxIp6 new - RxIp6 current)) (u64 (RxTcp new - RxTcp current))
    (u64 (RxUdp new - RxUdp current)) (u64 (RxOther new - RxOther current))
    (u64 (RxGtpEcho new - RxGtpEcho current)) (u64 (RxGtpPdu new - RxGtpPdu current))
    (u64 (RxGtpOther new - RxGtpOther current)) 0.

(* cmd/ebpf/stats.go:142-152 Add *)
Definition RouteStat_Add (current new : RouteStat) : RouteStat :=
  mkRouteStat
    (u64 (FibLookupIp4Cache current + FibLookupIp4Cache new))
    (u64 (FibLookupIp4Ok current + FibLookupIp4Ok new))
    (u64 (FibLookupIp4ErrorDrop current + FibLookupIp4ErrorDrop new))
    (u64 (FibLookupIp4ErrorPass current + FibLookupIp4ErrorPass new))
    (u64 (FibLookupIp6Cache current + FibLookupIp6Cache new))
    (u64 (FibLookupIp6Ok current + FibLookupIp6Ok new))
    (u64 (FibLookupIp6ErrorDrop current + FibLookupIp6ErrorDrop new))
    (u64 (FibLookupIp6ErrorPass current + FibLookupIp6ErrorPass new)).

(* cmd/ebpf/stats.go:154-168 Delta *)
Definition RouteStat_Delta (current new : RouteStat) : RouteStat :=
  mkRouteStat
    (u64 (FibLookupIp4Cache new - FibLookupIp4Cache current))
    (u64 (FibLookupIp4Ok new - FibLookupIp4Ok current))
    (u64 (FibLookupIp4ErrorDrop new - FibLookupIp4ErrorDrop current))
    (u64 (FibLookupIp4ErrorPass new - FibLookupIp4ErrorPass current))
    (u64 (FibLookupIp6Cache new - FibLookupIp6Cache current))
    (u64 (FibLookupIp6Ok new - FibLookupIp6Ok current))
    (u64 (FibLookupIp6ErrorDrop new - FibLookupIp6ErrorDrop current))
    (u64 (FibLookupIp6ErrorPass new - FibLookupIp6ErrorPass current)).

(** ** Reading the maps

    [ext] and [route] are what [Lookup] of key 0 returns: an entry per CPU, or
    an error, which is logged. *)

Abbreviation lookup A := (error + list A)%type.

(** The state of the reader besides the maps. *)
(* cmd/ebpf/stats.go:7-11 UpfXdpActionStatistic *)
Record UpfXdpActionStatistic := mkUpfXdpActionStatistic {
  upfCountersPrevious : UpfCounters;
  upfRoutePrevious : RouteStat
}.

(* cmd/ebpf/stats.go:67-82 getUpfXdpStatisticField *)
Definition getUpfXdpStatisticField (ext : lookup UpfStatistic) (field : nat) : Z :=
  match ext with
  | inl _ => 0
  | inr statistics =>
      foldl (λ totalValue statistic, u64 (totalValue + XdpActions statistic !!! field)) 0 statistics
  end.

(* cmd/ebpf/stats.go:84-86 GetAborted *)
Definition GetAborted ext : Z := getUpfXdpStatisticField ext 0.
(* cmd/ebpf/stats.go:88-90 GetDrop *)
Definition GetDrop ext : Z := getUpfXdpStatisticField ext 1.
(* cmd/ebpf/stats.go:92-94 GetPass *)
Definition GetPass ext : Z := getUpfXdpStatisticField ext 2.
(* cmd/ebpf/stats.go:96-98 GetTx *)
Definition GetTx ext : Z := getUpfXdpStatisticField ext 3.
(* cmd/ebpf/stats.go:100-102 GetRedirect *)
Definition GetRedirect ext : Z := getUpfXdpStatisticField ext 4.

(* cmd/ebpf/stats.go:105-120 GetUpfExtStat *)
Definition GetUpfExtStat (ext : lookup UpfStatistic) : UpfCounters :=
  match ext with
  | inl _ => zeroCounters
  | inr statistics =>
      foldl (λ counters statistic, Counters_Add counters (upf_counters statistic)) zeroCounters statistics
  end.

(* cmd/ebpf/stats.go:123-140 GetUpfExtStatDelta *)
Definition GetUpfExtStatDelta (ext : lookup UpfStatistic) : M UpfXdpActionStatistic UpfCounters :=
  match ext with
  | inl _ => mret zeroCounters
  | inr _ =>
      let counters := GetUpfExtStat ext in
      stat ← gets (λ s, s);
      modify (λ s, mkUpfXdpActionStatistic counters (upfRoutePrevious s)) ≫= λ _,
      mret (Counters_Delta (upfCountersPrevious stat) counters)
  end.

(* cmd/ebpf/stats.go:171-186 GetUpfRouteStat *)
Definition GetUpfRouteStat (route : lookup RouteStat) : RouteStat :=
  match route with
  | inl _ => zeroRouteStat
  | inr statistics => foldl RouteStat_Add zeroRouteStat statistics
  end.

(* cmd/ebpf/stats.go:189-206 GetUpfRouteStatDelta *)
Definition GetUpfRouteStatDelta (route : lookup RouteStat) : M UpfXdpActionStatistic RouteStat :=
  match route with
  | inl _ => mret zeroRouteStat
  | inr _ =>
      let counters := GetUpfRouteStat route in
      stat ← gets (λ s, s);
      modify (λ s, mkUpfXdpActionStatistic (upfCountersPrevious s) counters) ≫= λ _,
      mret (RouteStat_Delta (upfRoutePrevious stat) counters)
  end.

(** ** The exported counters *)

(** Go's [float64(z)] of an integer of at most 64 bits, as the integer it
    denotes: of the numbers with a significand of 53 bits the nearest, of two
    the one with the even significand. *)
Definition float64 (z : Z) : Z :=
  if z <? 2 ^ 53 then z
  else
    let e := Z.log2 z - 52 in
    let q := Z.shiftr z e in
    let r := 2 * (z mod 2 ^ e) in
    Z.shiftl (if (2 ^ e <? r) || ((r =? 2 ^ e) && Z.odd q) then q + 1 else q) e.

(** The Prometheus counter vectors [UpfRx] and [UpfRoute]: for each label the
    values that have been added, whose sum the library exports. *)
(* cmd/core/metrics.go:37-45 UpfRx, UpfRoute *)
Record Metrics := mkMetrics { UpfRx : gmap string (list Z); UpfRoute : gmap string (list Z) }.

(** [WithLabelValues(label).Add(value)] *)
Definition counter_add (label : string) (value : Z) (m : gmap string (list Z)) : gmap string (list Z) :=
  <[label := default [] (m !! label) ++ [value]]> m.

Definition add_all {A} (labels : list (string * (A → Z))) (a : A) (m : gmap string (list Z))
    : gmap string (list Z) :=
  foldl (λ m l, counter_add l.1 (float64 (l.2 a)) m) m labels.

(* cmd/core/metrics.go:124-135 GatherMetrics *)
Definition rx_labels : list (string * (UpfCounters → Z)) :=
  [("arp", RxArp); ("icmp", RxIcmp); ("icmp6", RxIcmp6); ("ip4", RxIp4); ("ip6", RxIp6);
   ("tcp", RxTcp); ("udp", RxUdp); ("other", RxOther); ("gtp-echo", RxGtpEcho);
   ("gtp-pdu", RxGtpPdu); ("gtp-other", RxGtpOther); ("gtp-unexp", RxGtpUnexp)]%string.

(* cmd/core/metrics.go:138-145 GatherMetrics *)
Definition route_labels : list (string * (RouteStat → Z)) :=
  [("ip4-cache", FibLookupIp4Cache); ("ip4-ok", FibLookupIp4Ok);
   ("ip4-error-drop", FibLookupIp4ErrorDrop); ("ip4-error-pass", FibLookupIp4ErrorPass);
   ("ip6-cache", FibLookupIp6Cache); ("ip6-ok", FibLookupIp6Ok);
   ("ip6-error-drop", FibLookupIp6ErrorDrop); ("ip6-error-pass", FibLookupIp6ErrorPass)]%string.

(** [stats] is passed by value: what the two calls write to it is lost. *)
(* cmd/core/metrics.go:122-146 GatherMetrics *)
Definition GatherMetrics (stats : UpfXdpActionStatistic) (ext : lookup UpfStatistic)
    (route : lookup RouteStat) : M Metrics unit :=
  let '(stats, RxPacketCounters) := GetUpfExtStatDelta ext stats in
  RxPacketCounters ← lift RxPacketCounters;
  modify (λ m, mkMetrics (add_all rx_labels RxPacketCounters (UpfRx m)) (UpfRoute m)) ≫= λ _,
  let '(stats, RouteStats) := GetUpfRouteStatDelta route stats in
  RouteStats ← lift RouteStats;
  modify (λ m, mkMetrics (UpfRx m) (add_all route_labels RouteStats (UpfRoute m))).

(** The handler of [/metrics] and the state it keeps. *)
Record MetricsServer := mkMetricsServer {
  ForwardPlaneStats : UpfXdpActionStatistic;
  metrics : Metrics
}.

(* cmd/api/rest/handler.go:107-123 InitMetricsRoute *)
Definition serve_metrics (ext : lookup UpfStatistic) (route : lookup RouteStat) : M MetricsServer unit :=
  h ← gets (λ h, h);
  zoom metrics (λ m h, mkMetricsServer (ForwardPlaneStats h) m)
    (GatherMetrics (ForwardPlaneStats h) ext route).

(** ** Lemmas *)

Lemma u64_add_l a b : u64 (u64 a + b) = u64 (a + b).
Proof. unfold u64. by rewrite Zplus_mod_idemp_l. Qed.

Lemma u64_add_r a b : u64 (a + u64 b) = u64 (a + b).
Proof. unfold u64. by rewrite Zplus_mod_idemp_r. Qed.

Lemma u64_mod a : u64 (u64 a) = u64 a.
Proof. unfold u64. by rewrite Zmod_mod. Qed.

Lemma float64_exact z : z < 2 ^ 53 → float64 z = z.
Proof. intros Hz. unfold float64. by rewrite (proj2 (Z.ltb_lt _ _) Hz). Qed.

(** What the conversion loses, of a number with [53 + e] bits, is at most half
    of 2^e, and what it gives has the 53 bits left. *)
Lemma float64_nearest z :
  2 ^ 53 ≤ z → let e := Z.log2 z - 52 in
  2 * Z.abs (float64 z - z) ≤ 2 ^ e ∧ ∃ m, float64 z = m * 2 ^ e ∧ 2 ^ 52 ≤ m ≤ 2 ^ 53.
Proof.
  intros Hz e. unfold float64. rewrite (proj2 (Z.ltb_ge _ _) Hz). fold e.
  assert (0 < e) as He. { subst e. pose proof (Z.log2_le_mono (2 ^ 53) z Hz). rewrite Z.log2_pow2 in *; lia. }
  pose proof (Z.log2_spec z ltac:(lia)) as [Hlo Hhi].
  assert (2 ^ Z.log2 z = 2 ^ 52 * 2 ^ e) as Hl by (subst e; rewrite <-Z.pow_add_r; f_equal; lia).
  rewrite Z.pow_succ_r, Hl in Hhi by apply Z.log2_nonneg. rewrite Hl in Hlo.
  pose proof (Z.pow_pos_nonneg 2 e ltac:(lia) ltac:(lia)) as Hpos.
  rewrite Z.shiftr_div_pow2, Z.shiftl_mul_pow2 by lia.
  pose proof (Z.div_mod z (2 ^ e) ltac:(lia)) as Hdiv. pose proof (Z.mod_pos_bound z (2 ^ e) Hpos) as Hmod.
  set (q := z / 2 ^ e) in *. set (r := z mod 2 ^ e) in *. clearbody q r. clear Hl Hz. set (p := 2 ^ e) in *.
  clearbody p. change (2 ^ 52) with 4503599627370496 in *. change (2 ^ 53) with 9007199254740992 in *.
  assert (4503599627370496 ≤ q < 9007199254740992) as Hq by nia.
  destruct ((p <? 2 * r) || ((2 * r =? p) && Z.odd q)) eqn:Hb; (split; [|eexists; split; [done|lia]]).
  - assert (p ≤ 2 * r) by (apply orb_true_iff in Hb as [Hb|[Hb _]%andb_true_iff]; lia). nia.
  - assert (2 * r ≤ p) by (apply orb_false_iff in Hb as [Hb _]; lia). nia.
Qed.

(** Ties go to the even significand; the largest counter is exported as 2^64. *)
Example float64_ties :
  float64 (2 ^ 53 + 1) = 2 ^ 53 ∧ float64 (2 ^ 53 + 3) = 2 ^ 53 + 4 ∧ float64 (2 ^ 64 - 1) = 2 ^ 64.
Proof. by vm_compute. Qed.

(** A field the additions of the source handle. *)
Record counted {A} (zero : A) (add delta : A → A → A) (f : A → Z) : Prop := {
  counted_zero : f zero = 0;
  counted_add a b : f (add a b) = u64 (f a + f b);
  counted_delta a b : f (delta a b) = u64 (f b - f a)
}.

(** The labels of packets, without the one that is never counted. *)
Definition counted_rx_labels : list (string * (UpfCounters → Z)) := take 11 rx_labels.

Lemma rx_counted l f : (l, f) ∈ counted_rx_labels → counted zeroCounters Counters_Add Counters_Delta f.
Proof.
  unfold counted_rx_labels. cbn. rewrite !elem_of_cons, elem_of_nil. intros Hin.
  repeat (destruct Hin as [Hin|Hin]; [injection Hin as -> ->; split; reflexivity|]). done.
Qed.

Lemma route_counted l f : (l, f) ∈ route_labels → counted zeroRouteStat RouteStat_Add RouteStat_Delta f.
Proof.
  unfold route_labels. rewrite !elem_of_cons, elem_of_nil. intros Hin.
  repeat (destruct Hin as [Hin|Hin]; [injection Hin as -> ->; split; reflexivity|]). done.
Qed.

Definition sum (l : list Z) : Z := foldr Z.add 0 l.

Lemma sum_fold {A B} zero add (f : A → Z) (g : B → A) (l : list B) :
  (∀ a b, f (add a b) = u64 (f a + f b)) →
  f (foldl (λ a x, add a (g x)) zero l) = if decide (l = []) then f zero else u64 (f zero + sum (f ∘ g <$> l)).
Proof.
  intros Hadd. revert zero. induction l as [|x l IH]; intros zero; [done|]. cbn [foldl]. rewrite IH.
  rewrite (decide_False (P := x :: l = [])) by done. rewrite Hadd.
  destruct (decide (l = [])) as [->|Hne]; unfold sum, compose; cbn [fmap list_fmap foldr].
  - by rewrite Z.add_0_r.
  - by rewrite u64_add_l, Z.add_assoc.
Qed.

Lemma add_all_other {A} (labels : list (string * (A → Z))) a m l :
  l ∉ labels.*1 → add_all labels a m !! l = m !! l.
Proof.
  unfold add_all. revert m. induction labels as [|x labels IH]; intros m Hl; [done|]. cbn [foldl].
  rewrite IH by set_solver. unfold counter_add. rewrite lookup_insert_ne; [done|set_solver].
Qed.

Lemma add_all_lookup {A} (labels : list (string * (A → Z))) a m l f :
  NoDup labels.*1 → (l, f) ∈ labels → add_all labels a m !! l = Some (default [] (m !! l) ++ [float64 (f a)]).
Proof.
  revert m. induction labels as [|x labels IH]; intros m Hnd Hin; [by apply elem_of_nil in Hin|].
  apply NoDup_cons in Hnd as [Hx Hnd].
  change (add_all (x :: labels) a m) with (add_all labels a (counter_add x.1 (float64 (x.2 a)) m)).
  apply elem_of_cons in Hin as [<-|Hin].
  - rewrite add_all_other by done.
    unfold counter_add. by rewrite lookup_insert_eq.
  - rewrite IH by done. unfold counter_add. rewrite lookup_insert_ne; [done|].
    intros Heq. apply Hx. rewrite Heq. apply list_elem_of_fmap. by exists (l, f).
Qed.

(** ** What is shown *)

Lemma GetUpfExtStat_counted l f cpus :
  (l, f) ∈ counted_rx_labels → f (GetUpfExtStat (inr cpus)) = u64 (sum (f ∘ upf_counters <$> cpus)).
Proof.
  intros [Hz Ha _]%rx_counted. cbn. rewrite (sum_fold _ _ f upf_counters cpus Ha), Hz.
  by destruct (decide (cpus = [])) as [->|].
Qed.

Lemma GetUpfExtStat_unexp ext : RxGtpUnexp (GetUpfExtStat ext) = 0.
Proof.
  destruct ext as [e|cpus]; [done|]. cbn. assert (RxGtpUnexp zeroCounters = 0) as Hz by done.
  revert Hz. generalize zeroCounters. induction cpus as [|x cpus IH]; intros z Hz; [done|]. by apply IH.
Qed.

(** A read of the statistics is the sum over the CPUs, modulo 2^64: for
    the packet counters, for the route counters and for the XDP actions.  The
    counter of unexpected GTP messages is the exception: its addition is
    missing, and it is always 0, whatever the data plane counted. *)
Theorem statistics_are_sums cpus routes :
  (∀ l f, (l, f) ∈ counted_rx_labels →
     f (GetUpfExtStat (inr cpus)) = u64 (sum (f ∘ upf_counters <$> cpus))) ∧
  (∀ l f, (l, f) ∈ route_labels → f (GetUpfRouteStat (inr routes)) = u64 (sum (f <$> routes))) ∧
  (∀ field, getUpfXdpStatisticField (inr cpus) field =
     u64 (sum ((λ c, XdpActions c !!! field) <$> cpus))) ∧
  RxGtpUnexp (GetUpfExtStat (inr cpus)) = 0.
Proof.
  split; [intros l f; apply GetUpfExtStat_counted|]. split; [|split; [|apply GetUpfExtStat_unexp]].
  - intros l f [Hz Ha _]%route_counted. cbn. rewrite (sum_fold _ _ f (λ x, x) routes Ha), Hz.
    by destruct (decide (routes = [])) as [->|].
  - intros field. cbn. rewrite (sum_fold 0 (λ a b, u64 (a + b)) (λ x, x)
      (λ c, XdpActions c !!! field) cpus) by done.
    by destruct (decide (cpus = [])) as [->|].
Qed.

(** The differences a reader gets that keeps its state, read after read. *)
Fixpoint read_deltas (reads : list (list UpfStatistic)) (stat : UpfXdpActionStatistic) : list UpfCounters :=
  match reads with
  | [] => []
  | cpus :: reads' =>
      match GetUpfExtStatDelta (inr cpus) stat with
      | (stat', Ok d) => d :: read_deltas reads' stat'
      | _ => []
      end
  end.

Lemma read_deltas_cons r reads stat :
  read_deltas (r :: reads) stat =
  Counters_Delta (upfCountersPrevious stat) (GetUpfExtStat (inr r)) ::
  read_deltas reads (mkUpfXdpActionStatistic (GetUpfExtStat (inr r)) (upfRoutePrevious stat)).
Proof. done. Qed.

(** Differences add up.  The values [GetUpfExtStatDelta] returns in any
    number of reads through one reader sum up, modulo 2^64, to the last
    reading minus what the reader started from: nothing is counted twice and
    nothing is lost, also when a counter wraps. *)
Theorem deltas_add_up reads cpus stat l f :
  (l, f) ∈ counted_rx_labels →
  u64 (sum (f <$> read_deltas (reads ++ [cpus]) stat)) =
  u64 (f (GetUpfExtStat (inr cpus)) - f (upfCountersPrevious stat)).
Proof.
  intros Hin. pose proof (rx_counted _ _ Hin) as [_ _ Hd]. revert stat.
  induction reads as [|r reads IH]; intros stat; cbn [app]; rewrite read_deltas_cons, fmap_cons;
    unfold sum; cbn [foldr]; rewrite Hd.
  - by rewrite Z.add_0_r, u64_mod.
  - fold (sum (f <$> read_deltas (reads ++ [cpus]) (mkUpfXdpActionStatistic (GetUpfExtStat (inr r))
      (upfRoutePrevious stat)))).
    rewrite u64_add_l, <-u64_add_r, IH, u64_add_r. cbn [upfCountersPrevious]. f_equal. lia.
Qed.

(** A scrape exports the whole reading, not the difference. *)
Lemma serve_metrics_eq cpus routes h l f :
  ForwardPlaneStats h = mkUpfXdpActionStatistic zeroCounters zeroRouteStat →
  (l, f) ∈ counted_rx_labels →
  ∃ h', serve_metrics (inr cpus) (inr routes) h = (h', Ok tt) ∧
    ForwardPlaneStats h' = ForwardPlaneStats h ∧
    UpfRx (metrics h') !! l =
      Some (default [] (UpfRx (metrics h) !! l) ++ [float64 (f (GetUpfExtStat (inr cpus)))]).
Proof.
  intros Hprev Hin. eexists. split; [done|]. split; [done|].
  cbn -[add_all float64 rx_labels GetUpfExtStat Counters_Delta]. rewrite Hprev.
  rewrite (add_all_lookup _ _ _ l f).
  - pose proof (rx_counted _ _ Hin) as [Hz _ Hd]. rewrite Hd. cbn [upfCountersPrevious].
    rewrite Hz, Z.sub_0_r. by rewrite (GetUpfExtStat_counted l f cpus Hin), u64_mod.
  - apply (bool_decide_unpack _). by vm_compute.
  - unfold counted_rx_labels in Hin. revert Hin. cbn. set_solver.
Qed.

(** The exported packet counters are wrong from the second scrape on.  The
    reader is passed to [GatherMetrics] by value, so the readings it
    remembers are lost and every scrape adds the whole count since start-up
    again: in [n] scrapes all [n] readings are added to a counter, each as a
    float64, where their differences should be. *)
Theorem scrapes_overcount scrapes h l f :
  ForwardPlaneStats h = mkUpfXdpActionStatistic zeroCounters zeroRouteStat →
  (l, f) ∈ counted_rx_labels → scrapes ≠ [] →
  ∃ h', for_each scrapes (λ s, serve_metrics (inr s.1) (inr s.2)) h = (h', Ok tt) ∧
    UpfRx (metrics h') !! l =
      Some (default [] (UpfRx (metrics h) !! l) ++
            ((λ s, float64 (f (GetUpfExtStat (inr s.1)))) <$> scrapes)).
Proof.
  intros Hprev Hin Hne. revert h Hprev. induction scrapes as [|[cpus routes] scrapes IH]; intros h Hprev; [done|].
  destruct (serve_metrics_eq cpus routes h l f Hprev Hin) as (h1 & Hrun & Hprev1 & Hval).
  cbn [for_each]. unfold mbind, M_bind. cbn [fst snd]. rewrite Hrun.
  destruct scrapes as [|s scrapes].
  - by exists h1.
  - destruct (IH ltac:(done) h1) as (h2 & Hrun2 & Hval2); [congruence|]. exists h2. split; [done|].
    rewrite Hval2, Hval. cbn [fmap list_fmap fst default from_option Datatypes.id].
    by rewrite <-app_assoc.
Qed.

(** ** Concrete readings *)

Definition demo_cpu (n : Z) : UpfStatistic :=
  mkUpfStatistic (mkUpfCounters n 0 0 (2 * n) 0 0 0 0 0 0 0 5) (mkN3N6Counters 0 0 0 0) (replicate 8 n).

Lemma deltas_add_up_witness :
  u64 (sum (RxArp <$> read_deltas [[demo_cpu 3; demo_cpu 4]; [demo_cpu 5; demo_cpu 4]]
    (mkUpfXdpActionStatistic zeroCounters zeroRouteStat))) = 9.
Proof.
  etrans; [apply (deltas_add_up [[demo_cpu 3; demo_cpu 4]] [demo_cpu 5; demo_cpu 4]
    (mkUpfXdpActionStatistic zeroCounters zeroRouteStat) "arp" RxArp); by left|].
  vm_compute. reflexivity.
Defined.

Lemma scrapes_overcount_witness :
  ∃ h', for_each [([demo_cpu 3], []); ([demo_cpu 3], []); ([demo_cpu 4], [])]
          (λ s, serve_metrics (inr s.1) (inr s.2))
          (mkMetricsServer (mkUpfXdpActionStatistic zeroCounters zeroRouteStat) (mkMetrics ∅ ∅)) = (h', Ok tt) ∧
    UpfRx (metrics h') !! "arp"%string = Some [3; 3; 4].
Proof.
  destruct (scrapes_overcount [([demo_cpu 3], []); ([demo_cpu 3], []); ([demo_cpu 4], [])]
    (mkMetricsServer (mkUpfXdpActionStatistic zeroCounters zeroRouteStat) (mkMetrics ∅ ∅)) "arp" RxArp)
    as (h' & Hrun & Hval); [done|by left|done|].
  exists h'. split; [exact Hrun|]. etrans; [exact Hval|vm_compute; reflexivity].
Defined.
