(* ===== verification/Rest.v ===== *)
(** * The REST API (cmd/api/rest, cmd/core/config_edit.go, logger.go)

    The handlers of the HTTP interface on the state they share with the rest
    of the program: the configuration, the connection and the kernel maps.
    gin's request decoding is a parameter; a response is the list of bodies a
    handler writes, each with its status.  The uplink PDR handlers pass a Go
    structure of one size for map entries of another through [unsafe.Pointer],
    which has no meaning in the language: what it does is a parameter. *)

From S2P Require Import Prelude IdTracker Net Config KernelMap ForwardingPlane Dataplane Session.
From S2P Require Import Resources Sdf Pfcp PdrContext Connection.

(** ** Requests and responses *)

Definition StatusOK : Z := 200.
Definition StatusCreated : Z := 201.
Definition StatusBadRequest : Z := 400.
Definition StatusNotFound : Z := 404.
Definition StatusInternalServerError : Z := 500.

(** What a handler writes: a value, or an error message. *)
Abbreviation response A := (list (Z * (string + A))).

Definition error_text (e : error) : string :=
  match e with Sentinel name => name | Errorf msg => msg end.

(** [strconv.Atoi] *)
Definition Atoi (s : string) : outcome Z :=
  let '(negative, l) := match chars s with
                        | "-"%char :: l => (true, l)
                        | "+"%char :: l => (false, l)
                        | l => (false, l)
                        end in
  if bool_decide (l = []) then Err (Errorf "invalid syntax")
  else if forallb is_digit l then
    let n := if negative then - digits_val l else digits_val l in
    if bool_decide (- 2 ^ 63 ≤ n < 2 ^ 63) then Ok n else Err (Errorf "value out of range")
  else Err (Errorf "invalid syntax").

(** ** Sessions *)

Section sessions.
Context `{MapOrder}.
Implicit Types nodeMap : gmap string NodeAssociation.

(** The sessions in the order of two nested ranges. *)
(* cmd/api/rest/pfcp_sessions.go:51-58 GetAllSessions *)
Definition GetAllSessions nodeMap : list Session :=
  concat ((λ nodeAssoc, (range_map (Sessions nodeAssoc.2)).*2) <$> range_map nodeMap).

(** The first session with a PDR that [f] accepts. *)
Definition first_session (f : SPDRInfo → bool) nodeMap : option Session :=
  head (filter (λ session, existsb (λ PDR, f PDR.2) (range_map (PDRs session)) = true)
          (GetAllSessions nodeMap)).

(* cmd/api/rest/pfcp_sessions.go:60-71 FilterSessionsByIP *)
Definition FilterSessionsByIP nodeMap (filterByIP : NetIP) : option Session :=
  first_session (λ PDR, IPEqual (s_Ipv4 PDR) filterByIP) nodeMap.

(* cmd/api/rest/pfcp_sessions.go:73-84 FilterSessionsByTeid *)
Definition FilterSessionsByTeid nodeMap (filterByTeid : Z) : option Session :=
  first_session (λ PDR, s_Teid PDR =? filterByTeid) nodeMap.

(** A parameter that does not parse writes its error and the handler goes on. *)
(* cmd/api/rest/pfcp_sessions.go:19-49 listPfcpSessionsFiltered *)
Definition listPfcpSessionsFiltered (sIp sTeid : string) nodeMap : response (list Session) :=
  if bool_decide (sIp = "" ∧ sTeid = "") then [(StatusOK, inr (GetAllSessions nodeMap))]
  else
    let '(bad_ip, by_ip) :=
      if bool_decide (sIp = "") then ([], [])
      else match ParseIP sIp with
           | Some ip => ([], option_list (FilterSessionsByIP nodeMap (Some ip)))
           | None => ([(StatusBadRequest, inl "Failed to parse IP"%string)], [])
           end in
    let '(bad_teid, by_teid) :=
      if bool_decide (sTeid = "") then ([], [])
      else match Atoi sTeid with
           | Ok teid => ([], option_list (FilterSessionsByTeid nodeMap (u32 teid)))
           | _ => ([(StatusBadRequest, inl "Failed to parse TEID"%string)], [])
           end in
    bad_ip ++ bad_teid ++ [(StatusOK, inr (by_ip ++ by_teid))].

(* cmd/api/rest/pfcp_associations.go:9-13 NodeAssociationNoSession *)
Record NodeAssociationNoSession := mkNodeAssociationNoSession {
  ns_ID : string;
  ns_Addr : string;
  ns_NextSessionID : Z
}.

(* cmd/api/rest/pfcp_associations.go:24-35 listPfcpAssociations *)
Definition listPfcpAssociations nodeMap : response (gmap string NodeAssociationNoSession) :=
  [(StatusOK, inr ((λ v, mkNodeAssociationNoSession (ID v) (Addr v) (NextSessionID v)) <$> nodeMap))].

(* cmd/api/rest/pfcp_associations.go:44-46 listPfcpAssociationsFull *)
Definition listPfcpAssociationsFull nodeMap : response (gmap string NodeAssociation) :=
  [(StatusOK, inr nodeMap)].

End sessions.

(** ** Configuration *)

Definition set_LoggingLevel (l : string) (c : UpfConfig) : UpfConfig :=
  mkUpfConfig (InterfaceName c) (XDPAttachMode c) (ApiAddress c) (PfcpAddress c) (PfcpNodeId c)
    (PfcpRemoteNode c) (AssociationSetupTimeout c) (MetricsAddress c) (N3Address c) (N9Address c)
    (GtpPeer c) (GtpEchoInterval c) (QerMapSize c) (FarMapSize c) (UrrMapSize c) (PdrMapSize c)
    (MaxSessions c) (HeartbeatRetries c) (HeartbeatInterval c) (HeartbeatTimeout c)
    l (UEIPPool c) (FTEIDPool c) (FeatureUEIP c) (FeatureFTUP c).

(** A configuration all of whose fields are zero: [var conf config.UpfConfig]. *)
Definition zeroUpfConfig : UpfConfig :=
  mkUpfConfig [] "" "" "" "" [] 0 "" "" "" [] 0 0 0 0 0 0 0 0 0 "" "" 0 false false.

Section configuration.
(** [zerolog.ParseLevel] and [Level.String]. *)
Context {Level : Type}.
Variable ParseLevel : string → outcome Level.
Variable Level_String : Level → string.
(** [gin.Context.BindJSON] of a body into a configuration. *)
Context {Body : Type}.
Variable BindJSON : Body → UpfConfig → outcome UpfConfig.

(** The state: [config.Conf], which [h.Cfg] points to. *)
(* cmd/core/logger.go:17-28 SetLoggerLevel *)
Definition SetLoggerLevel (loggingLevel : string) : M UpfConfig unit :=
  if bool_decide (loggingLevel = "") then throw (Errorf "Logging level can't be empty")
  else match ParseLevel loggingLevel with
       | Ok loglvl => modify (set_LoggingLevel (Level_String loglvl))
       | _ => throw (Errorf ("Can't parse logging level: '" ++ loggingLevel ++ "'"))
       end.

(* cmd/core/config_edit.go:11-18 SetConfig *)
Definition SetConfig (conf : UpfConfig) : M UpfConfig unit :=
  on_result (SetLoggerLevel (LoggingLevel conf)) (λ _, mret tt)
    (λ err, throw (Errorf ("Logger configuring error: " ++ error_text err))).

(* cmd/api/rest/config.go:18-20 displayConfig *)
Definition displayConfig (Cfg : UpfConfig) : response UpfConfig := [(StatusOK, inr Cfg)].

(* cmd/api/rest/config.go:22-41 editConfig *)
Definition editConfig (body : Body) : M UpfConfig (response unit) :=
  match BindJSON body zeroUpfConfig with
  | Ok conf =>
      modify (λ _, conf) ≫= λ _,
      on_result (SetConfig conf)
        (λ _, mret [(StatusOK, inr tt)])
        (λ err, mret [(StatusBadRequest, inl ("Error during editing config: " ++ error_text err)%string)])
  | _ => mret [(StatusBadRequest, inl "Request body json has incorrect format. Use one or more fields from the following structure"%string)]
  end.

End configuration.

(** ** FARs and QERs *)

(** A value of the table [FarInfo.MarshalJSON] hands to the JSON encoder. *)
Inductive json_value := JNumber (n : Z) | JString (s : string).

(** How a session listing shows a FAR: the remote address as text. *)
(* cmd/ebpf/pdr.go:161-172 MarshalJSON *)
Definition MarshalJSON (f : FarInfo) : gmap string json_value :=
  let remoteIP := Some (LittleEndian_PutUint32 (RemoteIP f)) in
  list_to_map [("action", JNumber (Action f));
    ("outer_header_creation", JNumber (OuterHeaderCreation f)); ("teid", JNumber (Teid f));
    ("remote_ip", JString (IPString remoteIP));
    ("transport_level_marking", JNumber (TransportLevelMarking f))]%string.

Section maps.
Context `{Bitmap B} `{KernelMap Mp}.
Abbreviation Objs := (BpfObjects B Mp).
Context {Body : Type}.

(* cmd/api/rest/far_map.go:13-20 FarMapElement *)
Record FarMapElement := mkFarMapElement {
  fe_Id : Z;
  fe_Action : Z;
  fe_OuterHeaderCreation : Z;
  fe_Teid : Z;
  fe_RemoteIP : Z;
  fe_TransportLevelMarking : Z
}.

(* cmd/ebpf/utils.go:63-70 QerMapElement *)
Record QerMapElement := mkQerMapElement {
  qe_Id : Z;
  qe_GateStatusUL : Z;
  qe_GateStatusDL : Z;
  qe_Qfi : Z;
  qe_MaxBitrateUL : Z;
  qe_MaxBitrateDL : Z
}.

Variable BindFar : Body → outcome FarMapElement.
Variable BindQer : Body → outcome QerMapElement.

Definition far_element (id : Z) (value : FarInfo) : FarMapElement :=
  mkFarMapElement id (Action value) (OuterHeaderCreation value) (Teid value) (RemoteIP value)
    (TransportLevelMarking value).

Definition qer_element (id : Z) (value : QerInfo) : QerMapElement :=
  mkQerMapElement id (GateStatusUL value) (GateStatusDL value) (Qfi value) (MaxBitrateUL value)
    (MaxBitrateDL value).

(* cmd/api/rest/far_map.go:22-45 getFarValue *)
Definition getFarValue (param : string) (s : Objs) : response FarMapElement :=
  match Atoi param with
  | Ok id =>
      match Lookup (u32 id) (FarMap s) with
      | Ok value => [(StatusOK, inr (far_element (u32 id) value))]
      | Err err => [(StatusNotFound, inl (error_text err))]
      | Panic => []
      end
  | Err err => [(StatusBadRequest, inl (error_text err))]
  | Panic => []
  end.

(* cmd/api/rest/far_map.go:47-70 setFarValue *)
Definition setFarValue (body : Body) : M Objs (response FarMapElement) :=
  match BindFar body with
  | Ok farElement =>
      let value := mkFarInfo (fe_Action farElement) (fe_OuterHeaderCreation farElement)
                     (fe_Teid farElement) (fe_RemoteIP farElement)
                     (fe_TransportLevelMarking farElement) in
      on_result (zoom FarMap set_FarMap (Put (fe_Id farElement) value))
        (λ _, mret [(StatusCreated, inr farElement)])
        (λ err, mret [(StatusInternalServerError, inl (error_text err))])
  | Err err => mret [(StatusBadRequest, inl (error_text err))]
  | Panic => panic
  end.

(* cmd/api/rest/qer_map.go:36-60 getQerValue *)
Definition getQerValue (param : string) (s : Objs) : response QerMapElement :=
  match Atoi param with
  | Ok id =>
      match Lookup (u32 id) (QerMap s) with
      | Ok value => [(StatusOK, inr (qer_element (u32 id) value))]
      | Err err => [(StatusNotFound, inl (error_text err))]
      | Panic => []
      end
  | Err err => [(StatusBadRequest, inl (error_text err))]
  | Panic => []
  end.

(* cmd/api/rest/qer_map.go:62-87 setQerValue *)
Definition setQerValue (body : Body) : M Objs (response QerMapElement) :=
  match BindQer body with
  | Ok qerElement =>
      let value := mkQerInfo (qe_GateStatusUL qerElement) (qe_GateStatusDL qerElement)
                     (qe_Qfi qerElement) (qe_MaxBitrateUL qerElement) (qe_MaxBitrateDL qerElement)
                     0 0 in
      on_result (zoom QerMap set_QerMap (Put (qe_Id qerElement) value))
        (λ _, mret [(StatusCreated, inr qerElement)])
        (λ err, mret [(StatusInternalServerError, inl (error_text err))])
  | Err err => mret [(StatusBadRequest, inl (error_text err))]
  | Panic => panic
  end.

(** *** Uplink PDRs

    The handlers give the table's operations the address of a [PdrInfo], whose
    layout is not that of the entries.  What such a lookup leaves in the
    structure and what such a write stores is outside the language: both are
    parameters. *)

(* cmd/api/rest/uplink_pdr.go:13-18 PdrElement *)
Record PdrElement := mkPdrElement {
  pe_Id : Z;
  pe_OuterHeaderRemoval : Z;
  pe_FarId : Z;
  pe_QerId : Z
}.

Variable BindPdr : Body → outcome PdrElement.
Variable UnsafeLookup : Z → Mp Z IpEntrypointPdrInfo → outcome PdrInfo.
Variable UnsafePut : Z → PdrInfo → M (Mp Z IpEntrypointPdrInfo) unit.

(* cmd/api/rest/uplink_pdr.go:20-41 getUplinkPdrValue *)
Definition getUplinkPdrValue (param : string) (s : Objs) : outcome (response PdrElement) :=
  match Atoi param with
  | Ok id =>
      match UnsafeLookup (u32 id) (PdrMapTeidIp4 s) with
      | Ok value => Ok [(StatusOK, inr (mkPdrElement (u32 id) (OuterHeaderRemoval value) (FarId value) (QerId value)))]
      | Err err => Ok [(StatusNotFound, inl (error_text err))]
      | Panic => Panic
      end
  | Err err => Ok [(StatusBadRequest, inl (error_text err))]
  | Panic => Panic
  end.

(* cmd/api/rest/uplink_pdr.go:44-65 setUplinkPdrValue *)
Definition setUplinkPdrValue (body : Body) : M Objs (response PdrElement) :=
  match BindPdr body with
  | Ok pdrElement =>
      let value := mkPdrInfo (pe_OuterHeaderRemoval pdrElement) (pe_FarId pdrElement) (pe_QerId pdrElement)
                     0 0 None in
      on_result (zoom PdrMapTeidIp4 set_PdrMapTeidIp4 (UnsafePut (pe_Id pdrElement) value))
        (λ _, mret [(StatusCreated, inr pdrElement)])
        (λ err, mret [(StatusInternalServerError, inl (error_text err))])
  | Err err => mret [(StatusBadRequest, inl (error_text err))]
  | Panic => panic
  end.

(** *** Program arrays

    No handler calls this one. *)

(* cmd/ebpf/utils.go:23-31 BpfMapProgArrayMember *)
Record BpfMapProgArrayMember := mkProgArrayMember {
  ProgramId : Z;
  ProgramRef : Z;
  ProgramName : string;
  ProgramRunCount : Z;
  ProgramRunCountEnabled : bool;
  ProgramDuration : Z;
  ProgramDurationEnabled : bool
}.

Section programs.
(** [Program.Info] (nil when it fails), and what [ProgramInfo] says: the
    program's number, which the kernel may not tell, its name, and its run
    count and run time with whether they are collected. *)
Context {Program ProgramInfo : Type} (Info : Program → option ProgramInfo) (ID : ProgramInfo → Z * bool)
  (Name : ProgramInfo → string) (RunCount Runtime : ProgramInfo → Z * bool).

(** One element; an error of [Info] is dropped, and the nil pointer followed. *)
(* cmd/ebpf/utils.go:45-58 ListMapProgArrayContents *)
Definition prog_array_member (entry : Z * Program) : outcome BpfMapProgArrayMember :=
  match Info entry.2 with
  | None => Panic
  | Some programInfo =>
      Ok (mkProgArrayMember entry.1 (u32 (ID programInfo).1) (Name programInfo)
            (u32 (RunCount programInfo).1) (RunCount programInfo).2
            (u32 (Runtime programInfo).1) (Runtime programInfo).2)
  end.

(** [m] is whether the map is a program array, the entries the iterator gives,
    and the error it ends with, which is returned next to the list. *)
(* cmd/ebpf/utils.go:33-61 ListMapProgArrayContents *)
Definition ListMapProgArrayContents (m : bool * list (Z * Program) * option error)
    : outcome (list BpfMapProgArrayMember * option error) :=
  let '(prog_array, entries, iter_err) := m in
  if negb prog_array then Ok ([], Some (Errorf "map is not a program array"))
  else members ← mapM prog_array_member entries; Ok (members, iter_err).

End programs.

(** All entries of the QER map, in the order of their indices. *)
(* cmd/ebpf/utils.go:72-99 ListQerMapContents *)
Definition ListQerMapContents (m : Mp Z QerInfo) : outcome (list QerMapElement) :=
  if negb (bool_decide (KernelMap.Type_ m = Array)) then Err (Errorf "map is not a hash")
  else mapM (λ i, value ← Lookup i m; Ok (qer_element i value)) (seqZ 0 (MaxEntries m)).

(* cmd/api/rest/qer_map.go:19-26 listQerMapContent *)
Definition listQerMapContent (s : Objs) : response (list QerMapElement) :=
  match ListQerMapContents (QerMap s) with
  | Ok elements => [(StatusOK, inr elements)]
  | Err err => [(StatusInternalServerError, inl (error_text err))]
  | Panic => []
  end.

End maps.

(** ** What is shown *)

(** The address shown for a FAR is its remote address: read back, it gives the
    number the data plane holds. *)
Lemma MarshalJSON_remote_ip f :
  in_range 32 (RemoteIP f) →
  ∃ text, MarshalJSON f !! "remote_ip"%string = Some (JString text) ∧
    LittleEndian_Uint32 (To4 (ParseIP text)) = Ok (RemoteIP f).
Proof.
  intros Hr. exists (IPString (Some (LittleEndian_PutUint32 (RemoteIP f)))). split; [done|].
  unfold LittleEndian_PutUint32, IPString. cbn [To4 length bool_decide].
  rewrite bool_decide_eq_true_2 by done. rewrite ParseIP_dotted.
  - cbn -[Z.mul Z.pow Z.div Z.modulo].
    change (bool_decide (16%nat = 4%nat)) with false. change (bool_decide (16%nat = 16%nat)) with true.
    rewrite bool_decide_eq_true_2 by done. cbn -[Z.mul Z.pow Z.div Z.modulo].
    f_equal. unfold in_range in Hr. change (2 ^ 8) with 256. change (2 ^ 16) with 65536.
    change (2 ^ 24) with 16777216. change (2 ^ 32) with 4294967296 in Hr.
    Z.to_euclidean_division_equations. lia.
  - repeat constructor; by apply Z.mod_pos_bound.
Qed.

Section shown.
Context `{MapOrder}.
Implicit Types nodeMap : gmap string NodeAssociation.

(** [PDR] is a PDR of [session], a session of some association. *)
Definition listed nodeMap (session : Session) (PDR : SPDRInfo) : Prop :=
  ∃ addr assoc seid pid, nodeMap !! addr = Some assoc ∧ Sessions assoc !! seid = Some session ∧
    PDRs session !! pid = Some PDR.

Lemma elem_of_GetAllSessions nodeMap session :
  session ∈ GetAllSessions nodeMap ↔
  ∃ addr assoc seid, nodeMap !! addr = Some assoc ∧ Sessions assoc !! seid = Some session.
Proof.
  unfold GetAllSessions. rewrite list_elem_of_In, in_concat. split.
  - intros (l & Hl%list_elem_of_In & Hs%list_elem_of_In).
    apply list_elem_of_fmap in Hl as ([addr assoc] & -> & Ha%elem_of_range_map).
    apply list_elem_of_fmap in Hs as ([seid ses] & -> & Hs%elem_of_range_map). eauto.
  - intros (addr & assoc & seid & Ha & Hs). exists ((range_map (Sessions assoc)).*2).
    rewrite <-!list_elem_of_In. split; apply list_elem_of_fmap.
    + exists (addr, assoc). split; [done|]. by apply elem_of_range_map.
    + exists (seid, session). split; [done|]. by apply elem_of_range_map.
Qed.

Lemma existsb_PDRs (f : SPDRInfo → bool) session :
  existsb (λ PDR, f PDR.2) (range_map (PDRs session)) = true ↔
  ∃ pid PDR, PDRs session !! pid = Some PDR ∧ f PDR = true.
Proof.
  rewrite existsb_exists. split.
  - intros ([pid PDR] & Hin%list_elem_of_In%elem_of_range_map & Hf). eauto.
  - intros (pid & PDR & Hin & Hf). exists (pid, PDR). split; [|done].
    by apply list_elem_of_In, elem_of_range_map.
Qed.

Lemma first_session_spec f nodeMap :
  (∀ session, first_session f nodeMap = Some session →
     ∃ PDR, listed nodeMap session PDR ∧ f PDR = true) ∧
  (first_session f nodeMap = None → ∀ session PDR, listed nodeMap session PDR → f PDR = false).
Proof.
  unfold first_session. destruct (filter _ _) as [|s l] eqn:Hf; split; try done.
  - intros _ session PDR (addr & assoc & seid & pid & Ha & Hs & Hp).
    destruct (f PDR) eqn:Hb; [|done]. exfalso.
    assert (session ∈ filter (λ session, existsb (λ PDR, f PDR.2) (range_map (PDRs session)) = true)
      (GetAllSessions nodeMap)) as Hin.
    { apply list_elem_of_filter. rewrite existsb_PDRs, elem_of_GetAllSessions. eauto 10. }
    rewrite Hf in Hin. by apply elem_of_nil in Hin.
  - intros session [= ->].
    assert (session ∈ session :: l) as Hin by set_solver. rewrite <-Hf in Hin.
    apply list_elem_of_filter in Hin as [(pid & PDR & Hp & Hb)%existsb_PDRs Hin].
    apply elem_of_GetAllSessions in Hin as (addr & assoc & seid & Ha & Hs).
    exists PDR. split; [|done]. by exists addr, assoc, seid, pid.
Qed.

(** The session filters of the API find what is there, whatever the order
    of the maps.  By TEID or by IP address, the session returned has a PDR with
    it, and when none is returned no session has; an address matches in its
    4-byte and its 16-byte form.  Only IPv4 addresses are compared: a session
    without an IPv4 PDR is never found by address. *)
Theorem session_filters_find nodeMap teid ip :
  (∀ session, FilterSessionsByTeid nodeMap teid = Some session →
     ∃ PDR, listed nodeMap session PDR ∧ s_Teid PDR = teid) ∧
  (FilterSessionsByTeid nodeMap teid = None →
     ∀ session PDR, listed nodeMap session PDR → s_Teid PDR ≠ teid) ∧
  (∀ session, FilterSessionsByIP nodeMap (Some ip) = Some session → ip ≠ [] →
     ∃ PDR a, listed nodeMap session PDR ∧ s_Ipv4 PDR = Some a ∧
       (a = ip ∨ a = v4InV6Prefix ++ ip ∨ ip = v4InV6Prefix ++ a)) ∧
  (FilterSessionsByIP nodeMap (Some ip) = None →
     ∀ session PDR, listed nodeMap session PDR → s_Ipv4 PDR ≠ Some ip).
Proof.
  split_and!.
  - intros session (PDR & Hl & Hf%Z.eqb_eq)%(proj1 (first_session_spec _ _)). eauto.
  - intros Hnone session PDR Hl. pose proof (proj2 (first_session_spec _ _) Hnone session PDR Hl) as Hf.
    by apply Z.eqb_neq in Hf.
  - intros session (PDR & Hl & Hf)%(proj1 (first_session_spec _ _)) Hne. exists PDR.
    unfold IPEqual in Hf. cbn in Hf. destruct (s_Ipv4 PDR) as [a|]; cbn in Hf.
    + exists a. split; [done|]. split; [done|]. repeat case_bool_decide; naive_solver.
    + destruct ip; [done|]. by repeat case_bool_decide.
  - intros Hnone session PDR Hl Hip. pose proof (proj2 (first_session_spec _ _) Hnone session PDR Hl) as Hf.
    unfold IPEqual in Hf. rewrite Hip in Hf. cbn in Hf. by rewrite !bool_decide_eq_true_2 in Hf.
Qed.

End shown.

Section edit.
Context {Level : Type}.
Variable ParseLevel : string → outcome Level.
Variable Level_String : Level → string.
Context {Body : Type}.
Variable BindJSON : Body → UpfConfig → outcome UpfConfig.

(** Editing the configuration replaces all of it.  Where the code says
    that only [logging_level] can be updated, an accepted edit leaves the
    values the body decodes to over an all-zero configuration, whatever was
    configured before and without validation; and so does an edit that is
    rejected because of its logging level.  So the request
    [{"logging_level": ...}] turns off both features and zeroes the heartbeat
    time-out and retries; only a body that does not decode changes nothing. *)
Theorem editConfig_replaces_everything body conf c :
  BindJSON body zeroUpfConfig = Ok conf →
  ∃ c' r, editConfig ParseLevel Level_String BindJSON body c = (c', Ok r) ∧
    set_LoggingLevel "" c' = set_LoggingLevel "" conf ∧
    ((∃ l, LoggingLevel conf ≠ "" ∧ ParseLevel (LoggingLevel conf) = Ok l ∧
        r = [(StatusOK, inr tt)] ∧ LoggingLevel c' = Level_String l) ∨
     (∃ msg, r = [(StatusBadRequest, inl msg)] ∧ c' = conf)).
Proof.
  intros Hbind. unfold editConfig. rewrite Hbind. unfold SetConfig, SetLoggerLevel.
  unfold mbind, M_bind, modify, on_result.
  case_bool_decide as Hempty; [eexists _, _; split; [done|]; split; [done|]; right; by eexists|].
  destruct (ParseLevel (LoggingLevel conf)) as [l|e|] eqn:Hl.
  - eexists _, _. split; [done|]. split; [done|]. left. by exists l.
  - eexists _, _. split; [done|]. split; [done|]. right. by eexists.
  - eexists _, _. split; [done|]. split; [done|]. right. by eexists.
Qed.

End edit.

Section put_get.
Context `{Bitmap B} `{KernelMapLaws Mp} {Body : Type}.
Variable BindFar : Body → outcome FarMapElement.
Variable BindQer : Body → outcome QerMapElement.
Implicit Types s : BpfObjects B Mp.

Lemma getFarValue_ok param id s x :
  Atoi param = Ok id →
  getFarValue param s = [(StatusOK, inr x)] ↔ (far_element (u32 id) <$> km_get (FarMap s) (u32 id)) = Some x.
Proof. intros Hid. unfold getFarValue, km_get. rewrite Hid. destruct (Lookup _ _); cbn; naive_solver. Qed.

Lemma getQerValue_ok param id s x :
  Atoi param = Ok id →
  getQerValue param s = [(StatusOK, inr x)] ↔ (qer_element (u32 id) <$> km_get (QerMap s) (u32 id)) = Some x.
Proof. intros Hid. unfold getQerValue, km_get. rewrite Hid. destruct (Lookup _ _); cbn; naive_solver. Qed.

(** What is read back of a rule that was written through the API: the rule
    under each text of its id, and under every other id what was there before;
    a number that does not fit uint32 stands for its remainder. *)
Definition reads_back {E} (get : string → BpfObjects B Mp → response E) (id : Z) (e : E) s s' : Prop :=
  ∀ param n, Atoi param = Ok n → ∀ x,
    get param s' = [(StatusOK, inr x)] ↔
    if decide (id = u32 n) then x = e else get param s = [(StatusOK, inr x)].


End put_get.

(** ** Concrete requests *)

#[local] Existing Instance ascending_order.

Definition demo_rest_session : Session :=
  mkSession 2 77 {[1 := mkSPDRInfo 1 zeroPdrInfo 0 (Some [10; 60; 0; 1]) None true]} ∅ ∅ ∅.
Definition demo_rest_map : gmap string NodeAssociation :=
  {["10.0.0.1"%string := mkNodeAssociation "smf" "10.0.0.1" 2 1 {[2 := demo_rest_session]}]}.

Lemma session_filters_find_witness :
  FilterSessionsByIP demo_rest_map (ParseIP "10.60.0.1") ≠ None ∧
  ∃ PDR, listed demo_rest_map demo_rest_session PDR ∧ s_Teid PDR = 0.
Proof.
  split; [by vm_compute|].
  apply (proj1 (session_filters_find demo_rest_map 0 [10; 60; 0; 1])). by vm_compute.
Defined.

(** A decoder that sets the logging level only. *)
Definition demo_bind (body : string) (c : UpfConfig) : outcome UpfConfig := Ok (set_LoggingLevel body c).

Lemma editConfig_replaces_everything_witness :
  let ParseLevel l := if bool_decide (l = "debug"%string) then Ok l else Err (Errorf "unknown level") in
  ∃ c' r, editConfig ParseLevel (λ l, l) demo_bind "debug" default_config = (c', Ok r) ∧
    HeartbeatTimeout c' = 0 ∧ HeartbeatRetries c' = 0 ∧ MaxSessions c' = 0.
Proof.
  intros ParseLevel.
  destruct (editConfig_replaces_everything ParseLevel (λ l, l) demo_bind "debug"
    (set_LoggingLevel "debug" zeroUpfConfig) default_config) as (c' & r & Hrun & Hc & _); [done|].
  exists c', r. split; [exact Hrun|]. destruct c'. cbn in Hc. by injection Hc as -> -> ->.
Defined.

(** FAR 2 of a table of four is written and read under its id and under a
    number that wraps to it; a QER outside its table is refused. *)
Definition demo_far_element : FarMapElement := mkFarMapElement 2 2 1 7 33554442 0.
Definition demo_qer_element : QerMapElement := mkQerMapElement 9 0 0 5 1000 1000.
Definition demo_tables : BpfObjects (gset Z) kmap :=
  mkBpfObjects (new_array 4 (mkFarInfo 0 0 0 0 0)) (new_array 4 (mkQerInfo 0 0 0 0 0 0 0))
    (new_array 4 zeroUrrInfo) (new_hash 4) (new_hash 4) (new_hash 4) (NewIdTracker 4) (NewIdTracker 4)
    (NewIdTracker 4) (mkMapSizes 4 4 4 4).

