(* ===== verification/GtpPath.v ===== *)
(** * The GTP path manager (cmd/core/gtp_path_manager.go)

    A goroutine that sends a GTP-U echo request to every configured peer at
    each tick of a timer and keeps a 16-bit sequence number per peer.  The
    state is the manager's record with the trace of requests sent; gopacket
    and the UDP socket are parameters.  What the network does with one
    attempt is an [Attempt]; a tick gives one for each peer. *)

From S2P Require Import Prelude Config Pfcp.

(** The fields of [layers.GTPv1U] the source sets or reads. *)
(* cmd/core/gtp_path_manager.go:72-79 sendEcho *)
Record GTPv1U := mkGTPv1U {
  gtpu_Version : Z;
  gtpu_MessageType : Z;
  gtpu_MessageLength : Z;
  gtpu_TEID : Z;
  gtpu_SequenceNumberFlag : bool;
  gtpu_SequenceNumber : Z
}.

(* cmd/core/gtp_path_manager.go:15-21 GtpPathManager *)
Record GtpPathManager := mkGtpPathManager {
  localAddress : string;
  peers : gmap string Z;
  checkInterval : Z
}.

(* cmd/core/gtp_path_manager.go:23-32 NewGtpPathManager *)
Definition NewGtpPathManager (localAddress : string) (interval : Z) : GtpPathManager :=
  mkGtpPathManager localAddress ∅ interval.

Definition set_peers (f : gmap string Z → gmap string Z) (g : GtpPathManager) : GtpPathManager :=
  mkGtpPathManager (localAddress g) (f (peers g)) (checkInterval g).

(* cmd/core/gtp_path_manager.go:34-36 AddGtpPath *)
Definition AddGtpPath (gtpPeerAddress : string) : GtpPathManager → GtpPathManager :=
  set_peers <[gtpPeerAddress := 0]>.

(** The end of [main]: a manager with the configured peers. *)
(* cmd/main.go:135-139 main *)
Definition start_gtp_paths (Conf : UpfConfig) : GtpPathManager :=
  foldl (λ g peer, AddGtpPath peer g)
    (NewGtpPathManager (N3Address Conf ++ ":2152") (GtpEchoInterval Conf * 10 ^ 9)) (GtpPeer Conf).

(** The echo request with a sequence number. *)
(* cmd/core/gtp_path_manager.go:72-79 sendEcho *)
Definition echo_request (seq : Z) : GTPv1U := mkGTPv1U 1 1 4 0 true seq.

(** The checks on the datagram that came back: [None] when it has no GTP layer. *)
(* cmd/core/gtp_path_manager.go:110-125 sendEcho *)
Definition check_response (gtpLayer : option GTPv1U) : outcome unit :=
  match gtpLayer with
  | Some gtp =>
      if negb (gtpu_MessageType gtp =? 2) then Err (Errorf "unexpected gtp echo response")
      else if negb (gtpu_TEID gtp =? 0) then Err (Errorf "unexpected gtp echo response TEID")
      else Ok tt
  | None => Err (Errorf "unexpected gtp echo response")
  end.

(** What the socket does with one request: [DialUDP], [Write] and [Read]
    return, and the time from sending to reception. *)
Record Attempt := mkAttempt {
  dialed : result unit;
  written : result unit;
  received : result (list Z);
  elapsedTime : Z
}.

Section gtp_path.
Context {Addr : Type}.
(** [gopacket.SerializeLayers] of one GTP-U header, and the GTP-U layer of
    [gopacket.NewPacket]. *)
Variable SerializeLayers : GTPv1U → result (list Z).
Variable NewPacket : list Z → option GTPv1U.
Variable ResolveUDPAddr : string → result Addr.

(** A datagram written to the socket: the peer it is for, the addresses it
    goes from and to, and its bytes. *)
Record Echo := mkEcho { e_peer : string; e_from : Addr; e_to : Addr; e_bytes : list Z }.

(* cmd/core/gtp_path_manager.go:70-128 sendEcho *)
Definition sendEcho (localAddress gtpPeerAddress : string) (seq : Z) (a : Attempt)
    : M (list Echo) Z :=
  gtpEchoRequest ← lift (of_result (SerializeLayers (echo_request seq)));
  udpLocalAddr ← lift (of_result (ResolveUDPAddr localAddress));
  udpRemoteAddr ← lift (of_result (ResolveUDPAddr gtpPeerAddress));
  lift (of_result (dialed a)) ≫= λ _,
  lift (of_result (written a)) ≫= λ _,
  modify (λ sent, sent ++ [mkEcho gtpPeerAddress udpLocalAddr udpRemoteAddr gtpEchoRequest]) ≫= λ _,
  receiveBuffer ← lift (of_result (received a));
  lift (check_response (NewPacket receiveBuffer)) ≫= λ _,
  mret (elapsedTime a).

(** The manager and what it has sent. *)
Record Paths := mkPaths { manager : GtpPathManager; sent : list Echo }.

Definition set_manager (f : GtpPathManager → GtpPathManager) (p : Paths) : Paths :=
  mkPaths (f (manager p)) (sent p).
Definition set_sent (l : list Echo) (p : Paths) : Paths := mkPaths (manager p) l.

Context `{MapOrder}.

(** One round of the loop's body; the number sent is the one read when the
    range reached the peer. *)
(* cmd/core/gtp_path_manager.go:48-59 Run *)
Definition try_peer (net : string → Attempt) (entry : string * Z) : M Paths unit :=
  let '(peer, sequenceNumber) := entry in
  local ← gets (λ p, localAddress (manager p));
  on_result (zoom sent set_sent (sendEcho local peer sequenceNumber (net peer)))
    (λ _, modify (set_manager (set_peers <[peer := u16 (sequenceNumber + 1)]>)))
    (λ _, mret tt).

(** The loop assigns only to the peer the range is at, so that the entries
    it visits are those at the tick. *)
(* cmd/core/gtp_path_manager.go:47-60 Run *)
Definition tick (net : string → Attempt) : M Paths unit :=
  entries ← gets (λ p, range_map (peers (manager p)));
  for_each entries (try_peer net).

Inductive path_event :=
  | Tick (net : string → Attempt)
  | Done.

(** What the select of the goroutine takes, one event after another, until
    the context is over. *)
Fixpoint path_loop (events : list path_event) : M Paths unit :=
  match events with
  | [] | Done :: _ => mret tt
  | Tick net :: events => tick net ≫= λ _, path_loop events
  end.

(** [time.NewTicker] panics on an interval that is not positive. *)
(* cmd/core/gtp_path_manager.go:38-63 Run *)
Definition GtpRun (events : list path_event) : M Paths unit :=
  interval ← gets (λ p, checkInterval (manager p));
  if bool_decide (interval ≤ 0) then panic else path_loop events.

(** What the selects of a run take before its end. *)
Fixpoint ticks (events : list path_event) : list (string → Attempt) :=
  match events with
  | [] | Done :: _ => []
  | Tick net :: events => net :: ticks events
  end.

(** ** One attempt *)

(** The request leaves when both addresses resolve and the socket takes it. *)
Definition echoes (local peer : string) (bytes : list Z) (a : Attempt) : list Echo :=
  match ResolveUDPAddr local, ResolveUDPAddr peer, dialed a, written a with
  | inr from, inr to, inr _, inr _ => [mkEcho peer from to bytes]
  | _, _, _, _ => []
  end.

Definition answered (local peer : string) (a : Attempt) : bool :=
  match echoes local peer [] a, received a with
  | [_], inr response => is_ok (check_response (NewPacket response))
  | _, _ => false
  end.

Section facts.
Variable serialized : GTPv1U → list Z.
Hypothesis SerializeLayers_total : ∀ h, SerializeLayers h = inr (serialized h).
Implicit Types (p : Paths) (peer : string).

Lemma check_response_no_panic l : no_panic (check_response l).
Proof. unfold no_panic, check_response. by repeat case_match. Qed.

Lemma sendEcho_spec local peer seq a s :
  ∃ r, sendEcho local peer seq a s
         = (s ++ echoes local peer (serialized (echo_request seq)) a, r) ∧
       r ≠ Panic ∧ is_ok r = answered local peer a.
Proof.
  unfold sendEcho, answered, echoes. rewrite SerializeLayers_total.
  unfold mbind, M_bind, mret, M_ret, lift, modify. cbn.
  destruct (ResolveUDPAddr local); cbn; [eexists; rewrite app_nil_r; done|].
  destruct (ResolveUDPAddr peer); cbn; [eexists; rewrite app_nil_r; done|].
  destruct (dialed a); cbn; [eexists; rewrite app_nil_r; done|].
  destruct (written a); cbn; [eexists; rewrite app_nil_r; done|].
  destruct (received a) as [|response]; cbn; [by eexists|].
  pose proof (check_response_no_panic (NewPacket response)) as Hnp. unfold no_panic in Hnp.
  destruct (check_response _); [by eexists..|done].
Qed.

(** The sequence number after an attempt. *)
Definition next_seq (local peer : string) (seq : Z) (a : Attempt) : Z :=
  if answered local peer a then u16 (seq + 1) else seq.

(** What was sent for one peer. *)
Definition sent_for (peer : string) p : list Echo :=
  filter (λ e, e_peer e = peer) (sent p).

Lemma sent_for_echoes peer peer' local bytes a :
  filter (λ e, e_peer e = peer) (echoes local peer' bytes a)
  = if decide (peer' = peer) then echoes local peer' bytes a else [].
Proof.
  unfold echoes. repeat case_match; try done; rewrite ?filter_cons; cbn;
    repeat case_decide; done.
Qed.

(** ** One tick *)

(** [peer] stands at [n] in [p] and one attempt [a] brings it to [p']. *)
Definition peer_step (local peer : string) (a : Attempt) p p' : Prop :=
  peers (manager p') !! peer = (λ n, next_seq local peer n a) <$> peers (manager p) !! peer ∧
  sent_for peer p' = sent_for peer p ++
    match peers (manager p) !! peer with
    | Some n => echoes local peer (serialized (echo_request n)) a
    | None => []
    end.

Definition peer_same (peer : string) p p' : Prop :=
  peers (manager p') !! peer = peers (manager p) !! peer ∧ sent_for peer p' = sent_for peer p.

Lemma try_peer_spec net peer n p :
  peers (manager p) !! peer = Some n →
  wp (try_peer net (peer, n)) p
    (λ _ p', localAddress (manager p') = localAddress (manager p) ∧
       peer_step (localAddress (manager p)) peer (net peer) p p' ∧
       ∀ peer', peer' ≠ peer → peer_same peer' p p')
    (λ _ _, False).
Proof.
  intros Hn. unfold wp, try_peer, mbind, M_bind, gets, on_result, zoom.
  destruct (sendEcho_spec (localAddress (manager p)) peer n (net peer) (sent p))
    as (r & -> & Hnp & Hr).
  unfold peer_step, peer_same, sent_for, next_seq. rewrite Hn. rewrite <-Hr.
  destruct r; cbn; [| |done]; (split; [done|]).
  all: rewrite filter_app, sent_for_echoes, decide_True by done.
  all: rewrite ?lookup_insert_eq, ?Hn; (split; [done|]); intros peer' Hne.
  all: rewrite filter_app, sent_for_echoes, decide_False, app_nil_r by done.
  all: by rewrite ?lookup_insert_ne.
Qed.

Lemma tick_spec net p :
  wp (tick net) p
    (λ _ p', localAddress (manager p') = localAddress (manager p) ∧
       ∀ peer, peer_step (localAddress (manager p)) peer (net peer) p p')
    (λ _ _, False).
Proof.
  unfold tick. wp_go. set (entries := range_map (peers (manager p))).
  eapply wp_mono; [apply (wp_for_each_prefix entries _ (λ before p',
    localAddress (manager p') = localAddress (manager p) ∧
    ∀ peer, if decide (peer ∈ before.*1)
            then peer_step (localAddress (manager p)) peer (net peer) p p'
            else peer_same peer p p') (λ _ _, False))| |done].
  - intros before [peer n] rest p' Hsplit [Hlocal Hpeers].
    assert (peer ∉ before.*1) as Hnew.
    { pose proof (NoDup_range_map (peers (manager p))) as Hnd. fold entries in Hnd.
      rewrite Hsplit, fmap_app in Hnd. apply NoDup_app in Hnd as (_ & Hdisj & _).
      intros Hin. apply (Hdisj _ Hin). cbn. set_solver. }
    assert (peers (manager p) !! peer = Some n) as Hn.
    { apply elem_of_range_map. fold entries. rewrite Hsplit. set_solver. }
    pose proof (Hpeers peer) as Hp. rewrite decide_False in Hp by done. destruct Hp as [Hp Hs].
    wp_call try_peer_spec; [by rewrite Hp| |done].
    intros _ p'' (Hlocal' & [Hstep Hsent] & Hother). rewrite Hlocal in *.
    split; [done|]. intros q. rewrite fmap_app. cbn. specialize (Hpeers q).
    destruct (decide (q = peer)) as [->|Hq].
    + rewrite decide_True by set_solver. unfold peer_step. by rewrite Hstep, Hsent, Hp, Hs.
    + destruct (Hother q Hq) as [H1 H2]. unfold peer_step, peer_same in *. rewrite H1, H2.
      destruct (decide (q ∈ before.*1)); [rewrite decide_True by set_solver
        |rewrite decide_False by set_solver]; done.
  - cbn. split; [done|]. intros peer. by rewrite decide_False by set_solver.
  - intros _ p' [Hlocal Hpeers]. split; [done|]. intros peer. specialize (Hpeers peer).
    case_decide as Hin; [done|]. destruct Hpeers as [H1 H2]. unfold peer_step. rewrite H1, H2.
    destruct (peers (manager p) !! peer) as [n|] eqn:Hn; [|by rewrite app_nil_r].
    destruct Hin. apply list_elem_of_fmap. exists (peer, n). split; [done|].
    by apply elem_of_range_map.
Qed.

(** ** A run *)

Lemma path_loop_ticks events p : path_loop events p = for_each (ticks events) tick p.
Proof.
  revert p. induction events as [|[net|] events IH]; intros p; cbn; [done| |done].
  unfold mbind, M_bind. destruct (tick net p) as [p' [[]|e|]]; [apply IH|done..].
Qed.

Lemma wp_path_loop events p Q E : wp (for_each (ticks events) tick) p Q E → wp (path_loop events) p Q E.
Proof. unfold wp. by rewrite path_loop_ticks. Qed.

(** How many of the attempts on a peer were answered. *)
Definition answers (local peer : string) (nets : list (string → Attempt)) : Z :=
  Z.of_nat (length (filter (λ net, answered local peer (net peer) = true) nets)).

(** What a run should send for a peer: at each tick the number of answers so far. *)
Definition expected (local peer : string) (nets : list (string → Attempt)) : list Echo :=
  concat (imap (λ i net, echoes local peer
            (serialized (echo_request (u16 (answers local peer (take i nets))))) (net peer)) nets).

Lemma answers_snoc local peer nets net :
  u16 (answers local peer (nets ++ [net]))
  = next_seq local peer (u16 (answers local peer nets)) (net peer).
Proof.
  unfold answers, next_seq. rewrite filter_app, length_app, Nat2Z.inj_add, filter_cons.
  destruct (answered local peer (net peer)); cbn.
  - unfold u16. by rewrite Zplus_mod_idemp_l.
  - by rewrite Z.add_0_r.
Qed.

Lemma expected_snoc local peer nets net :
  expected local peer (nets ++ [net])
  = expected local peer nets ++
    echoes local peer (serialized (echo_request (u16 (answers local peer nets)))) (net peer).
Proof.
  unfold expected. rewrite imap_app, concat_app. cbn.
  rewrite app_nil_r, Nat.add_0_r, take_app_length. f_equal. f_equal. apply imap_ext.
  intros i x Hi. apply lookup_lt_Some in Hi. by rewrite take_app_le by lia.
Qed.

Lemma start_gtp_paths_peers Conf peer :
  peers (start_gtp_paths Conf) !! peer
  = if decide (peer ∈ GtpPeer Conf) then Some 0 else None.
Proof.
  unfold start_gtp_paths. induction (GtpPeer Conf) as [|q l IH] using rev_ind; cbn -[decide].
  { by rewrite decide_False by set_solver. }
  rewrite foldl_app. cbn -[decide]. destruct (decide (q = peer)) as [->|Hne].
  - rewrite lookup_insert_eq, decide_True by set_solver. done.
  - rewrite lookup_insert_ne, IH by done. repeat case_decide; set_solver.
Qed.

Lemma start_gtp_paths_fixed Conf :
  localAddress (start_gtp_paths Conf) = (N3Address Conf ++ ":2152")%string ∧
  checkInterval (start_gtp_paths Conf) = GtpEchoInterval Conf * 10 ^ 9.
Proof.
  unfold start_gtp_paths. by induction (GtpPeer Conf) as [|q l IH] using rev_ind;
    [|rewrite foldl_app].
Qed.

(** C36: the echo requests of a run.  Whatever the network does and in whatever
    order the peers are visited, the manager completes its ticks; at each tick
    it sends one echo request to each configured peer whose address resolves
    and whose socket takes it, one peer's failure not affecting another, and
    nothing to anybody else; the request carries the number of answers the
    peer has given so far modulo 2^16, so that an unanswered request is
    repeated under its number. *)
Theorem echo_sequence_numbers Conf events :
  0 < GtpEchoInterval Conf →
  let local := (N3Address Conf ++ ":2152")%string in
  wp (GtpRun events) (mkPaths (start_gtp_paths Conf) [])
    (λ _ p, ∀ peer,
       if decide (peer ∈ GtpPeer Conf) then
         peers (manager p) !! peer = Some (u16 (answers local peer (ticks events))) ∧
         sent_for peer p = expected local peer (ticks events)
       else peers (manager p) !! peer = None ∧ sent_for peer p = [])
    (λ _ _, False).
Proof.
  intros Hint local. destruct (start_gtp_paths_fixed Conf) as [Hlocal Hival].
  unfold GtpRun. wp_go. rewrite bool_decide_false by (cbn; lia).
  apply wp_path_loop.
  eapply wp_mono; [apply (wp_for_each_prefix (ticks events) tick (λ before p,
    localAddress (manager p) = local ∧ ∀ peer,
      peers (manager p) !! peer = (if decide (peer ∈ GtpPeer Conf)
        then Some (u16 (answers local peer before)) else None) ∧
      sent_for peer p = (if decide (peer ∈ GtpPeer Conf)
        then expected local peer before else [])) (λ _ _, False))| |done].
  - intros before net rest p _ [Hl Hp]. wp_call tick_spec; [|done].
    intros _ p' [Hl' Hstep]. rewrite Hl in *. split; [done|]. intros peer.
    destruct (Hstep peer) as [H1 H2], (Hp peer) as [H3 H4]. rewrite H1, H2, H3, H4.
    case_decide; cbn; [|done]. by rewrite answers_snoc, expected_snoc.
  - split; [done|]. intros peer. split; [apply start_gtp_paths_peers|by case_decide].
  - intros _ p [_ Hp] peer. specialize (Hp peer). by case_decide.
Qed.

End facts.

End gtp_path.
Arguments Echo : clear implicits.
Arguments Paths : clear implicits.

(** ** A concrete run

    Two peers; the first answers at the first and the third tick, the second
    name does not resolve. *)

#[local] Existing Instance ascending_order.

Definition demo_path_config : UpfConfig := mkUpfConfig [] "generic" ":8080" "127.0.0.1:8805"
  "127.0.0.1" [] 5 ":9090" "10.3.0.1" "10.9.0.1" ["gnb:2152"; "nowhere:2152"]%string 10
  0 0 0 0 65535 3 5 5 "info" "" 3 false true.

Definition demo_serialized (h : GTPv1U) : list Z :=
  [gtpu_Version h; gtpu_MessageType h; gtpu_SequenceNumber h].
Definition demo_NewPacket (bytes : list Z) : option GTPv1U :=
  match bytes with
  | [v; t; n] => Some (mkGTPv1U v t 4 0 true n)
  | _ => None
  end.
Definition demo_resolve (a : string) : result string :=
  if String.eqb a "nowhere:2152" then inl (Errorf "no such host") else inr a.

Definition demo_answer (bytes : list Z) : string → Attempt :=
  λ _, mkAttempt (inr tt) (inr tt) (inr bytes) 1.

(** An answer, a message of another type, an answer with an old number, the
    end of the context. *)
Definition demo_path_events : list path_event :=
  [Tick (demo_answer [1; 2; 0]); Tick (demo_answer [1; 255; 1]); Tick (demo_answer [1; 2; 0]);
   Done; Tick (demo_answer [1; 2; 2])].

Lemma echo_sequence_numbers_witness :
  ∃ p, GtpRun (λ h, inr (demo_serialized h)) demo_NewPacket demo_resolve demo_path_events
         (mkPaths (start_gtp_paths demo_path_config) []) = (p, Ok tt) ∧
       peers (manager p) !! "gnb:2152"%string = Some 2 ∧
       (λ e, e_bytes e) <$> sent_for "gnb:2152" p = [[1; 1; 0]; [1; 1; 1]; [1; 1; 1]] ∧
       sent_for "nowhere:2152" p = [].
Proof.
  pose proof (echo_sequence_numbers (λ h, inr (demo_serialized h)) demo_NewPacket demo_resolve
    demo_serialized (λ h, eq_refl) demo_path_config demo_path_events eq_refl) as Hrun.
  unfold wp in Hrun.
  destruct (GtpRun _ _ _ demo_path_events _) as [p [[]|e|]]; [|destruct Hrun..].
  exists p. split; [reflexivity|].
  pose proof (Hrun "gnb:2152"%string) as H1. pose proof (Hrun "nowhere:2152"%string) as H2.
  rewrite decide_True in H1 by (apply (bool_decide_unpack _); reflexivity).
  rewrite decide_True in H2 by (apply (bool_decide_unpack _); reflexivity).
  destruct H1 as [-> ->], H2 as [_ ->].
  split; [reflexivity|]. split; reflexivity.
Defined.
