(* ===== verification/XdpMemory.v ===== *)
(** * The XDP program's machine (cmd/ebpf/xdp/utils)

    What an XDP program sees: the packet between [data] and [data_end] inside
    a larger buffer, the BPF maps, per-CPU counters, and the kernel's helpers.
    Pointers are offsets into the buffer.  A load or store outside
    [data, data_end) or through a null pointer is a [Panic]: the verifier of
    the kernel would have rejected the program.  Multi-byte loads are
    little-endian, as on the machines the image is built for. *)

From S2P Require Import Prelude Net ForwardingPlane Stats.

(** ** Byte order *)

(** The value of bytes in memory order, and [n] bytes of a value. *)
Fixpoint le (b : bytes) : Z := match b with [] => 0 | x :: b' => x + 256 * le b' end.
Fixpoint le_bytes (n : nat) (z : Z) : bytes :=
  match n with O => [] | S n' => z mod 256 :: le_bytes n' (z / 256) end.

(** Network order. *)
Definition be (b : bytes) : Z := le (reverse b).
Definition be_bytes (n : nat) (z : Z) : bytes := reverse (le_bytes n z).

(** [bpf_htons], [bpf_htonl] and their inverses swap the bytes of 16 and 32 bits. *)
Definition bpf_htons (z : Z) : Z := be (le_bytes 2 z).
Definition bpf_ntohs (z : Z) : Z := be (le_bytes 2 z).
Definition bpf_htonl (z : Z) : Z := be (le_bytes 4 z).

(** ** State *)

(** What the routing uses of [struct bpf_fib_lookup]. *)
Record FibResult := mkFibResult { ifindex : Z; smac : bytes; dmac : bytes }.

(* cmd/ebpf/xdp/utils/routing.h:56-60 struct route_record *)
Definition route_record : Type := FibResult.

(** What is done to [upf_route_cache_ip4].  The kernel evicts the entries that
    were not used for the longest time, so that all of it counts. *)
Inductive cache_event :=
  | CacheLookup (daddr : bytes)
  | CacheUpdate (daddr : bytes) (route : route_record).

(** The maps' contents, all slots of the arrays included, are an [FPView]. *)
Record Xdp := mkXdp {
  x_buf : bytes;                    (* from the start of the headroom to data_end *)
  x_data : Z;                       (* xdp_md.data *)
  x_ingress : Z;                    (* xdp_md.ingress_ifindex *)
  x_maps : FPView;
  x_stat : option UpfStatistic;     (* this CPU's entry of upf_ext_stat *)
  x_route : option RouteStat;       (* this CPU's entry of upf_route_stat *)
  x_cache : option (list cache_event);   (* upf_route_cache_ip4, if compiled in; last event first *)
  x_target : option Z;              (* interface of the last bpf_redirect *)
  x_ticks : nat                     (* readings of the clock so far *)
}.

Definition x_data_end (x : Xdp) : Z := Z.of_nat (length (x_buf x)).

(** The frame: what is between [data] and [data_end]. *)
Definition x_frame (x : Xdp) : bytes := drop (Z.to_nat (x_data x)) (x_buf x).

Definition set_x_buf v x := mkXdp v (x_data x) (x_ingress x) (x_maps x) (x_stat x) (x_route x) (x_cache x) (x_target x) (x_ticks x).
Definition set_x_data v x := mkXdp (x_buf x) v (x_ingress x) (x_maps x) (x_stat x) (x_route x) (x_cache x) (x_target x) (x_ticks x).
Definition set_x_maps v x := mkXdp (x_buf x) (x_data x) (x_ingress x) v (x_stat x) (x_route x) (x_cache x) (x_target x) (x_ticks x).
Definition set_x_stat v x := mkXdp (x_buf x) (x_data x) (x_ingress x) (x_maps x) v (x_route x) (x_cache x) (x_target x) (x_ticks x).
Definition set_x_route v x := mkXdp (x_buf x) (x_data x) (x_ingress x) (x_maps x) (x_stat x) v (x_cache x) (x_target x) (x_ticks x).
Definition set_x_cache v x := mkXdp (x_buf x) (x_data x) (x_ingress x) (x_maps x) (x_stat x) (x_route x) v (x_target x) (x_ticks x).
Definition set_x_target v x := mkXdp (x_buf x) (x_data x) (x_ingress x) (x_maps x) (x_stat x) (x_route x) (x_cache x) v (x_ticks x).
Definition set_x_ticks v x := mkXdp (x_buf x) (x_data x) (x_ingress x) (x_maps x) (x_stat x) (x_route x) (x_cache x) (x_target x) v.

(** The pointers of the context; the statistics it points to are in [Xdp]. *)
(* cmd/ebpf/xdp/utils/packet_context.h:28-40 struct packet_context *)
Record packet_context := mkContext {
  data : Z;
  data_end : Z;
  eth : option Z;
  ip4 : option Z;
  ip6 : option Z;
  udp : option Z;
  tcp : option Z;
  gtp : option Z
}.

Definition new_context (d e : Z) : packet_context := mkContext d e None None None None None None.

Definition set_data v c := mkContext v (data_end c) (eth c) (ip4 c) (ip6 c) (udp c) (tcp c) (gtp c).
Definition set_eth v c := mkContext (data c) (data_end c) v (ip4 c) (ip6 c) (udp c) (tcp c) (gtp c).
Definition set_ip4 v c := mkContext (data c) (data_end c) (eth c) v (ip6 c) (udp c) (tcp c) (gtp c).
Definition set_ip6 v c := mkContext (data c) (data_end c) (eth c) (ip4 c) v (udp c) (tcp c) (gtp c).
Definition set_udp v c := mkContext (data c) (data_end c) (eth c) (ip4 c) (ip6 c) v (tcp c) (gtp c).
Definition set_tcp v c := mkContext (data c) (data_end c) (eth c) (ip4 c) (ip6 c) (udp c) v (gtp c).
Definition set_gtp v c := mkContext (data c) (data_end c) (eth c) (ip4 c) (ip6 c) (udp c) (tcp c) v.

(** What a function with a [struct packet_context *] works on. *)
Record Run := mkRun { xdp : Xdp; ctx : packet_context }.

Definition set_xdp x r := mkRun x (ctx r).
Definition set_ctx c r := mkRun (xdp r) c.
Definition on_xdp (f : Xdp → Xdp) (r : Run) : Run := set_xdp (f (xdp r)) r.
Definition on_ctx (f : packet_context → packet_context) (r : Run) : Run := set_ctx (f (ctx r)) r.

(** ** Kernel helpers *)

Record FibParams := mkFibParams {
  family : Z;
  fib_tos : Z;
  l4_protocol : Z;
  fib_tot_len : Z;
  fib_src : bytes;
  fib_dst : bytes;
  fib_ifindex : Z
}.

Class XdpKernel := {
  (** whether the head can be moved, from [data] and [data_end] by so many
      bytes: 0 or an error number *)
  bpf_xdp_adjust_head : Z → Z → Z → Z;
  (** the sum of a header, [bpf_csum_diff(0, 0, data, size, 0)] *)
  bpf_csum_diff : bytes → Z;
  bpf_fib_lookup : FibParams → Z * FibResult;
  (** the action after the target interface is noted *)
  bpf_redirect : Z → Z;
  (** [bpf_map_lookup_elem] on [upf_route_cache_ip4] after these events *)
  bpf_lru_lookup : list cache_event → bytes → option route_record;
  (** the [n]-th reading of the clock *)
  bpf_ktime_get_ns : nat → Z
}.

(** The last value written for a key. *)
Fixpoint last_update (events : list cache_event) (daddr : bytes) : option route_record :=
  match events with
  | [] => None
  | CacheUpdate daddr' route :: events => if decide (daddr' = daddr) then Some route else last_update events daddr
  | CacheLookup _ :: events => last_update events daddr
  end.

(** Bytes of a packet. *)
Definition is_bytes (b : bytes) : Prop := Forall (λ x, 0 ≤ x < 256) b.

(** The sum of the 16-bit words of a header. *)
Fixpoint words (b : bytes) : list Z :=
  match b with x :: y :: b' => x + 256 * y :: words b' | [x] => [x] | [] => [] end.
Definition sum16 (b : bytes) : Z := foldr Z.add 0 (words b).

(** bpf-helpers(7): the head moves inside the buffer, in front of an Ethernet
    header; the checksum of a buffer of whole 32-bit words is its one's complement sum in 32 bits,
    which is a number congruent to the sum and zero only for zeros; hardware
    addresses have six bytes; a redirect is XDP_REDIRECT or, when it fails,
    XDP_ABORTED; an LRU map has the last value written for a key, or no
    value; the clock does not go back. *)
Class XdpKernelLaws `{XdpKernel} := {
  adjust_head_spec d d_end delta :
    bpf_xdp_adjust_head d d_end delta = 0 ↔ 0 ≤ d + delta ∧ d + delta + 14 ≤ d_end;
  csum_diff_spec b :
    is_bytes b → (length b mod 4 = 0)%nat →
    in_range 32 (bpf_csum_diff b) ∧ bpf_csum_diff b mod 65535 = sum16 b mod 65535 ∧
    (bpf_csum_diff b = 0 ↔ sum16 b = 0);
  fib_lookup_macs p :
    length (smac (bpf_fib_lookup p).2) = 6%nat ∧ length (dmac (bpf_fib_lookup p).2) = 6%nat;
  redirect_action i : bpf_redirect i = 4 ∨ bpf_redirect i = 0;
  lru_lookup_last events daddr route :
    bpf_lru_lookup events daddr = Some route → last_update events daddr = Some route;
  lru_lookup_macs events daddr route :
    bpf_lru_lookup events daddr = Some route → length (smac route) = 6%nat ∧ length (dmac route) = 6%nat;
  ktime_monotone m n : (m ≤ n)%nat → 0 ≤ bpf_ktime_get_ns m ≤ bpf_ktime_get_ns n
}.

(** ** Memory accesses *)

Definition slice (p n : Z) (b : bytes) : bytes := take (Z.to_nat n) (drop (Z.to_nat p) b).

(** [bs] written over [b] at [p]. *)
Definition overwrite (p : Z) (bs b : bytes) : bytes :=
  take (Z.to_nat p) b ++ bs ++ drop (Z.to_nat p + length bs) b.

Definition accessible (x : Xdp) (p n : Z) : bool :=
  (0 <=? x_data x) && (x_data x <=? p) && (p + n <=? x_data_end x).

Definition load (p n : Z) : M Run bytes := λ r,
  if accessible (xdp r) p n then (r, Ok (slice p n (x_buf (xdp r)))) else (r, Panic).

Definition store (p : Z) (bs : bytes) : M Run unit := λ r,
  if accessible (xdp r) p (Z.of_nat (length bs))
  then (on_xdp (λ x, set_x_buf (overwrite p bs (x_buf x)) x) r, Ok tt) else (r, Panic).

Definition load_le (p n : Z) : M Run Z := b ← load p n; mret (le b).
Definition load8 (p : Z) : M Run Z := load_le p 1.
Definition load16 (p : Z) : M Run Z := load_le p 2.
Definition load32 (p : Z) : M Run Z := load_le p 4.
Definition store8 (p v : Z) : M Run unit := store p (le_bytes 1 v).
Definition store16 (p v : Z) : M Run unit := store p (le_bytes 2 v).
Definition store32 (p v : Z) : M Run unit := store p (le_bytes 4 v).

(** A pointer that is not null. *)
Definition deref (o : option Z) : M Run Z :=
  match o with Some p => mret p | None => panic end.

(** [bpf_xdp_adjust_head(ctx->xdp_ctx, delta)] *)
Definition adjust_head `{XdpKernel} (delta : Z) : M Run Z := λ r,
  let rc := bpf_xdp_adjust_head (x_data (xdp r)) (x_data_end (xdp r)) delta in
  if rc =? 0 then (on_xdp (λ x, set_x_data (x_data x + delta) x) r, Ok 0) else (r, Ok rc).

(** [bpf_redirect(ifindex, 0)] *)
Definition redirect `{XdpKernel} (ifindex : Z) : M Run Z :=
  modify (on_xdp (set_x_target (Some ifindex))) ≫= λ _, mret (bpf_redirect ifindex).

Definition ktime `{XdpKernel} : M Run Z := λ r,
  (on_xdp (λ x, set_x_ticks (S (x_ticks x)) x) r, Ok (bpf_ktime_get_ns (x_ticks (xdp r)))).

(** ** XDP actions *)

Definition XDP_ABORTED : Z := 0.
Definition XDP_DROP : Z := 1.
Definition XDP_PASS : Z := 2.
Definition XDP_TX : Z := 3.
Definition XDP_REDIRECT : Z := 4.

(** ** Counters *)

Inductive counter :=
  | rx_arp | rx_icmp | rx_icmp6 | rx_ip4 | rx_ip6 | rx_tcp | rx_udp | rx_other
  | rx_gtp_echo | rx_gtp_pdu | rx_gtp_other | rx_gtp_unexp
  | rx_n3 | tx_n3 | rx_n6 | tx_n6.

#[export] Instance counter_eq_dec : EqDecision counter.
Proof. solve_decision. Defined.

(** [OBJECT->COUNTER++] on one of the two groups. *)
Definition bump (k : counter) (s : UpfStatistic) : UpfStatistic :=
  let add k' v := if decide (k = k') then u64 (v + 1) else v in
  let c := upf_counters s in
  let n := upf_n3_n6_counter s in
  mkUpfStatistic
    (mkUpfCounters (add rx_arp (RxArp c)) (add rx_icmp (RxIcmp c)) (add rx_icmp6 (RxIcmp6 c))
      (add rx_ip4 (RxIp4 c)) (add rx_ip6 (RxIp6 c)) (add rx_tcp (RxTcp c)) (add rx_udp (RxUdp c))
      (add rx_other (RxOther c)) (add rx_gtp_echo (RxGtpEcho c)) (add rx_gtp_pdu (RxGtpPdu c))
      (add rx_gtp_other (RxGtpOther c)) (add rx_gtp_unexp (RxGtpUnexp c)))
    (mkN3N6Counters (add rx_n3 (RxN3 n)) (add tx_n3 (TxN3 n)) (add rx_n6 (RxN6 n)) (add tx_n6 (TxN6 n)))
    (XdpActions s).

(* cmd/ebpf/xdp/utils/common.h:19-20 increment_counter *)
Definition increment_counter (k : counter) : M Run unit :=
  modify (on_xdp (λ x, set_x_stat (bump k <$> x_stat x) x)).

(** ** Lemmas: byte order *)

Lemma length_le_bytes n z : length (le_bytes n z) = n.
Proof. revert z. induction n; cbn; auto. Qed.

Lemma length_be_bytes n z : length (be_bytes n z) = n.
Proof. unfold be_bytes. by rewrite length_reverse, length_le_bytes. Qed.

Lemma le_bytes_is_bytes n z : is_bytes (le_bytes n z).
Proof.
  revert z. induction n; intros z; constructor; [apply Z.mod_pos_bound; lia|apply IHn].
Qed.

Lemma le_range b : is_bytes b → 0 ≤ le b < 256 ^ Z.of_nat (length b).
Proof.
  induction 1 as [|x b Hx _ IH]; cbn [le length]; [lia|].
  rewrite Nat2Z.inj_succ, Z.pow_succ_r by lia. lia.
Qed.

Lemma le_le_bytes n z : le (le_bytes n z) = z mod 256 ^ Z.of_nat n.
Proof.
  revert z. induction n as [|n IH]; intros z; cbn [le_bytes le].
  - by rewrite Z.mod_1_r.
  - rewrite IH, Nat2Z.inj_succ, Z.pow_succ_r by lia. rewrite Z.rem_mul_r by lia. lia.
Qed.

Lemma le_bytes_le b : is_bytes b → le_bytes (length b) (le b) = b.
Proof.
  induction 1 as [|x b Hx _ IH]; cbn [le_bytes le length]; [done|].
  rewrite (Z.mul_comm 256), Z_mod_plus_full, Z.div_add, (Z.mod_small x), (Z.div_small x) by lia.
  by rewrite Z.add_0_l, IH.
Qed.

Lemma le_inj a b : is_bytes a → is_bytes b → length a = length b → le a = le b → a = b.
Proof. intros Ha Hb Hl He. rewrite <-(le_bytes_le a Ha), <-(le_bytes_le b Hb). by rewrite He, Hl. Qed.

Lemma is_bytes_reverse b : is_bytes b → is_bytes (reverse b).
Proof. unfold is_bytes. by rewrite Forall_reverse. Qed.

Lemma be_bytes_is_bytes n z : is_bytes (be_bytes n z).
Proof. apply is_bytes_reverse, le_bytes_is_bytes. Qed.

Lemma be_be_bytes n z : be (be_bytes n z) = z mod 256 ^ Z.of_nat n.
Proof. unfold be, be_bytes. by rewrite reverse_involutive, le_le_bytes. Qed.

(** Storing a value in network order, and reading one. *)
Lemma store_htons z : le_bytes 2 (bpf_htons z) = be_bytes 2 z.
Proof.
  unfold bpf_htons, be, be_bytes. change 2%nat with (length (reverse (le_bytes 2 z))) at 1.
  apply le_bytes_le, is_bytes_reverse, le_bytes_is_bytes.
Qed.

Lemma store_htonl z : le_bytes 4 (bpf_htonl z) = be_bytes 4 z.
Proof.
  unfold bpf_htonl, be, be_bytes. change 4%nat with (length (reverse (le_bytes 4 z))) at 1.
  apply le_bytes_le, is_bytes_reverse, le_bytes_is_bytes.
Qed.

Lemma load_ntohs b : is_bytes b → length b = 2%nat → bpf_ntohs (le b) = be b.
Proof. intros Hb Hl. unfold bpf_ntohs. rewrite <-Hl. by rewrite le_bytes_le. Qed.

Lemma load_ntohl b : is_bytes b → length b = 4%nat → bpf_htonl (le b) = be b.
Proof. intros Hb Hl. unfold bpf_htonl. rewrite <-Hl. by rewrite le_bytes_le. Qed.

(** ** Lemmas: memory *)

Lemma length_slice p n b :
  0 ≤ p → 0 ≤ n → p + n ≤ Z.of_nat (length b) → length (slice p n b) = Z.to_nat n.
Proof. intros. unfold slice. rewrite length_take, length_drop. lia. Qed.

Lemma length_overwrite p bs b :
  0 ≤ p → p + Z.of_nat (length bs) ≤ Z.of_nat (length b) → length (overwrite p bs b) = length b.
Proof. intros. unfold overwrite. rewrite !length_app, length_take, length_drop. lia. Qed.

Section access.
Implicit Types r : Run.

Lemma wp_load p n r (Q : bytes → Run → Prop) E :
  0 ≤ x_data (xdp r) → x_data (xdp r) ≤ p → p + n ≤ x_data_end (xdp r) →
  Q (slice p n (x_buf (xdp r))) r → wp (load p n) r Q E.
Proof.
  intros. unfold wp, load, accessible.
  by rewrite !(proj2 (Z.leb_le _ _)) by lia.
Qed.

Lemma wp_store p bs r (Q : unit → Run → Prop) E :
  0 ≤ x_data (xdp r) → x_data (xdp r) ≤ p → p + Z.of_nat (length bs) ≤ x_data_end (xdp r) →
  Q tt (on_xdp (λ x, set_x_buf (overwrite p bs (x_buf x)) x) r) → wp (store p bs) r Q E.
Proof.
  intros. unfold wp, store, accessible.
  by rewrite !(proj2 (Z.leb_le _ _)) by lia.
Qed.

Lemma wp_adjust_head `{XdpKernelLaws} delta r (Q : Z → Run → Prop) E :
  (∀ rc, rc ≠ 0 → Q rc r) →
  (0 ≤ x_data (xdp r) + delta → x_data (xdp r) + delta + 14 ≤ x_data_end (xdp r) →
   Q 0 (on_xdp (λ x, set_x_data (x_data x + delta) x) r)) →
  wp (adjust_head delta) r Q E.
Proof.
  intros Hbad Hok. unfold wp, adjust_head. destruct (Z.eqb_spec (bpf_xdp_adjust_head (x_data (xdp r)) (x_data_end (xdp r)) delta) 0)
    as [Hz|Hz]; [|by apply Hbad]. apply adjust_head_spec in Hz as [? ?]. by apply Hok.
Qed.

End access.
