(* ===== verification/XdpParse.v ===== *)
(** * Parsing packets (cmd/ebpf/xdp/utils/parsers.h)

    Each parser checks that its header lies before [data_end], records a
    pointer to it in the context and moves the cursor.  Header layouts are
    those of <linux/if_ether.h>, <linux/ip.h> and so on; sizes are written as
    numbers: Ethernet 14, IPv4 20, IPv6 40, UDP 8, TCP 20. *)

From S2P Require Import Prelude Net XdpMemory.

Definition ETH_P_IP : Z := 2048.
Definition ETH_P_IPV6 : Z := 34525.
Definition ETH_P_ARP : Z := 2054.
Definition IPPROTO_ICMP : Z := 1.
Definition IPPROTO_TCP : Z := 6.
Definition IPPROTO_UDP : Z := 17.
Definition IPPROTO_ICMPV6 : Z := 58.

(* cmd/ebpf/xdp/utils/parsers.h:30-30 ETH_P_IPV6_BE *)
Definition ETH_P_IPV6_BE : Z := 56710.
(* cmd/ebpf/xdp/utils/parsers.h:31-31 ETH_P_IP_BE *)
Definition ETH_P_IP_BE : Z := 8.

(* cmd/ebpf/xdp/utils/parsers.h:33-43 parse_ethernet *)
Definition parse_ethernet : M Run Z :=
  c ← gets ctx;
  if data_end c <? data c + 14 then mret (-1)
  else
    modify (on_ctx (λ c', set_eth (Some (data c)) (set_data (data c + 14) c'))) ≫= λ _,
    h_proto ← load16 (data c + 12);
    mret (bpf_ntohs h_proto).

(** The header length is taken from the packet and not checked. *)
(* cmd/ebpf/xdp/utils/parsers.h:48-60 parse_ip4 *)
Definition parse_ip4 : M Run Z :=
  c ← gets ctx;
  if data_end c <? data c + 20 then mret (-1)
  else
    version_ihl ← load8 (data c);
    modify (on_ctx (λ c', set_ip4 (Some (data c))
      (set_data (data c + Z.land version_ihl 15 * 4) c'))) ≫= λ _,
    load8 (data c + 9).

(* cmd/ebpf/xdp/utils/parsers.h:62-72 parse_ip6 *)
Definition parse_ip6 : M Run Z :=
  c ← gets ctx;
  if data_end c <? data c + 40 then mret (-1)
  else
    modify (on_ctx (λ c', set_ip6 (Some (data c)) (set_data (data c + 40) c'))) ≫= λ _,
    load8 (data c + 6).

(* cmd/ebpf/xdp/utils/parsers.h:74-82 parse_udp *)
Definition parse_udp : M Run Z :=
  c ← gets ctx;
  if data_end c <? data c + 8 then mret (-1)
  else
    modify (on_ctx (λ c', set_udp (Some (data c)) (set_data (data c + 8) c'))) ≫= λ _,
    dest ← load16 (data c + 2);
    mret (bpf_ntohs dest).

(* cmd/ebpf/xdp/utils/parsers.h:84-94 parse_tcp *)
Definition parse_tcp : M Run Z :=
  c ← gets ctx;
  if data_end c <? data c + 20 then mret (-1)
  else
    modify (on_ctx (λ c', set_tcp (Some (data c)) (set_data (data c + 20) c'))) ≫= λ _,
    dest ← load16 (data c + 2);
    mret (bpf_ntohs dest).

(* cmd/ebpf/xdp/utils/parsers.h:96-106 parse_l4 *)
Definition parse_l4 (ip_protocol : Z) : M Run Z :=
  if ip_protocol =? IPPROTO_UDP then parse_udp
  else if ip_protocol =? IPPROTO_TCP then parse_tcp
  else mret 0.

(* cmd/ebpf/xdp/utils/parsers.h:108-113 swap_mac *)
Definition swap_mac (eth : Z) : M Run unit :=
  mac ← load (eth + 6) 6;
  h_dest ← load eth 6;
  store (eth + 6) h_dest ≫= λ _, store eth mac.

(* cmd/ebpf/xdp/utils/parsers.h:115-124 swap_port *)
Definition swap_port (udp : Z) : M Run unit :=
  tmp ← load16 (udp + 2);
  source ← load16 udp;
  store16 (udp + 2) source ≫= λ _,
  store16 udp tmp ≫= λ _,
  store16 (udp + 6) 0.

(* cmd/ebpf/xdp/utils/parsers.h:126-133 swap_ip *)
Definition swap_ip (iph : Z) : M Run unit :=
  tmp_ip ← load32 (iph + 16);
  saddr ← load32 (iph + 12);
  store32 (iph + 16) saddr ≫= λ _,
  store32 (iph + 12) tmp_ip.

(** The TCP pointer is not touched. *)
(* cmd/ebpf/xdp/utils/parsers.h:135-143 context_set_ip4 *)
Definition context_set_ip4 (d d_end eth ip4 udp gtp : Z) (c : packet_context) : packet_context :=
  mkContext d d_end (Some eth) (Some ip4) None (Some udp) (tcp c) (Some gtp).

(* cmd/ebpf/xdp/utils/parsers.h:145-153 context_reset *)
Definition context_reset (d d_end : Z) (c : packet_context) : packet_context :=
  mkContext d d_end None None None None (tcp c) None.

(* cmd/ebpf/xdp/utils/parsers.h:156-181 context_reinit *)
Definition context_reinit (d d_end : Z) : M Run Z :=
  modify (on_ctx (context_reset d d_end)) ≫= λ _,
  ethertype ← parse_ethernet;
  if ethertype =? ETH_P_IPV6 then r ← parse_ip6; mret (if r =? -1 then -1 else 0)
  else if ethertype =? ETH_P_IP then r ← parse_ip4; mret (if r =? -1 then -1 else 0)
  else mret (-1).
