(* ===== verification/XdpGtp.v ===== *)
(** * GTP-U headers and checksums (cmd/ebpf/xdp/utils/gtp_utils.h, gtpu.h, csum.h, icmp.h)

    Adding, rewriting and removing the GTP-U encapsulation, answering GTP echo
    and ICMP echo requests, and the checksums these need.  A header whose
    fields are all assigned is stored as one list of bytes, field by field. *)

From S2P Require Import Prelude Net XdpMemory XdpParse.

(* cmd/ebpf/xdp/utils/gtpu.h:22-22 GTP_UDP_PORT *)
Definition GTP_UDP_PORT : Z := 2152.
(* cmd/ebpf/xdp/utils/gtpu.h:25-25 GTP_FLAGS *)
Definition GTP_FLAGS : Z := 48.
(* cmd/ebpf/xdp/utils/gtpu.h:27-27 GTPU_ECHO_REQUEST *)
Definition GTPU_ECHO_REQUEST : Z := 1.
(* cmd/ebpf/xdp/utils/gtpu.h:28-28 GTPU_ECHO_RESPONSE *)
Definition GTPU_ECHO_RESPONSE : Z := 2.
(* cmd/ebpf/xdp/utils/gtpu.h:29-29 GTPU_ERROR_INDICATION *)
Definition GTPU_ERROR_INDICATION : Z := 26.
(* cmd/ebpf/xdp/utils/gtpu.h:30-30 GTPU_SUPPORTED_EXTENSION_HEADERS_NOTIFICATION *)
Definition GTPU_SUPPORTED_EXTENSION_HEADERS_NOTIFICATION : Z := 31.
(* cmd/ebpf/xdp/utils/gtpu.h:31-31 GTPU_END_MARKER *)
Definition GTPU_END_MARKER : Z := 254.
(* cmd/ebpf/xdp/utils/gtpu.h:32-32 GTPU_G_PDU *)
Definition GTPU_G_PDU : Z := 255.
(* cmd/ebpf/xdp/utils/gtpu.h:64-64 GTPU_EXT_TYPE_PDU_SESSION_CONTAINER *)
Definition GTPU_EXT_TYPE_PDU_SESSION_CONTAINER : Z := 133.
(* cmd/ebpf/xdp/utils/gtpu.h:65-65 PDU_SESSION_CONTAINER_PDU_TYPE_DL_PSU *)
Definition PDU_SESSION_CONTAINER_PDU_TYPE_DL_PSU : Z := 0.

(** ** Checksums *)

Definition fold_once (csum : Z) : Z := Z.land csum 65535 + Z.shiftr csum 16.

(** [~csum] of a 64-bit number, returned as 16 bits. *)
(* cmd/ebpf/xdp/utils/csum.h:23-30 csum_fold_helper *)
Definition csum_fold_helper (csum : Z) : Z :=
  u16 (Z.lnot (fold_once (fold_once (fold_once (fold_once csum))))).

(* cmd/ebpf/xdp/utils/csum.h:37-45 ipv4_csum_replace *)
Definition ipv4_csum_replace (sum old new : Z) : Z :=
  let not_old := u16 (Z.lnot old) in
  let csum := u16 (Z.lnot sum) in
  let csum := u16 (csum + Z.lnot old) in
  let csum := u16 (csum + if csum <? not_old then 1 else 0) in
  let csum := u16 (csum + new) in
  let csum := u16 (csum + if csum <? u16 new then 1 else 0) in
  u16 (Z.lnot csum).

Section gtp.
Context `{XdpKernel}.

(* cmd/ebpf/xdp/utils/csum.h:32-35 ipv4_csum *)
Definition ipv4_csum (data_start data_size : Z) : M Run Z :=
  b ← load data_start data_size;
  mret (csum_fold_helper (bpf_csum_diff b)).

(** ** GTP headers *)

(** Whether one of the flags E, S and PN is set. *)
Definition gtp_optional (flags : Z) : bool := negb (Z.land flags 7 =? 0).

(* cmd/ebpf/xdp/utils/gtp_utils.h:31-41 parse_gtp *)
Definition parse_gtp : M Run Z :=
  c ← gets ctx;
  if data_end c <? data c + 8 then mret (-1)
  else
    flags ← load8 (data c);
    modify (on_ctx (λ c', set_gtp (Some (data c))
      (set_data (data c + 8 + if gtp_optional flags then 4 + 4 else 0) c'))) ≫= λ _,
    load8 (data c + 1).

(* cmd/ebpf/xdp/utils/gtpu.h:83-101 insert_recovery *)
Definition insert_recovery (gtp d_end : Z) : M Run Z :=
  flags ← load8 gtp;
  let recovery := gtp + 8 + if gtp_optional flags then 4 else 0 in
  if gtp_optional flags && (d_end <? gtp + 8 + 4) then mret 0
  else if d_end <? recovery + 2 then mret 0
  else store8 recovery 14 ≫= λ _, store8 (recovery + 1) 0 ≫= λ _, mret 2.

(** [x = bpf_htons(bpf_ntohs(x) + n)] *)
Definition add_be16 (p n : Z) : M Run unit :=
  x ← load16 p; store16 p (bpf_htons (bpf_ntohs x + n)).

(* cmd/ebpf/xdp/utils/gtp_utils.h:43-72 handle_echo_request *)
Definition handle_echo_request : M Run Z :=
  c ← gets ctx;
  eth ← deref (eth c);
  iph ← deref (ip4 c);
  udp ← deref (udp c);
  gtp ← deref (gtp c);
  store8 (gtp + 1) GTPU_ECHO_RESPONSE ≫= λ _,
  swap_ip iph ≫= λ _,
  swap_port udp ≫= λ _,
  swap_mac eth ≫= λ _,
  d_end ← gets (λ r, x_data_end (xdp r));
  recovery_length ← insert_recovery gtp d_end;
  (if negb (recovery_length =? 0) then
     add_be16 (gtp + 2) recovery_length ≫= λ _,
     add_be16 (udp + 4) recovery_length ≫= λ _,
     add_be16 (iph + 2) recovery_length ≫= λ _,
     store16 (iph + 10) 0 ≫= λ _,
     check ← ipv4_csum iph 20;
     store16 (iph + 10) check
   else mret tt) ≫= λ _,
  mret XDP_TX.

(* cmd/ebpf/xdp/utils/gtp_utils.h:74-88 guess_eth_protocol *)
Definition guess_eth_protocol (p : Z) : M Run Z :=
  version_ihl ← load8 p;
  let ip_version := Z.shiftr version_ihl 4 in
  mret (if ip_version =? 6 then ETH_P_IPV6_BE
        else if ip_version =? 4 then ETH_P_IP_BE else -1).

(* cmd/ebpf/xdp/utils/gtp_utils.h:90-139 remove_gtp_header *)
Definition remove_gtp_header : M Run Z :=
  c ← gets ctx;
  match gtp c with
  | None => mret (-1)
  | Some gtp =>
      flags ← load8 gtp;
      let gtp_encap_size := 20 + 8 + 8 + if gtp_optional flags then 4 + 4 else 0 in
      x ← gets xdp;
      let eth := x_data x in
      if x_data_end x <? eth + 14 then mret (-1)
      else
        let new_eth := eth + gtp_encap_size in
        if x_data_end x <? new_eth + 14 then mret (-1)
        else if x_data_end x <? new_eth + 14 + 1 then mret (-1)
        else
          eth_proto ← guess_eth_protocol (new_eth + 14);
          if eth_proto =? -1 then mret (-1)
          else
            b ← load eth 14;
            store new_eth b ≫= λ _,
            store16 (new_eth + 12) eth_proto ≫= λ _,
            result ← adjust_head gtp_encap_size;
            if negb (result =? 0) then mret result
            else
              x ← gets xdp;
              context_reinit (x_data x) (x_data_end x)
  end.

(* cmd/ebpf/xdp/utils/gtp_utils.h:141-153 fill_ip_header *)
Definition fill_ip_header (ip saddr daddr tos tot_len : Z) : M Run unit :=
  store ip (le_bytes 1 69 ++ le_bytes 1 tos ++ le_bytes 2 (bpf_htons tot_len) ++
            le_bytes 2 0 ++ le_bytes 2 64 ++
            le_bytes 1 64 ++ le_bytes 1 IPPROTO_UDP ++ le_bytes 2 0 ++
            le_bytes 4 saddr ++ le_bytes 4 daddr).

(* cmd/ebpf/xdp/utils/gtp_utils.h:155-160 fill_udp_header *)
Definition fill_udp_header (udp port len : Z) : M Run unit :=
  store udp (le_bytes 2 (bpf_htons port) ++ le_bytes 2 (bpf_htons port) ++
             le_bytes 2 (bpf_htons len) ++ le_bytes 2 0).

(** The flags are those of GTP_FLAGS with E set. *)
(* cmd/ebpf/xdp/utils/gtp_utils.h:162-168 fill_gtp_header *)
Definition fill_gtp_header (gtp teid len : Z) : M Run unit :=
  store gtp (le_bytes 1 (Z.lor GTP_FLAGS 4) ++ le_bytes 1 GTPU_G_PDU ++
             le_bytes 2 (bpf_htons len) ++ le_bytes 4 (bpf_htonl teid)).

(* cmd/ebpf/xdp/utils/gtp_utils.h:170-174 fill_gtp_ext_header *)
Definition fill_gtp_ext_header (gtp_ext : Z) : M Run unit :=
  store gtp_ext (le_bytes 2 0 ++ le_bytes 1 0 ++ le_bytes 1 GTPU_EXT_TYPE_PDU_SESSION_CONTAINER).

(** The second byte holds spare1 (low) and pdu_type, the third qfi (six bits),
    rqi and spare2. *)
(* cmd/ebpf/xdp/utils/gtp_utils.h:176-184 fill_gtp_ext_header_psc *)
Definition fill_gtp_ext_header_psc (gtp_ext qfi pdu_type : Z) : M Run unit :=
  store gtp_ext (le_bytes 1 1 ++ le_bytes 1 (Z.shiftl (Z.land pdu_type 15) 4) ++
                 le_bytes 1 (Z.land qfi 63) ++ le_bytes 1 0).

(** [if (p + n > data_end) return -1; ...] *)
Definition within (p n : Z) (m : M Run Z) : M Run Z :=
  d_end ← gets (λ r, x_data_end (xdp r));
  if d_end <? p + n then mret (-1) else m.

(** The length of the IP packet in the frame. *)
(* cmd/ebpf/xdp/utils/gtp_utils.h:192-198 add_gtp_over_ip4_headers *)
Definition inner_packet_len : M Run Z :=
  c ← gets ctx;
  match ip4 c, ip6 c with
  | Some ip4, _ => tot_len ← load16 (ip4 + 2); mret (bpf_ntohs tot_len)
  | None, Some ip6 => payload_len ← load16 (ip6 + 4); mret (bpf_ntohs payload_len + 40)
  | None, None => mret (-1)
  end.

(* cmd/ebpf/xdp/utils/gtp_utils.h:186-262 add_gtp_over_ip4_headers *)
Definition add_gtp_over_ip4_headers (saddr daddr tos qfi teid : Z) : M Run Z :=
  let gtp_ext_hdr_size := 4 + 4 in
  let gtp_full_hdr_size := 8 + gtp_ext_hdr_size in
  let gtp_encap_size := 20 + 8 + gtp_full_hdr_size in
  ip_packet_len ← inner_packet_len;
  if ip_packet_len =? -1 then mret (-1)
  else
    result ← adjust_head (- gtp_encap_size);
    if negb (result =? 0) then mret (-1)
    else
      x ← gets xdp;
      let eth := x_data x in
      let orig_eth := eth + gtp_encap_size in
      within orig_eth 14 (
        b ← load orig_eth 14;
        store eth b ≫= λ _,
        store16 (eth + 12) (bpf_htons ETH_P_IP) ≫= λ _,
        let ip := eth + 14 in
        within ip 20 (
          fill_ip_header ip saddr daddr tos (ip_packet_len + gtp_encap_size) ≫= λ _,
          let udp := ip + 20 in
          within udp 8 (
            fill_udp_header udp GTP_UDP_PORT (ip_packet_len + 8 + gtp_full_hdr_size) ≫= λ _,
            let gtp := udp + 8 in
            within gtp 8 (
              fill_gtp_header gtp teid (gtp_ext_hdr_size + ip_packet_len) ≫= λ _,
              let gtp_ext := gtp + 8 in
              within gtp_ext 4 (
                fill_gtp_ext_header gtp_ext ≫= λ _,
                let gtp_psc := gtp_ext + 4 in
                within gtp_psc 4 (
                  fill_gtp_ext_header_psc gtp_psc qfi PDU_SESSION_CONTAINER_PDU_TYPE_DL_PSU ≫= λ _,
                  check ← ipv4_csum ip 20;
                  store16 (ip + 10) check ≫= λ _,
                  modify (λ r, on_ctx (context_set_ip4 (x_data (xdp r)) (x_data_end (xdp r))
                                         eth ip udp gtp) r) ≫= λ _,
                  mret 0)))))).

(** Only the addresses, the TEID and the checksums change: the TTL and the ToS
    of the outer header stay as they came, whatever [tos] is. *)
(* cmd/ebpf/xdp/utils/gtp_utils.h:264-277 update_gtp_tunnel *)
Definition update_gtp_tunnel (srcip dstip tos teid : Z) : M Run unit :=
  c ← gets ctx;
  gtp ← deref (gtp c);
  ip4 ← deref (ip4 c);
  udp ← deref (udp c);
  store32 (gtp + 4) (bpf_htonl teid) ≫= λ _,
  store32 (ip4 + 12) srcip ≫= λ _,
  store32 (ip4 + 16) dstip ≫= λ _,
  store16 (ip4 + 10) 0 ≫= λ _,
  check ← ipv4_csum ip4 20;
  store16 (ip4 + 10) check ≫= λ _,
  store16 (udp + 6) 0.

(** ** ICMP *)

Definition ICMP_ECHO : Z := 8.
Definition ICMP_ECHOREPLY : Z := 0.

(** The arguments [saddr] and [daddr] are not used. *)
(* cmd/ebpf/xdp/utils/icmp.h:81-109 prepare_icmp_echo_reply *)
Definition prepare_icmp_echo_reply : M Run Z :=
  c ← gets ctx;
  match ip4 c with
  | None => mret (-1)
  | Some ip =>
      eth ← deref (eth c);
      swap_mac eth ≫= λ _,
      within ip 20 (
        swap_ip ip ≫= λ _,
        let icmp := ip + 20 in
        within icmp 8 (
          type ← load8 icmp;
          if negb (type =? ICMP_ECHO) then mret (-1)
          else
            old ← load16 icmp;
            store8 icmp ICMP_ECHOREPLY ≫= λ _,
            store8 (icmp + 1) 0 ≫= λ _,
            new ← load16 icmp;
            checksum ← load16 (icmp + 2);
            store16 (icmp + 2) (ipv4_csum_replace checksum old new) ≫= λ _,
            mret 0))
  end.

End gtp.
