(* ===== verification/XdpRules.v ===== *)
(** * Rules in the data plane (cmd/ebpf/xdp/sdf_filter.h, qer.h, urr.h)

    Matching a packet against an SDF filter, the sliding-window rate limiter
    of a QER and the volume counters of a URR. *)

From S2P Require Import Prelude Net ForwardingPlane XdpMemory XdpParse.

(** ** SDF filters *)

(* cmd/ebpf/xdp/sdf_filter.h:58-66 get_sdf_protocol *)
Definition get_sdf_protocol (ip_protocol : Z) : Z :=
  if ip_protocol =? IPPROTO_ICMP then 0
  else if ip_protocol =? IPPROTO_TCP then 2
  else if ip_protocol =? IPPROTO_UDP then 3
  else 1.

(** The ports of the parsed L4 header: source and destination. *)
(* cmd/ebpf/xdp/sdf_filter.h:74-82 match_sdf_filter_ipv4 *)
Definition packet_ports : M Run (Z * Z) :=
  c ← gets ctx;
  match udp c, tcp c with
  | Some l4, _ | None, Some l4 =>
      source ← load16 l4;
      dest ← load16 (l4 + 2);
      mret (bpf_ntohs source, bpf_ntohs dest)
  | None, None => mret (0, 0)
  end.

(** The condition both functions end with: addresses under the filter's masks,
    protocol and ports. *)
(* cmd/ebpf/xdp/sdf_filter.h:98-105 match_sdf_filter_ipv4 *)
Definition sdf_condition (sdf : BpfSdfFilter) (packet_protocol src src_mask src_ip dst dst_mask dst_ip : Z)
    (ports : Z * Z) : bool :=
  negb (negb (protocol sdf =? 1) && negb (protocol sdf =? packet_protocol)
        || negb (Z.land src src_mask =? src_ip)
        || negb (Z.land dst dst_mask =? dst_ip)
        || ((ports.1 <? lower_bound (src_port sdf)) || (upper_bound (src_port sdf) <? ports.1))
        || ((ports.2 <? lower_bound (dst_port sdf)) || (upper_bound (dst_port sdf) <? ports.2))).

(** The filter's 128-bit fields are truncated to 32 bits and swapped. *)
(* cmd/ebpf/xdp/sdf_filter.h:68-111 match_sdf_filter_ipv4 *)
Definition match_sdf_filter_ipv4 (sdf : BpfSdfFilter) : M Run bool :=
  c ← gets ctx;
  match ip4 c with
  | None => mret false
  | Some ip4 =>
      ip_protocol ← load8 (ip4 + 9);
      ports ← packet_ports;
      saddr ← load32 (ip4 + 12);
      daddr ← load32 (ip4 + 16);
      mret (sdf_condition sdf (get_sdf_protocol ip_protocol)
              saddr (bpf_htonl (le (s_mask (src_addr sdf)))) (bpf_htonl (le (s_ip (src_addr sdf))))
              daddr (bpf_htonl (le (s_mask (dst_addr sdf)))) (bpf_htonl (le (s_ip (dst_addr sdf))))
              ports)
  end.

(** The packet's addresses are read as 128-bit numbers in memory order; the
    filter's masks are used as they are, and its addresses are truncated to 32
    bits and swapped, as for IPv4. *)
(* cmd/ebpf/xdp/sdf_filter.h:113-152 match_sdf_filter_ipv6 *)
Definition match_sdf_filter_ipv6 (sdf : BpfSdfFilter) : M Run bool :=
  c ← gets ctx;
  ip6 ← deref (ip6 c);
  nexthdr ← load8 (ip6 + 6);
  saddr ← load_le (ip6 + 8) 16;
  daddr ← load_le (ip6 + 24) 16;
  ports ← packet_ports;
  mret (sdf_condition sdf (get_sdf_protocol nexthdr)
          saddr (le (s_mask (src_addr sdf))) (bpf_htonl (le (s_ip (src_addr sdf))))
          daddr (le (s_mask (dst_addr sdf))) (bpf_htonl (le (s_ip (dst_addr sdf))))
          ports).

(** ** QERs *)

Definition GATE_STATUS_OPEN : Z := 0.
Definition NSEC_PER_SEC : Z := 1000000000.
Definition window_size : Z := 5000000.

(** The decision at time [now]: the new start of the window, or a drop.  All
    arithmetic is on 64 bits. *)
(* cmd/ebpf/xdp/qer.h:75-89 limit_rate_sliding_window *)
Definition sliding_window (packet_size start rate now : Z) : option Z :=
  let tx_time := u64 (packet_size * 8 * (NSEC_PER_SEC / rate)) in
  if now <? u64 (start + tx_time) then None
  else if u64 (start + window_size) <? now then Some (u64 (now - window_size + tx_time))
  else Some (u64 (start + tx_time)).

(** The two windows of a QER. *)
Inductive direction := Uplink | Downlink.

Definition qer_start (d : direction) (q : QerInfo) : Z :=
  match d with Uplink => StartUL q | Downlink => StartDL q end.
Definition qer_rate (d : direction) (q : QerInfo) : Z :=
  match d with Uplink => MaxBitrateUL q | Downlink => MaxBitrateDL q end.
Definition qer_gate (d : direction) (q : QerInfo) : Z :=
  match d with Uplink => GateStatusUL q | Downlink => GateStatusDL q end.
Definition set_qer_start (d : direction) (v : Z) (q : QerInfo) : QerInfo :=
  match d with
  | Uplink => mkQerInfo (GateStatusUL q) (GateStatusDL q) (Qfi q) (MaxBitrateUL q) (MaxBitrateDL q)
                v (StartDL q)
  | Downlink => mkQerInfo (GateStatusUL q) (GateStatusDL q) (Qfi q) (MaxBitrateUL q) (MaxBitrateDL q)
                  (StartUL q) v
  end.

Section rules.
Context `{XdpKernel}.

(** The window is a field of the map's entry, written in place. *)
(* cmd/ebpf/xdp/qer.h:67-90 limit_rate_sliding_window *)
Definition limit_rate_sliding_window (d : direction) (packet_size qer_id : Z) (qer : QerInfo) : M Run Z :=
  let rate := qer_rate d qer in
  if rate =? 0 then mret XDP_PASS
  else
    now ← ktime;
    match sliding_window packet_size (qer_start d qer) rate now with
    | None => mret XDP_DROP
    | Some start =>
        modify (on_xdp (λ x, set_x_maps (on_qer <[qer_id := set_qer_start d start qer]> (x_maps x)) x)) ≫= λ _,
        mret XDP_PASS
    end.

(** ** URRs *)

(* cmd/ebpf/xdp/urr.h:41-49 update_urr *)
Definition update_urr (urr_id uplink_bytes downlink_bytes : Z) : M Run unit :=
  modify (on_xdp (λ x, set_x_maps (on_urr (alter (λ urr,
    mkUrrInfo (u64 (UplinkVolume urr + uplink_bytes)) (u64 (DownlinkVolume urr + downlink_bytes)))
    urr_id) (x_maps x)) x)).

End rules.
