(* ===== verification/XdpProgram.v ===== *)
(** * The XDP program (cmd/ebpf/xdp/n3n6_entrypoint.c, routing.h)

    From the frame to the action: uplink (GTP-U from N3 or N9), downlink (IP
    from N6), echo requests, and routing, with the route cache of a build with
    ENABLE_ROUTE_CACHE or without it.  Debug output is left out. *)

From S2P Require Import Prelude Net ForwardingPlane Stats XdpMemory XdpParse XdpGtp XdpRules.

Definition DEFAULT_XDP_ACTION : Z := XDP_PASS.
Definition AF_INET : Z := 2.

Definition FAR_FORW : Z := 2.
Definition OHC_GTP_U_UDP_IPv4 : Z := 1.
Definition OHR_GTP_U_UDP_IPv4 : Z := 0.
Definition OHR_GTP_U_UDP_IP : Z := 6.

(** [bpf_fib_lookup] results. *)
Definition BPF_FIB_LKUP_RET_SUCCESS : Z := 0.
Definition BPF_FIB_LKUP_RET_BLACKHOLE : Z := 1.
Definition BPF_FIB_LKUP_RET_UNREACHABLE : Z := 2.
Definition BPF_FIB_LKUP_RET_PROHIBIT : Z := 3.

(** Addresses are in memory order, as the control plane sets them. *)
(* cmd/ebpf/xdp/n3n6_entrypoint.c:48-51 struct dataplane_config *)
Record dataplane_config := mkDataplaneConfig { n3_ipv4_address : Z; n9_ipv4_address : Z }.

(** [STATISTIC->FIELD += 1] of the routing statistics. *)
Inductive fib_counter :=
  | fib_lookup_ip4_cache | fib_lookup_ip4_ok | fib_lookup_ip4_error_drop | fib_lookup_ip4_error_pass
  | fib_lookup_ip6_ok | fib_lookup_ip6_error_drop | fib_lookup_ip6_error_pass.

#[export] Instance fib_counter_eq_dec : EqDecision fib_counter.
Proof. solve_decision. Defined.

Definition bump_route (k : fib_counter) (s : RouteStat) : RouteStat :=
  let add k' v := if decide (k = k') then u64 (v + 1) else v in
  mkRouteStat (add fib_lookup_ip4_cache (FibLookupIp4Cache s)) (add fib_lookup_ip4_ok (FibLookupIp4Ok s))
    (add fib_lookup_ip4_error_drop (FibLookupIp4ErrorDrop s))
    (add fib_lookup_ip4_error_pass (FibLookupIp4ErrorPass s))
    (FibLookupIp6Cache s) (add fib_lookup_ip6_ok (FibLookupIp6Ok s))
    (add fib_lookup_ip6_error_drop (FibLookupIp6ErrorDrop s))
    (add fib_lookup_ip6_error_pass (FibLookupIp6ErrorPass s)).

Definition count_route (k : fib_counter) : M Run unit :=
  modify (on_xdp (λ x, set_x_route (bump_route k <$> x_route x) x)).

Section program.
Context `{XdpKernel} (global_config : dataplane_config).

(** ** Routing *)

(* cmd/ebpf/xdp/utils/routing.h:90-98 do_route_ipv4 *)
Definition do_route_ipv4 (eth : Z) (route : FibResult) : M Run Z :=
  store (eth + 6) (smac route) ≫= λ _,
  store eth (dmac route) ≫= λ _,
  ingress ← gets (λ r, x_ingress (xdp r));
  if ifindex route =? ingress then mret XDP_TX else redirect (ifindex route).

(** Without ENABLE_ROUTE_CACHE there is no map to update. *)
(* cmd/ebpf/xdp/utils/routing.h:80-87 update_route_cache_ipv4 *)
Definition update_route_cache_ipv4 (daddr : bytes) (fib_params : FibResult) : M Run unit :=
  modify (on_xdp (λ x, set_x_cache (cons (CacheUpdate daddr fib_params) <$> x_cache x) x)).

(** The lookup of an address; without ENABLE_ROUTE_CACHE nothing is found. *)
(* cmd/ebpf/xdp/utils/routing.h:107-114 route_ipv4 *)
Definition cached_route (daddr : bytes) : M Run (option route_record) :=
  x ← gets xdp;
  match x_cache x with
  | None => mret None
  | Some events =>
      modify (on_xdp (set_x_cache (Some (CacheLookup daddr :: events)))) ≫= λ _,
      mret (bpf_lru_lookup events daddr)
  end.

(** The last part of both lookups; only IPv4 routes are remembered. *)
(* cmd/ebpf/xdp/utils/routing.h:128-153 route_ipv4 *)
Definition fib_result (ok drop pass : fib_counter) (remember : FibResult → M Run unit) (eth : Z)
    (rc : Z * FibResult) : M Run Z :=
  if rc.1 =? BPF_FIB_LKUP_RET_SUCCESS then
    count_route ok ≫= λ _, remember rc.2 ≫= λ _, do_route_ipv4 eth rc.2
  else if (rc.1 =? BPF_FIB_LKUP_RET_BLACKHOLE) || (rc.1 =? BPF_FIB_LKUP_RET_UNREACHABLE)
          || (rc.1 =? BPF_FIB_LKUP_RET_PROHIBIT) then
    count_route drop ≫= λ _, mret XDP_DROP
  else count_route pass ≫= λ _, mret XDP_PASS.

(* cmd/ebpf/xdp/utils/routing.h:100-154 route_ipv4 *)
Definition route_ipv4 (eth ip4 : Z) : M Run Z :=
  x ← gets xdp;
  match x_route x with
  | None => mret XDP_ABORTED
  | Some _ =>
      dst ← load (ip4 + 16) 4;
      cache ← cached_route dst;
      match cache with
      | Some cache => count_route fib_lookup_ip4_cache ≫= λ _, do_route_ipv4 eth cache
      | None =>
          tos ← load8 (ip4 + 1);
          proto ← load8 (ip4 + 9);
          tot_len ← load16 (ip4 + 2);
          src ← load (ip4 + 12) 4;
          fib_result fib_lookup_ip4_ok fib_lookup_ip4_error_drop fib_lookup_ip4_error_pass
            (update_route_cache_ipv4 dst) eth
            (bpf_fib_lookup (mkFibParams AF_INET tos proto (bpf_ntohs tot_len) src dst (x_ingress x)))
      end
  end.

(** The family is that of IPv4 here too. *)
(* cmd/ebpf/xdp/utils/routing.h:156-204 route_ipv6 *)
Definition route_ipv6 (eth ip6 : Z) : M Run Z :=
  x ← gets xdp;
  match x_route x with
  | None => mret XDP_ABORTED
  | Some _ =>
      proto ← load8 (ip6 + 6);
      payload_len ← load16 (ip6 + 4);
      src ← load (ip6 + 8) 16;
      dst ← load (ip6 + 24) 16;
      fib_result fib_lookup_ip6_ok fib_lookup_ip6_error_drop fib_lookup_ip6_error_pass (λ _, mret tt) eth
        (bpf_fib_lookup (mkFibParams AF_INET 0 proto (bpf_ntohs payload_len) src dst (x_ingress x)))
  end.

(** ** Applying rules *)

(* cmd/ebpf/xdp/n3n6_entrypoint.c:53-56 is_local_ip *)
Definition is_local_ip (ip : Z) : bool :=
  (ip =? n3_ipv4_address global_config) || (ip =? n9_ipv4_address global_config).

(* cmd/ebpf/xdp/n3n6_entrypoint.c:58-64 send_to_gtp_tunnel *)
Definition send_to_gtp_tunnel (srcip dstip tos qfi teid : Z) : M Run Z :=
  r ← add_gtp_over_ip4_headers srcip dstip tos qfi teid;
  if r =? -1 then mret XDP_ABORTED
  else
    increment_counter tx_n3 ≫= λ _,
    c ← gets ctx;
    eth ← deref (eth c);
    ip4 ← deref (ip4 c);
    route_ipv4 eth ip4.

(** [ctx->xdp_ctx->data_end - ctx->xdp_ctx->data] *)
Definition frame_size (r : Run) : Z := x_data_end (xdp r) - x_data (xdp r).

(** The FAR and QER a downlink packet falls under, or the action at once. *)
(* cmd/ebpf/xdp/n3n6_entrypoint.c:76-90 handle_n6_packet_ipv4 *)
Definition select_downlink (match_sdf : BpfSdfFilter → M Run bool) (pdr : IpEntrypointPdrInfo)
    : M Run (Z + Z * Z) :=
  if sdf_mode pdr =? 0 then mret (inr (far_id pdr, qer_id pdr))
  else
    matches ← match_sdf (sdf_filter (sdf_rules pdr));
    mret (if matches : bool then inr (sr_far_id (sdf_rules pdr), sr_qer_id (sdf_rules pdr))
          else if Z.land (sdf_mode pdr) 1 =? 0 then inr (far_id pdr, qer_id pdr)
          else inl DEFAULT_XDP_ACTION).

(** What both downlink handlers do with a packet whose PDR is found. *)
(* cmd/ebpf/xdp/n3n6_entrypoint.c:76-128 handle_n6_packet_ipv4 *)
Definition apply_downlink (match_sdf : BpfSdfFilter → M Run bool) (pdr : IpEntrypointPdrInfo) : M Run Z :=
  sel ← select_downlink match_sdf pdr;
  match sel with
  | inl action => mret action
  | inr (far_id, qer_id) =>
      maps ← gets (λ r, x_maps (xdp r));
      match v_far maps !! far_id with
      | None => mret XDP_DROP
      | Some far =>
          if Z.land (Action far) FAR_FORW =? 0 then mret XDP_DROP
          else if Z.land (OuterHeaderCreation far) OHC_GTP_U_UDP_IPv4 =? 0 then mret XDP_DROP
          else
            match v_qer maps !! qer_id with
            | None => mret XDP_DROP
            | Some qer =>
                if negb (GateStatusDL qer =? GATE_STATUS_OPEN) then mret XDP_DROP
                else
                  packet_size ← gets frame_size;
                  limit ← limit_rate_sliding_window Downlink packet_size qer_id qer;
                  if limit =? XDP_DROP then mret XDP_DROP
                  else
                    let tos := Z.shiftr (TransportLevelMarking far) 8 in
                    update_urr (urr1_id pdr) 0 packet_size ≫= λ _,
                    update_urr (urr2_id pdr) 0 packet_size ≫= λ _,
                    send_to_gtp_tunnel (n3_ipv4_address global_config) (RemoteIP far) tos (Qfi qer)
                      (Teid far)
            end
      end
  end.

(* cmd/ebpf/xdp/n3n6_entrypoint.c:68-129 handle_n6_packet_ipv4 *)
Definition handle_n6_packet_ipv4 : M Run Z :=
  c ← gets ctx;
  ip4 ← deref (ip4 c);
  daddr ← load (ip4 + 16) 4;
  maps ← gets (λ r, x_maps (xdp r));
  match v_ip4 maps !! Some daddr with
  | None => mret DEFAULT_XDP_ACTION
  | Some pdr => apply_downlink match_sdf_filter_ipv4 pdr
  end.

(* cmd/ebpf/xdp/n3n6_entrypoint.c:131-192 handle_n6_packet_ipv6 *)
Definition handle_n6_packet_ipv6 : M Run Z :=
  c ← gets ctx;
  ip6 ← deref (ip6 c);
  daddr ← load (ip6 + 24) 16;
  maps ← gets (λ r, x_maps (xdp r));
  match v_ip6 maps !! Some daddr with
  | None => mret DEFAULT_XDP_ACTION
  | Some pdr => apply_downlink match_sdf_filter_ipv6 pdr
  end.

(** Run on a context of its own, which is dropped in the end. *)
Definition with_context {A} (c : packet_context) (m : M Run A) : M Run A := λ r,
  let '(r', o) := m (set_ctx c r) in (set_ctx (ctx r) r', o).

(** The rules of an uplink packet: (FAR, QER, outer header removal), or the
    action at once. *)
Definition default_rules (pdr : IpEntrypointPdrInfo) : Z * Z * Z :=
  (far_id pdr, qer_id pdr, outer_header_removal pdr).
Definition filter_rules (pdr : IpEntrypointPdrInfo) : Z * Z * Z :=
  let s := sdf_rules pdr in (sr_far_id s, sr_qer_id s, sr_outer_header_removal s).

(* cmd/ebpf/xdp/n3n6_entrypoint.c:228-254 handle_gtp_packet *)
Definition match_inner (parse : M Run Z) (match_sdf : BpfSdfFilter → M Run bool)
    (pdr : IpEntrypointPdrInfo) : M Run (Z + Z * Z * Z) :=
  ip_protocol ← parse;
  if ip_protocol =? -1 then mret (inl DEFAULT_XDP_ACTION)
  else
    l4 ← parse_l4 ip_protocol;
    if l4 =? -1 then mret (inl DEFAULT_XDP_ACTION)
    else
      matches ← match_sdf (sdf_filter (sdf_rules pdr));
      mret (if matches : bool then inr (filter_rules pdr)
            else if Z.land (sdf_mode pdr) 1 =? 0 then inr (default_rules pdr)
            else inl DEFAULT_XDP_ACTION).

(* cmd/ebpf/xdp/n3n6_entrypoint.c:217-286 handle_gtp_packet *)
Definition select_uplink (pdr : IpEntrypointPdrInfo) : M Run (Z + Z * Z * Z) :=
  if sdf_mode pdr =? 0 then mret (inr (default_rules pdr))
  else
    c ← gets ctx;
    with_context (new_context (data c) (data_end c)) (
      if data_end c <? data c + 1 then mret (inl DEFAULT_XDP_ACTION)
      else
        eth_protocol ← guess_eth_protocol (data c);
        if eth_protocol =? ETH_P_IP_BE then match_inner parse_ip4 match_sdf_filter_ipv4 pdr
        else if eth_protocol =? ETH_P_IPV6_BE then match_inner parse_ip6 match_sdf_filter_ipv6 pdr
        else mret (if Z.land (sdf_mode pdr) 1 =? 0 then inr (default_rules pdr)
                   else inl DEFAULT_XDP_ACTION)).

(** After the encapsulation has been dealt with: local pings, then routing. *)
(* cmd/ebpf/xdp/n3n6_entrypoint.c:350-371 handle_gtp_packet *)
Definition forward_uplink : M Run Z :=
  c ← gets ctx;
  match ip4 c, ip6 c with
  | Some ip4, _ =>
      daddr ← load32 (ip4 + 16);
      proto ← load8 (ip4 + 9);
      if is_local_ip daddr && (proto =? IPPROTO_ICMP) then
        r ← prepare_icmp_echo_reply;
        if r =? -1 then mret XDP_ABORTED else handle_n6_packet_ipv4
      else
        increment_counter tx_n6 ≫= λ _,
        eth ← deref (eth c);
        route_ipv4 eth ip4
  | None, Some ip6 =>
      increment_counter tx_n6 ≫= λ _,
      eth ← deref (eth c);
      route_ipv6 eth ip6
  | None, None => mret XDP_ABORTED
  end.

(** The GTP-U header of an uplink packet: rewritten towards another tunnel,
    removed, or kept. *)
(* cmd/ebpf/xdp/n3n6_entrypoint.c:325-336 handle_gtp_packet *)
Definition outer_header (far : FarInfo) (ohr : Z) : M Run bool :=
  if negb (Z.land (OuterHeaderCreation far) OHC_GTP_U_UDP_IPv4 =? 0) then
    update_gtp_tunnel (n9_ipv4_address global_config) (RemoteIP far) 0 (Teid far) ≫= λ _, mret true
  else if (ohr =? OHR_GTP_U_UDP_IPv4) || (ohr =? OHR_GTP_U_UDP_IP) then
    result ← remove_gtp_header; mret (result =? 0)
  else mret true.

(* cmd/ebpf/xdp/n3n6_entrypoint.c:206-371 handle_gtp_packet *)
Definition apply_uplink (pdr : IpEntrypointPdrInfo) : M Run Z :=
  sel ← select_uplink pdr;
  match sel with
  | inl action => mret action
  | inr (far_id, qer_id, ohr) =>
      maps ← gets (λ r, x_maps (xdp r));
      match v_far maps !! far_id with
      | None => mret XDP_DROP
      | Some far =>
          if Z.land (Action far) FAR_FORW =? 0 then mret XDP_DROP
          else
            match v_qer maps !! qer_id with
            | None => mret XDP_DROP
            | Some qer =>
                if negb (GateStatusUL qer =? GATE_STATUS_OPEN) then mret XDP_DROP
                else
                  packet_size ← gets frame_size;
                  limit ← limit_rate_sliding_window Uplink packet_size qer_id qer;
                  if limit =? XDP_DROP then mret XDP_DROP
                  else
                    update_urr (urr1_id pdr) packet_size 0 ≫= λ _,
                    update_urr (urr2_id pdr) packet_size 0 ≫= λ _,
                    ok ← outer_header far ohr;
                    if ok : bool then forward_uplink else mret XDP_ABORTED
            end
      end
  end.

(* cmd/ebpf/xdp/n3n6_entrypoint.c:194-373 handle_gtp_packet *)
Definition handle_gtp_packet : M Run Z :=
  c ← gets ctx;
  match gtp c with
  | None => mret DEFAULT_XDP_ACTION
  | Some gtp =>
      teid_be ← load32 (gtp + 4);
      let teid := bpf_htonl teid_be in
      maps ← gets (λ r, x_maps (xdp r));
      match v_teid maps !! teid with
      | None => mret DEFAULT_XDP_ACTION
      | Some pdr => apply_uplink pdr
      end
  end.

(** ** Dispatch *)

(* cmd/ebpf/xdp/n3n6_entrypoint.c:375-399 handle_gtpu *)
Definition handle_gtpu : M Run Z :=
  pdu_type ← parse_gtp;
  if pdu_type =? GTPU_G_PDU then increment_counter rx_gtp_pdu ≫= λ _, handle_gtp_packet
  else if pdu_type =? GTPU_ECHO_REQUEST then increment_counter rx_gtp_echo ≫= λ _, handle_echo_request
  else if pdu_type =? GTPU_ECHO_RESPONSE then mret XDP_PASS
  else if (pdu_type =? GTPU_ERROR_INDICATION)
          || (pdu_type =? GTPU_SUPPORTED_EXTENSION_HEADERS_NOTIFICATION)
          || (pdu_type =? GTPU_END_MARKER)
  then increment_counter rx_gtp_other ≫= λ _, mret DEFAULT_XDP_ACTION
  else increment_counter rx_gtp_unexp ≫= λ _, mret DEFAULT_XDP_ACTION.

(** The end of [handle_ip4] and of [handle_ip6]. *)
Definition from_n6 (handle : M Run Z) : M Run Z := increment_counter rx_n6 ≫= λ _, handle.

(** A GTP-U packet for a local address is from N3 or N9. *)
(* cmd/ebpf/xdp/n3n6_entrypoint.c:410-417 handle_ip4 *)
Definition handle_udp : M Run Z :=
  port ← parse_udp;
  if port =? GTP_UDP_PORT then
    c ← gets ctx;
    ip4 ← deref (ip4 c);
    daddr ← load32 (ip4 + 16);
    if is_local_ip daddr then increment_counter rx_n3 ≫= λ _, handle_gtpu
    else from_n6 handle_n6_packet_ipv4
  else from_n6 handle_n6_packet_ipv4.

(* cmd/ebpf/xdp/n3n6_entrypoint.c:403-428 handle_ip4 *)
Definition handle_ip4_protocol (l4_protocol : Z) : M Run Z :=
  if l4_protocol =? IPPROTO_ICMP then
    increment_counter rx_icmp ≫= λ _, from_n6 handle_n6_packet_ipv4
  else if l4_protocol =? IPPROTO_UDP then increment_counter rx_udp ≫= λ _, handle_udp
  else if l4_protocol =? IPPROTO_TCP then
    increment_counter rx_tcp ≫= λ _,
    parse_tcp ≫= λ _, from_n6 handle_n6_packet_ipv4
  else increment_counter rx_other ≫= λ _, mret DEFAULT_XDP_ACTION.

(* cmd/ebpf/xdp/n3n6_entrypoint.c:401-429 handle_ip4 *)
Definition handle_ip4 : M Run Z := l4_protocol ← parse_ip4; handle_ip4_protocol l4_protocol.

(** A UDP header is not parsed here. *)
(* cmd/ebpf/xdp/n3n6_entrypoint.c:431-457 handle_ip6 *)
Definition handle_ip6 : M Run Z :=
  l4_protocol ← parse_ip6;
  if l4_protocol =? IPPROTO_ICMPV6 then increment_counter rx_icmp6 ≫= λ _, mret XDP_PASS
  else if l4_protocol =? IPPROTO_UDP then
    increment_counter rx_udp ≫= λ _, from_n6 handle_n6_packet_ipv6
  else if l4_protocol =? IPPROTO_TCP then
    increment_counter rx_tcp ≫= λ _,
    parse_tcp ≫= λ _, from_n6 handle_n6_packet_ipv6
  else increment_counter rx_other ≫= λ _, mret DEFAULT_XDP_ACTION.

(* cmd/ebpf/xdp/n3n6_entrypoint.c:459-477 process_packet *)
Definition process_packet : M Run Z :=
  ethertype ← parse_ethernet;
  let l3_protocol := u16 ethertype in
  if l3_protocol =? ETH_P_IPV6 then increment_counter rx_ip6 ≫= λ _, handle_ip6
  else if l3_protocol =? ETH_P_IP then increment_counter rx_ip4 ≫= λ _, handle_ip4
  else if l3_protocol =? ETH_P_ARP then increment_counter rx_arp ≫= λ _, mret XDP_PASS
  else mret DEFAULT_XDP_ACTION.

Definition zeroUpfStatistic : UpfStatistic :=
  mkUpfStatistic zeroCounters (mkN3N6Counters 0 0 0 0) (replicate 8 0).

Definition count_action (action : Z) (s : UpfStatistic) : UpfStatistic :=
  mkUpfStatistic (upf_counters s) (upf_n3_n6_counter s)
    (alter (λ n, u64 (n + 1)) (Z.to_nat (Z.land action 7)) (XdpActions s)).

(** The entry of this CPU exists, or the update creates it. *)
(* cmd/ebpf/xdp/n3n6_entrypoint.c:481-508 upf_ip_entrypoint_func *)
Definition upf_ip_entrypoint_func (x : Xdp) : Xdp * outcome Z :=
  let x := set_x_stat (Some (default zeroUpfStatistic (x_stat x))) x in
  let '(r, o) := process_packet (mkRun x (new_context (x_data x) (x_data_end x))) in
  match o with
  | Ok action => (set_x_stat (count_action action <$> x_stat (xdp r)) (xdp r), Ok action)
  | Err e => (xdp r, Err e)
  | Panic => (xdp r, Panic)
  end.

End program.
