(* ===== verification/XdpDemo.v ===== *)
(** * A kernel for the witnesses

    Helpers that satisfy the documented behaviour, maps with one session, and
    the frames of a TCP packet to it and of a GTP-U packet from it. *)

From S2P Require Import Prelude Net ForwardingPlane Stats XdpMemory XdpParse XdpGtp XdpRules XdpProgram.

Definition demo_csum (b : bytes) : Z := if sum16 b =? 0 then 0 else 1 + (sum16 b - 1) mod 65535.

Definition six_bytes (route : route_record) : bool :=
  bool_decide (length (smac route) = 6%nat ∧ length (dmac route) = 6%nat).

(** The clock advances by 4 ms; every destination is behind interface 2;
    the route cache evicts nothing. *)
#[export] Instance demo_kernel : XdpKernel := {|
  bpf_xdp_adjust_head d d_end delta := if (0 <=? d + delta) && (d + delta + 14 <=? d_end) then 0 else -22;
  bpf_csum_diff := demo_csum;
  bpf_fib_lookup _ := (0, mkFibResult 2 [2; 0; 0; 0; 0; 1] [2; 0; 0; 0; 0; 2]);
  bpf_redirect _ := 4;
  bpf_lru_lookup events daddr :=
    match last_update events daddr with Some route => if six_bytes route then Some route else None | None => None end;
  bpf_ktime_get_ns n := 20000000 + Z.of_nat n * 4000000
|}.

#[export] Instance demo_kernel_laws : XdpKernelLaws.
Proof.
  split.
  - intros d d_end delta. cbn. destruct (Z.leb_spec 0 (d + delta)), (Z.leb_spec (d + delta + 14) d_end); cbn; lia.
  - intros b Hb Hlen. cbn. unfold demo_csum, in_range. destruct (Z.eqb_spec (sum16 b) 0) as [->|Hne]; [done|].
    pose proof (Z.mod_pos_bound (sum16 b - 1) 65535). split; [lia|]. split; [|lia].
    rewrite Zplus_mod_idemp_r. f_equal. lia.
  - done.
  - by left.
  - intros events daddr route. cbn. destruct (last_update _ _) as [route'|]; [|done]. by destruct (six_bytes route').
  - intros events daddr route. cbn. destruct (last_update _ _) as [route'|]; [|done].
    destruct (six_bytes route') eqn:Hsix; [|done]. intros [= <-]. by apply bool_decide_eq_true_1 in Hsix.
  - intros m n Hmn. cbn. lia.
Qed.

(** UE 10.0.0.1 behind the gNB 10.1.0.2, N3 address 10.1.0.1; 10.2.0.9 in the
    data network. *)
Definition demo_config : dataplane_config := mkDataplaneConfig (le [10; 1; 0; 1]) (le [10; 1; 0; 1]).

Definition demo_far : FarInfo := mkFarInfo 2 1 257 (le [10; 1; 0; 2]) 0.
Definition demo_far_n6 : FarInfo := mkFarInfo 2 0 0 0 0.
Definition demo_qer : QerInfo := mkQerInfo 0 0 9 0 1000000 0 0.
Definition demo_pdr_dl : IpEntrypointPdrInfo := mkPdrEntry 1 1 0 0 0 0 zeroSdfRules.
Definition demo_pdr_ul : IpEntrypointPdrInfo := mkPdrEntry 2 1 0 0 0 0 zeroSdfRules.

Definition demo_maps : FPView :=
  mkFPView {[1 := demo_far; 2 := demo_far_n6]} {[1 := demo_qer]} {[0 := zeroUrrInfo]}
    {[33 := demo_pdr_ul]} {[Some [10; 0; 0; 1] := demo_pdr_dl]} ∅.

Definition demo_macs : bytes := [2; 0; 0; 0; 0; 3; 2; 0; 0; 0; 0; 4].

(** A TCP segment of 20 bytes from 10.2.0.9:80 to the UE. *)
Definition demo_packet : bytes :=
  [69; 0; 0; 40; 0; 0; 64; 0; 64; 6; 0; 0; 10; 2; 0; 9; 10; 0; 0; 1;
   0; 80; 31; 144; 0; 0; 0; 1; 0; 0; 0; 1; 80; 16; 1; 0; 0; 0; 0; 0].
Definition demo_frame_dl : bytes := demo_macs ++ [8; 0] ++ demo_packet.

(** A TCP segment from the UE, in a G-PDU for TEID 33 without options. *)
Definition demo_packet_ul : bytes :=
  [69; 0; 0; 40; 0; 0; 64; 0; 64; 6; 0; 0; 10; 0; 0; 1; 10; 2; 0; 9;
   31; 144; 0; 80; 0; 0; 0; 1; 0; 0; 0; 1; 80; 16; 1; 0; 0; 0; 0; 0].
Definition demo_frame_ul : bytes :=
  demo_macs ++ [8; 0] ++
  [69; 0; 0; 76; 0; 0; 64; 0; 64; 17; 0; 0; 10; 1; 0; 2; 10; 1; 0; 1;
   8; 104; 8; 104; 0; 56; 0; 0; 48; 255; 0; 40; 0; 0; 0; 33] ++ demo_packet_ul.

(** 256 bytes of headroom. *)
Definition demo_xdp (frame : bytes) : Xdp :=
  mkXdp (replicate 256 0 ++ frame) 256 1 demo_maps None (Some zeroRouteStat) None None 0.

Definition demo_run (frame : bytes) (c : packet_context) : Run := mkRun (demo_xdp frame) c.

Lemma demo_bytes frame : is_bytes frame → is_bytes (x_buf (demo_xdp frame)).
Proof. intros. apply Forall_app. split; [apply Forall_replicate; lia|done]. Qed.

Lemma demo_frame_dl_bytes : is_bytes demo_frame_dl.
Proof. unfold demo_frame_dl. repeat constructor; done. Qed.
Lemma demo_frame_ul_bytes : is_bytes demo_frame_ul.
Proof. unfold demo_frame_ul. repeat constructor; done. Qed.
