(* ===== verification/XdpSafety.v ===== *)
(** * Memory safety of the XDP program (cmd/ebpf/xdp)

    A logic of access: what a function does to the bounds of the packet and to
    the pointers of the context ([Shape]), whatever the bytes are.  With it,
    every load and store of the program is shown to lie inside the packet. *)

From S2P Require Import Prelude Net ForwardingPlane Stats XdpMemory XdpParse XdpGtp XdpRules XdpProgram XdpDemo.

Record Shape := mkShape { s_data : Z; s_end : Z; s_ctx : packet_context }.

Definition shape (r : Run) : Shape := mkShape (x_data (xdp r)) (x_data_end (xdp r)) (ctx r).

Definition on_s_ctx (f : packet_context → packet_context) (s : Shape) : Shape :=
  mkShape (s_data s) (s_end s) (f (s_ctx s)).

(** From any state of this shape [m] returns without a bad access, in a state
    whose shape satisfies [Q]. *)
Definition safe {A} (m : M Run A) (s : Shape) (Q : A → Shape → Prop) : Prop :=
  ∀ r, shape r = s → wp m r (λ a r', Q a (shape r')) (λ _ _, False).

(** [n] bytes at [p] are in the packet. *)
Definition fits (s : Shape) (p n : Z) : Prop := 0 ≤ s_data s ∧ s_data s ≤ p ∧ p + n ≤ s_end s.

(** ** Rules *)

Section rules.
Implicit Types s : Shape.

Lemma acc_ret {A} (a : A) s (Q : A → Shape → Prop) : Q a s → safe (mret a) s Q.
Proof. by intros ? r <-. Qed.

Lemma acc_bind {A B} (m : M Run A) (k : A → M Run B) s Q :
  safe m s (λ a s', safe (k a) s' Q) → safe (m ≫= k) s Q.
Proof.
  intros Hm r Hr. apply wp_bind. eapply wp_mono; [by apply Hm|cbn|done]. intros a r' Hk. by apply Hk.
Qed.

Lemma acc_mono {A} (m : M Run A) s (Q Q' : A → Shape → Prop) :
  safe m s Q → (∀ a s', Q a s' → Q' a s') → safe m s Q'.
Proof. intros Hm HQ r Hr. eapply wp_mono; [by apply Hm|cbn; intros; by apply HQ|done]. Qed.

Lemma acc_gets {A} (f : Run → A) s (Q : A → Shape → Prop) :
  (∀ r, shape r = s → Q (f r) s) → safe (gets f) s Q.
Proof. intros HQ r Hr. apply wp_gets. rewrite Hr. by apply HQ. Qed.

Lemma acc_gets_ctx s (Q : packet_context → Shape → Prop) : Q (s_ctx s) s → safe (gets ctx) s Q.
Proof. intros HQ. apply acc_gets. by intros r <-. Qed.

Lemma acc_gets_end s (Q : Z → Shape → Prop) :
  Q (s_end s) s → safe (gets (λ r, x_data_end (xdp r))) s Q.
Proof. intros HQ. apply acc_gets. by intros r <-. Qed.

Lemma acc_gets_xdp s (Q : Xdp → Shape → Prop) :
  (∀ x, x_data x = s_data s → x_data_end x = s_end s → Q x s) → safe (gets xdp) s Q.
Proof. intros HQ. apply acc_gets. intros r <-. by apply HQ. Qed.

Lemma acc_modify (f : Run → Run) s (Q : unit → Shape → Prop) :
  (∀ r, shape r = s → Q tt (shape (f r))) → safe (modify f) s Q.
Proof. intros HQ r Hr. by apply wp_modify, HQ. Qed.

Lemma acc_modify_ctx f s (Q : unit → Shape → Prop) :
  Q tt (on_s_ctx f s) → safe (modify (on_ctx f)) s Q.
Proof. intros HQ. apply acc_modify. by intros r <-. Qed.

Lemma acc_preserves {A} (m : M Run A) s (Q : A → Shape → Prop) :
  preserves shape m → safe m s (λ a _, Q a s) → safe m s Q.
Proof.
  intros Hp Hm r Hr. eapply wp_mono;
    [by apply (wp_preserves shape), (Hm r)|cbn|by intros ?? [_ []]].
  intros a r' [-> ?]. by rewrite Hr.
Qed.

Lemma acc_load p n s (Q : bytes → Shape → Prop) :
  fits s p n → 0 ≤ n → (∀ b, length b = Z.to_nat n → Q b s) → safe (load p n) s Q.
Proof.
  intros [? [? ?]] Hn HQ r <-. cbn in *. apply wp_load; [done..|]. apply HQ, length_slice; [lia|done|].
  by unfold x_data_end in *.
Qed.

Lemma acc_load_le p n s (Q : Z → Shape → Prop) :
  fits s p n → 0 ≤ n → (∀ v, Q v s) → safe (load_le p n) s Q.
Proof. intros. apply acc_bind, acc_load; [done..|]. intros b _. by apply acc_ret. Qed.

Lemma acc_store p bs s (Q : unit → Shape → Prop) :
  fits s p (Z.of_nat (length bs)) → Q tt s → safe (store p bs) s Q.
Proof.
  intros [? [? ?]] HQ r <-. cbn in *. apply wp_store; [done..|]. unfold shape, on_xdp, x_data_end in *. cbn.
  rewrite length_overwrite by lia. done.
Qed.

Lemma acc_deref o p s (Q : Z → Shape → Prop) : o = Some p → Q p s → safe (deref o) s Q.
Proof. intros -> HQ. by apply acc_ret. Qed.

Lemma acc_within p n m s (Q : Z → Shape → Prop) :
  Q (-1) s → (p + n ≤ s_end s → safe m s Q) → safe (within p n m) s Q.
Proof.
  intros Hbad Hok. apply acc_bind, acc_gets_end. destruct (Z.ltb_spec (s_end s) (p + n)); [by apply acc_ret|].
  by apply Hok.
Qed.

Lemma acc_adjust_head `{XdpKernelLaws} delta s (Q : Z → Shape → Prop) :
  (∀ rc, rc ≠ 0 → Q rc s) →
  (0 ≤ s_data s + delta → s_data s + delta + 14 ≤ s_end s →
   Q 0 (mkShape (s_data s + delta) (s_end s) (s_ctx s))) →
  safe (adjust_head delta) s Q.
Proof. intros Hbad Hok r <-. apply wp_adjust_head; [by apply Hbad|by apply Hok]. Qed.

Lemma acc_ktime `{XdpKernel} s (Q : Z → Shape → Prop) : (∀ t, Q t s) → safe ktime s Q.
Proof. intros HQ r <-. by apply HQ. Qed.

End rules.

(** Maps and counters are not part of the shape. *)
Lemma preserves_shape_xdp (f : Xdp → Xdp) :
  (∀ x, x_data (f x) = x_data x ∧ x_buf (f x) = x_buf x) → preserves shape (modify (on_xdp f)).
Proof.
  intros Hf. apply preserves_modify. intros r. unfold shape, x_data_end. cbn. by destruct (Hf (xdp r)) as [-> ->].
Qed.

Lemma acc_count k s (Q : unit → Shape → Prop) : Q tt s → safe (increment_counter k) s Q.
Proof. intros HQ. apply acc_modify. by intros r <-. Qed.

Lemma acc_count_route k s (Q : unit → Shape → Prop) : Q tt s → safe (count_route k) s Q.
Proof. intros HQ. apply acc_modify. by intros r <-. Qed.

Lemma acc_update_urr id u d s (Q : unit → Shape → Prop) : Q tt s → safe (update_urr id u d) s Q.
Proof. intros HQ. apply acc_modify. by intros r <-. Qed.

Ltac acc_step :=
  match goal with
  | |- safe (mret _) _ _ => apply acc_ret
  | |- safe (_ ≫= _) _ _ => apply acc_bind
  | |- safe (gets ctx) _ _ => apply acc_gets_ctx
  | |- safe (gets xdp) _ _ => apply acc_gets_xdp; intros ?x ?Hdata ?Hend
  | |- safe (gets (λ r, x_data_end (xdp r))) _ _ => apply acc_gets_end
  | |- safe (gets _) _ _ => apply acc_gets; intros ? _
  | |- safe (modify (on_ctx _)) _ _ => apply acc_modify_ctx
  | |- safe (load8 _) _ _ => apply acc_load_le; [|lia|intros ?v]
  | |- safe (load16 _) _ _ => apply acc_load_le; [|lia|intros ?v]
  | |- safe (load32 _) _ _ => apply acc_load_le; [|lia|intros ?v]
  | |- safe (load_le _ _) _ _ => apply acc_load_le; [|lia|intros ?v]
  | |- safe (load _ _) _ _ => apply acc_load; [|lia|intros ?b ?Hb]
  | |- safe (store8 _ _) _ _ => apply acc_store
  | |- safe (store16 _ _) _ _ => apply acc_store
  | |- safe (store32 _ _) _ _ => apply acc_store
  | |- safe (store _ _) _ _ => apply acc_store
  | |- safe ktime _ _ => apply acc_ktime; intros ?t
  | |- safe (increment_counter _) _ _ => apply acc_count
  | |- safe (count_route _) _ _ => apply acc_count_route
  | |- safe (update_urr _ _ _) _ _ => apply acc_update_urr
  | |- safe (match ?b with true => _ | false => _ end) _ _ => destruct b eqn:?
  end; cbn beta.

(** Side conditions: bounds that follow from those of the context. *)
Ltac fits_tac := unfold fits in *; cbn [on_s_ctx s_data s_end s_ctx] in *;
  rewrite ?length_app, ?length_le_bytes; cbn [length]; lia.
Ltac acc_go := repeat (acc_step; try fits_tac).

(** ** Valid contexts *)

(** A pointer of the context is null or has its header in the packet. *)
Definition ptr_ok (s : Shape) (o : option Z) (n : Z) : Prop :=
  match o with Some p => fits s p n | None => True end.

(** The cursor may lie behind the packet: [parse_ip4] does not check the
    header length it adds. *)
Record valid (s : Shape) : Prop := {
  valid_bounds : 0 ≤ s_data s ≤ s_end s;
  valid_end : data_end (s_ctx s) = s_end s;
  valid_cursor : s_data s ≤ data (s_ctx s);
  valid_eth : ptr_ok s (eth (s_ctx s)) 14;
  valid_ip4 : ptr_ok s (ip4 (s_ctx s)) 20;
  valid_ip6 : ptr_ok s (ip6 (s_ctx s)) 40;
  valid_udp : ptr_ok s (udp (s_ctx s)) 8;
  valid_tcp : ptr_ok s (tcp (s_ctx s)) 20;
  valid_gtp : ptr_ok s (gtp (s_ctx s)) 8
}.

(** Each parser fails and leaves the context, or records the header under the
    cursor and moves it. *)
Definition parsed (set : option Z → packet_context → packet_context) (n : Z) (s : Shape) (s' : Shape) : Prop :=
  fits s (data (s_ctx s)) n ∧
  ∃ k, 0 ≤ k ∧ s' = on_s_ctx (λ c, set (Some (data (s_ctx s))) (set_data (data (s_ctx s) + k) c)) s.

Definition parse_post set n s (t : Z) (s' : Shape) : Prop := t = -1 ∧ s' = s ∨ parsed set n s s'.

Section parsers.
Implicit Types s : Shape.

Local Ltac parse_tac f :=
  intros Hv; destruct Hv; unfold f, parse_post, parsed; repeat acc_step; auto;
  repeat match goal with H : (_ <? _) = false |- _ => apply Z.ltb_ge in H end;
  try fits_tac; right; split; [fits_tac|eexists; split; [|by rewrite <-?Z.add_assoc]].

Lemma parse_ethernet_safe s : valid s → safe parse_ethernet s (parse_post set_eth 14 s).
Proof. parse_tac parse_ethernet. lia. Qed.

Lemma parse_ip4_safe s : valid s → safe parse_ip4 s (parse_post set_ip4 20 s).
Proof.
  parse_tac parse_ip4. assert (Z.land v 15 = v mod 16) as -> by (apply (Z.land_ones v 4); lia).
  pose proof (Z.mod_pos_bound v 16). lia.
Qed.

Lemma parse_ip6_safe s : valid s → safe parse_ip6 s (parse_post set_ip6 40 s).
Proof. parse_tac parse_ip6. lia. Qed.

Lemma parse_udp_safe s : valid s → safe parse_udp s (parse_post set_udp 8 s).
Proof. parse_tac parse_udp. lia. Qed.

Lemma parse_tcp_safe s : valid s → safe parse_tcp s (parse_post set_tcp 20 s).
Proof. parse_tac parse_tcp. lia. Qed.

Lemma parse_gtp_safe s : valid s → safe parse_gtp s (parse_post set_gtp 8 s).
Proof.
  parse_tac parse_gtp. destruct (gtp_optional v); lia.
Qed.

(** A parsed header keeps the context valid. *)
Local Ltac parsed_tac := intros Hv [? (k & ? & ->)]; destruct Hv; split; cbn in *; (done || lia).

Lemma parsed_eth s s' : valid s → parsed set_eth 14 s s' → valid s'.
Proof. parsed_tac. Qed.
Lemma parsed_ip4 s s' : valid s → parsed set_ip4 20 s s' → valid s'.
Proof. parsed_tac. Qed.
Lemma parsed_ip6 s s' : valid s → parsed set_ip6 40 s s' → valid s'.
Proof. parsed_tac. Qed.
Lemma parsed_udp s s' : valid s → parsed set_udp 8 s s' → valid s'.
Proof. parsed_tac. Qed.
Lemma parsed_tcp s s' : valid s → parsed set_tcp 20 s s' → valid s'.
Proof. parsed_tac. Qed.
Lemma parsed_gtp s s' : valid s → parsed set_gtp 8 s s' → valid s'.
Proof. parsed_tac. Qed.

End parsers.

#[export] Hint Resolve parsed_eth parsed_ip4 parsed_ip6 parsed_udp parsed_tcp parsed_gtp : eupf.

(** ** Functions that keep the shape *)

Section leaves.
Context `{XdpKernelLaws}.
Implicit Types s : Shape.

Lemma swap_mac_safe e s (Q : unit → Shape → Prop) : fits s e 14 → Q tt s → safe (swap_mac e) s Q.
Proof. intros. unfold swap_mac. acc_go; done. Qed.

Lemma swap_port_safe u s (Q : unit → Shape → Prop) : fits s u 8 → Q tt s → safe (swap_port u) s Q.
Proof. intros. unfold swap_port. acc_go; done. Qed.

Lemma swap_ip_safe i s (Q : unit → Shape → Prop) : fits s i 20 → Q tt s → safe (swap_ip i) s Q.
Proof. intros. unfold swap_ip. acc_go; done. Qed.

Lemma ipv4_csum_safe p n s (Q : Z → Shape → Prop) :
  fits s p n → 0 ≤ n → (∀ v, Q v s) → safe (ipv4_csum p n) s Q.
Proof. intros. unfold ipv4_csum. acc_go; auto. Qed.

Lemma add_be16_safe p n s (Q : unit → Shape → Prop) : fits s p 2 → Q tt s → safe (add_be16 p n) s Q.
Proof. intros. unfold add_be16. acc_go; done. Qed.

Lemma insert_recovery_safe g s (Q : Z → Shape → Prop) :
  fits s g 8 → (∀ v, Q v s) → safe (insert_recovery g (s_end s)) s Q.
Proof.
  intros. unfold insert_recovery. acc_go; auto;
    repeat match goal with Hb : (_ <? _) = false |- _ => apply Z.ltb_ge in Hb end;
    destruct (gtp_optional v); fits_tac.
Qed.

Lemma packet_ports_safe s (Q : Z * Z → Shape → Prop) :
  valid s → (∀ p, Q p s) → safe packet_ports s Q.
Proof.
  intros [] HQ. unfold packet_ports. acc_step. acc_step.
  destruct (udp (s_ctx s)) eqn:?, (tcp (s_ctx s)) eqn:?; cbn in *; acc_go; auto.
Qed.

Lemma match_sdf_filter_ipv4_safe sdf s (Q : bool → Shape → Prop) :
  valid s → (∀ b, Q b s) → safe (match_sdf_filter_ipv4 sdf) s Q.
Proof.
  intros Hv HQ. unfold match_sdf_filter_ipv4. acc_step. acc_step.
  destruct (ip4 (s_ctx s)) eqn:Hip; [|by acc_go].
  pose proof (valid_ip4 _ Hv) as Hf. rewrite Hip in Hf. cbn in Hf. acc_go.
  apply packet_ports_safe; [done|]. intros. acc_go. apply HQ.
Qed.

Lemma match_sdf_filter_ipv6_safe sdf p s (Q : bool → Shape → Prop) :
  valid s → ip6 (s_ctx s) = Some p → (∀ b, Q b s) → safe (match_sdf_filter_ipv6 sdf) s Q.
Proof.
  intros Hv Hip HQ. unfold match_sdf_filter_ipv6. acc_step. acc_step. acc_step.
  eapply acc_deref; [done|]. pose proof (valid_ip6 _ Hv) as Hf. rewrite Hip in Hf. cbn in Hf. acc_go.
  apply packet_ports_safe; [done|]. intros. acc_go. apply HQ.
Qed.

Lemma limit_rate_safe d n id q s (Q : Z → Shape → Prop) :
  (∀ v, Q v s) → safe (limit_rate_sliding_window d n id q) s Q.
Proof.
  intros HQ. unfold limit_rate_sliding_window. acc_go; auto.
  destruct sliding_window; acc_go; auto. apply acc_modify. intros r <-. apply acc_ret, HQ.
Qed.

Lemma guess_eth_protocol_safe p s (Q : Z → Shape → Prop) :
  fits s p 1 → (∀ v, Q v s) → safe (guess_eth_protocol p) s Q.
Proof. intros. unfold guess_eth_protocol. acc_go; auto. Qed.

Lemma handle_echo_request_safe e i u g s (Q : Z → Shape → Prop) :
  valid s → eth (s_ctx s) = Some e → ip4 (s_ctx s) = Some i → udp (s_ctx s) = Some u →
  gtp (s_ctx s) = Some g → Q XDP_TX s → safe handle_echo_request s Q.
Proof.
  intros [] He Hi Hu Hg HQ. rewrite He, Hi, Hu, Hg in *. cbn in *. unfold handle_echo_request.
  acc_step. acc_step. do 4 (acc_step; eapply acc_deref; [done|]). acc_go.
  apply swap_ip_safe; [done|]. acc_go. apply swap_port_safe; [done|].
  acc_go. apply swap_mac_safe; [done|]. do 3 acc_step. apply insert_recovery_safe; [done|].
  intros len. acc_step. destruct (negb _); acc_go; try done.
  do 3 (apply add_be16_safe; [fits_tac|]; acc_go). apply ipv4_csum_safe; [done|lia|].
  intros. acc_go. done.
Qed.

Lemma update_gtp_tunnel_safe a b c d i u g s (Q : unit → Shape → Prop) :
  valid s → ip4 (s_ctx s) = Some i → udp (s_ctx s) = Some u → gtp (s_ctx s) = Some g →
  Q tt s → safe (update_gtp_tunnel a b c d) s Q.
Proof.
  intros [] Hi Hu Hg HQ. rewrite Hi, Hu, Hg in *. cbn in *. unfold update_gtp_tunnel.
  do 2 acc_step. do 3 (acc_step; eapply acc_deref; [done|]). acc_go.
  apply ipv4_csum_safe; [done|lia|]. intros. acc_go. done.
Qed.

Lemma prepare_icmp_echo_reply_safe e s (Q : Z → Shape → Prop) :
  valid s → eth (s_ctx s) = Some e → (∀ v, Q v s) → safe prepare_icmp_echo_reply s Q.
Proof.
  intros [] He HQ. rewrite He in *. cbn in *. unfold prepare_icmp_echo_reply. do 2 acc_step.
  destruct (ip4 (s_ctx s)) eqn:Hi; cbn in *; [|by apply acc_ret].
  acc_step. eapply acc_deref; [done|]. acc_go. apply swap_mac_safe; [done|].
  apply acc_within; [done|intros]. acc_go. apply swap_ip_safe; [done|].
  apply acc_within; [done|intros]. acc_go; auto.
Qed.

(** ** Routing *)

(** One of the five actions of XDP. *)
Definition is_action (a : Z) : Prop := 0 ≤ a ≤ 4.

(** Hardware addresses of six bytes. *)
Definition has_macs (route : FibResult) : Prop := length (smac route) = 6%nat ∧ length (dmac route) = 6%nat.

Lemma do_route_ipv4_safe e route s (Q : Z → Shape → Prop) :
  fits s e 14 → has_macs route → (∀ a, is_action a → Q a s) → safe (do_route_ipv4 e route) s Q.
Proof.
  intros Hf [Hs Hd] HQ. unfold do_route_ipv4.
  acc_go; try (rewrite Hs || rewrite Hd; fits_tac); unfold redirect.
  - apply HQ. unfold is_action, XDP_TX. lia.
  - acc_step. apply acc_modify. intros ? <-. apply acc_ret, HQ. unfold is_action.
    destruct (redirect_action (ifindex route)); lia.
Qed.

Lemma fib_result_safe ok dr pa remember e p s (Q : Z → Shape → Prop) :
  fits s e 14 → (∀ route Q', Q' tt s → safe (remember route) s Q') → (∀ a, is_action a → Q a s) →
  safe (fib_result ok dr pa remember e (bpf_fib_lookup p)) s Q.
Proof.
  intros Hf Hr HQ. unfold fib_result. acc_go; try (apply HQ; unfold is_action, XDP_DROP, XDP_PASS; lia).
  apply Hr. apply do_route_ipv4_safe; [done|apply fib_lookup_macs|done].
Qed.

Lemma cached_route_safe daddr s (Q : option route_record → Shape → Prop) :
  (∀ cache, (∀ route, cache = Some route → has_macs route) → Q cache s) → safe (cached_route daddr) s Q.
Proof.
  intros HQ. unfold cached_route. do 2 acc_step. destruct (x_cache x) as [events|]; [|by apply acc_ret, HQ].
  acc_step. apply acc_modify. intros ? <-. apply acc_ret, HQ. intros route. apply lru_lookup_macs.
Qed.

Lemma route_ipv4_safe e i s (Q : Z → Shape → Prop) :
  fits s e 14 → fits s i 20 → (∀ a, is_action a → Q a s) → safe (route_ipv4 e i) s Q.
Proof.
  intros He Hi HQ. unfold route_ipv4. do 2 acc_step. destruct (x_route x).
  2:{ apply acc_ret, HQ. unfold is_action, XDP_ABORTED. lia. }
  acc_go. apply cached_route_safe. intros [route|] Hcache.
  - acc_go. apply do_route_ipv4_safe; [done|by apply Hcache|done].
  - acc_go. apply fib_result_safe; [done| |done]. intros route Q' HQ'. apply acc_modify. by intros ? <-.
Qed.

Lemma route_ipv6_safe e i s (Q : Z → Shape → Prop) :
  fits s e 14 → fits s i 40 → (∀ a, is_action a → Q a s) → safe (route_ipv6 e i) s Q.
Proof.
  intros He Hi HQ. unfold route_ipv6. do 2 acc_step. destruct (x_route x).
  - acc_go. apply fib_result_safe; [done| |done]. intros. by apply acc_ret.
  - apply acc_ret, HQ. unfold is_action, XDP_ABORTED. lia.
Qed.

End leaves.

(** ** The encapsulation *)

(** The bounds of the packet are inside the buffer. *)
Definition bounded (s : Shape) : Prop := 0 ≤ s_data s ≤ s_end s.

(** What an action leaves. *)
Definition finished (a : Z) (s : Shape) : Prop := is_action a ∧ bounded s.

Lemma valid_bounded s : valid s → bounded s.
Proof. by intros []. Qed.

Section handlers.
Context `{XdpKernelLaws} (global_config : dataplane_config).
Implicit Types s : Shape.

Lemma finish a s (Q : Z → Shape → Prop) :
  (∀ a' s', finished a' s' → Q a' s') → is_action a → bounded s → Q a s.
Proof. intros HQ ??. by apply HQ. Qed.

Lemma actions : is_action XDP_ABORTED ∧ is_action XDP_DROP ∧ is_action XDP_PASS ∧ is_action XDP_TX.
Proof. unfold is_action, XDP_ABORTED, XDP_DROP, XDP_PASS, XDP_TX. lia. Qed.

(** Outer header pointers, which survive the move of the head. *)
Definition encap_post (v : Z) (s : Shape) : Prop :=
  bounded s ∧ (v ≠ -1 → ∃ e i, eth (s_ctx s) = Some e ∧ ip4 (s_ctx s) = Some i ∧ fits s e 14 ∧ fits s i 20).

Lemma inner_packet_len_safe s (Q : Z → Shape → Prop) :
  valid s → (∀ v, Q v s) → safe inner_packet_len s Q.
Proof.
  intros [] HQ. unfold inner_packet_len. do 2 acc_step.
  destruct (ip4 (s_ctx s)), (ip6 (s_ctx s)); cbn in *; acc_go; auto.
Qed.

Lemma add_gtp_safe a b c d t s : valid s → safe (add_gtp_over_ip4_headers a b c d t) s encap_post.
Proof.
  intros Hv. assert (Hbad : encap_post (-1) s) by (split; [by apply valid_bounded|done]).
  unfold add_gtp_over_ip4_headers. acc_step. apply inner_packet_len_safe; [done|intros len].
  acc_go; [done|]. apply acc_adjust_head.
  { intros rc Hrc. rewrite (proj2 (Z.eqb_neq rc 0)) by done. by apply acc_ret. }
  intros ??. cbn [Z.eqb negb]. acc_go.
  assert (Hb' : encap_post (-1) (mkShape (s_data s + - (20 + 8 + (8 + (4 + 4)))) (s_end s) (s_ctx s)))
    by (split; [unfold bounded; destruct Hv; cbn in *; lia|done]).
  cbn [s_data s_end] in *. rewrite Hdata. destruct Hv.
  apply acc_within; [done|cbn; intros]; acc_go.
  do 5 (apply acc_within; [done|cbn; intros]; unfold fill_ip_header, fill_udp_header,
    fill_gtp_header, fill_gtp_ext_header, fill_gtp_ext_header_psc; acc_go).
  apply ipv4_csum_safe; [fits_tac|lia|]. intros. acc_go. apply acc_modify. intros r Hr. acc_go.
  injection Hr as Hr1 Hr2 Hr3. unfold shape. cbn. rewrite Hr1, Hr2. split; [unfold bounded; cbn; lia|].
  intros _. do 2 eexists. cbn. split; [done|]. split; [done|]. unfold fits; cbn. lia.
Qed.

(** On the way of an uplink packet no TCP header is parsed: [context_reset]
    would keep a pointer to it. *)
Definition uplink (s : Shape) : Prop :=
  valid s ∧ tcp (s_ctx s) = None ∧ is_Some (eth (s_ctx s)).

Lemma reinit_valid d d_end s :
  valid s → bounded (mkShape d d_end (s_ctx s)) → tcp (s_ctx s) = None →
  valid (on_s_ctx (context_reset d d_end) (mkShape d d_end (s_ctx s))).
Proof. intros Hv Hb Ht. destruct Hv. unfold bounded in Hb. split; cbn in *; rewrite ?Ht; done || lia. Qed.

Lemma context_reinit_safe c d d_end :
  let s := mkShape d d_end c in
  valid (on_s_ctx (context_reset d d_end) s) → tcp c = None →
  safe (context_reinit d d_end) s (λ v s', bounded s' ∧ (v = 0 → uplink s')).
Proof.
  intros s Hv Ht. unfold context_reinit. acc_go.
  eapply acc_mono; [by apply parse_ethernet_safe|]. intros t s1 Hp. cbn beta.
  assert (Hs1 : valid s1 ∧ tcp (s_ctx s1) = None ∧ (t ≠ -1 → is_Some (eth (s_ctx s1)))).
  { destruct Hp as [[-> ->]|Hp]; [done|]. split; [by eapply parsed_eth|]. by destruct Hp as [_ (k & _ & ->)]. }
  clear Hp. destruct Hs1 as (Hv1 & Ht1 & He1).
  repeat acc_step; try (split; [by apply valid_bounded|done]).
  - apply Z.eqb_eq in Heqb as ->. eapply acc_mono; [by apply parse_ip6_safe|]. intros p s2 [[-> ->]|Hp]; apply acc_ret.
    + split; [by apply valid_bounded|done].
    + assert (valid s2) by eauto with eupf. split; [by apply valid_bounded|].
      intros _. destruct Hp as [_ (k & _ & ->)]. split; [done|]. split; [done|]. by apply He1.
  - apply Z.eqb_eq in Heqb0 as ->. eapply acc_mono; [by apply parse_ip4_safe|]. intros p s2 [[-> ->]|Hp]; apply acc_ret.
    + split; [by apply valid_bounded|done].
    + assert (valid s2) by eauto with eupf. split; [by apply valid_bounded|].
      intros _. destruct Hp as [_ (k & _ & ->)]. split; [done|]. split; [done|]. by apply He1.
Qed.

Lemma remove_gtp_safe s :
  valid s → tcp (s_ctx s) = None →
  safe remove_gtp_header s (λ v s', bounded s' ∧ (v = 0 → uplink s')).
Proof.
  intros Hv Ht. assert (bounded s) by by apply valid_bounded. unfold remove_gtp_header. do 2 acc_step.
  destruct (gtp (s_ctx s)) as [g|] eqn:Hg; [|by acc_go].
  pose proof (valid_gtp _ Hv) as Hf. rewrite Hg in Hf. cbn in Hf. acc_go; try done.
  all: repeat match goal with Hb : (_ <? _) = false |- _ => apply Z.ltb_ge in Hb end.
  set (n := 20 + 8 + 8 + (if gtp_optional v then 4 + 4 else 0)) in *.
  assert (0 ≤ n) by (subst n; destruct (gtp_optional v); lia).
  unfold bounded in *. apply guess_eth_protocol_safe; [fits_tac|intros proto]. acc_go; try done.
  apply acc_adjust_head.
  { intros rc Hrc. rewrite (proj2 (Z.eqb_neq rc 0)) by done. by apply acc_ret. }
  intros Hl Hr. cbn [Z.eqb negb]. do 2 acc_step. cbn [s_data s_end] in *. rewrite Hdata0, Hend0.
  apply context_reinit_safe; [|done]. apply (reinit_valid _ _ s); [done|unfold bounded; cbn; lia|done].
Qed.

(** ** Downlink *)

Lemma send_to_gtp_tunnel_safe a b c d t s :
  valid s → safe (send_to_gtp_tunnel a b c d t) s finished.
Proof.
  intros Hv. destruct actions as (? & ? & ? & ?). unfold send_to_gtp_tunnel. acc_step.
  eapply acc_mono; [by apply add_gtp_safe|]. intros v s1 [Hb Hok]. cbn beta. acc_step; [by apply acc_ret|].
  apply Z.eqb_neq in Heqb0. destruct (Hok Heqb0) as (e & i & He & Hi & ? & ?).
  do 5 acc_step. eapply acc_deref; [done|]. acc_step. eapply acc_deref; [done|].
  by apply route_ipv4_safe.
Qed.

(** The rules found, or an action; the state's shape stays. *)
Definition selected {A} (s : Shape) (sel : Z + A) (s' : Shape) : Prop :=
  s' = s ∧ ∀ a, sel = inl a → is_action a.

Lemma selected_rules {A} s (x : A) : selected s (inr x) s.
Proof. done. Qed.
Lemma selected_default {A} s : selected s (inl DEFAULT_XDP_ACTION : Z + A) s.
Proof. split; [done|]. intros a [= <-]. apply actions. Qed.

(** A filter matcher that keeps the shape. *)
Definition matcher_safe (match_sdf : BpfSdfFilter → M Run bool) (s : Shape) : Prop :=
  ∀ sdf (Q : bool → Shape → Prop), (∀ b, Q b s) → safe (match_sdf sdf) s Q.

Lemma select_downlink_safe match_sdf pdr s :
  matcher_safe match_sdf s → safe (select_downlink match_sdf pdr) s (selected s).
Proof.
  intros Hm. unfold select_downlink. acc_step; [apply acc_ret, selected_rules|]. acc_step.
  apply Hm. intros []; apply acc_ret; [apply selected_rules|].
  destruct (Z.land _ _ =? _); [apply selected_rules|apply selected_default].
Qed.

Lemma apply_downlink_safe match_sdf pdr s :
  valid s → matcher_safe match_sdf s → safe (apply_downlink global_config match_sdf pdr) s finished.
Proof.
  intros Hv Hm. destruct actions as (? & ? & ? & ?). pose proof (valid_bounded _ Hv).
  unfold apply_downlink. acc_step. eapply acc_mono; [by apply select_downlink_safe|].
  intros [a|[far_id qer_id]] s' [-> Ha]; cbn beta iota; [apply acc_ret; split; [by apply Ha|done]|].
  do 2 acc_step. destruct (v_far _ !! far_id) as [far|]; [|by apply acc_ret].
  do 2 (acc_step; [by apply acc_ret|]). destruct (v_qer _ !! qer_id) as [qer|]; [|by apply acc_ret].
  acc_step; [by apply acc_ret|]. do 3 acc_step. apply limit_rate_safe. intros v.
  acc_step; [by apply acc_ret|]. do 4 acc_step. by apply send_to_gtp_tunnel_safe.
Qed.

Lemma handle_n6_packet_ipv4_safe p s :
  valid s → ip4 (s_ctx s) = Some p → safe (handle_n6_packet_ipv4 global_config) s finished.
Proof.
  intros Hv Hp. pose proof (valid_ip4 _ Hv) as Hf. rewrite Hp in Hf. cbn in Hf.
  unfold handle_n6_packet_ipv4. do 3 acc_step. eapply acc_deref; [done|]. acc_go.
  destruct (v_ip4 _ !! _).
  - apply apply_downlink_safe; [done|]. intros ???. by apply match_sdf_filter_ipv4_safe.
  - apply acc_ret. split; [apply actions|by apply valid_bounded].
Qed.

Lemma handle_n6_packet_ipv6_safe p s :
  valid s → ip6 (s_ctx s) = Some p → safe (handle_n6_packet_ipv6 global_config) s finished.
Proof.
  intros Hv Hp. pose proof (valid_ip6 _ Hv) as Hf. rewrite Hp in Hf. cbn in Hf.
  unfold handle_n6_packet_ipv6. do 3 acc_step. eapply acc_deref; [done|]. acc_go.
  destruct (v_ip6 _ !! _).
  - apply apply_downlink_safe; [done|]. intros ???. by eapply match_sdf_filter_ipv6_safe.
  - apply acc_ret. split; [apply actions|by apply valid_bounded].
Qed.

(** ** Uplink *)

Lemma with_context_safe {A} c (m : M Run A) s (Q : A → Shape → Prop) :
  safe m (on_s_ctx (λ _, c) s) (λ a s', Q a (on_s_ctx (λ _, s_ctx s) s')) → safe (with_context c m) s Q.
Proof.
  intros Hm r <-. specialize (Hm (set_ctx c r) eq_refl). unfold wp, with_context in *.
  by destruct (m (set_ctx c r)) as [r' [a|e|]].
Qed.

Lemma parse_l4_safe p s : valid s →
  safe (parse_l4 p) s (λ v s', valid s' ∧ s_data s' = s_data s ∧ s_end s' = s_end s ∧
    ip4 (s_ctx s') = ip4 (s_ctx s) ∧ ip6 (s_ctx s') = ip6 (s_ctx s)).
Proof.
  intros Hv. unfold parse_l4. acc_step; [|acc_step; [|by apply acc_ret]].
  - eapply acc_mono; [by apply parse_udp_safe|]. intros v s' [[-> ->]|Hp]; [done|].
    split; [eauto with eupf|]. by destruct Hp as [_ (k & _ & ->)].
  - eapply acc_mono; [by apply parse_tcp_safe|]. intros v s' [[-> ->]|Hp]; [done|].
    split; [eauto with eupf|]. by destruct Hp as [_ (k & _ & ->)].
Qed.

(** What [match_inner] needs of a parser of IP headers. *)
Definition ip_parser (parse : M Run Z) (get : packet_context → option Z) : Prop :=
  ∀ s, valid s → safe parse s (λ t s', t = -1 ∧ s' = s ∨
    valid s' ∧ s_data s' = s_data s ∧ s_end s' = s_end s ∧ is_Some (get (s_ctx s'))).

Lemma ip4_parser : ip_parser parse_ip4 ip4.
Proof.
  intros s Hv. eapply acc_mono; [by apply parse_ip4_safe|]. intros t s' [?|Hp]; [by left|right].
  split; [eauto with eupf|]. by destruct Hp as [_ (k & _ & ->)].
Qed.

Lemma ip6_parser : ip_parser parse_ip6 ip6.
Proof.
  intros s Hv. eapply acc_mono; [by apply parse_ip6_safe|]. intros t s' [?|Hp]; [by left|right].
  split; [eauto with eupf|]. by destruct Hp as [_ (k & _ & ->)].
Qed.

(** Both parts of the packet stay where they are. *)
Definition inner_selected {A} (s : Shape) (sel : Z + A) (s' : Shape) : Prop :=
  s_data s' = s_data s ∧ s_end s' = s_end s ∧ ∀ a, sel = inl a → is_action a.

Lemma inner_default {A} s s' :
  s_data s' = s_data s → s_end s' = s_end s → inner_selected s (inl DEFAULT_XDP_ACTION : Z + A) s'.
Proof. intros. split_and!; [done..|]. by apply (@selected_default A s'). Qed.

Lemma match_inner_safe parse get match_sdf pdr s :
  ip_parser parse get → get = ip4 ∨ get = ip6 →
  (∀ s', valid s' → is_Some (get (s_ctx s')) → matcher_safe match_sdf s') →
  valid s → safe (match_inner parse match_sdf pdr) s (inner_selected s).
Proof.
  intros Hparse Hget Hm Hv. unfold match_inner. acc_step. eapply acc_mono; [by apply Hparse|].
  intros t s1 Hs1. cbn beta. acc_step.
  { apply acc_ret. destruct Hs1 as [[_ ->]|(_ & ? & ? & _)]; by apply inner_default. }
  destruct Hs1 as [[-> _]|(Hv1 & Hd1 & He1 & Hg1)]; [by cbn in *|].
  acc_step. eapply acc_mono; [by apply parse_l4_safe|]. intros l4 s2 (Hv2 & Hd2 & He2 & H4 & H6). cbn beta.
  acc_step; [apply acc_ret, inner_default; congruence|]. acc_step.
  apply Hm; [done|by destruct Hget as [->| ->]; rewrite ?H4, ?H6|].
  intros []; apply acc_ret; [by split_and!; [congruence..|]|].
  destruct (Z.land _ _ =? _); [by split_and!; [congruence..|]|apply inner_default; congruence].
Qed.

Lemma select_uplink_safe pdr s : valid s → safe (select_uplink pdr) s (selected s).
Proof.
  intros Hv. unfold select_uplink. acc_step; [apply acc_ret, selected_rules|]. do 2 acc_step.
  apply with_context_safe. set (c := new_context _ _).
  assert (Hv' : valid (on_s_ctx (λ _, c) s)) by (destruct Hv; split; cbn in *; done).
  apply acc_mono with (Q := inner_selected s).
  2:{ intros sel s' (Hd & He & Ha). split; [|done]. destruct s, s'. cbn in *. by subst. }
  acc_step; [by apply acc_ret, inner_default|]. apply Z.ltb_ge in Heqb0. acc_step.
  apply guess_eth_protocol_safe; [destruct Hv; unfold fits; cbn; lia|]. intros proto.
  acc_step; [|acc_step].
  - change (inner_selected s) with (@inner_selected (Z * Z * Z) (on_s_ctx (λ _, c) s)).
    apply (match_inner_safe _ ip4); [apply ip4_parser|by left| |done].
    intros s' Hs' _ sdf Q HQ. by apply match_sdf_filter_ipv4_safe.
  - change (inner_selected s) with (@inner_selected (Z * Z * Z) (on_s_ctx (λ _, c) s)).
    apply (match_inner_safe _ ip6); [apply ip6_parser|by right| |done].
    intros s' Hs' [p Hp] sdf Q HQ. by eapply match_sdf_filter_ipv6_safe.
  - apply acc_ret. destruct (Z.land _ _ =? _); [done|by apply inner_default].
Qed.

Lemma forward_uplink_safe s : uplink s → safe (forward_uplink global_config) s finished.
Proof.
  intros (Hv & Ht & [e He]). destruct actions as (? & ? & ? & ?). pose proof (valid_bounded _ Hv).
  pose proof (valid_eth _ Hv) as Hfe. rewrite He in Hfe. cbn in Hfe.
  pose proof (valid_ip4 _ Hv) as Hf4. pose proof (valid_ip6 _ Hv) as Hf6.
  unfold forward_uplink. do 2 acc_step.
  destruct (ip4 (s_ctx s)) as [i|] eqn:Hi; [|destruct (ip6 (s_ctx s)) as [i|] eqn:Hi6]; cbn in Hf4, Hf6.
  - do 4 (acc_step; try fits_tac).
    acc_step; acc_step.
    + eapply prepare_icmp_echo_reply_safe; [done..|]. intros v1. acc_step; [by apply acc_ret|].
      by eapply handle_n6_packet_ipv4_safe.
    + do 2 acc_step. eapply acc_deref; [done|]. by apply route_ipv4_safe.
  - do 3 acc_step. eapply acc_deref; [done|]. by apply route_ipv6_safe.
  - by apply acc_ret.
Qed.

(** All headers of a GTP-U packet are parsed. *)
Definition tunnelled (s : Shape) : Prop :=
  uplink s ∧ is_Some (ip4 (s_ctx s)) ∧ is_Some (udp (s_ctx s)) ∧ is_Some (gtp (s_ctx s)).

Lemma outer_header_safe far ohr s :
  tunnelled s → safe (outer_header global_config far ohr) s (λ ok s', bounded s' ∧ (ok = true → uplink s')).
Proof.
  intros (Hu & [i Hi] & [u Hud] & [g Hg]). pose proof (valid_bounded _ (proj1 Hu)).
  unfold outer_header. acc_step; [|acc_step].
  - acc_step. eapply update_gtp_tunnel_safe; [apply Hu|done..|]. by apply acc_ret.
  - acc_step. destruct Hu as (? & ? & ?). eapply acc_mono; [by apply remove_gtp_safe|].
    intros v s' [Hb Hok]. apply acc_ret. split; [done|]. by intros ?%Z.eqb_eq%Hok.
  - by apply acc_ret.
Qed.

Lemma apply_uplink_safe pdr s : tunnelled s → safe (apply_uplink global_config pdr) s finished.
Proof.
  intros Ht. assert (valid s) as Hv by apply Ht. destruct actions as (? & ? & ? & ?).
  pose proof (valid_bounded _ Hv).
  unfold apply_uplink. acc_step. eapply acc_mono; [by apply select_uplink_safe|].
  intros [a|[[far_id qer_id] ohr]] s' [-> Ha]; cbn beta iota; [apply acc_ret; split; [by apply Ha|done]|].
  do 2 acc_step. destruct (v_far _ !! far_id) as [far|]; [|by apply acc_ret].
  acc_step; [by apply acc_ret|]. destruct (v_qer _ !! qer_id) as [qer|]; [|by apply acc_ret].
  acc_step; [by apply acc_ret|]. do 3 acc_step. apply limit_rate_safe. intros v.
  acc_step; [by apply acc_ret|]. do 4 acc_step. acc_step.
  eapply acc_mono; [by apply outer_header_safe|]. intros ok s' [Hb Hok]. cbn beta.
  destruct ok; [by apply forward_uplink_safe, Hok|by apply acc_ret].
Qed.

Lemma handle_gtp_packet_safe s : tunnelled s → safe (handle_gtp_packet global_config) s finished.
Proof.
  intros Ht. assert (valid s) as Hv by apply Ht. pose proof (valid_bounded _ Hv) as Hb.
  destruct (Ht) as (_ & _ & _ & [g Hg]). pose proof (valid_gtp _ Hv) as Hf. rewrite Hg in Hf. cbn in Hf.
  unfold handle_gtp_packet. do 2 acc_step. rewrite Hg. acc_go.
  destruct (v_teid _ !! _); [by apply apply_uplink_safe|]. apply acc_ret. split; [apply actions|done].
Qed.

(** ** Dispatch *)

(** On entry to [handle_gtpu]. *)
Definition udp_parsed (s : Shape) : Prop :=
  uplink s ∧ is_Some (ip4 (s_ctx s)) ∧ is_Some (udp (s_ctx s)).

Lemma handle_gtpu_safe s : udp_parsed s → safe (handle_gtpu global_config) s finished.
Proof.
  intros ((Hv & Htcp & [e He]) & [i Hi] & [u Hu]). unfold handle_gtpu. destruct actions as (? & ? & ? & ?).
  acc_step. eapply acc_mono; [by apply parse_gtp_safe|]. intros v s1 [[-> ->]|Hp]; cbn beta.
  { repeat acc_step; try done; split; [done|by apply valid_bounded]. }
  assert (Hv1 : valid s1) by eauto with eupf. pose proof (valid_bounded _ Hv1) as Hb.
  destruct Hp as [_ (k & _ & Hs1)].
  assert (Ht : tunnelled s1) by (subst s1; split; [by split_and!|by split_and!]).
  clear Hs1. repeat acc_step; try done; [by apply handle_gtp_packet_safe|].
  destruct Ht as ((_ & _ & [??]) & [??] & [??] & [??]). by eapply handle_echo_request_safe.
Qed.

Lemma from_n6_ipv4_safe s :
  valid s → is_Some (ip4 (s_ctx s)) → safe (from_n6 (handle_n6_packet_ipv4 global_config)) s finished.
Proof. intros Hv [i Hi]. unfold from_n6. do 2 acc_step. by eapply handle_n6_packet_ipv4_safe. Qed.

Lemma from_n6_ipv6_safe s :
  valid s → is_Some (ip6 (s_ctx s)) → safe (from_n6 (handle_n6_packet_ipv6 global_config)) s finished.
Proof. intros Hv [i Hi]. unfold from_n6. do 2 acc_step. by eapply handle_n6_packet_ipv6_safe. Qed.

Lemma handle_ip4_safe s : uplink s → udp (s_ctx s) = None → safe (handle_ip4 global_config) s finished.
Proof.
  intros (Hv & Htcp & He) _. unfold handle_ip4, handle_ip4_protocol, handle_udp. destruct actions as (? & ? & ? & ?). acc_step.
  eapply acc_mono; [by apply parse_ip4_safe|]. intros proto s1 [[-> ->]|Hp]; cbn beta.
  { repeat acc_step; try done; split; [done|by apply valid_bounded]. }
  assert (Hv1 : valid s1) by eauto with eupf. pose proof (valid_bounded _ Hv1) as Hb.
  assert (Hs1 : uplink s1 ∧ is_Some (ip4 (s_ctx s1))) by by destruct Hp as [_ (k & _ & ->)].
  clear Hp. destruct Hs1 as [(_ & Htcp1 & He1) Hi1].
  acc_step; [do 2 acc_step; by apply from_n6_ipv4_safe|].
  acc_step; [do 3 acc_step|acc_step; [do 3 acc_step|by do 3 acc_step]].
  - eapply acc_mono; [by apply parse_udp_safe|]. intros port s2 [[-> ->]|Hp]; cbn beta.
    { acc_step; [done|by apply from_n6_ipv4_safe]. }
    assert (Hv2 : valid s2) by eauto with eupf.
    assert (Hs2 : udp_parsed s2) by by destruct Hp as [_ (k & _ & ->)].
    clear Hp. pose proof Hs2 as (_ & Hi2 & _). destruct (Hi2) as [i Hi].
    acc_step; [|by apply from_n6_ipv4_safe].
    do 3 acc_step. eapply acc_deref; [done|].
    pose proof (valid_ip4 _ Hv2) as Hf. rewrite Hi in Hf. cbn in Hf. acc_go;
      [by apply handle_gtpu_safe|by apply from_n6_ipv4_safe].
  - eapply acc_mono; [by apply parse_tcp_safe|]. intros port s2 [[-> ->]|Hp]; cbn beta.
    { by apply from_n6_ipv4_safe. }
    assert (Hv2 : valid s2) by eauto with eupf. apply from_n6_ipv4_safe; [done|].
    by destruct Hp as [_ (k & _ & ->)].
Qed.

Lemma handle_ip6_safe s : valid s → safe (handle_ip6 global_config) s finished.
Proof.
  intros Hv. unfold handle_ip6. destruct actions as (? & ? & ? & ?). acc_step.
  eapply acc_mono; [by apply parse_ip6_safe|]. intros proto s1 [[-> ->]|Hp]; cbn beta.
  { repeat acc_step; try done; split; [done|by apply valid_bounded]. }
  assert (Hv1 : valid s1) by eauto with eupf. pose proof (valid_bounded _ Hv1) as Hb.
  assert (Hi1 : is_Some (ip6 (s_ctx s1))) by by destruct Hp as [_ (k & _ & ->)].
  clear Hp. acc_step; [by do 3 acc_step|].
  acc_step; [do 2 acc_step; by apply from_n6_ipv6_safe|].
  acc_step; [do 3 acc_step|by do 3 acc_step].
  eapply acc_mono; [by apply parse_tcp_safe|]. intros port s2 [[-> ->]|Hp]; cbn beta.
  { by apply from_n6_ipv6_safe. }
  assert (Hv2 : valid s2) by eauto with eupf. apply from_n6_ipv6_safe; [done|].
  by destruct Hp as [_ (k & _ & ->)].
Qed.

Lemma process_packet_safe s d d_end :
  0 ≤ d ≤ d_end → s = mkShape d d_end (new_context d d_end) →
  safe (process_packet global_config) s finished.
Proof.
  intros Hb ->. destruct actions as (? & ? & ? & ?). unfold process_packet. acc_step.
  assert (Hv : valid (mkShape d d_end (new_context d d_end))) by (split; cbn; done || lia).
  eapply acc_mono; [by apply parse_ethernet_safe|]. intros t s1 [[-> ->]|Hp]; cbn beta.
  { repeat acc_step; try done; by split. }
  assert (Hv1 : valid s1) by eauto with eupf. pose proof (valid_bounded _ Hv1).
  assert (Hs1 : uplink s1 ∧ udp (s_ctx s1) = None) by by destruct Hp as [_ (k & _ & ->)].
  clear Hp. destruct Hs1. repeat acc_step; try done; [by apply handle_ip6_safe|by apply handle_ip4_safe].
Qed.

End handlers.

(** The entry point on every frame. *)
Lemma entry_point_safe `{XdpKernelLaws} global_config x :
  0 ≤ x_data x ≤ x_data_end x →
  ∃ x' action, upf_ip_entrypoint_func global_config x = (x', Ok action) ∧
    0 ≤ action ≤ 4 ∧ 0 ≤ x_data x' ≤ x_data_end x'.
Proof.
  intros Hb. unfold upf_ip_entrypoint_func. set (y := set_x_stat _ x).
  pose proof (process_packet_safe global_config (mkShape (x_data y) (x_data_end y) (new_context (x_data y) (x_data_end y)))
    _ _ Hb eq_refl (mkRun y (new_context (x_data y) (x_data_end y))) eq_refl) as Hs.
  unfold wp in Hs. destruct (process_packet _ _) as [r [a|e|]]; [|done..].
  destruct Hs as [Ha Hb']. by eexists _, a.
Qed.

(** C9: For every packet, every content of the maps and every configuration
    the XDP program reads and writes only inside the packet, dereferences no
    null pointer, and returns one of the five XDP actions; the packet's bounds
    stay inside the buffer. *)
Theorem upf_ip_entrypoint_func_safe `{XdpKernelLaws} global_config x :
  0 ≤ x_data x ≤ x_data_end x →
  ∃ x' action, upf_ip_entrypoint_func global_config x = (x', Ok action) ∧
    0 ≤ action ≤ 4 ∧ 0 ≤ x_data x' ≤ x_data_end x'.
Proof. apply entry_point_safe. Qed.

(** A frame of one byte, at the end of its buffer. *)
Lemma upf_ip_entrypoint_func_safe_witness :
  ∃ x' action, upf_ip_entrypoint_func demo_config (demo_xdp [69]) = (x', Ok action) ∧
    0 ≤ action ≤ 4 ∧ 0 ≤ x_data x' ≤ x_data_end x'.
Proof. apply (upf_ip_entrypoint_func_safe demo_config (demo_xdp [69])). vm_compute. split; discriminate. Defined.
