(* ===== verification/XdpFrame.v ===== *)
(** * Frames (cmd/ebpf/xdp/utils/gtp_utils.h, csum.h)

    The bytes the program sends: the encapsulation of a packet in Ethernet,
    IPv4, UDP and GTP-U headers in network order, its removal, and the
    validity of the checksums. *)

From S2P Require Import Prelude Net ForwardingPlane Stats XdpMemory XdpParse XdpGtp XdpRules XdpProgram XdpDemo.

(** ** Parts of a buffer *)

Lemma slice_app a b c n :
  n = Z.of_nat (length b) → slice (Z.of_nat (length a)) n (a ++ b ++ c) = b.
Proof. intros ->. unfold slice. by rewrite !Nat2Z.id, drop_app_length, take_app_length. Qed.

Lemma overwrite_app a b c bs :
  length bs = length b → overwrite (Z.of_nat (length a)) bs (a ++ b ++ c) = a ++ bs ++ c.
Proof.
  intros Hl. unfold overwrite. rewrite Nat2Z.id, take_app_length. f_equal. f_equal.
  rewrite Hl, app_assoc, <-length_app. apply drop_app_length.
Qed.

Section at_lemmas.
Implicit Types r : Run.

(** Loading and storing one part of a buffer given as three. *)
Lemma wp_load_at a b c p n r (Q : bytes → Run → Prop) E :
  x_buf (xdp r) = a ++ b ++ c → p = Z.of_nat (length a) → n = Z.of_nat (length b) →
  0 ≤ x_data (xdp r) → x_data (xdp r) ≤ p → Q b r → wp (load p n) r Q E.
Proof.
  intros Hb -> -> ?? HQ. apply wp_load; [done..| |].
  - unfold x_data_end. rewrite Hb, !length_app. lia.
  - by rewrite Hb, slice_app.
Qed.

Lemma wp_store_at a b c p bs r (Q : unit → Run → Prop) E :
  x_buf (xdp r) = a ++ b ++ c → p = Z.of_nat (length a) → length bs = length b →
  0 ≤ x_data (xdp r) → x_data (xdp r) ≤ p →
  Q tt (on_xdp (set_x_buf (a ++ bs ++ c)) r) → wp (store p bs) r Q E.
Proof.
  intros Hb -> Hl ?? HQ. apply wp_store; [done..| |].
  - unfold x_data_end. rewrite Hb, !length_app. lia.
  - unfold on_xdp in *. by rewrite Hb, overwrite_app.
Qed.

End at_lemmas.

(** ** Checksums *)

Lemma fold_once_spec x : 0 ≤ x → fold_once x = x mod 65536 + x / 65536.
Proof. intros. unfold fold_once. change 65535 with (Z.ones 16). by rewrite Z.land_ones, Z.shiftr_div_pow2. Qed.

Lemma fold_once_small x : 0 ≤ x < 65536 → fold_once x = x.
Proof. intros. rewrite fold_once_spec, Z.mod_small, Z.div_small by lia. lia. Qed.

Lemma fold_once_bounds x m : 0 ≤ x ≤ m → 0 ≤ fold_once x ≤ 65535 + m / 65536.
Proof.
  intros. rewrite fold_once_spec by lia. pose proof (Z.mod_pos_bound x 65536).
  assert (x / 65536 ≤ m / 65536) by (apply Z.div_le_mono; lia).
  assert (0 ≤ x / 65536) by (apply Z.div_pos; lia). lia.
Qed.

Lemma fold_once_cong x : 0 ≤ x → fold_once x mod 65535 = x mod 65535.
Proof.
  intros. rewrite fold_once_spec by done. rewrite (Z.div_mod x 65536) at 3 by lia.
  replace (65536 * (x / 65536) + x mod 65536) with (x mod 65536 + x / 65536 + x / 65536 * 65535) by lia.
  by rewrite Z_mod_plus_full.
Qed.

Lemma fold_once_zero x : 0 ≤ x → fold_once x = 0 ↔ x = 0.
Proof.
  intros. rewrite fold_once_spec by done. split; [|by intros ->].
  pose proof (Z.mod_pos_bound x 65536). pose proof (Z.div_pos x 65536).
  pose proof (Z.div_mod x 65536). lia.
Qed.

(** The complement of a number of 16 bits congruent to the sum. *)
Lemma csum_fold_helper_spec x :
  in_range 32 x →
  ∃ f, csum_fold_helper x = 65535 - f ∧ 0 ≤ f ≤ 65535 ∧ f mod 65535 = x mod 65535 ∧ (f = 0 ↔ x = 0).
Proof.
  unfold in_range. intros Hx. set (f1 := fold_once x). set (f2 := fold_once f1).
  assert (H1 : 0 ≤ f1 ≤ 131070).
  { destruct (fold_once_bounds x 4294967295) as [? Hb]; [lia|]. change (4294967295 / 65536) with 65535 in Hb.
    unfold f1. lia. }
  assert (H2 : 0 ≤ f2 < 65536).
  { pose proof (fold_once_bounds f1 131070 H1) as Hb. change (131070 / 65536) with 1 in Hb.
    unfold f2. destruct (decide (fold_once f1 = 65536)) as [He|]; [|lia].
    rewrite fold_once_spec in He by lia. pose proof (Z.mod_pos_bound f1 65536).
    pose proof (Z.div_mod f1 65536). lia. }
  exists f2. unfold csum_fold_helper. fold f1 f2. rewrite !fold_once_small by (rewrite ?fold_once_small; lia).
  split; [|split; [lia|split]].
  - unfold u16. replace (Z.lnot f2) with (65535 - f2 + (-1) * 2 ^ 16) by (unfold Z.lnot; lia).
    rewrite Z_mod_plus_full. apply Z.mod_small. lia.
  - unfold f2, f1. by rewrite !fold_once_cong by (done || lia).
  - unfold f2, f1. by rewrite !fold_once_zero by (done || lia).
Qed.

Lemma words_app a b : Nat.Even (length a) → words (a ++ b) = words a ++ words b.
Proof.
  intros [n Hn]. revert a Hn. induction n as [|n IH]; intros [|x [|y a]] Hn; cbn in Hn; try lia; [done|].
  cbn. rewrite IH by lia. done.
Qed.

Lemma foldr_add_app a b : foldr Z.add 0 (a ++ b) = foldr Z.add 0 a + foldr Z.add 0 b.
Proof. induction a; cbn; lia. Qed.

Lemma sum16_app a b : Nat.Even (length a) → sum16 (a ++ b) = sum16 a + sum16 b.
Proof. intros. unfold sum16. by rewrite words_app, foldr_add_app. Qed.

Lemma sum16_two v : in_range 16 v → sum16 (le_bytes 2 v) = v.
Proof.
  unfold in_range. intros. cbn. pose proof (Z.div_mod v 256). rewrite (Z.mod_small (v / 256)); [lia|].
  split; [apply Z.div_pos; lia|apply Z.div_lt_upper_bound; lia].
Qed.

Lemma sum16_zero a b c : Nat.Even (length a) → in_range 16 b → sum16 (a ++ le_bytes 2 b ++ c) = sum16 (a ++ [0; 0] ++ c) + b.
Proof.
  intros Ha Hb. rewrite !sum16_app by (done || by exists 1%nat). rewrite sum16_two by done.
  change (sum16 [0; 0]) with 0. lia.
Qed.

(** One's complement addition of a header is all ones: RFC 1071. *)
Definition checksum_valid (h : bytes) : Prop := sum16 h ≠ 0 ∧ sum16 h mod 65535 = 0.

Lemma sum16_nonneg h : is_bytes h → 0 ≤ sum16 h.
Proof.
  intros Hh. unfold sum16. cut (Forall (λ w, 0 ≤ w) (words h)).
  { induction 1; cbn; lia. }
  remember (length h) as n eqn:Hn. revert h Hh Hn. induction (lt_wf n) as [n _ IH]. intros [|x [|y h]] Hh ->; [constructor| |].
  - inversion Hh; subst. constructor; [lia|constructor].
  - inversion Hh as [|?? Hx Hh']; inversion Hh'; subst. cbn. constructor; [lia|].
    eapply IH; [|done|done]. cbn. lia.
Qed.

(** The checksum computed over a header whose checksum field is zero makes
    the header valid. *)
Lemma header_checksum `{XdpKernelLaws} a c :
  Nat.Even (length a) → is_bytes (a ++ [0; 0] ++ c) → (length (a ++ [0%Z; 0%Z] ++ c) mod 4 = 0)%nat →
  sum16 (a ++ [0; 0] ++ c) ≠ 0 →
  checksum_valid (a ++ le_bytes 2 (csum_fold_helper (bpf_csum_diff (a ++ [0; 0] ++ c))) ++ c).
Proof.
  intros Ha Hb Hlen Hnz. set (h := a ++ [0; 0] ++ c) in *.
  destruct (csum_diff_spec h Hb Hlen) as (Hr & Hc & Hz).
  destruct (csum_fold_helper_spec _ Hr) as (f & -> & Hf & Hfc & Hfz).
  unfold checksum_valid. rewrite (sum16_zero a (65535 - f) c); [|done|unfold in_range; lia]. fold h.
  pose proof (sum16_nonneg h Hb). assert (f ≠ 0) by tauto. split; [lia|].
  rewrite Hc in Hfc. clearbody h. replace (sum16 h + (65535 - f)) with (sum16 h - f + 1 * 65535) by lia.
  rewrite Z_mod_plus_full, Zminus_mod, Hfc, Z.sub_diag. done.
Qed.

(** ** The encapsulation *)

(** Headers as the standards write them: numbers in network order. *)
Definition ipv4_header (tos len check saddr daddr : Z) : bytes :=
  [69; u8 tos] ++ be_bytes 2 len ++ [0; 0; 64; 0; 64; 17] ++ le_bytes 2 check ++
  le_bytes 4 saddr ++ le_bytes 4 daddr.
Definition udp_header (len : Z) : bytes := be_bytes 2 2152 ++ be_bytes 2 2152 ++ be_bytes 2 len ++ [0; 0].
Definition gtpu_header (teid len : Z) : bytes := [52; 255] ++ be_bytes 2 len ++ be_bytes 4 teid.

(** No sequence number, no N-PDU number, a PDU session container with the QFI. *)
Definition gtpu_extension (qfi : Z) : bytes := [0; 0; 0; 133; 1; 0; Z.land qfi 63; 0].

(** The headers in front of an IP packet of [len] bytes. *)
Definition tunnel_headers (saddr daddr tos qfi teid len check : Z) : bytes :=
  ipv4_header tos (len + 44) check saddr daddr ++ udp_header (len + 24) ++
  gtpu_header teid (len + 8) ++ gtpu_extension qfi.

(** The length the IP header of the packet gives. *)
Definition packet_length (r : Run) (len : Z) : Prop :=
  match ip4 (ctx r), ip6 (ctx r) with
  | Some p, _ => accessible (xdp r) (p + 2) 2 = true ∧ len = be (slice (p + 2) 2 (x_buf (xdp r)))
  | None, Some p => accessible (xdp r) (p + 4) 2 = true ∧ len = be (slice (p + 4) 2 (x_buf (xdp r))) + 40
  | None, None => False
  end.

Lemma is_bytes_slice p n b : is_bytes b → is_bytes (slice p n b).
Proof. intros. by apply Forall_take, Forall_drop. Qed.

Lemma wp_load_accessible p n r (Q : bytes → Run → Prop) E :
  accessible (xdp r) p n = true → Q (slice p n (x_buf (xdp r))) r → wp (load p n) r Q E.
Proof. intros Ha HQ. unfold wp, load. by rewrite Ha. Qed.

Lemma accessible_length x p n : accessible x p n = true → 0 ≤ n → length (slice p n (x_buf x)) = Z.to_nat n.
Proof.
  unfold accessible. rewrite !andb_true_iff, !Z.leb_le. intros [[??]?] ?.
  apply length_slice; [lia|done|]. by unfold x_data_end in *.
Qed.

Lemma wp_inner_packet_len `{XdpKernel} r len (Q : Z → Run → Prop) E :
  is_bytes (x_buf (xdp r)) → packet_length r len → Q len r → wp inner_packet_len r Q E.
Proof.
  intros Hb Hl HQ. unfold inner_packet_len, packet_length, load16, load_le in *. wp_go.
  destruct (ip4 (ctx r)) as [p|], (ip6 (ctx r)) as [q|]; try done; destruct Hl as [Ha ->]; wp_go;
    (apply wp_load_accessible; [done|]); wp_go; rewrite load_ntohs; try done;
    try (by apply is_bytes_slice); by rewrite accessible_length.
Qed.

Lemma split_at_length {A} (l : list A) n m :
  length l = (n + m)%nat → ∃ a b, l = a ++ b ∧ length a = n ∧ length b = m.
Proof.
  intros Hl. exists (take n l), (drop n l). rewrite take_drop, length_take, length_drop. split_and!; [done|lia..].
Qed.

(** A result without error. *)
Lemma wp_result {A} (m : M Run A) r (Q : A → Run → Prop) :
  wp m r Q (λ _ _, False) → ∃ a r', m r = (r', Ok a) ∧ Q a r'.
Proof. unfold wp. destruct (m r) as [r' [a|e|]]; [|done..]. by exists a, r'. Qed.

(** What routing depends on besides the packet. *)
Record Port := mkPort {
  p_ingress : Z;
  p_cache : option (list cache_event);
  p_target : option Z               (* of an earlier redirection *)
}.
Definition x_port (x : Xdp) : Port := mkPort (x_ingress x) (x_cache x) (x_target x).

(** Everything but the packet stays as it is. *)
Definition same_tables (x x' : Xdp) : Prop :=
  x_maps x' = x_maps x ∧ x_stat x' = x_stat x ∧ x_route x' = x_route x ∧ x_port x' = x_port x ∧
  x_ticks x' = x_ticks x.

Section headers.
Context `{XdpKernelLaws}.
Implicit Types r : Run.

Lemma tunnel_header_bytes tos len check saddr daddr : is_bytes (ipv4_header tos len check saddr daddr).
Proof.
  unfold ipv4_header. repeat (apply Forall_app; split);
    try apply le_bytes_is_bytes; try apply be_bytes_is_bytes; repeat constructor; try done; apply u8_range.
Qed.

(** The header is stored with a zero checksum, then the checksum. *)
Definition header_check tos len saddr daddr : Z :=
  csum_fold_helper (bpf_csum_diff (ipv4_header tos len 0 saddr daddr)).

Lemma ipv4_header_valid tos len saddr daddr :
  checksum_valid (ipv4_header tos len (header_check tos len saddr daddr) saddr daddr).
Proof.
  set (a := [69; u8 tos] ++ be_bytes 2 len ++ [0; 0; 64; 0; 64; 17]).
  set (c := le_bytes 4 saddr ++ le_bytes 4 daddr).
  assert (Hh : ∀ check, ipv4_header tos len check saddr daddr = a ++ le_bytes 2 check ++ c)
    by (intros; unfold ipv4_header, a, c; by rewrite <-!app_assoc).
  pose proof (Hh 0 : _ = a ++ [0; 0] ++ c) as Hh0.
  unfold header_check. rewrite !Hh. apply header_checksum.
  - exists 5%nat. unfold a. by rewrite !length_app, length_be_bytes.
  - rewrite <-Hh0. apply tunnel_header_bytes.
  - unfold a, c. by rewrite !length_app, length_be_bytes, !length_le_bytes.
  - rewrite <-Hh0. intros Hz.
    assert (Hb := tunnel_header_bytes tos len 0 saddr daddr). unfold ipv4_header in Hz, Hb.
    apply Forall_app in Hb as [_ Hb]. apply sum16_nonneg in Hb.
    rewrite (sum16_app [69; u8 tos]) in Hz by by exists 1%nat.
    pose proof (u8_range tos). change (sum16 [69; u8 tos]) with (69 + 256 * u8 tos + 0) in Hz.
    unfold in_range in *. lia.
Qed.

(** The state after the encapsulation. *)
Definition encapsulated (r r' : Run) (frame : bytes) : Prop :=
  x_frame (xdp r') = frame ∧ is_bytes (x_buf (xdp r')) ∧ x_data (xdp r') = x_data (xdp r) - 44 ∧
  x_data_end (xdp r') = x_data_end (xdp r) ∧ same_tables (xdp r) (xdp r') ∧
  ctx r' = context_set_ip4 (x_data (xdp r')) (x_data_end (xdp r')) (x_data (xdp r'))
             (x_data (xdp r') + 14) (x_data (xdp r') + 34) (x_data (xdp r') + 42) (ctx r).

(** Seven headers' space in front of the payload. *)
Lemma tunnel_space (room : bytes) :
  length room = 58%nat →
  ∃ m t i u g e c, room = m ++ t ++ i ++ u ++ g ++ e ++ c ∧ length m = 12%nat ∧ length t = 2%nat ∧
    length i = 20%nat ∧ length u = 8%nat ∧ length g = 8%nat ∧ length e = 4%nat ∧ length c = 4%nat.
Proof.
  intros Hl.
  destruct (split_at_length room 12 46) as (m & r1 & -> & Hm & H1); [done|].
  destruct (split_at_length r1 2 44) as (t & r2 & -> & Ht & H2); [done|].
  destruct (split_at_length r2 20 24) as (i & r3 & -> & Hi & H3); [done|].
  destruct (split_at_length r3 8 16) as (u & r4 & -> & Hu & H4); [done|].
  destruct (split_at_length r4 8 8) as (g & r5 & -> & Hg & H5); [done|].
  destruct (split_at_length r5 4 4) as (e & c & -> & He & Hc); [done|].
  by exists m, t, i, u, g, e, c.
Qed.

Lemma wp_within p n m r (Q : Z → Run → Prop) E :
  p + n ≤ x_data_end (xdp r) → wp m r Q E → wp (within p n m) r Q E.
Proof. intros Hp Hm. unfold within. wp_go. by rewrite (proj2 (Z.ltb_ge _ _)). Qed.

Lemma packet_length_nonneg r len : is_bytes (x_buf (xdp r)) → packet_length r len → 0 ≤ len.
Proof.
  intros Hb. unfold packet_length. assert (Hbe : ∀ p n, 0 ≤ be (slice p n (x_buf (xdp r)))).
  { intros. apply (le_range (reverse _)), is_bytes_reverse, is_bytes_slice, Hb. }
  destruct (ip4 (ctx r)) as [p|], (ip6 (ctx r)) as [q|]; try done; intros [_ ->]; auto.
  specialize (Hbe (q + 4) 2). lia.
Qed.

Lemma wp_adjust_ok delta r (Q : Z → Run → Prop) E :
  0 ≤ x_data (xdp r) + delta → x_data (xdp r) + delta + 14 ≤ x_data_end (xdp r) →
  Q 0 (on_xdp (λ x, set_x_data (x_data x + delta) x) r) → wp (adjust_head delta) r Q E.
Proof.
  intros ?? HQ. unfold wp, adjust_head. by rewrite (proj2 (adjust_head_spec _ _ delta)).
Qed.

(** With another buffer. *)
Definition buffer (b : bytes) (r : Run) : Run := on_xdp (set_x_buf b) r.

Lemma wp_put a b c bs buf p r (Q : unit → Run → Prop) E :
  buf = a ++ b ++ c → p = Z.of_nat (length a) → length bs = length b →
  0 ≤ x_data (xdp r) ≤ p → Q tt (buffer (a ++ bs ++ c) r) → wp (store p bs) (buffer buf r) Q E.
Proof. intros -> Hp Hl [??] HQ. by apply (wp_store_at a b c). Qed.

Lemma wp_get a b c buf p n r (Q : bytes → Run → Prop) E :
  buf = a ++ b ++ c → p = Z.of_nat (length a) → n = Z.of_nat (length b) →
  0 ≤ x_data (xdp r) ≤ p → Q b (buffer buf r) → wp (load p n) (buffer buf r) Q E.
Proof. intros -> Hp Hl [??] HQ. by apply (wp_load_at a b c). Qed.

Lemma fill_ip_header_eq ip saddr daddr tos tot_len :
  fill_ip_header ip saddr daddr tos tot_len = store ip (ipv4_header tos tot_len 0 saddr daddr).
Proof. unfold fill_ip_header, ipv4_header. by rewrite store_htons. Qed.

Lemma fill_udp_header_eq udp len : fill_udp_header udp GTP_UDP_PORT len = store udp (udp_header len).
Proof. unfold fill_udp_header, udp_header. by rewrite !store_htons. Qed.

Lemma fill_gtp_header_eq gtp teid len : fill_gtp_header gtp teid len = store gtp (gtpu_header teid len).
Proof. unfold fill_gtp_header, gtpu_header. by rewrite store_htons, store_htonl. Qed.

Lemma fill_gtp_ext_header_psc_eq p qfi :
  fill_gtp_ext_header_psc p qfi PDU_SESSION_CONTAINER_PDU_TYPE_DL_PSU = store p [1; 0; Z.land qfi 63; 0].
Proof.
  unfold fill_gtp_ext_header_psc. change 63 with (Z.ones 6). rewrite Z.land_ones by done. cbn.
  rewrite (Z.mod_small (qfi mod _)); [done|]. pose proof (Z.mod_pos_bound qfi (2 ^ 6)). lia.
Qed.

Lemma length_ipv4_header tos len check saddr daddr : length (ipv4_header tos len check saddr daddr) = 20%nat.
Proof. unfold ipv4_header. by rewrite !length_app, length_be_bytes, !length_le_bytes. Qed.
Lemma length_udp_header len : length (udp_header len) = 8%nat.
Proof. unfold udp_header. by rewrite !length_app, !length_be_bytes. Qed.
Lemma length_gtpu_header teid len : length (gtpu_header teid len) = 8%nat.
Proof. unfold gtpu_header. by rewrite !length_app, !length_be_bytes. Qed.

End headers.

Ltac lengths := unfold buffer, x_data_end in *; cbn [xdp x_data x_buf on_xdp set_xdp set_x_buf] in *;
  rewrite ?length_app, ?length_le_bytes, ?length_be_bytes, ?length_ipv4_header, ?length_udp_header,
    ?length_gtpu_header in *; cbn [length] in *; lia.
Ltac here := repeat split; cbn in *; lia.

Ltac put a b c := wp_step; apply (wp_put a b c); [by rewrite <-?app_assoc|lengths..|].
Ltac get a b c := wp_step; apply (wp_get a b c); [by rewrite <-?app_assoc|lengths..|].
Ltac inside := apply wp_within; [lengths|].

Section encapsulation.
Context `{XdpKernelLaws}.
Implicit Types r : Run.

(** The state after all headers are stored in the buffer [B]. *)
Lemma headers_stored_state B d r r1 :
  x_data (xdp r1) = d → r1 = on_xdp (λ x, set_x_data (x_data x + - 44) x) r → length B = length (x_buf (xdp r)) →
  on_ctx (context_set_ip4 (x_data (xdp (buffer B r1))) (x_data_end (xdp (buffer B r1))) d (d + 14) (d + 14 + 20)
            (d + 14 + 20 + 8)) (buffer B r1) =
  on_ctx (context_set_ip4 d (x_data_end (xdp r)) d (d + 14) (d + 34) (d + 42))
    (on_xdp (λ x, set_x_data d (set_x_buf B x)) r).
Proof.
  intros Hd1 Hr1 HB. assert (x_data_end (xdp (buffer B r1)) = x_data_end (xdp r)) as ->.
  { unfold x_data_end. change (x_buf (xdp (buffer B r1))) with B. by rewrite HB. }
  change (x_data (xdp (buffer B r1))) with (x_data (xdp r1)). rewrite Hd1. subst r1.
  unfold buffer, on_ctx, on_xdp, set_ctx, set_xdp in *. cbn in *. subst d. f_equal; f_equal; lia.
Qed.

Lemma tunnel_headers_stored saddr daddr tos qfi teid len P head macs type T r :
  let d := Z.of_nat (length P) in
  length head = 44%nat → length macs = 12%nat → length type = 2%nat →
  x_data (xdp r) = d + 44 →
  x_buf (xdp r) = P ++ head ++ macs ++ type ++ T → is_bytes (x_buf (xdp r)) → packet_length r len →
  wp (add_gtp_over_ip4_headers saddr daddr tos qfi teid) r
    (λ v r', v = 0 ∧
      r' = on_ctx (context_set_ip4 d (x_data_end (xdp r)) d (d + 14) (d + 34) (d + 42))
             (on_xdp (λ x, set_x_data d (set_x_buf (P ++ macs ++ [8; 0] ++
                tunnel_headers saddr daddr tos qfi teid len (header_check tos (len + 44) saddr daddr) ++ T) x)) r))
    (λ _ _, False).
Proof.
  intros d Hhead Hm Ht Hd Hbuf Hb Hlen. subst d. unfold add_gtp_over_ip4_headers.
  wp_step. apply (wp_inner_packet_len _ len); [done..|].
  pose proof (packet_length_nonneg _ _ Hb Hlen). rewrite (proj2 (Z.eqb_neq len (-1))) by lia.
  change (20 + 8 + (8 + (4 + 4))) with 44. replace (len + 8 + (8 + (4 + 4))) with (len + 24) by lia.
  replace (4 + 4 + len) with (len + 8) by lia.
  wp_step. apply wp_adjust_ok; [lia|unfold x_data_end; rewrite Hbuf; lengths|]. cbn [Z.eqb negb]. do 2 wp_step. cbn zeta.
  set (r1 := on_xdp _ r). change r1 with (buffer (x_buf (xdp r1)) r1).
  assert (x_data (xdp r1) = Z.of_nat (length P)) as Hd1 by (cbn; lia).
  change (x_buf (xdp r1)) with (x_buf (xdp r)). rewrite Hbuf.
  change (x_data (xdp (buffer _ r1))) with (x_data (xdp r1)). rewrite Hd1.
  inside. get (P ++ head) (macs ++ type) T.
  destruct (tunnel_space (head ++ macs ++ type)) as (m & t & i & u & g & e & c & Hroom & ? & ? & ? & ? & ? & ? & ?);
    [lengths|].
  replace (P ++ head ++ macs ++ type ++ T) with (P ++ m ++ t ++ i ++ u ++ g ++ e ++ c ++ T)
    by (rewrite (app_assoc head), (app_assoc (head ++ macs)), <-(app_assoc head), Hroom; by rewrite <-!app_assoc).
  put P (m ++ t) (i ++ u ++ g ++ e ++ c ++ T).
  put (P ++ macs) type (i ++ u ++ g ++ e ++ c ++ T). cbn zeta.
  change (le_bytes 2 (bpf_htons ETH_P_IP)) with [8; 0].
  rewrite fill_ip_header_eq, fill_udp_header_eq, fill_gtp_header_eq, fill_gtp_ext_header_psc_eq.
  inside. put (P ++ macs ++ [8; 0]) i (u ++ g ++ e ++ c ++ T).
  set (hdr := ipv4_header _ _ _ _ _). assert (length hdr = 20%nat) by apply length_ipv4_header.
  inside. put (P ++ macs ++ [8; 0] ++ hdr) u (g ++ e ++ c ++ T). set (hu := udp_header _).
  assert (length hu = 8%nat) by apply length_udp_header.
  inside. put (P ++ macs ++ [8; 0] ++ hdr ++ hu) g (e ++ c ++ T). set (hg := gtpu_header _ _).
  assert (length hg = 8%nat) by apply length_gtpu_header.
  inside. put (P ++ macs ++ [8; 0] ++ hdr ++ hu ++ hg) e (c ++ T).
  change (le_bytes 2 0 ++ _) with [0; 0; 0; 133].
  inside. put (P ++ macs ++ [8; 0] ++ hdr ++ hu ++ hg ++ [0; 0; 0; 133]) c T.
  wp_step. unfold ipv4_csum. get (P ++ macs ++ [8; 0]) hdr (hu ++ hg ++ [0; 0; 0; 133] ++ [1; 0; Z.land qfi 63; 0] ++ T).
  do 2 wp_step. fold (header_check tos (len + 44) saddr daddr).
  apply (wp_put (P ++ macs ++ [8; 0] ++ [69; u8 tos] ++ be_bytes 2 (len + 44) ++ [0; 0; 64; 0; 64; 17]) (le_bytes 2 0)
    (le_bytes 4 saddr ++ le_bytes 4 daddr ++ hu ++ hg ++ [0; 0; 0; 133] ++ [1; 0; Z.land qfi 63; 0] ++ T));
    [unfold hdr, ipv4_header; by rewrite <-!app_assoc|lengths..|].
  wp_go. split; [done|]. set (B := (_ ++ _ ++ _ ++ _ ++ _ : bytes) ++ _).
  assert (B = P ++ macs ++ [8; 0] ++
    tunnel_headers saddr daddr tos qfi teid len (header_check tos (len + 44) saddr daddr) ++ T) as HB.
  { unfold B, tunnel_headers, ipv4_header, gtpu_extension. by rewrite <-!app_assoc. }
  rewrite <-HB. apply headers_stored_state; [done..|]. rewrite Hbuf. unfold B. lengths.
Qed.

Lemma frame_split (x : Xdp) : 0 ≤ x_data x ≤ x_data_end x →
  ∃ P, x_buf x = P ++ x_frame x ∧ Z.of_nat (length P) = x_data x.
Proof.
  intros Hb. exists (take (Z.to_nat (x_data x)) (x_buf x)). unfold x_frame, x_data_end in *.
  rewrite take_drop, length_take. split; [done|lia].
Qed.

Lemma frame_of_buffer (x : Xdp) P F : x_buf x = P ++ F → x_data x = Z.of_nat (length P) → x_frame x = F.
Proof. intros Hb Hd. unfold x_frame. by rewrite Hb, Hd, Nat2Z.id, drop_app_length. Qed.

Lemma tunnel_headers_bytes saddr daddr tos qfi teid len check :
  is_bytes (tunnel_headers saddr daddr tos qfi teid len check).
Proof.
  assert (0 ≤ Z.land qfi 63 < 64).
  { change 63 with (Z.ones 6). rewrite Z.land_ones by done. by apply Z.mod_pos_bound. }
  pose proof (be_bytes_is_bytes 2). pose proof (be_bytes_is_bytes 4).
  unfold tunnel_headers, udp_header, gtpu_header, gtpu_extension.
  unfold is_bytes in *. rewrite !Forall_app. split_and!; try apply tunnel_header_bytes; auto; repeat constructor; lia.
Qed.

(** [add_gtp_over_ip4_headers] puts in front of the IP packet exactly the
    headers of the standards. *)
Theorem add_gtp_frame saddr daddr tos qfi teid len macs type T r :
  is_bytes (x_buf (xdp r)) → 44 ≤ x_data (xdp r) ≤ x_data_end (xdp r) →
  x_frame (xdp r) = macs ++ type ++ T → length macs = 12%nat → length type = 2%nat → packet_length r len →
  ∃ r' check, add_gtp_over_ip4_headers saddr daddr tos qfi teid r = (r', Ok 0) ∧
    encapsulated r r' (macs ++ [8; 0] ++ tunnel_headers saddr daddr tos qfi teid len check ++ T) ∧
    checksum_valid (ipv4_header tos (len + 44) check saddr daddr).
Proof.
  intros Hb Hd Hf Hm Ht Hlen. destruct (frame_split (xdp r)) as (P & Hbuf & HP); [lia|]. rewrite Hf in Hbuf.
  destruct (split_at_length P (length P - 44) 44) as (P' & head & -> & HP' & Hhead); [lia|].
  rewrite <-app_assoc in Hbuf. rewrite length_app in *.
  destruct (wp_result _ _ _ (tunnel_headers_stored saddr daddr tos qfi teid len P' head macs type T r
    Hhead Hm Ht ltac:(lia) Hbuf Hb Hlen)) as (a & r' & Hrun & -> & Hr').
  exists r', (header_check tos (len + 44) saddr daddr).
  split; [done|split; [|apply ipv4_header_valid]]. rewrite Hr'. unfold encapsulated.
  assert (x_data_end (xdp r') = x_data_end (xdp r)) as He.
  { rewrite Hr'. unfold x_data_end. cbn. rewrite Hbuf. unfold tunnel_headers, gtpu_extension. lengths. }
  rewrite Hr' in He. rewrite He. split; [by apply (frame_of_buffer _ P')|].
  split; [|split; [cbn; lia|done]].
  pose proof (tunnel_headers_bytes saddr daddr tos qfi teid len (header_check tos (len + 44) saddr daddr)).
  assert (is_bytes [8; 0]) by (repeat constructor; lia).
  rewrite Hbuf in Hb. unfold is_bytes in *. cbn -[app]. rewrite !Forall_app in *. naive_solver.
Qed.

(** ** Present headers *)

(** A field of a packet. *)
Definition field (r : Run) (p n : Z) : Z := le (slice p n (x_buf (xdp r))).

Lemma field_app a b c r p n :
  x_buf (xdp r) = a ++ b ++ c → p = Z.of_nat (length a) → n = Z.of_nat (length b) → field r p n = le b.
Proof. intros Hb -> ->. unfold field. by rewrite Hb, slice_app. Qed.

(** [n] bytes at [p] are in the packet. *)
Definition present (r : Run) (p n : Z) : Prop :=
  0 ≤ x_data (xdp r) ∧ x_data (xdp r) ≤ p ∧ p + n ≤ x_data_end (xdp r).

Lemma field_not_err r p n : is_bytes (x_buf (xdp r)) → (field r p n =? -1) = false.
Proof.
  intros Hb. apply Z.eqb_neq. pose proof (le_range (slice p n (x_buf (xdp r))) (is_bytes_slice _ _ _ Hb)).
  unfold field. lia.
Qed.

Lemma wp_load_field r p n (Q : Z → Run → Prop) E :
  present r p n → Q (field r p n) r → wp (load_le p n) r Q E.
Proof. intros (? & ? & ?) HQ. unfold load_le. wp_step. by apply wp_load. Qed.

(** The cursor is in front of [n] bytes of the packet. *)
Definition at_header (r : Run) (n : Z) : Prop :=
  present r (data (ctx r)) n ∧ data_end (ctx r) = x_data_end (xdp r).

Local Ltac parser f :=
  intros [(? & ? & ?) He] HQ; unfold f, load8, load16; wp_go; rewrite He, (proj2 (Z.ltb_ge _ _)) by lia; wp_go;
  repeat (apply wp_load_field; [repeat split; cbn; lia|]; wp_go); exact HQ.

Lemma wp_parse_ethernet r (Q : Z → Run → Prop) E :
  at_header r 14 →
  Q (bpf_ntohs (field r (data (ctx r) + 12) 2))
    (on_ctx (λ c, set_eth (Some (data (ctx r))) (set_data (data (ctx r) + 14) c)) r) →
  wp parse_ethernet r Q E.
Proof. parser parse_ethernet. Qed.

Lemma wp_parse_ip4 r (Q : Z → Run → Prop) E :
  at_header r 20 →
  Q (field r (data (ctx r) + 9) 1)
    (on_ctx (λ c, set_ip4 (Some (data (ctx r)))
       (set_data (data (ctx r) + Z.land (field r (data (ctx r)) 1) 15 * 4) c)) r) →
  wp parse_ip4 r Q E.
Proof. parser parse_ip4. Qed.

Lemma wp_parse_ip6 r (Q : Z → Run → Prop) E :
  at_header r 40 →
  Q (field r (data (ctx r) + 6) 1)
    (on_ctx (λ c, set_ip6 (Some (data (ctx r))) (set_data (data (ctx r) + 40) c)) r) →
  wp parse_ip6 r Q E.
Proof. parser parse_ip6. Qed.

Lemma wp_parse_udp r (Q : Z → Run → Prop) E :
  at_header r 8 →
  Q (bpf_ntohs (field r (data (ctx r) + 2) 2))
    (on_ctx (λ c, set_udp (Some (data (ctx r))) (set_data (data (ctx r) + 8) c)) r) →
  wp parse_udp r Q E.
Proof. parser parse_udp. Qed.

Lemma wp_parse_tcp r (Q : Z → Run → Prop) E :
  at_header r 20 →
  Q (bpf_ntohs (field r (data (ctx r) + 2) 2))
    (on_ctx (λ c, set_tcp (Some (data (ctx r))) (set_data (data (ctx r) + 20) c)) r) →
  wp parse_tcp r Q E.
Proof. parser parse_tcp. Qed.

Lemma wp_parse_gtp r (Q : Z → Run → Prop) E :
  at_header r 8 →
  Q (field r (data (ctx r) + 1) 1)
    (on_ctx (λ c, set_gtp (Some (data (ctx r)))
       (set_data (data (ctx r) + 8 + if gtp_optional (field r (data (ctx r)) 1) then 4 + 4 else 0) c)) r) →
  wp parse_gtp r Q E.
Proof. parser parse_gtp. Qed.

(** ** The removal *)

(** The Ethernet type of an IP packet, from its version. *)
Definition packet_type (pkt : bytes) : option bytes :=
  match pkt with
  | v :: _ => if Z.shiftr v 4 =? 4 then Some [8; 0] else if Z.shiftr v 4 =? 6 then Some [134; 221] else None
  | [] => None
  end.

(** The packet is as long as a fixed IP header of its version. *)
Definition has_ip_header (pkt : bytes) : Prop :=
  match pkt with
  | v :: _ => if Z.shiftr v 4 =? 4 then (20 ≤ length pkt)%nat else (40 ≤ length pkt)%nat
  | [] => False
  end.

(** The context for a frame at [d] that holds the packet. *)
Definition frame_context (d d_end : Z) (pkt : bytes) (c : packet_context) : packet_context :=
  match pkt with
  | v :: _ =>
      if Z.shiftr v 4 =? 4
      then mkContext (d + 14 + Z.land v 15 * 4) d_end (Some d) (Some (d + 14)) None None (tcp c) None
      else mkContext (d + 14 + 40) d_end (Some d) None (Some (d + 14)) None (tcp c) None
  | [] => c
  end.

Lemma reinit_frame macs type pkt P r (Q : Z → Run → Prop) E :
  is_bytes (x_buf (xdp r)) →
  x_buf (xdp r) = P ++ macs ++ type ++ pkt → length macs = 12%nat → packet_type pkt = Some type →
  has_ip_header pkt → x_data (xdp r) = Z.of_nat (length P) →
  Q 0 (on_ctx (frame_context (x_data (xdp r)) (x_data_end (xdp r)) pkt) r) →
  wp (context_reinit (x_data (xdp r)) (x_data_end (xdp r))) r Q E.
Proof.
  intros Hb Hbuf Hm Ht Hh Hd HQ. unfold context_reinit. do 2 wp_step.
  set (r1 := on_ctx _ r).
  destruct pkt as [|v pkt]; [done|]. unfold packet_type, has_ip_header, frame_context in *.
  assert (length type = 2%nat) as Hl by (repeat case_match; by simplify_eq).
  assert (Hlen : x_data_end (xdp r) = Z.of_nat (length P) + 14 + Z.of_nat (length (v :: pkt)))
    by (unfold x_data_end; rewrite Hbuf; lengths).
  wp_step. apply wp_parse_ethernet; [here..|].
  set (r2 := on_ctx _ r1).
  assert (field r1 (data (ctx r1) + 12) 2 = le type) as ->.
  { apply (field_app (P ++ macs) _ (v :: pkt)); [cbn; by rewrite Hbuf, <-app_assoc|cbn; lengths|lengths]. }
  assert (field r2 (data (ctx r2)) 1 = v) as Hv.
  { rewrite (field_app (P ++ macs ++ type) [v] pkt); [cbn; lia|cbn; by rewrite Hbuf, <-!app_assoc|cbn; lengths|done]. }
  destruct (Z.shiftr v 4 =? 4).
  - injection Ht as <-. change (bpf_ntohs (le [8; 0])) with ETH_P_IP.
    change (ETH_P_IP =? ETH_P_IPV6) with false. change (ETH_P_IP =? ETH_P_IP) with true. cbn iota.
    wp_step. apply wp_parse_ip4; [here|].
    rewrite Hv, field_not_err by done. by apply wp_ret.
  - destruct (Z.shiftr v 4 =? 6); [|done]. injection Ht as <-.
    change (bpf_ntohs (le [134; 221])) with ETH_P_IPV6. change (ETH_P_IPV6 =? ETH_P_IPV6) with true. cbn iota.
    wp_step. apply wp_parse_ip6; [here|]. rewrite field_not_err by done. by apply wp_ret.
Qed.

(** What [remove_gtp_header] leaves. *)
Definition decapsulated (r r' : Run) (n : Z) (frame pkt : bytes) : Prop :=
  x_frame (xdp r') = frame ∧ is_bytes (x_buf (xdp r')) ∧ x_data (xdp r') = x_data (xdp r) + n ∧
  x_data_end (xdp r') = x_data_end (xdp r) ∧ same_tables (xdp r) (xdp r') ∧
  ctx r' = frame_context (x_data (xdp r')) (x_data_end (xdp r')) pkt (ctx r).

Lemma guess_packet_type v pkt type :
  packet_type (v :: pkt) = Some type →
  (if Z.shiftr v 4 =? 6 then ETH_P_IPV6_BE else if Z.shiftr v 4 =? 4 then ETH_P_IP_BE else -1) = le type ∧
  le type ≠ -1 ∧ le_bytes 2 (le type) = type.
Proof.
  cbn. destruct (Z.eqb_spec (Z.shiftr v 4) 4) as [->|].
  - by intros [= <-].
  - destruct (Z.shiftr v 4 =? 6); [|done]. by intros [= <-].
Qed.

Lemma remove_gtp_stored g flags n macs type hdrs v pkt type' P r :
  gtp (ctx r) = Some g → present r g 1 → field r g 1 = flags →
  n = 36 + (if gtp_optional flags then 8 else 0) →
  x_buf (xdp r) = P ++ macs ++ type ++ hdrs ++ v :: pkt → is_bytes (x_buf (xdp r)) →
  length macs = 12%nat → length type = 2%nat → Z.of_nat (length hdrs) = n →
  x_data (xdp r) = Z.of_nat (length P) → packet_type (v :: pkt) = Some type' → has_ip_header (v :: pkt) →
  wp remove_gtp_header r (λ a r', a = 0 ∧ decapsulated r r' n (macs ++ type' ++ v :: pkt) (v :: pkt)) (λ _ _, False).
Proof.
  intros Hg Hp Hfl Hn Hbuf Hb Hm Ht Hh Hd Hty Hip. unfold remove_gtp_header. do 2 wp_step. rewrite Hg.
  wp_step. apply wp_load_field; [done|]. rewrite Hfl.
  replace (20 + 8 + 8 + (if gtp_optional flags then 4 + 4 else 0)) with n by (destruct (gtp_optional flags); lia).
  wp_step. wp_step. cbn zeta. assert (length type' = 2%nat) as Hl by (cbn in Hty; repeat case_match; by simplify_eq).
  assert (36 ≤ n) by (destruct (gtp_optional flags); lia).
  assert (Hlen : x_data_end (xdp r) = Z.of_nat (length P) + 14 + n + 1 + Z.of_nat (length pkt))
    by (unfold x_data_end; rewrite Hbuf; lengths).
  rewrite Hd, !(proj2 (Z.ltb_ge _ _)) by lia.
  destruct (split_at_length (macs ++ type ++ hdrs) (length hdrs) 14) as (front & back & Hsplit & ? & ?); [lengths|].
  assert (Hbuf1 : x_buf (xdp r) = P ++ front ++ back ++ v :: pkt)
    by (rewrite Hbuf; rewrite (app_assoc type), (app_assoc macs), (Hsplit : macs ++ (type ++ hdrs) = _); by rewrite <-!app_assoc).
  wp_step. unfold guess_eth_protocol. wp_step.
  apply wp_load_field; [here|].
  rewrite (field_app (P ++ front ++ back) [v] pkt); [|by rewrite Hbuf1, <-!app_assoc|lengths|done]. cbn [le].
  wp_step. replace (v + 256 * 0) with v by lia.
  destruct (guess_packet_type _ _ _ Hty) as (-> & Hne & Hle). rewrite (proj2 (Z.eqb_neq _ _)) by done.
  wp_step. apply (wp_load_at P (macs ++ type) (hdrs ++ v :: pkt)); [by rewrite Hbuf, <-!app_assoc|lengths..|].
  wp_step. apply (wp_store_at (P ++ front) back (v :: pkt)); [by rewrite Hbuf1, <-!app_assoc|lengths..|].
  fold (buffer ((P ++ front) ++ (macs ++ type) ++ v :: pkt) r).
  rewrite <-Hle. put (P ++ front ++ macs) type (v :: pkt). rewrite Hle.
  wp_step. apply wp_adjust_ok; [lengths..|]. cbn [Z.eqb negb]. do 2 wp_step.
  rewrite Hle, <-!app_assoc. set (r1 := on_xdp _ _).
  assert (Hb1 : x_buf (xdp r1) = (P ++ front) ++ macs ++ type' ++ v :: pkt) by (cbn; by rewrite <-!app_assoc).
  assert (Hd1 : x_data (xdp r1) = Z.of_nat (length (P ++ front))) by (cbn; lengths).
  assert (Hbytes : is_bytes (x_buf (xdp r1))).
  { pose proof Hb as Hb'. rewrite Hb1, <-Hle. unfold is_bytes in *. rewrite Hbuf1 in Hb'. rewrite Hbuf in Hb.
    rewrite !Forall_app in *. pose proof (le_bytes_is_bytes 2 (le type')). naive_solver. }
  apply (reinit_frame macs type' (v :: pkt) (P ++ front)); [done..|].
  assert (x_data_end (xdp r1) = x_data_end (xdp r)) by (unfold x_data_end; rewrite Hb1, Hbuf; lengths).
  split; [done|]. split; [by apply (frame_of_buffer _ (P ++ front))|]. split; [done|]. split; [cbn; lia|done].
Qed.

(** [remove_gtp_header] takes away IPv4, UDP and GTP-U headers: 36 bytes,
    and 8 more when a flag of the GTP-U header is set. *)
Theorem remove_gtp_frame g flags macs type hdrs pkt type' r :
  gtp (ctx r) = Some g → present r g 1 → field r g 1 = flags →
  is_bytes (x_buf (xdp r)) → 0 ≤ x_data (xdp r) ≤ x_data_end (xdp r) →
  x_frame (xdp r) = macs ++ type ++ hdrs ++ pkt → length macs = 12%nat → length type = 2%nat →
  Z.of_nat (length hdrs) = 36 + (if gtp_optional flags then 8 else 0) →
  packet_type pkt = Some type' → has_ip_header pkt →
  ∃ r', remove_gtp_header r = (r', Ok 0) ∧
    decapsulated r r' (Z.of_nat (length hdrs)) (macs ++ type' ++ pkt) pkt.
Proof.
  intros Hg Hp Hfl Hb Hd Hf Hm Ht Hn Hty Hip. destruct (frame_split _ Hd) as (P & Hbuf & HP).
  rewrite Hf in Hbuf. destruct pkt as [|v pkt]; [done|].
  destruct (wp_result _ _ _ (remove_gtp_stored g flags _ macs type hdrs v pkt type' P r
    Hg Hp Hfl Hn Hbuf Hb Hm Ht eq_refl (eq_sym HP) Hty Hip)) as (a & r' & Hrun & -> & Hr').
  by exists r'.
Qed.

(** C21: Encapsulating an IPv4 or IPv6 packet and removing the headers again
    gives back the frame, where it was. *)
Theorem encapsulation_roundtrip saddr daddr tos qfi teid len macs type pkt r :
  is_bytes (x_buf (xdp r)) → 44 ≤ x_data (xdp r) ≤ x_data_end (xdp r) →
  x_frame (xdp r) = macs ++ type ++ pkt → length macs = 12%nat →
  packet_type pkt = Some type → has_ip_header pkt → packet_length r len →
  ∃ r1 r2, add_gtp_over_ip4_headers saddr daddr tos qfi teid r = (r1, Ok 0) ∧
    remove_gtp_header r1 = (r2, Ok 0) ∧
    x_frame (xdp r2) = x_frame (xdp r) ∧ x_data (xdp r2) = x_data (xdp r) ∧
    same_tables (xdp r) (xdp r2) ∧ ctx r2 = frame_context (x_data (xdp r)) (x_data_end (xdp r)) pkt (ctx r).
Proof.
  intros Hb Hd Hf Hm Hty Hip Hlen.
  assert (length type = 2%nat) as Ht by (unfold packet_type in Hty; repeat case_match; by simplify_eq).
  destruct (add_gtp_frame saddr daddr tos qfi teid len macs type pkt r) as (r1 & check & Hadd & Henc & _); [done..|].
  destruct Henc as (Hf1 & Hb1 & Hd1 & He1 & Hs1 & Hc1).
  set (hdrs := tunnel_headers saddr daddr tos qfi teid len check) in *.
  assert (Hl : length hdrs = 44%nat)
    by (unfold hdrs, tunnel_headers, gtpu_extension; rewrite !length_app; rewrite length_ipv4_header; lengths).
  destruct (frame_split (xdp r1)) as (P & Hbuf & HP); [lia|].
  assert (Hflag : field r1 (x_data (xdp r1) + 42) 1 = 52).
  { rewrite (field_app (P ++ macs ++ [8; 0] ++ ipv4_header tos (len + 44) check saddr daddr ++ udp_header (len + 24))
      [52] ([255] ++ be_bytes 2 (len + 8) ++ be_bytes 4 teid ++ gtpu_extension qfi ++ pkt)); [done| | |done].
    - rewrite Hbuf, Hf1. unfold hdrs, tunnel_headers, gtpu_header. by rewrite <-!app_assoc.
    - rewrite <-HP. lengths. }
  destruct (remove_gtp_frame (x_data (xdp r1) + 42) 52 macs [8; 0] hdrs pkt type r1)
    as (r2 & Hrem & Hf2 & _ & Hd2 & He2 & Hs2 & Hc2); try done; [by rewrite Hc1|repeat split; lia|lia|].
  rewrite Hl in Hd2. exists r1, r2.
  split; [done|]. split; [done|]. split; [by rewrite Hf2, Hf|]. split; [lia|].
  split; [unfold same_tables in *; intuition congruence|].
  rewrite Hc2, Hc1, He2, He1. replace (x_data (xdp r2)) with (x_data (xdp r)) by lia.
  unfold frame_context. destruct pkt; [done|]. by destruct (_ =? 4).
Qed.

End encapsulation.

(** ** Witnesses *)

Definition demo_dl_run : Run :=
  demo_run demo_frame_dl (mkContext 290 310 (Some 256) (Some 270) None None (Some 290) None).

Lemma encapsulation_roundtrip_witness :
  ∃ r1 r2, add_gtp_over_ip4_headers 1 2 3 4 5 demo_dl_run = (r1, Ok 0) ∧
    remove_gtp_header r1 = (r2, Ok 0) ∧
    x_frame (xdp r2) = demo_frame_dl ∧ x_data (xdp r2) = 256 ∧
    same_tables (xdp demo_dl_run) (xdp r2) ∧ ctx r2 = frame_context 256 310 demo_packet (ctx demo_dl_run).
Proof.
  apply (encapsulation_roundtrip 1 2 3 4 5 40 demo_macs [8; 0] demo_packet demo_dl_run).
  - apply demo_bytes, demo_frame_dl_bytes.
  - vm_compute. split; discriminate.
  - vm_compute. reflexivity.
  - reflexivity.
  - reflexivity.
  - vm_compute. lia.
  - vm_compute. split; reflexivity.
Defined.
