(* ===== verification/XdpSdf.v ===== *)
(** * What SDF filters match (cmd/ebpf/xdp/sdf_filter.h with cmd/ebpf/pdr.go)

    The filter a flow description means, as the control plane stores it
    ([bpf_sdf_filter]) and as the data plane applies it to a packet. *)

From S2P Require Import Prelude Net ForwardingPlane Dataplane Sdf.
From S2P Require Import XdpMemory XdpParse XdpGtp XdpRules XdpProgram XdpDemo XdpFrame.

(** ** Numbers and bytes *)

Lemma land_split x y a b :
  0 ≤ x < 256 → 0 ≤ y < 256 → Z.land (x + 256 * a) (y + 256 * b) = Z.land x y + 256 * Z.land a b.
Proof.
  intros Hx Hy. set (u := x + 256 * a). set (v := y + 256 * b).
  assert (Hu : u mod 2 ^ 8 = x ∧ Z.shiftr u 8 = a ∧ v mod 2 ^ 8 = y ∧ Z.shiftr v 8 = b).
  { rewrite !Z.shiftr_div_pow2 by done. change (2 ^ 8) with 256. unfold u, v.
    rewrite !(Z.mul_comm 256), !Z_mod_plus_full, !Z.div_add, !Z.mod_small, !Z.div_small by lia. lia. }
  destruct Hu as (Hux & Hua & Hvy & Hvb).
  rewrite (Z.div_mod (Z.land u v) 256) by lia. change 256 with (2 ^ 8).
  rewrite <-Z.shiftr_div_pow2, Z.shiftr_land, Hua, Hvb by done.
  rewrite <-Z.land_ones, <-(Z.land_diag (Z.ones 8)) by done.
  replace (Z.land (Z.land u v) (Z.land (Z.ones 8) (Z.ones 8)))
    with (Z.land (Z.land u (Z.ones 8)) (Z.land v (Z.ones 8))).
  2:{ apply Z.bits_inj'. intros n _. rewrite !Z.land_spec. by repeat destruct (Z.testbit _ _). }
  rewrite !Z.land_ones, Hux, Hvy by done. lia.
Qed.

Lemma land_byte x y : 0 ≤ x < 256 → 0 ≤ y → 0 ≤ Z.land x y < 256.
Proof.
  intros Hx Hy. split; [apply Z.land_nonneg; lia|].
  destruct (decide (Z.land x y = 0)) as [->|Hne]; [done|].
  assert (0 ≤ Z.land x y) by (apply Z.land_nonneg; lia). change 256 with (2 ^ 8).
  apply Z.log2_lt_pow2; [lia|]. pose proof (Z.log2_land x y). 
  assert (Z.log2 x < 8); [|lia]. destruct (decide (x = 0)) as [->|]; [done|]. apply Z.log2_lt_pow2; lia.
Qed.

Lemma land_le a b :
  is_bytes a → is_bytes b → length a = length b → Z.land (le a) (le b) = le (zip_with Z.land a b).
Proof.
  intros Ha. revert b. induction Ha as [|x a Hx Ha IH]; intros [|y b] Hb Hl; try done.
  inversion Hb; subst. cbn [le zip_with]. rewrite land_split, IH; auto.
Qed.

Lemma zip_land_bytes a b : is_bytes a → is_bytes b → is_bytes (zip_with Z.land a b).
Proof.
  intros Ha. revert b. induction Ha as [|x a Hx Ha IH]; intros [|y b] Hb; try constructor.
  - inversion Hb; subst. apply land_byte; lia.
  - apply IH. by inversion Hb.
Qed.

Lemma le_app a b : le (a ++ b) = le a + 256 ^ Z.of_nat (length a) * le b.
Proof.
  induction a as [|x a IH]; cbn [app le length]; [lia|].
  rewrite IH, Nat2Z.inj_succ, Z.pow_succ_r by lia. lia.
Qed.

Lemma le_zeros n : le (replicate n 0) = 0.
Proof. induction n; cbn; lia. Qed.

Lemma le_bytes_take n l : is_bytes l → (n ≤ length l)%nat → le_bytes n (le l) = take n l.
Proof.
  intros Hl. revert n. induction Hl as [|x l Hx Hl IH]; intros [|n] Hn; cbn in *; try done; [lia|].
  rewrite (Z.mul_comm 256), Z_mod_plus_full, Z.div_add, (Z.mod_small x), (Z.div_small x) by lia.
  by rewrite Z.add_0_l, IH by lia.
Qed.

(** The swap of a truncated number: the first four bytes in reverse. *)
Lemma htonl_le l : is_bytes l → (4 ≤ length l)%nat → bpf_htonl (le l) = le (reverse (take 4 l)).
Proof. intros. unfold bpf_htonl, be. by rewrite le_bytes_take. Qed.

(** ** The meaning of a filter *)

(** What a filter looks at. *)
Record Flow := mkFlow { f_proto : Z; f_src : bytes; f_dst : bytes; f_sport : Z; f_dport : Z }.

(** The protocols of the control plane's codes: "ip" is any, 58 is ICMPv6. *)
Definition proto_meant (code proto : Z) : Prop :=
  code = 1 ∨
  (code, proto) ∈ [(0, IPPROTO_ICMP); (2, IPPROTO_TCP); (3, IPPROTO_UDP); (4, IPPROTO_ICMPV6)].

(** Those the data plane tells apart: it has no code for ICMPv6. *)
Definition proto_covers (code proto : Z) : Prop :=
  code = 1 ∨ (code, proto) ∈ [(0, IPPROTO_ICMP); (2, IPPROTO_TCP); (3, IPPROTO_UDP)].

Definition in_ports (r : PortRange) (port : Z) : Prop := LowerBound r ≤ port ≤ UpperBound r.

(** An address without bytes is any address. *)
Definition network_covers (w : IpWMask) (a : bytes) : Prop :=
  slice_bytes (Ip w) = [] ∨ zip_with Z.land a (slice_bytes (Mask w)) = slice_bytes (Ip w).

Definition filter_covers (f : SdfFilter) (fl : Flow) : Prop :=
  proto_covers (Protocol f) (f_proto fl) ∧
  network_covers (SrcAddress f) (f_src fl) ∧ network_covers (DstAddress f) (f_dst fl) ∧
  in_ports (SrcPortRange f) (f_sport fl) ∧ in_ports (DstPortRange f) (f_dport fl).

(** What the filter means. *)
Definition filter_meant (f : SdfFilter) (fl : Flow) : Prop :=
  proto_meant (Protocol f) (f_proto fl) ∧
  network_covers (SrcAddress f) (f_src fl) ∧ network_covers (DstAddress f) (f_dst fl) ∧
  in_ports (SrcPortRange f) (f_sport fl) ∧ in_ports (DstPortRange f) (f_dport fl).

Lemma filter_covers_meant f fl :
  filter_covers f fl ↔ Protocol f ≠ 4 ∧ filter_meant f fl.
Proof.
  unfold filter_covers, filter_meant, proto_covers, proto_meant. rewrite !elem_of_cons, elem_of_nil.
  assert (∀ a b : Z, (Protocol f, f_proto fl) = (a, b) ↔ Protocol f = a ∧ f_proto fl = b) as Hp
    by (intros; split; [by intros [= -> ->]|by intros [-> ->]]).
  rewrite !Hp. split; [naive_solver lia|naive_solver].
Qed.

(** An address of a family with so many bytes, or none. *)
Definition address_of (n : nat) (w : IpWMask) : Prop :=
  slice_bytes (Ip w) = [] ∧ slice_bytes (Mask w) = [] ∨
  ∃ ip m, Ip w = Some ip ∧ Mask w = Some m ∧ length ip = n ∧ length m = n ∧ is_bytes ip ∧ is_bytes m.

(** ** The packet *)

Definition bytes_at (r : Run) (p n : Z) : bytes := slice p n (x_buf (xdp r)).

(** The ports of the parsed L4 header, 0 without one. *)
Definition l4_header (r : Run) : option Z :=
  match udp (ctx r) with Some l => Some l | None => tcp (ctx r) end.
Definition flow_ports (r : Run) : Z * Z :=
  match l4_header r with Some l => (be (bytes_at r l 2), be (bytes_at r (l + 2) 2)) | None => (0, 0) end.

Definition ipv4_flow (r : Run) (p : Z) : Flow :=
  mkFlow (field r (p + 9) 1) (bytes_at r (p + 12) 4) (bytes_at r (p + 16) 4) (flow_ports r).1 (flow_ports r).2.
Definition ipv6_flow (r : Run) (p : Z) : Flow :=
  mkFlow (field r (p + 6) 1) (bytes_at r (p + 8) 16) (bytes_at r (p + 24) 16) (flow_ports r).1 (flow_ports r).2.

(** Parsed headers are in the packet. *)
Definition parsed_headers (r : Run) : Prop :=
  is_bytes (x_buf (xdp r)) ∧ ∀ l, l4_header r = Some l → present r l 4.

Section matching.
Implicit Types r : Run.

Lemma length_bytes_at r p n : present r p n → 0 ≤ n → length (bytes_at r p n) = Z.to_nat n.
Proof. intros (? & ? & ?) ?. apply length_slice; [lia|done|]. by unfold x_data_end in *. Qed.

Lemma bytes_at_bytes r p n : is_bytes (x_buf (xdp r)) → is_bytes (bytes_at r p n).
Proof. apply is_bytes_slice. Qed.

Lemma ntohs_field r p : is_bytes (x_buf (xdp r)) → present r p 2 → bpf_ntohs (field r p 2) = be (bytes_at r p 2).
Proof. intros Hb Hp. apply load_ntohs; [by apply is_bytes_slice|]. by rewrite (length_bytes_at r p 2). Qed.

Lemma wp_packet_ports r (Q : Z * Z → Run → Prop) E :
  parsed_headers r → Q (flow_ports r) r → wp packet_ports r Q E.
Proof.
  intros [Hb Hl] HQ. unfold packet_ports, flow_ports, l4_header, load16 in *. wp_go.
  destruct (udp (ctx r)) as [l|], (tcp (ctx r)) as [l'|]; wp_go; try done;
    specialize (Hl _ eq_refl); (repeat (apply wp_load_field; [repeat split; destruct Hl as (? & ? & ?); lia|]; wp_go));
    rewrite !ntohs_field by (done || (destruct Hl as (? & ? & ?); repeat split; lia)); done.
Qed.

(** [sdf_condition] in terms of its parts. *)
Lemma sdf_condition_true sdf proto s sm si d dm di ports :
  sdf_condition sdf proto s sm si d dm di ports = true ↔
  (protocol sdf = 1 ∨ protocol sdf = proto) ∧ Z.land s sm = si ∧ Z.land d dm = di ∧
  lower_bound (src_port sdf) ≤ ports.1 ≤ upper_bound (src_port sdf) ∧
  lower_bound (dst_port sdf) ≤ ports.2 ≤ upper_bound (dst_port sdf).
Proof.
  unfold sdf_condition. rewrite negb_true_iff, !orb_false_iff, andb_false_iff, !negb_false_iff, !Z.eqb_eq, !Z.ltb_ge.
  lia.
Qed.

Lemma get_sdf_protocol_covers code proto :
  code = 1 ∨ code = get_sdf_protocol proto ↔ proto_covers code proto.
Proof.
  unfold proto_covers, get_sdf_protocol. rewrite !elem_of_cons, elem_of_nil.
  destruct (Z.eqb_spec proto IPPROTO_ICMP); [|destruct (Z.eqb_spec proto IPPROTO_TCP);
    [|destruct (Z.eqb_spec proto IPPROTO_UDP)]]; subst; naive_solver.
Qed.

Lemma Copy16Ip_bytes a : is_bytes (slice_bytes a) → is_bytes (Copy16Ip a).
Proof.
  intros Ha. destruct (decide (slice_len a = 4 ∨ slice_len a = 16)) as [Hl|Hl].
  - destruct a as [a|]; [|by destruct Hl]. unfold slice_len in Hl. cbn in Hl.
    rewrite Copy16Ip_rev by lia. apply Forall_app. split; [by apply is_bytes_reverse|].
    apply Forall_replicate. lia.
  - rewrite Copy16Ip_other by tauto. apply Forall_replicate. lia.
Qed.

(** Under the filter's mask, an IPv4 packet's address against a filter's. *)
Lemma ipv4_address_covers w a :
  address_of 4 w → is_bytes a → length a = 4%nat →
  Z.land (le a) (bpf_htonl (le (Copy16Ip (Mask w)))) = bpf_htonl (le (Copy16Ip (Ip w))) ↔ network_covers w a.
Proof.
  intros Hw Ha Hl. unfold network_covers. destruct Hw as [[Hi Hm]|(ip & m & Hi & Hm & Hil & Hml & Hib & Hmb)].
  - rewrite !Copy16Ip_other by (unfold slice_len; rewrite ?Hi, ?Hm; done). rewrite le_zeros.
    change (bpf_htonl 0) with 0. rewrite Z.land_0_r. tauto.
  - rewrite Hi, Hm. change (slice_bytes (Some ip)) with ip. change (slice_bytes (Some m)) with m.
    rewrite !Copy16Ip_rev by lia.
    assert (Hsw : ∀ b, is_bytes b → length b = 4%nat →
      bpf_htonl (le (reverse b ++ replicate (16 - length b) 0)) = le b).
    { intros b Hb Hbl. rewrite htonl_le.
      - rewrite take_app_le by (rewrite length_reverse; lia).
        rewrite take_ge by (rewrite length_reverse; lia). by rewrite reverse_involutive.
      - apply Forall_app. split; [by apply is_bytes_reverse|]. apply Forall_replicate. lia.
      - rewrite length_app, length_reverse, length_replicate. lia. }
    rewrite !Hsw, land_le by (done || congruence). split.
    + intros He. right. apply le_inj; [by apply zip_land_bytes|done|rewrite length_zip_with; lia|done].
    + intros [Hn| ->]; [|done]. rewrite Hn in Hil. done.
Qed.

(** The lookup's own copy of a sixteen-byte address, truncated and swapped:
    its last four bytes. *)
Lemma htonl_Copy16Ip_ipv6 ip : is_bytes ip → length ip = 16%nat → bpf_htonl (le (Copy16Ip (Some ip))) = le (drop 12 ip).
Proof.
  intros Hb Hl. rewrite Copy16Ip_rev, Hl by lia. change (replicate (16 - 16) 0) with ([] : bytes).
  rewrite app_nil_r, htonl_le by (by apply is_bytes_reverse || (rewrite length_reverse; lia)).
  f_equal. rewrite <-(take_drop 12 ip) at 1. rewrite reverse_app.
  rewrite take_app_le by (rewrite length_reverse, length_drop; lia).
  rewrite take_ge by (rewrite length_reverse, length_drop; lia). apply reverse_involutive.
Qed.

Lemma zip_land_eq a m c : is_bytes a → is_bytes m → is_bytes c → length m = length a → length c = length a →
  Z.land (le a) (le m) = le c ↔ zip_with Z.land a m = c.
Proof.
  intros Ha Hm Hc Hml Hcl. rewrite land_le by done. split; [|by intros ->].
  apply le_inj; [by apply zip_land_bytes|done|]. rewrite length_zip_with. lia.
Qed.

(** An IPv6 packet's address under an IPv6 filter: the mask backwards, and
    what is left against the end of the filter's address. *)
Lemma ipv6_address_compared ip m a :
  is_bytes ip → is_bytes m → is_bytes a → length ip = 16%nat → length m = 16%nat → length a = 16%nat →
  Z.land (le a) (le (Copy16Ip (Some m))) = bpf_htonl (le (Copy16Ip (Some ip))) ↔
  zip_with Z.land a (reverse m) = drop 12 ip ++ replicate 12 0.
Proof.
  intros Hi Hm Ha Hil Hml Hal. rewrite htonl_Copy16Ip_ipv6, Copy16Ip_rev, Hml by (done || lia).
  change (replicate (16 - 16) 0) with ([] : bytes). rewrite app_nil_r.
  replace (le (drop 12 ip)) with (le (drop 12 ip ++ replicate 12 0)) by (rewrite le_app, le_zeros; lia).
  apply zip_land_eq; [done|by apply is_bytes_reverse| |by rewrite length_reverse; lia|].
  - apply Forall_app. split; [by apply Forall_drop|]. apply Forall_replicate. lia.
  - rewrite length_app, length_drop, length_replicate. lia.
Qed.

Lemma ipv6_any_compared w a :
  slice_bytes (Ip w) = [] → slice_bytes (Mask w) = [] →
  Z.land (le a) (le (Copy16Ip (Mask w))) = bpf_htonl (le (Copy16Ip (Ip w))).
Proof.
  intros Hi Hm. rewrite !Copy16Ip_other by (unfold slice_len; rewrite ?Hi, ?Hm; done).
  rewrite le_zeros. apply Z.land_0_r.
Qed.

Lemma zip_land_zeros a n : zip_with Z.land a (replicate n 0) = replicate (length a `min` n) 0.
Proof.
  revert n. induction a as [|x a IH]; intros [|n]; cbn; try done. by rewrite Z.land_0_r, IH.
Qed.

Lemma zip_land_ones a : is_bytes a → zip_with Z.land a (replicate (length a) 255) = a.
Proof.
  induction 1 as [|x a Hx Ha IH]; cbn; [done|]. rewrite IH. change 255 with (Z.ones 8).
  by rewrite Z.land_ones, Z.mod_small by (done || lia).
Qed.

(** A prefix of 64 bits. *)
Definition prefix64 : bytes := replicate 8 255 ++ replicate 8 0.

Lemma prefix64_compared ip a :
  is_bytes ip → is_bytes a → length ip = 16%nat → length a = 16%nat → zip_with Z.land ip prefix64 = ip →
  Z.land (le a) (le (Copy16Ip (Some prefix64))) = bpf_htonl (le (Copy16Ip (Some ip))) ↔
  drop 8 a = replicate 8 0.
Proof.
  intros Hi Ha Hil Hal Hmask.
  assert (Hsplit : ∀ b m1 m2, length b = 16%nat → length m1 = 8%nat →
    zip_with Z.land b (m1 ++ m2) = zip_with Z.land (take 8 b) m1 ++ zip_with Z.land (drop 8 b) m2).
  { intros b m1 m2 Hb Hm1. rewrite <-(take_drop 8 b) at 1. apply zip_with_app. rewrite length_take. lia. }
  assert (Hlow : drop 12 ip = replicate 4 0).
  { rewrite <-Hmask. unfold prefix64. rewrite Hsplit by done. rewrite zip_land_zeros, length_drop.
    rewrite drop_app_ge by (rewrite length_zip_with, length_take; cbn; lia).
    rewrite length_zip_with, length_take, Hil. done. }
  assert (is_bytes prefix64) by (repeat constructor; lia).
  rewrite ipv6_address_compared, Hlow by done. change (reverse prefix64) with (replicate 8 0 ++ replicate 8 255).
  rewrite Hsplit by done. rewrite zip_land_zeros, length_take, Hal.
  assert (length (drop 8 a) = 8%nat) as Hdl by (rewrite length_drop; lia).
  replace (replicate 8 255) with (replicate (length (drop 8 a)) 255) by (by rewrite Hdl).
  rewrite zip_land_ones by by apply Forall_drop.
  change (replicate 4 0 ++ replicate 12 0) with (replicate (8 `min` 16) 0 ++ replicate 8 0).
  split; [by intros ?%app_inv_head|by intros ->].
Qed.

Lemma match_sdf_filter_ipv4_covers f p r :
  ip4 (ctx r) = Some p → present r p 20 → parsed_headers r →
  address_of 4 (SrcAddress f) → address_of 4 (DstAddress f) →
  ∃ b, match_sdf_filter_ipv4 (bpf_sdf_filter f) r = (r, Ok b) ∧ (b = true ↔ filter_covers f (ipv4_flow r p)).
Proof.
  intros Hp Hin Hh Hs Hd. destruct Hin as (? & ? & ?). pose proof (proj1 Hh) as Hb.
  assert (present r (p + 12) 4 ∧ present r (p + 16) 4) as [Hps Hpd] by (repeat split; lia).
  destruct (wp_result (match_sdf_filter_ipv4 (bpf_sdf_filter f)) r (λ b r', r' = r ∧
    (b = true ↔ filter_covers f (ipv4_flow r p)))) as (b & r' & Hrun & -> & Hres); [|by exists b].
  unfold match_sdf_filter_ipv4, load8, load32. wp_go. rewrite Hp. wp_go.
  apply wp_load_field; [repeat split; lia|]. wp_go. apply wp_packet_ports; [done|]. wp_go.
  apply wp_load_field; [done|]. wp_go. apply wp_load_field; [done|]. wp_go. split; [done|].
  rewrite sdf_condition_true. cbn [protocol src_addr dst_addr src_port dst_port s_ip s_mask lower_bound
    upper_bound bpf_sdf_filter].
  rewrite get_sdf_protocol_covers. unfold field at 2 3.
  rewrite !ipv4_address_covers; [done|done| | |done| |]; try (by apply is_bytes_slice);
    by apply (length_bytes_at r).
Qed.

(** C22: the data plane's matching of an IPv4 packet against a filter as the
    control plane stores it.  When both networks of the filter are IPv4 networks
    or "any", the packet matches exactly when the filter means it: its protocol,
    its addresses under the masks, and its ports in the ranges -- except that a
    filter for ICMPv6 (protocol 58) matches no packet.  Filters with IPv6
    networks are not covered: see [ipv6_filter_covers_ipv4]. *)
Theorem match_sdf_filter_ipv4_means f p r :
  ip4 (ctx r) = Some p → present r p 20 → parsed_headers r →
  address_of 4 (SrcAddress f) → address_of 4 (DstAddress f) →
  ∃ b, match_sdf_filter_ipv4 (bpf_sdf_filter f) r = (r, Ok b) ∧
    (Protocol f ≠ 4 → (b = true ↔ filter_meant f (ipv4_flow r p))) ∧ (Protocol f = 4 → b = false).
Proof.
  intros Hp Hin Hh Hs Hd. destruct (match_sdf_filter_ipv4_covers f p r Hp Hin Hh Hs Hd) as (b & Hrun & Hb).
  exists b. split; [exact Hrun|]. rewrite filter_covers_meant in Hb. split; [tauto|].
  intros H4. destruct b; [|done]. by destruct Hb as [[] _].
Qed.

(** An IPv6 packet passes a filter with a source prefix of 64 bits exactly
    when the last eight bytes of its source address are zero: the prefix itself
    is never looked at. *)
Theorem match_sdf_filter_ipv6_ignores_prefix f ip p r :
  ip6 (ctx r) = Some p → present r p 40 → parsed_headers r →
  SrcAddress f = mkIpWMask 2 (Some ip) (Some prefix64) → DstAddress f = zeroIpWMask →
  is_bytes ip → length ip = 16%nat → zip_with Z.land ip prefix64 = ip →
  ∃ b, match_sdf_filter_ipv6 (bpf_sdf_filter f) r = (r, Ok b) ∧
    (b = true ↔ proto_covers (Protocol f) (f_proto (ipv6_flow r p)) ∧
      drop 8 (f_src (ipv6_flow r p)) = replicate 8 0 ∧
      in_ports (SrcPortRange f) (f_sport (ipv6_flow r p)) ∧ in_ports (DstPortRange f) (f_dport (ipv6_flow r p))).
Proof.
  intros Hp Hin Hh Hs Hd Hi Hil Hmask. destruct Hin as (? & ? & ?). pose proof (proj1 Hh) as Hb.
  assert (present r (p + 8) 16 ∧ present r (p + 24) 16) as [Hps Hpd] by (repeat split; lia).
  destruct (wp_result (match_sdf_filter_ipv6 (bpf_sdf_filter f)) r (λ b r', r' = r ∧
    (b = true ↔ proto_covers (Protocol f) (f_proto (ipv6_flow r p)) ∧
      drop 8 (f_src (ipv6_flow r p)) = replicate 8 0 ∧
      in_ports (SrcPortRange f) (f_sport (ipv6_flow r p)) ∧ in_ports (DstPortRange f) (f_dport (ipv6_flow r p)))))
    as (b & r' & Hrun & -> & Hres); [|by exists b].
  unfold match_sdf_filter_ipv6, load8. wp_go. rewrite Hp. unfold deref. wp_go.
  do 3 (apply wp_load_field; [first [done|repeat split; lia]|]; wp_go). apply wp_packet_ports; [done|]. wp_go.
  split; [done|]. rewrite sdf_condition_true.
  cbn [protocol src_addr dst_addr src_port dst_port s_ip s_mask lower_bound upper_bound bpf_sdf_filter].
  rewrite get_sdf_protocol_covers, Hs, Hd. cbn [Ip Mask zeroIpWMask]. unfold field at 2 3.
  rewrite (prefix64_compared ip); [|done|by apply is_bytes_slice|done|by apply (length_bytes_at r)|done].
  pose proof (ipv6_any_compared zeroIpWMask (slice (p + 24) 16 (x_buf (xdp r))) eq_refl eq_refl) as Hany.
  cbn [Ip Mask zeroIpWMask] in Hany. unfold in_ports, ipv6_flow, bytes_at. cbn [f_proto f_src f_sport f_dport].
  tauto.
Qed.

(** An IPv6 filter whose mask ends in four zero bytes covers every IPv4
    address: the family of a filter is not compared. *)
Lemma ipv6_filter_covers_ipv4 ip m a :
  is_bytes ip → is_bytes m → length ip = 16%nat → length m = 16%nat →
  drop 12 m = replicate 4 0 → zip_with Z.land ip m = ip →
  Z.land (le a) (bpf_htonl (le (Copy16Ip (Some m)))) = bpf_htonl (le (Copy16Ip (Some ip))).
Proof.
  intros Hi Hm Hil Hml Hz Hmask. rewrite !htonl_Copy16Ip_ipv6, Hz by done.
  rewrite (le_zeros 4), Z.land_0_r. symmetry. rewrite <-Hmask.
  rewrite <-(take_drop 12 m), Hz, <-(take_drop 12 ip), zip_with_app by (rewrite !length_take; lia).
  rewrite zip_land_zeros, drop_app_ge by (rewrite length_zip_with, !length_take; lia).
  rewrite length_zip_with, !length_take, length_drop, Hil, Hml. done.
Qed.

End matching.

(** ** Witnesses *)

Definition demo_filter : SdfFilter :=
  mkSdfFilter 2 (mkIpWMask 1 (Some [10; 2; 0; 0]) (Some [255; 255; 0; 0])) (mkPortRange 80 80)
    zeroIpWMask (mkPortRange 0 65535).

(** The filter of a flow description, and the TCP packet it covers. *)
Lemma match_sdf_filter_ipv4_means_witness :
  ParseSdfFilter "permit out tcp from 10.2.0.0/16 80 to any" = Ok demo_filter ∧
  ∃ b, match_sdf_filter_ipv4 (bpf_sdf_filter demo_filter) demo_dl_run = (demo_dl_run, Ok b) ∧
    (b = true ↔ filter_meant demo_filter (ipv4_flow demo_dl_run 270)).
Proof.
  split; [vm_compute; reflexivity|].
  destruct (match_sdf_filter_ipv4_means demo_filter 270 demo_dl_run) as (b & Hrun & Hb & _);
    [..|exists b; split; [exact Hrun|by apply Hb]].
  - reflexivity.
  - vm_compute. repeat split; discriminate.
  - split; [apply demo_bytes, demo_frame_dl_bytes|]. intros l [= <-]. vm_compute. repeat split; discriminate.
  - right. eexists _, _. cbn. do 4 (split; [reflexivity|]). split; repeat constructor; lia.
  - by left.
Defined.

Definition demo_prefix : bytes := [32; 1; 13; 184] ++ replicate 12 0.
Definition demo_filter6 : SdfFilter :=
  mkSdfFilter 1 (mkIpWMask 2 (Some demo_prefix) (Some prefix64)) (mkPortRange 0 65535)
    zeroIpWMask (mkPortRange 0 65535).

(** An IPv6 header from fe80::, outside the filter's prefix, which matches. *)
Definition demo_header6 : bytes :=
  [96; 0; 0; 0; 0; 0; 59; 64] ++ [254; 128] ++ replicate 14 0 ++ demo_prefix.
Definition demo_run6 : Run :=
  demo_run (demo_macs ++ [134; 221] ++ demo_header6) (mkContext 310 310 (Some 256) None (Some 270) None None None).

Lemma match_sdf_filter_ipv6_ignores_prefix_witness :
  ParseSdfFilter "permit out ip from 2001:db8::/64 to any" = Ok demo_filter6 ∧
  match_sdf_filter_ipv6 (bpf_sdf_filter demo_filter6) demo_run6 = (demo_run6, Ok true).
Proof.
  split; [vm_compute; reflexivity|].
  destruct (match_sdf_filter_ipv6_ignores_prefix demo_filter6 demo_prefix 270 demo_run6) as (b & -> & Hb).
  - reflexivity.
  - vm_compute. repeat split; discriminate.
  - split; [|discriminate 1]. apply demo_bytes. repeat constructor; lia.
  - reflexivity.
  - reflexivity.
  - repeat constructor; lia.
  - reflexivity.
  - reflexivity.
  - destruct Hb as [_ Hb]. rewrite Hb; [done|]. split; [by left|]. vm_compute. repeat split; discriminate.
Defined.
