(* ===== verification/XdpQer.v ===== *)
(** * What the rate limiter lets through (cmd/ebpf/xdp/qer.h)

    The packets of one direction of a QER, each with the time its handler
    reads and its size, run through [sliding_window]. *)

From S2P Require Import Prelude Net ForwardingPlane XdpMemory XdpParse XdpGtp XdpRules XdpProgram XdpDemo.

(** The packets that pass, in order, and the window they leave. *)
Fixpoint metered (rate start : Z) (l : list (Z * Z)) : list (Z * Z) * Z :=
  match l with
  | [] => ([], start)
  | (now, size) :: l' =>
      match sliding_window size start rate now with
      | None => metered rate start l'
      | Some start' => let '(p, s) := metered rate start' l' in ((now, size) :: p, s)
      end
  end.

(** The time a packet takes at the configured rate: the rate is first turned
    into whole nanoseconds per bit. *)
Definition tx_time (rate size : Z) : Z := size * 8 * (NSEC_PER_SEC / rate).

Definition total_time (rate : Z) (l : list (Z * Z)) : Z := foldr (λ p n, tx_time rate p.2 + n) 0 l.

(** What packets carry: 8 bits a byte. *)
Definition bits (l : list (Z * Z)) : Z := foldr (λ p n, 8 * p.2 + n) 0 l.

(** Sizes are those of frames, and the clock has run for less than 2^61
    nanoseconds (73 years). *)
Definition packet_ok (p : Z * Z) : Prop := 0 ≤ p.1 < 2 ^ 61 ∧ 0 ≤ p.2 ≤ 65535.

Fixpoint ordered (t : Z) (l : list (Z * Z)) : Prop :=
  match l with [] => True | p :: l' => t ≤ p.1 ∧ ordered p.1 l' end.

Section limiter.
Context (rate : Z) (Hrate : 0 < rate).

Lemma tx_time_range size : 0 ≤ size ≤ 65535 → 0 ≤ tx_time rate size < 2 ^ 60.
Proof.
  intros Hs. unfold tx_time. assert (0 ≤ NSEC_PER_SEC / rate ≤ NSEC_PER_SEC).
  { unfold NSEC_PER_SEC. split; [apply Z.div_pos; lia|].
    transitivity (1000000000 / 1); [apply Z.div_le_compat_l; lia|done]. }
  unfold NSEC_PER_SEC in *. nia.
Qed.

Lemma total_time_bits l : total_time rate l = bits l * (NSEC_PER_SEC / rate).
Proof.
  unfold total_time, bits, tx_time. induction l as [|[n size] l IH]; cbn [foldr snd]; [done|]. rewrite IH. lia.
Qed.

(** On these numbers nothing wraps. *)
Lemma sliding_window_spec start now size :
  0 ≤ start < 2 ^ 62 → packet_ok (now, size) →
  sliding_window size start rate now =
    if now <? start + tx_time rate size then None
    else if start + window_size <? now then Some (now - window_size + tx_time rate size)
    else Some (start + tx_time rate size).
Proof.
  intros Hs [Hn Hz]. cbn in Hn, Hz. pose proof (tx_time_range size Hz) as Ht. unfold sliding_window.
  change (u64 (size * 8 * (NSEC_PER_SEC / rate))) with (u64 (tx_time rate size)).
  rewrite (u64_small (tx_time _ _)), (u64_small (start + tx_time _ _)), (u64_small (start + window_size))
    by (unfold in_range, window_size; lia).
  destruct (Z.ltb_spec now (start + tx_time rate size)); [done|].
  destruct (Z.ltb_spec (start + window_size) now);
    rewrite ?u64_small by (unfold in_range, window_size in *; lia); done.
Qed.

(** A packet that passes moves the window by its time, to at most a window
    before now. *)
Lemma sliding_window_step start now size start' :
  0 ≤ start < 2 ^ 62 → packet_ok (now, size) → sliding_window size start rate now = Some start' →
  start + tx_time rate size ≤ start' ∧ now - window_size + tx_time rate size ≤ start' ∧
  start + tx_time rate size ≤ now ∧ 0 ≤ start' < 2 ^ 62.
Proof.
  intros Hs Hp. rewrite sliding_window_spec by done. destruct Hp as [Hn Hz]. cbn in Hn, Hz.
  pose proof (tx_time_range size Hz). unfold window_size in *.
  destruct (Z.ltb_spec now (start + tx_time rate size)); [done|].
  destruct (Z.ltb_spec (start + 5000000) now); intros [= <-]; lia.
Qed.

(** What passes before a packet that passes at [b] fits between the window's
    start and [b]. *)
Lemma metered_before start l pre b sb post :
  0 ≤ start < 2 ^ 62 → Forall packet_ok l → (metered rate start l).1 = pre ++ (b, sb) :: post →
  start + total_time rate pre + tx_time rate sb ≤ b.
Proof.
  intros Hs Hl. revert start pre Hs. induction Hl as [|[now size] l Hp Hl IH]; intros start pre Hs; cbn [metered].
  { by destruct pre. }
  destruct (sliding_window size start rate now) as [start'|] eqn:Hw; [|by apply IH].
  destruct (sliding_window_step _ _ _ _ Hs Hp Hw) as (Hadd & _ & Hnow & Hs').
  destruct (metered rate start' l) as [p s] eqn:Hm. cbn [fst]. specialize (IH start').
  rewrite Hm in IH. cbn [fst] in IH. destruct pre as [|[n z] pre]; cbn [app total_time foldr]; intros [= -> -> Heq].
  - cbn. lia.
  - specialize (IH pre Hs' Heq). unfold total_time in IH. cbn. lia.
Qed.

Lemma metered_limited start l pre a sa mid b sb post :
  0 ≤ start < 2 ^ 62 → Forall packet_ok l →
  (metered rate start l).1 = pre ++ (a, sa) :: mid ++ (b, sb) :: post →
  total_time rate ((a, sa) :: mid ++ [(b, sb)]) ≤ b - a + window_size.
Proof.
  intros Hs Hl. revert start pre Hs. induction Hl as [|[now size] l Hp Hl IH]; intros start pre Hs; cbn [metered].
  { by destruct pre. }
  destruct (sliding_window size start rate now) as [start'|] eqn:Hw; [|by apply IH].
  destruct (sliding_window_step _ _ _ _ Hs Hp Hw) as (_ & Hwin & _ & Hs').
  destruct (metered rate start' l) as [p s] eqn:Hm. cbn [fst]. specialize (IH start').
  rewrite Hm in IH. cbn [fst] in IH. destruct pre as [|[n z] pre]; cbn [app]; intros [= -> -> Heq];
    [|by apply (IH pre Hs')].
  pose proof (metered_before start' l mid b sb post Hs' Hl) as Hb. rewrite Hm in Hb. specialize (Hb Heq).
  unfold total_time in *. cbn. rewrite foldr_app. cbn.
  assert (Hshift : ∀ k, foldr (λ p n, tx_time rate p.2 + n) k mid = foldr (λ p n, tx_time rate p.2 + n) 0 mid + k).
  { intros k. clear. induction mid as [|x mid IH]; cbn; lia. }
  rewrite Hshift. lia.
Qed.

(** What passes is among what arrived. *)
Lemma metered_ok start l : Forall packet_ok l → Forall packet_ok (metered rate start l).1.
Proof.
  intros Hl. revert start. induction Hl as [|[now size] l Hp Hl IH]; intros start; cbn [metered]; [constructor|].
  destruct (sliding_window size start rate now) as [start'|]; [|apply IH]. specialize (IH start').
  destruct (metered rate start' l). by constructor.
Qed.

Lemma metered_bits start l pre a sa mid b sb post :
  Forall packet_ok l → (metered rate start l).1 = pre ++ (a, sa) :: mid ++ (b, sb) :: post →
  0 ≤ bits ((a, sa) :: mid ++ [(b, sb)]).
Proof.
  intros Hl Heq. pose proof (metered_ok start l Hl) as Hok. rewrite Heq in Hok.
  assert (Forall packet_ok ((a, sa) :: mid ++ [(b, sb)])) as Hall.
  { apply Forall_app in Hok as [_ Hok]. rewrite !Forall_cons, !Forall_app, !Forall_cons in *. naive_solver. }
  clear -Hall. unfold bits. induction Hall as [|[n z] l [_ Hz] _ IH]; cbn [foldr snd] in *; lia.
Qed.

Lemma metered_unlimited start l :
  NSEC_PER_SEC < rate → 0 ≤ start < 2 ^ 62 → Forall packet_ok l → ordered start l →
  (metered rate start l).1 = l.
Proof.
  intros Hbig Hs Hl. revert start Hs. induction Hl as [|[now size] l Hp Hl IH]; intros start Hs Ho; [done|].
  destruct Ho as [Hle Ho]. cbn in Hle, Ho. cbn [metered]. rewrite sliding_window_spec by done.
  assert (tx_time rate size = 0) as ->.
  { unfold tx_time. rewrite Z.div_small by (unfold NSEC_PER_SEC in *; lia). lia. }
  rewrite !Z.add_0_r, (proj2 (Z.ltb_ge _ _)) by lia.
  assert (Hweak : ∀ t, t ≤ now → ordered t l) by (destruct l; cbn in *; naive_solver lia).
  destruct Hp as [Hn _]. cbn in Hn. unfold window_size.
  assert (Hnext : ∀ start', 0 ≤ start' ≤ now →
    (let '(p, s) := metered rate start' l in ((now, size) :: p, s)).1 = (now, size) :: l).
  { intros start' Hs'. specialize (IH start' ltac:(lia) (Hweak start' ltac:(lia))).
    destruct (metered rate start' l). cbn in *. by rewrite IH. }
  destruct (Z.ltb_spec (start + 5000000) now); apply Hnext; lia.
Qed.

End limiter.

(** ** The program's limiter *)

Section program.
Context `{XdpKernel}.

(** Packets of these sizes, one after the other, under the QER [id]; those
    that pass, with the time the limiter read. *)
Fixpoint meter_all (d : direction) (id : Z) (sizes : list Z) : M Run (list (Z * Z)) :=
  match sizes with
  | [] => mret []
  | size :: sizes' =>
      maps ← gets (λ r, x_maps (xdp r));
      now ← gets (λ r, bpf_ktime_get_ns (x_ticks (xdp r)));
      match v_qer maps !! id with
      | None => mret []
      | Some qer =>
          v ← limit_rate_sliding_window d size id qer;
          passed ← meter_all d id sizes';
          mret (if v =? XDP_PASS then (now, size) :: passed else passed)
      end
  end.

(** The sizes with the readings of the clock from the [n]-th on. *)
Fixpoint timed (n : nat) (sizes : list Z) : list (Z * Z) :=
  match sizes with [] => [] | size :: l => (bpf_ktime_get_ns n, size) :: timed (S n) l end.

Lemma qer_start_set d v q : qer_start d (set_qer_start d v q) = v ∧ qer_rate d (set_qer_start d v q) = qer_rate d q.
Proof. by destruct d. Qed.

Lemma meter_all_metered d id sizes qer r :
  v_qer (x_maps (xdp r)) !! id = Some qer → qer_rate d qer ≠ 0 →
  (meter_all d id sizes r).2 =
    Ok (metered (qer_rate d qer) (qer_start d qer) (timed (x_ticks (xdp r)) sizes)).1.
Proof.
  revert qer r. induction sizes as [|size sizes IH]; intros qer r Hq Hrate; [done|].
  cbn [meter_all timed metered]. unfold limit_rate_sliding_window, mbind, M_bind, gets, ktime.
  rewrite Hq, (proj2 (Z.eqb_neq (qer_rate d qer) 0)) by done.
  destruct (sliding_window size (qer_start d qer) (qer_rate d qer) (bpf_ktime_get_ns (x_ticks (xdp r)))) as [start'|]; cbn.
  - destruct (qer_start_set d start' qer) as [Hs Hr].
    specialize (IH (set_qer_start d start' qer)). rewrite Hs, Hr in IH.
    match goal with |- context [meter_all d id sizes ?r'] => specialize (IH r') end.
    cbn in IH. rewrite lookup_insert_eq in IH. specialize (IH eq_refl Hrate).
    destruct (meter_all d id sizes _) as [r2 o]. cbn in IH. subst o. cbn.
    by destruct (metered _ _ _).
  - match goal with |- context [meter_all d id sizes ?r'] => specialize (IH qer r' Hq Hrate) end.
    destruct (meter_all d id sizes _) as [r2 o]. cbn in IH. by subst o.
Qed.

(** C23: Between two packets that a QER of at most 1 Gbit/s lets through, both
    included, there pass no more bits than a rate of
    [rate * 10^9 / (10^9 - 10^9 mod rate)] gives in the time between them and
    one window of 5 ms: the configured rate itself when it divides 10^9, and
    at most twice that for every other, as the program rounds the
    nanoseconds of a bit down.  (Above 10^9 the nanoseconds of a bit are 0 and
    nothing is limited, [gigabit_unlimited].) *)
Theorem rate_limited d id sizes qer r passed pre a sa mid b sb post :
  let rate := qer_rate d qer in
  let sent := bits ((a, sa) :: mid ++ [(b, sb)]) in
  v_qer (x_maps (xdp r)) !! id = Some qer → 0 < rate ≤ NSEC_PER_SEC →
  0 ≤ qer_start d qer < 2 ^ 62 → Forall packet_ok (timed (x_ticks (xdp r)) sizes) →
  (meter_all d id sizes r).2 = Ok passed → passed = pre ++ (a, sa) :: mid ++ (b, sb) :: post →
  sent * (NSEC_PER_SEC - NSEC_PER_SEC mod rate) ≤ rate * (b - a + window_size) ∧
  (NSEC_PER_SEC mod rate = 0 → sent * NSEC_PER_SEC ≤ rate * (b - a + window_size)) ∧
  sent * NSEC_PER_SEC ≤ 2 * rate * (b - a + window_size).
Proof.
  intros rate sent Hq Hrate Hs Hok Hrun Hp. rewrite (meter_all_metered d id sizes qer r Hq) in Hrun by lia.
  injection Hrun as Hrun. subst passed.
  pose proof (metered_limited rate (proj1 Hrate) _ _ _ _ _ _ _ _ _ Hs Hok Hp) as Hm.
  rewrite total_time_bits in Hm. fold sent in Hm.
  pose proof (Z.div_mod NSEC_PER_SEC rate ltac:(lia)) as Hdiv.
  pose proof (Z.mod_pos_bound NSEC_PER_SEC rate ltac:(lia)) as Hmod.
  pose proof (Z.div_le_lower_bound NSEC_PER_SEC rate 1 ltac:(lia) ltac:(lia)) as Hper.
  assert (sent * (NSEC_PER_SEC - NSEC_PER_SEC mod rate) ≤ rate * (b - a + window_size)) as Hlim.
  { replace (NSEC_PER_SEC - _) with (rate * (NSEC_PER_SEC / rate)) by lia. nia. }
  assert (0 ≤ sent) as Hsent by (by eapply metered_bits).
  split; [done|]. split; [intros He; by rewrite He, Z.sub_0_r in Hlim|].
  assert (NSEC_PER_SEC ≤ 2 * (NSEC_PER_SEC - NSEC_PER_SEC mod rate)) by nia. nia.
Qed.

(** A rate above 10^9 bits per second is no limit: every packet passes. *)
Theorem gigabit_unlimited d id sizes qer r :
  v_qer (x_maps (xdp r)) !! id = Some qer → NSEC_PER_SEC < qer_rate d qer →
  0 ≤ qer_start d qer < 2 ^ 62 → Forall packet_ok (timed (x_ticks (xdp r)) sizes) →
  ordered (qer_start d qer) (timed (x_ticks (xdp r)) sizes) →
  (meter_all d id sizes r).2 = Ok (timed (x_ticks (xdp r)) sizes).
Proof.
  intros Hq Hrate Hs Hok Ho. unfold NSEC_PER_SEC in *.
  rewrite (meter_all_metered d id sizes qer r Hq) by lia.
  f_equal. apply metered_unlimited; done || unfold NSEC_PER_SEC; lia.
Qed.

End program.

(** ** Witnesses *)

(** 1 Mbit/s: a kilobyte takes 8 ms; packets come every 4 ms. *)
Definition demo_qer_run : Run := demo_run demo_frame_dl (new_context 256 310).
Definition demo_sizes : list Z := [1000; 100; 1000; 500].

Lemma demo_sizes_ok n : (n < 1000)%nat → Forall packet_ok (timed n demo_sizes).
Proof. intros Hn. unfold packet_ok. repeat constructor; cbn; lia. Qed.

Lemma rate_limited_witness :
  (meter_all Downlink 1 demo_sizes demo_qer_run).2 = Ok [(20000000, 1000); (24000000, 100); (32000000, 500)] ∧
  bits ((20000000, 1000) :: [(24000000, 100)] ++ [(32000000, 500)]) * NSEC_PER_SEC
    ≤ 1000000 * (32000000 - 20000000 + window_size).
Proof.
  assert (Hm : (meter_all Downlink 1 demo_sizes demo_qer_run).2 =
    Ok [(20000000, 1000); (24000000, 100); (32000000, 500)]) by (vm_compute; reflexivity).
  split; [exact Hm|].
  refine (proj1 (proj2 (rate_limited Downlink 1 demo_sizes demo_qer demo_qer_run
    [(20000000, 1000); (24000000, 100); (32000000, 500)] [] 20000000 1000 [(24000000, 100)] 32000000 500 []
    _ _ _ _ _ _)) _);
    [vm_compute; reflexivity|vm_compute; split; [reflexivity|discriminate]|cbn; lia|apply demo_sizes_ok; cbn; lia
    |exact Hm|reflexivity|reflexivity].
Defined.

(** The same packets at 2 Gbit/s. *)
Lemma gigabit_unlimited_witness :
  let fast := mkQerInfo 0 0 9 0 2000000000 0 0 in
  let r := on_xdp (λ x, set_x_maps (on_qer <[1 := fast]> (x_maps x)) x) demo_qer_run in
  (meter_all Downlink 1 demo_sizes r).2 = Ok (timed 0 demo_sizes).
Proof.
  intros fast r. apply (gigabit_unlimited Downlink 1 demo_sizes fast r);
    [vm_compute; reflexivity|vm_compute; reflexivity|cbn; lia|apply demo_sizes_ok; cbn; lia|cbn; lia].
Defined.
