(* ===== verification/XdpForward.v ===== *)
(** * Forwarding (cmd/ebpf/xdp/n3n6_entrypoint.c, utils/routing.h)

    What happens to a packet whose PDR is installed: which rules apply to it,
    the frame that leaves, where it goes and what is counted. *)

From S2P Require Import Prelude Net ForwardingPlane Stats Dataplane.
From S2P Require Import XdpMemory XdpParse XdpGtp XdpRules XdpProgram XdpFrame XdpSdf XdpDemo.

(** ** Routing *)

Section routing.
Context `{XdpKernelLaws}.
Implicit Types r : Run.

(** The question of a packet's route: to the cache, if there is one, and to the
    kernel's routing table. *)
Record route_query := mkQuery {
  q_params : FibParams;
  q_cache : option (list cache_event);
  q_target : option Z
}.

Definition route_answer (p : route_query) : Z * FibResult :=
  match q_cache p ≫= λ events, bpf_lru_lookup events (fib_dst (q_params p)) with
  | Some route => (BPF_FIB_LKUP_RET_SUCCESS, route)
  | None => bpf_fib_lookup (q_params p)
  end.

(** The question for the IPv4 header at [i]. *)
Definition ipv4_route (r : Run) (i : Z) : route_query :=
  mkQuery (mkFibParams AF_INET (field r (i + 1) 1) (field r (i + 9) 1) (be (bytes_at r (i + 2) 2))
    (bytes_at r (i + 12) 4) (bytes_at r (i + 16) 4) (x_ingress (xdp r))) (x_cache (xdp r)) (x_target (xdp r)).

(** What the answer means. *)
Definition route_action (p : route_query) : Z :=
  let '(rc, route) := route_answer p in
  if rc =? BPF_FIB_LKUP_RET_SUCCESS then
    if ifindex route =? fib_ifindex (q_params p) then XDP_TX else bpf_redirect (ifindex route)
  else if (1 <=? rc) && (rc <=? 3) then XDP_DROP else XDP_PASS.

Definition route_target (p : route_query) : option Z :=
  let '(rc, route) := route_answer p in
  if (rc =? BPF_FIB_LKUP_RET_SUCCESS) && negb (ifindex route =? fib_ifindex (q_params p))
  then Some (ifindex route) else q_target p.

(** A route gives the hardware addresses; without one they stay. *)
Definition route_macs (p : route_query) (macs : bytes) : bytes :=
  let '(rc, route) := route_answer p in
  if rc =? BPF_FIB_LKUP_RET_SUCCESS then dmac route ++ smac route else macs.

(** The frame leaves with these bytes behind the hardware addresses, on the
    interface and the route that answer [p]. *)
Definition routed (p : route_query) (x' : Xdp) (macs rest : bytes) : Prop :=
  x_target x' = route_target p ∧ x_frame x' = route_macs p macs ++ rest.

(** The routing statistics and the cache aside. *)
Definition with_route (f : RouteStat → RouteStat) (c : option (list cache_event)) (t : option Z) (r : Run) : Run :=
  on_xdp (λ x, set_x_target t (set_x_cache c (set_x_route (f <$> x_route x) x))) r.

Lemma buffer_id r : buffer (x_buf (xdp r)) r = r.
Proof. by destruct r as [[] ?]. Qed.

(** The frame of a route that was found. *)
Lemma wp_do_route P macs rest route r r' (Q : Z → Run → Prop) E :
  x_buf (xdp r) = P ++ macs ++ rest → x_data (xdp r) = Z.of_nat (length P) → length macs = 12%nat →
  length (smac route) = 6%nat → length (dmac route) = 6%nat →
  x_buf (xdp r') = x_buf (xdp r) → x_data (xdp r') = x_data (xdp r) → x_ingress (xdp r') = x_ingress (xdp r) →
  x_target (xdp r') = x_target (xdp r) →
  Q (if ifindex route =? x_ingress (xdp r) then XDP_TX else bpf_redirect (ifindex route))
    (on_xdp (set_x_target (if negb (ifindex route =? x_ingress (xdp r)) then Some (ifindex route) else x_target (xdp r)))
       (buffer (P ++ (dmac route ++ smac route) ++ rest) r')) →
  wp (do_route_ipv4 (x_data (xdp r)) route) r' Q E.
Proof.
  intros Hbuf Hd Hm Hs Hdm Hb' Hd' Hin Ht HQ. unfold do_route_ipv4.
  destruct (split_at_length macs 6 6) as (m1 & m2 & -> & Hm1 & Hm2); [done|].
  wp_step. apply (wp_store_at (P ++ m1) m2 rest); [rewrite Hb', Hbuf; by rewrite <-!app_assoc|cbn; lengths..|].
  wp_step. apply (wp_store_at P m1 (smac route ++ rest)); [cbn; by rewrite <-!app_assoc|cbn; lengths..|].
  wp_step. cbn. rewrite Hin. rewrite <-app_assoc in HQ. unfold redirect. destruct (_ =? _); wp_go; [|exact HQ].
  cbn in HQ. rewrite <-Ht in HQ. by destruct r' as [[] ?].
Qed.

Lemma wp_cached_route daddr r (Q : option route_record → Run → Prop) E :
  (∀ c, Q (x_cache (xdp r) ≫= λ events, bpf_lru_lookup events daddr) (on_xdp (set_x_cache c) r)) →
  wp (cached_route daddr) r Q E.
Proof.
  intros HQ. unfold cached_route. do 2 wp_step. destruct (x_cache (xdp r)) as [events|] eqn:Hc.
  - do 3 wp_step. apply HQ.
  - apply wp_ret. specialize (HQ None). rewrite <-Hc in HQ at 2. by destruct r as [[] ?].
Qed.

(** The kernel's answer to a packet at [r], put into practice. *)
Lemma wp_fib_result P macs rest dst p r c (Q : Z → Run → Prop) E :
  let '(rc, route) := bpf_fib_lookup p in
  x_buf (xdp r) = P ++ macs ++ rest → x_data (xdp r) = Z.of_nat (length P) → length macs = 12%nat →
  fib_ifindex p = x_ingress (xdp r) →
  (∀ f c, Q (if rc =? BPF_FIB_LKUP_RET_SUCCESS then
               if ifindex route =? fib_ifindex p then XDP_TX else bpf_redirect (ifindex route)
             else if (1 <=? rc) && (rc <=? 3) then XDP_DROP else XDP_PASS)
          (with_route f c (if (rc =? BPF_FIB_LKUP_RET_SUCCESS) && negb (ifindex route =? fib_ifindex p)
                           then Some (ifindex route) else x_target (xdp r))
             (buffer (P ++ (if rc =? BPF_FIB_LKUP_RET_SUCCESS then dmac route ++ smac route else macs) ++ rest) r))) →
  wp (fib_result fib_lookup_ip4_ok fib_lookup_ip4_error_drop fib_lookup_ip4_error_pass
        (update_route_cache_ipv4 dst) (x_data (xdp r)) (rc, route)) (on_xdp (set_x_cache c) r) Q E.
Proof.
  destruct (fib_lookup_macs p) as [Hs Hdm]. destruct (bpf_fib_lookup p) as [rc route]. cbn [fst snd] in *.
  intros Hbuf Hd Hm Hin HQ. unfold fib_result, count_route, update_route_cache_ipv4. cbn [fst snd].
  destruct (rc =? BPF_FIB_LKUP_RET_SUCCESS).
  - do 4 wp_step. rewrite Hin in HQ. eapply (wp_do_route P macs rest route r); [done..|]. by apply HQ.
  - rewrite <-Hbuf, buffer_id in HQ.
    replace ((rc =? BPF_FIB_LKUP_RET_BLACKHOLE) || (rc =? BPF_FIB_LKUP_RET_UNREACHABLE)
             || (rc =? BPF_FIB_LKUP_RET_PROHIBIT)) with ((1 <=? rc) && (rc <=? 3)).
    2:{ unfold BPF_FIB_LKUP_RET_BLACKHOLE, BPF_FIB_LKUP_RET_UNREACHABLE, BPF_FIB_LKUP_RET_PROHIBIT. lia. }
    destruct ((1 <=? rc) && (rc <=? 3)); wp_go; apply HQ.
Qed.

Lemma wp_route_ipv4 P macs rest i r (Q : Z → Run → Prop) E :
  x_buf (xdp r) = P ++ macs ++ rest → x_data (xdp r) = Z.of_nat (length P) → length macs = 12%nat →
  is_bytes (x_buf (xdp r)) → is_Some (x_route (xdp r)) → present r i 20 →
  (∀ f c, Q (route_action (ipv4_route r i))
          (with_route f c (route_target (ipv4_route r i)) (buffer (P ++ route_macs (ipv4_route r i) macs ++ rest) r))) →
  wp (route_ipv4 (x_data (xdp r)) i) r Q E.
Proof.
  intros Hbuf Hd Hm Hb [rs Hrs] (? & ? & ?) HQ. unfold route_ipv4, load8, load16. do 2 wp_step. rewrite Hrs.
  wp_step. apply wp_load; [lia..|]. fold (bytes_at r (i + 16) 4). wp_step. apply wp_cached_route. intros c.
  unfold route_action, route_target, route_macs, route_answer in HQ.
  cbn [q_cache q_params q_target ipv4_route fib_dst fib_ifindex] in HQ.
  destruct (x_cache (xdp r) ≫= _) as [route|] eqn:Hc.
  - apply bind_Some in Hc as (events & _ & Hc). destruct (lru_lookup_macs _ _ _ Hc) as [Hs Hdm]. unfold count_route.
    do 2 wp_step. eapply (wp_do_route P macs rest route r); [done..|]. exact (HQ (bump_route fib_lookup_ip4_cache) c).
  - set (rc := on_xdp _ r).
    do 3 (wp_step; apply wp_load_field; [repeat split; cbn; unfold x_data_end in *; cbn; lia|]).
    wp_step; apply wp_load; [cbn; unfold x_data_end in *; cbn; lia..|].
    rewrite ntohs_field by (first [done|repeat split; cbn; unfold x_data_end in *; cbn; lia]).
    set (p := mkFibParams _ _ _ _ _ _ _) in HQ.
    pose proof (wp_fib_result P macs rest (bytes_at r (i + 16) 4) p r c Q E) as Hfib.
    change (mkFibParams _ _ _ _ _ _ _) with p.
    destruct (bpf_fib_lookup p) as [rc' route]. by apply Hfib.
Qed.

(** ** Into the tunnel *)

Lemma wp_add_gtp saddr daddr tos qfi teid len macs type pkt r (Q : Z → Run → Prop) E :
  is_bytes (x_buf (xdp r)) → 44 ≤ x_data (xdp r) ≤ x_data_end (xdp r) →
  x_frame (xdp r) = macs ++ type ++ pkt → length macs = 12%nat → length type = 2%nat → packet_length r len →
  (∀ r' check, encapsulated r r' (macs ++ [8; 0] ++ tunnel_headers saddr daddr tos qfi teid len check ++ pkt) →
     checksum_valid (ipv4_header tos (len + 44) check saddr daddr) → Q 0 r') →
  wp (add_gtp_over_ip4_headers saddr daddr tos qfi teid) r Q E.
Proof.
  intros Hb Hd Hf Hm Ht Hl HQ.
  destruct (add_gtp_frame saddr daddr tos qfi teid len macs type pkt r Hb Hd Hf Hm Ht Hl) as (r' & check & Hrun & He & Hc).
  unfold wp. rewrite Hrun. by eapply HQ.
Qed.

(** The route of the outer header. *)
Definition tunnel_route (saddr daddr tos len : Z) (port : Port) : route_query :=
  mkQuery (mkFibParams AF_INET (u8 tos) IPPROTO_UDP ((len + 44) mod 2 ^ 16) (le_bytes 4 saddr) (le_bytes 4 daddr)
             (p_ingress port)) (p_cache port) (p_target port).

Lemma bytes_at_app a b c r p n :
  x_buf (xdp r) = a ++ b ++ c → p = Z.of_nat (length a) → n = Z.of_nat (length b) → bytes_at r p n = b.
Proof. intros Hb -> ->. unfold bytes_at. by rewrite Hb, slice_app. Qed.

(** The fields of the outer header, found in the frame. *)
Lemma ipv4_route_outer tos len check saddr daddr P rest r d :
  x_buf (xdp r) = P ++ ipv4_header tos len check saddr daddr ++ rest → d = Z.of_nat (length P) →
  ipv4_route r d = mkQuery (mkFibParams AF_INET (u8 tos) IPPROTO_UDP (len mod 2 ^ 16) (le_bytes 4 saddr)
                              (le_bytes 4 daddr) (x_ingress (xdp r))) (x_cache (xdp r)) (x_target (xdp r)).
Proof.
  intros Hbuf ->. unfold ipv4_header in Hbuf. rewrite <-!app_assoc in Hbuf. unfold ipv4_route. do 2 f_equal.
  - rewrite (field_app (P ++ [69]) [u8 tos] _ _ _ _ ltac:(rewrite Hbuf; by rewrite <-app_assoc)); [cbn; lia|lengths|done].
  - rewrite (field_app (P ++ [69; u8 tos] ++ be_bytes 2 len ++ [0; 0; 64; 0; 64]) [17] _ _ _ _
      ltac:(rewrite Hbuf; by rewrite <-!app_assoc)); [done|lengths|done].
  - rewrite (bytes_at_app (P ++ [69; u8 tos]) (be_bytes 2 len) _ _ _ _ ltac:(rewrite Hbuf; by rewrite <-!app_assoc));
      [apply be_be_bytes|lengths|done].
  - apply (bytes_at_app (P ++ [69; u8 tos] ++ be_bytes 2 len ++ [0; 0; 64; 0; 64; 17] ++ le_bytes 2 check) _
      (le_bytes 4 daddr ++ rest)); [rewrite Hbuf; by rewrite <-!app_assoc|lengths|done].
  - apply (bytes_at_app (P ++ [69; u8 tos] ++ be_bytes 2 len ++ [0; 0; 64; 0; 64; 17] ++ le_bytes 2 check ++
      le_bytes 4 saddr) _ rest); [rewrite Hbuf; by rewrite <-!app_assoc|lengths|done].
Qed.

Lemma wp_send_to_gtp_tunnel saddr daddr tos qfi teid len macs type pkt r (Q : Z → Run → Prop) E :
  is_bytes (x_buf (xdp r)) → 44 ≤ x_data (xdp r) ≤ x_data_end (xdp r) →
  x_frame (xdp r) = macs ++ type ++ pkt → length macs = 12%nat → length type = 2%nat → packet_length r len →
  is_Some (x_route (xdp r)) →
  (∀ r' check, let p := tunnel_route saddr daddr tos len (x_port (xdp r)) in
     routed p (xdp r') macs ([8; 0] ++ tunnel_headers saddr daddr tos qfi teid len check ++ pkt) →
     checksum_valid (ipv4_header tos (len + 44) check saddr daddr) →
     x_maps (xdp r') = x_maps (xdp r) → x_stat (xdp r') = bump tx_n3 <$> x_stat (xdp r) →
     Q (route_action p) r') →
  wp (send_to_gtp_tunnel saddr daddr tos qfi teid) r Q E.
Proof.
  intros Hb Hd Hf Hm Ht Hl Hroute HQ. unfold send_to_gtp_tunnel. wp_step.
  eapply wp_add_gtp; [done..|]. intros r1 check (Hf1 & Hb1 & Hd1 & He1 & (Hmaps & Hstat & Hrs & Hin & _) & Hc1) Hcs.
  change (0 =? -1) with false. cbn iota. unfold increment_counter. do 4 wp_step. set (r2 := on_xdp _ r1).
  change (ctx r2) with (ctx r1). rewrite Hc1. unfold deref. wp_go.
  destruct (frame_split (xdp r1)) as (P & Hbuf & HP); [lia|]. rewrite Hf1 in Hbuf.
  set (hdrs := tunnel_headers _ _ _ _ _ _ _) in *.
  assert (Hlen : Z.of_nat (length (x_buf (xdp r1))) = Z.of_nat (length P) + 14 + Z.of_nat (length hdrs + length pkt))
    by (rewrite Hbuf; lengths).
  assert (length hdrs = 44%nat) by (unfold hdrs, tunnel_headers, gtpu_extension; lengths).
  change (x_data (xdp r1)) with (x_data (xdp r2)).
  apply (wp_route_ipv4 P macs ([8; 0] ++ hdrs ++ pkt)); [done|by cbn|done|done| | |].
  - cbn. by rewrite Hrs.
  - change (x_data (xdp r2)) with (x_data (xdp r1)). repeat split; cbn; unfold x_data_end; cbn; lia.
  - rewrite (ipv4_route_outer tos (len + 44) check saddr daddr (P ++ macs ++ [8; 0])
      (udp_header (len + 24) ++ gtpu_header teid (len + 8) ++ gtpu_extension qfi ++ pkt)).
    2:{ cbn. rewrite Hbuf. unfold hdrs, tunnel_headers. by rewrite <-!app_assoc. }
    2:{ cbn. rewrite <-HP. lengths. }
    injection Hin as Hin Hcache Htarget. cbn [r2 on_xdp set_xdp xdp set_x_stat x_ingress x_cache x_target].
    rewrite Hin, Hcache, Htarget.
    intros f c. apply (HQ _ check); try done.
    + split; [done|]. apply (frame_of_buffer _ P); [done|by cbn].
    + cbn. by rewrite Hstat.
Qed.

(** ** The rate limit and the volumes *)

(** The QER's entry after a packet of this size, if it passes now. *)
Definition limited (d : direction) (size : Z) (qer : QerInfo) (ticks : nat) : option QerInfo :=
  if qer_rate d qer =? 0 then Some qer
  else (λ start, set_qer_start d start qer) <$>
         sliding_window size (qer_start d qer) (qer_rate d qer) (bpf_ktime_get_ns ticks).

(** Only maps, clock readings and statistics differ. *)
Definition same_packet (r r' : Run) : Prop :=
  x_buf (xdp r') = x_buf (xdp r) ∧ x_data (xdp r') = x_data (xdp r) ∧ x_route (xdp r') = x_route (xdp r) ∧
  x_port (xdp r') = x_port (xdp r) ∧ ctx r' = ctx r.

Lemma wp_limit_rate d size id qer qer' r (Q : Z → Run → Prop) E :
  v_qer (x_maps (xdp r)) !! id = Some qer → limited d size qer (x_ticks (xdp r)) = Some qer' →
  (∀ r', same_packet r r' → x_stat (xdp r') = x_stat (xdp r) →
     x_maps (xdp r') = on_qer <[id := qer']> (x_maps (xdp r)) → Q XDP_PASS r') →
  wp (limit_rate_sliding_window d size id qer) r Q E.
Proof.
  intros Hq Hl HQ. unfold limited, limit_rate_sliding_window in *.
  destruct (qer_rate d qer =? 0).
  - injection Hl as <-. apply wp_ret, HQ; [done|done|]. destruct (x_maps (xdp r)). cbn in *.
    unfold on_qer. cbn. by rewrite insert_id.
  - wp_step. unfold ktime, wp at 1. destruct (sliding_window _ _ _ _) as [start|]; [|done].
    injection Hl as <-. wp_go. by apply HQ.
Qed.

Lemma wp_limit_rate_drop d size id qer r (Q : Z → Run → Prop) E :
  limited d size qer (x_ticks (xdp r)) = None →
  (∀ r', same_packet r r' → x_stat (xdp r') = x_stat (xdp r) → x_maps (xdp r') = x_maps (xdp r) → Q XDP_DROP r') →
  wp (limit_rate_sliding_window d size id qer) r Q E.
Proof.
  intros Hl HQ. unfold limited, limit_rate_sliding_window in *.
  destruct (qer_rate d qer =? 0); [done|]. wp_step. unfold ktime, wp at 1.
  destruct (sliding_window _ _ _ _) as [start|]; [done|]. wp_go. by apply HQ.
Qed.

(** The volumes of a URR. *)
Definition charge (id up down : Z) : FPView → FPView :=
  on_urr (alter (λ u, mkUrrInfo (u64 (UplinkVolume u + up)) (u64 (DownlinkVolume u + down))) id).

(** ** Downlink *)

(** An established downlink path: the rules selected for the packet forward it. *)
Record forwards (maps : FPView) (far_id qer_id : Z) (far : FarInfo) (qer : QerInfo) : Prop := {
  fw_far : v_far maps !! far_id = Some far;
  fw_qer : v_qer maps !! qer_id = Some qer;
  fw_action : Z.land (Action far) FAR_FORW ≠ 0
}.

(** The frame at hand. *)
Record holds_frame (r : Run) (macs type pkt : bytes) : Prop := {
  hf_bytes : is_bytes (x_buf (xdp r));
  hf_data : 0 ≤ x_data (xdp r) ≤ x_data_end (xdp r);
  hf_frame : x_frame (xdp r) = macs ++ type ++ pkt;
  hf_macs : length macs = 12%nat;
  hf_type : length type = 2%nat;
  hf_route : is_Some (x_route (xdp r))
}.

Lemma holds_same r r' macs type pkt : same_packet r r' → holds_frame r macs type pkt → holds_frame r' macs type pkt.
Proof.
  intros (Hb & Hd & Hr & _ & _) []. unfold x_frame, x_data_end in *.
  split; unfold x_frame, x_data_end; rewrite ?Hb, ?Hd, ?Hr; done.
Qed.

Lemma length_same r r' len : same_packet r r' → packet_length r len → packet_length r' len.
Proof.
  intros (Hb & Hd & _ & _ & Hc). unfold packet_length, accessible, x_data_end. by rewrite Hc, Hb, Hd.
Qed.

Lemma frame_size_same r r' : same_packet r r' → frame_size r' = frame_size r.
Proof. intros (Hb & Hd & _). unfold frame_size, x_data_end. by rewrite Hb, Hd. Qed.

Lemma wp_apply_downlink cfg match_sdf pdr far_id qer_id far qer qer' len macs type pkt r (Q : Z → Run → Prop) E :
  holds_frame r macs type pkt → 44 ≤ x_data (xdp r) → packet_length r len →
  select_downlink match_sdf pdr r = (r, Ok (inr (far_id, qer_id))) →
  forwards (x_maps (xdp r)) far_id qer_id far qer →
  Z.land (OuterHeaderCreation far) OHC_GTP_U_UDP_IPv4 ≠ 0 → GateStatusDL qer = GATE_STATUS_OPEN →
  limited Downlink (frame_size r) qer (x_ticks (xdp r)) = Some qer' →
  (∀ r' check,
     let tos := Z.shiftr (TransportLevelMarking far) 8 in
     let p := tunnel_route (n3_ipv4_address cfg) (RemoteIP far) tos len (x_port (xdp r)) in
     routed p (xdp r') macs ([8; 0] ++
       tunnel_headers (n3_ipv4_address cfg) (RemoteIP far) tos (Qfi qer) (Teid far) len check ++ pkt) →
     checksum_valid (ipv4_header tos (len + 44) check (n3_ipv4_address cfg) (RemoteIP far)) →
     x_maps (xdp r') = charge (urr2_id pdr) 0 (frame_size r) (charge (urr1_id pdr) 0 (frame_size r)
                         (on_qer <[qer_id := qer']> (x_maps (xdp r)))) →
     x_stat (xdp r') = bump tx_n3 <$> x_stat (xdp r) → Q (route_action p) r') →
  wp (apply_downlink cfg match_sdf pdr) r Q E.
Proof.
  intros Hf Hroom Hlen Hsel [Hfar Hqer Hact] Hohc Hgate Hlim HQ. unfold apply_downlink.
  wp_step. unfold wp at 1. rewrite Hsel. do 2 wp_step. rewrite Hfar.
  rewrite (proj2 (Z.eqb_neq _ _) Hact), (proj2 (Z.eqb_neq _ _) Hohc), Hqer, Hgate, Z.eqb_refl. cbn [negb].
  do 3 wp_step. eapply wp_limit_rate; [done..|]. intros r1 Hs1 Hst1 Hm1.
  change (XDP_PASS =? XDP_DROP) with false. cbn iota. unfold update_urr. wp_go.
  set (r2 := on_xdp _ (on_xdp _ r1)). assert (Hs2 : same_packet r r2) by exact Hs1.
  pose proof (holds_same _ _ _ _ _ Hs2 Hf) as [Hb2 Hd2 Hf2 Hm2 Ht2 Hr2].
  assert (x_data (xdp r2) = x_data (xdp r)) as Hd by apply Hs2.
  assert (x_port (xdp r2) = x_port (xdp r)) as Hi by apply Hs2.
  eapply wp_send_to_gtp_tunnel; [done|lia|done..|by eapply length_same|done|].
  rewrite Hi. intros r' check p Hfr Hcs Hmaps Hstat. eapply HQ; [done|done| |].
  - rewrite Hmaps. cbn. by rewrite Hm1.
  - rewrite Hstat. cbn. by rewrite Hst1.
Qed.

(** ** From the frame to the handlers *)

(** The L4 ports of an IPv4 packet the program sees: those of a complete UDP
    or TCP header, else zeros. *)
Definition l4_offset (pkt : bytes) : Z := Z.land (pkt !!! 0%nat) 15 * 4.
Definition l4_size (proto : Z) : Z := if proto =? IPPROTO_UDP then 8 else 20.
Definition has_l4 (pkt : bytes) : bool :=
  let proto := pkt !!! 9%nat in
  ((proto =? IPPROTO_UDP) || (proto =? IPPROTO_TCP)) && (l4_offset pkt + l4_size proto <=? Z.of_nat (length pkt)).

Definition packet_flow (pkt : bytes) : Flow :=
  let l4 := l4_offset pkt in
  mkFlow (pkt !!! 9%nat) (slice 12 4 pkt) (slice 16 4 pkt)
    (if has_l4 pkt then be (slice l4 2 pkt) else 0) (if has_l4 pkt then be (slice (l4 + 2) 2 pkt) else 0).

Lemma slice_frame a b p n : 0 ≤ p → slice (Z.of_nat (length a) + p) n (a ++ b) = slice p n b.
Proof.
  intros Hp. unfold slice. f_equal. rewrite Z2Nat.inj_add, Nat2Z.id by lia. rewrite drop_app_ge by lia.
  f_equal. lia.
Qed.

Lemma slice_one b k : (k < length b)%nat → slice (Z.of_nat k) 1 b = [b !!! k].
Proof.
  intros Hk. unfold slice. rewrite Nat2Z.id.
  destruct (lookup_lt_is_Some_2 b k Hk) as [v Hv]. rewrite (drop_S _ v) by done.
  by rewrite (list_lookup_total_correct _ _ _ Hv).
Qed.

(** A field of the packet behind the Ethernet header. *)
Lemma field_in_frame r macs type pkt p n :
  holds_frame r macs type pkt → 0 ≤ p → field r (x_data (xdp r) + 14 + p) n = le (slice p n pkt).
Proof.
  intros [_ Hd Hf Hm Ht _] Hp. destruct (frame_split _ Hd) as (P & Hbuf & HP). unfold field.
  rewrite Hbuf, Hf, <-HP. rewrite (app_assoc macs), app_assoc.
  replace (Z.of_nat (length P) + 14 + p) with (Z.of_nat (length (P ++ macs ++ type)) + p) by lengths.
  by rewrite slice_frame.
Qed.

Lemma byte_in_frame r macs type pkt k :
  holds_frame r macs type pkt → (k < length pkt)%nat →
  field r (x_data (xdp r) + 14 + Z.of_nat k) 1 = pkt !!! k.
Proof. intros Hf Hk. rewrite (field_in_frame _ _ _ _ _ _ Hf), slice_one by lia. cbn. lia. Qed.

Lemma bytes_in_frame r macs type pkt p n :
  holds_frame r macs type pkt → 0 ≤ p → bytes_at r (x_data (xdp r) + 14 + p) n = slice p n pkt.
Proof.
  intros [_ Hd Hf Hm Ht _] Hp. destruct (frame_split _ Hd) as (P & Hbuf & HP). unfold bytes_at.
  rewrite Hbuf, Hf, <-HP. rewrite (app_assoc macs), app_assoc.
  replace (Z.of_nat (length P) + 14 + p) with (Z.of_nat (length (P ++ macs ++ type)) + p) by lengths.
  by rewrite slice_frame.
Qed.

Lemma frame_end r macs type pkt :
  holds_frame r macs type pkt → x_data_end (xdp r) = x_data (xdp r) + 14 + Z.of_nat (length pkt).
Proof.
  intros [_ Hd Hf Hm Ht _]. destruct (frame_split _ Hd) as (P & Hbuf & HP). unfold x_data_end.
  rewrite Hbuf, Hf, <-HP. lengths.
Qed.

(** The packet is still there and its headers are parsed. *)
Record at_ipv4 (r0 r : Run) (pkt : bytes) : Prop := {
  ai_buf : x_buf (xdp r) = x_buf (xdp r0);
  ai_data : x_data (xdp r) = x_data (xdp r0);
  ai_maps : x_maps (xdp r) = x_maps (xdp r0);
  ai_route : x_route (xdp r) = x_route (xdp r0);
  ai_ingress : x_port (xdp r) = x_port (xdp r0);
  ai_ticks : x_ticks (xdp r) = x_ticks (xdp r0);
  ai_eth : eth (ctx r) = Some (x_data (xdp r0));
  ai_ip4 : ip4 (ctx r) = Some (x_data (xdp r0) + 14);
  ai_l4 : l4_header r = if has_l4 pkt then Some (x_data (xdp r0) + 14 + l4_offset pkt) else None
}.

(** What [process_packet] sees first. *)
Record ipv4_frame (r : Run) (macs pkt : bytes) : Prop := {
  if_holds : holds_frame r macs [8; 0] pkt;
  if_len : (20 ≤ length pkt)%nat;
  if_ctx : ctx r = new_context (x_data (xdp r)) (x_data_end (xdp r))
}.

Lemma wp_count k r (Q : unit → Run → Prop) E :
  Q tt (on_xdp (λ x, set_x_stat (bump k <$> x_stat x) x) r) → wp (increment_counter k) r Q E.
Proof. done. Qed.

(** Up to the L4 header. *)
Lemma wp_process_ipv4 cfg r macs pkt (Q : Z → Run → Prop) E :
  ipv4_frame r macs pkt →
  (∀ r1, at_ipv4 r r1 [] → data (ctx r1) = x_data (xdp r) + 14 + l4_offset pkt →
     data_end (ctx r1) = x_data_end (xdp r) → udp (ctx r1) = None → tcp (ctx r1) = None →
     wp (handle_ip4_protocol cfg (pkt !!! 9%nat)) r1 Q E) →
  wp (process_packet cfg) r Q E.
Proof.
  intros [Hf Hlen Hc] HQ. pose proof (frame_end _ _ _ _ Hf) as Hend.
  pose proof (hf_data _ _ _ _ Hf) as Hd. unfold process_packet, handle_ip4. wp_step.
  apply wp_parse_ethernet; [unfold at_header, present; rewrite Hc; repeat split; cbn; lia|]. rewrite Hc. cbn [data new_context].
  assert (field r (x_data (xdp r) + 12) 2 = le [8; 0]) as ->.
  { destruct (frame_split _ Hd) as (P & Hbuf & HP). rewrite (hf_frame _ _ _ _ Hf) in Hbuf.
    pose proof (hf_macs _ _ _ _ Hf). apply (field_app (P ++ macs) _ pkt); [by rewrite Hbuf, <-app_assoc|lengths|done]. }
  change (u16 (bpf_ntohs (le [8; 0])) =? ETH_P_IPV6) with false.
  change (u16 (bpf_ntohs (le [8; 0])) =? ETH_P_IP) with true. cbn iota.
  wp_step. apply wp_count. set (r1 := on_xdp _ (on_ctx _ r)).
  assert (Hf1 : holds_frame r1 macs [8; 0] pkt) by (destruct Hf; split; done).
  assert (Hdat : data (ctx r1) = x_data (xdp r1) + 14) by (subst r1; cbn; by rewrite ?Hc).
  assert (Hde : data_end (ctx r1) = x_data_end (xdp r1)) by (subst r1; cbn; by rewrite ?Hc).
  pose proof (frame_end _ _ _ _ Hf1) as Hend1. pose proof (hf_data _ _ _ _ Hf1) as Hd1.
  wp_step. apply wp_parse_ip4; [repeat split; rewrite ?Hdat; lia|]. rewrite Hdat.
  assert (field r1 (x_data (xdp r1) + 14 + 9) 1 = pkt !!! 9%nat) as ->
    by (apply (byte_in_frame r1 macs [8; 0] pkt 9); [done|lia]).
  assert (field r1 (x_data (xdp r1) + 14) 1 = pkt !!! 0%nat) as ->.
  { rewrite <-(byte_in_frame r1 macs [8; 0] pkt 0) by (done || lia). f_equal. lia. }
  apply HQ; try done; try (subst r1; cbn; by rewrite ?Hc).
  split; try done; subst r1; unfold l4_header; cbn; by rewrite ?Hc.
Qed.

(** Counting changes nothing else. *)
Lemma at_ipv4_count k r0 r pkt :
  at_ipv4 r0 r pkt → at_ipv4 r0 (on_xdp (λ x, set_x_stat (bump k <$> x_stat x) x) r) pkt.
Proof. intros []. by split. Qed.

Lemma at_ipv4_holds r0 r pkt macs type p : at_ipv4 r0 r pkt → holds_frame r0 macs type p → holds_frame r macs type p.
Proof.
  intros [Hb Hd _ Hr _ _ _ _ _] []. unfold x_frame, x_data_end in *.
  split; unfold x_frame, x_data_end; rewrite ?Hb, ?Hd, ?Hr; done.
Qed.

Lemma wp_from_n6 cfg r0 r pkt (Q : Z → Run → Prop) E :
  at_ipv4 r0 r pkt → (∀ r1, at_ipv4 r0 r1 pkt → wp (handle_n6_packet_ipv4 cfg) r1 Q E) →
  wp (from_n6 (handle_n6_packet_ipv4 cfg)) r Q E.
Proof. intros Ha HQ. unfold from_n6. wp_step. apply wp_count, HQ. by apply at_ipv4_count. Qed.

(** A header under the cursor is there, or the parser fails. *)
Lemma header_here r0 r pkt macs n :
  at_ipv4 r0 r [] → ipv4_frame r0 macs pkt → data (ctx r) = x_data (xdp r0) + 14 + l4_offset pkt →
  data_end (ctx r) = x_data_end (xdp r0) →
  data_end (ctx r) <? data (ctx r) + n = negb (l4_offset pkt + n <=? Z.of_nat (length pkt)) ∧
  (l4_offset pkt + n ≤ Z.of_nat (length pkt) → at_header r n).
Proof.
  intros Ha [Hf Hlen _] Hd He. pose proof (frame_end _ _ _ _ Hf) as Hend.
  pose proof (hf_data _ _ _ _ Hf) as Hd0. pose proof (ai_data _ _ _ Ha) as Hda.
  assert (x_data_end (xdp r) = x_data_end (xdp r0)) as He0 by (unfold x_data_end; by rewrite (ai_buf _ _ _ Ha)).
  assert (0 ≤ l4_offset pkt).
  { unfold l4_offset. change 15 with (Z.ones 4). rewrite Z.land_ones by done.
    pose proof (Z.mod_pos_bound (pkt !!! 0%nat) (2 ^ 4)). lia. }
  rewrite Hd, He, Hend. split; [destruct (Z.leb_spec (l4_offset pkt + n) (Z.of_nat (length pkt))); cbn; lia|].
  intros Hn. repeat split; rewrite ?Hd, ?He, ?He0, ?Hda, ?Hend; lia.
Qed.

(** The three protocols of N6, for an address that is not the UPF's own. *)
Lemma wp_downlink_entry cfg r macs pkt (Q : Z → Run → Prop) E :
  ipv4_frame r macs pkt → pkt !!! 9%nat ∈ [IPPROTO_ICMP; IPPROTO_TCP; IPPROTO_UDP] →
  is_local_ip cfg (le (slice 16 4 pkt)) = false →
  (∀ r1, at_ipv4 r r1 pkt → wp (handle_n6_packet_ipv4 cfg) r1 Q E) →
  wp (process_packet cfg) r Q E.
Proof.
  intros Hf Hproto Hlocal HQ. eapply wp_process_ipv4; [done|]. intros r1 Ha Hd He Hudp Htcp.
  assert (Hmiss : has_l4 pkt = false → ∀ r2, at_ipv4 r r2 [] → wp (from_n6 (handle_n6_packet_ipv4 cfg)) r2 Q E).
  { intros Hno r2 H2. eapply (wp_from_n6 _ r _ pkt); [|done]. destruct H2; split; try done. by rewrite Hno. }
  unfold handle_ip4_protocol. set (proto := pkt !!! 9%nat) in *.
  rewrite !elem_of_cons, elem_of_nil in Hproto. destruct Hproto as [Hp|[Hp|[Hp|[]]]]; rewrite Hp.
  - cbn. wp_step. apply wp_count, Hmiss; [|by apply at_ipv4_count]. unfold has_l4. fold proto. by rewrite Hp.
  - change (IPPROTO_TCP =? IPPROTO_ICMP) with false. change (IPPROTO_TCP =? IPPROTO_UDP) with false.
    change (IPPROTO_TCP =? IPPROTO_TCP) with true. cbn iota. wp_step. apply wp_count.
    set (r2 := on_xdp _ r1). assert (Ha2 : at_ipv4 r r2 []) by by apply at_ipv4_count.
    destruct (header_here r r2 pkt macs 20 Ha2 Hf Hd He) as [Hlt Hhere].
    assert (Hl4 : has_l4 pkt = (l4_offset pkt + 20 <=? Z.of_nat (length pkt)))
      by (unfold has_l4; fold proto; by rewrite Hp).
    wp_step. destruct (has_l4 pkt) eqn:Hhas.
    + apply wp_parse_tcp; [apply Hhere; lia|]. eapply (wp_from_n6 _ r _ pkt); [|done].
      destruct Ha2; split; try done. unfold l4_header. cbn. rewrite Hudp, Hhas. by rewrite Hd.
    + unfold parse_tcp. do 2 wp_step. rewrite Hlt, <-Hl4. cbn [negb]. wp_step. by apply Hmiss.
  - change (IPPROTO_UDP =? IPPROTO_ICMP) with false. change (IPPROTO_UDP =? IPPROTO_UDP) with true.
    cbn iota. wp_step. apply wp_count.
    set (r2 := on_xdp _ r1). assert (Ha2 : at_ipv4 r r2 []) by by apply at_ipv4_count.
    destruct (header_here r r2 pkt macs 8 Ha2 Hf Hd He) as [Hlt Hhere].
    assert (Hl4 : has_l4 pkt = (l4_offset pkt + 8 <=? Z.of_nat (length pkt)))
      by (unfold has_l4; fold proto; by rewrite Hp).
    unfold handle_udp. wp_step. destruct (has_l4 pkt) eqn:Hhas.
    + apply wp_parse_udp; [apply Hhere; lia|]. set (r3 := on_ctx _ r2).
      assert (Ha3 : at_ipv4 r r3 pkt).
      { destruct Ha2; split; try done. unfold l4_header. cbn. rewrite Hhas. by rewrite Hd. }
      pose proof (at_ipv4_holds _ _ _ _ _ _ Ha3 (if_holds _ _ _ Hf)) as Hf3.
      destruct (_ =? GTP_UDP_PORT); [|by eapply wp_from_n6].
      wp_go. rewrite (ai_ip4 _ _ _ Ha3). unfold deref, load32. wp_go.
      pose proof (frame_end _ _ _ _ Hf3). pose proof (if_len _ _ _ Hf). pose proof (hf_data _ _ _ _ Hf3).
      rewrite <-(ai_data _ _ _ Ha3). apply wp_load_field; [repeat split; lia|].
      rewrite (field_in_frame r3 macs [8; 0] pkt 16), Hlocal by done. by eapply wp_from_n6.
    + unfold parse_udp. do 2 wp_step. rewrite Hlt, <-Hl4. cbn [negb]. wp_step. by apply Hmiss.
Qed.

(** ** The rules of a packet *)

(** A PDR's rules for a packet: its own, or those of its filter when the
    filter covers the packet; with mode 1 the PDR has no rules of its own. *)
Inductive chosen {A} (pdr : IpEntrypointPdrInfo) (own filtered : A) (fl : Flow) : A → Prop :=
  | chosen_plain : sdf_mode pdr = 0 → chosen pdr own filtered fl own
  | chosen_filter f : sdf_mode pdr ≠ 0 → sdf_filter (sdf_rules pdr) = bpf_sdf_filter f →
      address_of 4 (SrcAddress f) → address_of 4 (DstAddress f) → filter_covers f fl →
      chosen pdr own filtered fl filtered
  | chosen_default f : sdf_mode pdr ≠ 0 → Z.land (sdf_mode pdr) 1 = 0 →
      sdf_filter (sdf_rules pdr) = bpf_sdf_filter f →
      address_of 4 (SrcAddress f) → address_of 4 (DstAddress f) → ¬ filter_covers f fl →
      chosen pdr own filtered fl own.

Definition downlink_chosen (pdr : IpEntrypointPdrInfo) : Flow → Z * Z → Prop :=
  chosen pdr (far_id pdr, qer_id pdr) (sr_far_id (sdf_rules pdr), sr_qer_id (sdf_rules pdr)).

Lemma l4_offset_nonneg pkt : 0 ≤ l4_offset pkt.
Proof.
  unfold l4_offset. change 15 with (Z.ones 4). rewrite Z.land_ones by done.
  pose proof (Z.mod_pos_bound (pkt !!! 0%nat) (2 ^ 4)). lia.
Qed.

Lemma has_l4_bound pkt : has_l4 pkt = true → l4_offset pkt + 8 ≤ Z.of_nat (length pkt).
Proof.
  unfold has_l4, l4_size. rewrite andb_true_iff, Z.leb_le. intros [_ ?]. destruct (_ =? IPPROTO_UDP); lia.
Qed.

Lemma at_ipv4_headers r0 r macs pkt :
  ipv4_frame r0 macs pkt → at_ipv4 r0 r pkt →
  parsed_headers r ∧ ipv4_flow r (x_data (xdp r) + 14) = packet_flow pkt ∧ present r (x_data (xdp r) + 14) 20.
Proof.
  intros Hif Ha. pose proof (at_ipv4_holds _ _ _ _ _ _ Ha (if_holds _ _ _ Hif)) as Hf.
  pose proof (frame_end _ _ _ _ Hf) as Hend. pose proof (hf_data _ _ _ _ Hf) as Hd.
  pose proof (if_len _ _ _ Hif) as Hlen. pose proof (l4_offset_nonneg pkt) as Hoff.
  pose proof (ai_l4 _ _ _ Ha) as Hl4. rewrite <-(ai_data _ _ _ Ha) in Hl4.
  split; [|split; [|repeat split; lia]].
  - split; [apply Hf|]. intros l Hl. rewrite Hl4 in Hl. destruct (has_l4 pkt) eqn:Hh; [|done].
    apply has_l4_bound in Hh. injection Hl as <-. repeat split; lia.
  - unfold ipv4_flow, packet_flow, flow_ports. rewrite Hl4.
    pose proof (byte_in_frame r macs [8; 0] pkt 9 Hf ltac:(lia)) as H9. change (Z.of_nat 9) with 9 in H9.
    rewrite H9, !(bytes_in_frame r macs [8; 0] pkt) by (done || lia).
    destruct (has_l4 pkt); [|done]. cbn [fst snd].
    rewrite (bytes_in_frame r macs [8; 0] pkt) by done.
    rewrite <-(Z.add_assoc _ (l4_offset pkt)), (bytes_in_frame r macs [8; 0] pkt) by (done || lia). done.
Qed.

Lemma select_downlink_chosen r0 r macs pkt pdr rules :
  ipv4_frame r0 macs pkt → at_ipv4 r0 r pkt → downlink_chosen pdr (packet_flow pkt) rules →
  select_downlink match_sdf_filter_ipv4 pdr r = (r, Ok (inr rules)).
Proof.
  intros Hif Ha Hch. destruct (at_ipv4_headers _ _ _ _ Hif Ha) as (Hh & Hfl & Hin).
  pose proof (ai_ip4 _ _ _ Ha) as Hip. rewrite <-(ai_data _ _ _ Ha) in Hip.
  unfold select_downlink, mbind, M_bind. destruct Hch as [Hm|f Hm Hs Has Had Hc|f Hm Hm1 Hs Has Had Hc].
  - by rewrite Hm.
  - rewrite (proj2 (Z.eqb_neq _ _) Hm), Hs.
    destruct (match_sdf_filter_ipv4_covers f _ r Hip Hin Hh Has Had) as (b & -> & Hb).
    rewrite Hfl in Hb. destruct b; [done|]. by destruct Hb as [_ Hb]; specialize (Hb Hc).
  - rewrite (proj2 (Z.eqb_neq _ _) Hm), Hs.
    destruct (match_sdf_filter_ipv4_covers f _ r Hip Hin Hh Has Had) as (b & -> & Hb).
    rewrite Hfl in Hb. destruct b; [by destruct Hb as [Hb _]; specialize (Hb eq_refl)|]. by rewrite Hm1.
Qed.

(** A frame that holds a TCP, UDP or ICMP packet to an address that is not the
    UPF's own, with room for the tunnel's headers. *)
Record downlink_frame (cfg : dataplane_config) (x : Xdp) (macs pkt : bytes) : Prop := {
  df_bytes : is_bytes (x_buf x);
  df_data : 44 ≤ x_data x ≤ x_data_end x;
  df_route : is_Some (x_route x);
  df_frame : x_frame x = macs ++ [8; 0] ++ pkt;
  df_macs : length macs = 12%nat;
  df_length : (20 ≤ length pkt)%nat;
  df_protocol : pkt !!! 9%nat ∈ [IPPROTO_ICMP; IPPROTO_TCP; IPPROTO_UDP];
  df_remote : is_local_ip cfg (le (slice 16 4 pkt)) = false
}.

Lemma downlink_leaves (cfg : dataplane_config) x macs pkt pdr far_id qer_id far qer qer' :
  let size := 14 + Z.of_nat (length pkt) in
  let len := be (slice 2 2 pkt) in
  let tos := Z.shiftr (TransportLevelMarking far) 8 in
  let p := tunnel_route (n3_ipv4_address cfg) (RemoteIP far) tos len (x_port x) in
  downlink_frame cfg x macs pkt → v_ip4 (x_maps x) !! Some (slice 16 4 pkt) = Some pdr →
  downlink_chosen pdr (packet_flow pkt) (far_id, qer_id) → forwards (x_maps x) far_id qer_id far qer →
  Z.land (OuterHeaderCreation far) OHC_GTP_U_UDP_IPv4 ≠ 0 → GateStatusDL qer = GATE_STATUS_OPEN →
  limited Downlink size qer (x_ticks x) = Some qer' →
  ∃ x' check, upf_ip_entrypoint_func cfg x = (x', Ok (route_action p)) ∧
    routed p x' macs ([8; 0] ++
      tunnel_headers (n3_ipv4_address cfg) (RemoteIP far) tos (Qfi qer) (Teid far) len check ++ pkt) ∧
    checksum_valid (ipv4_header tos (len + 44) check (n3_ipv4_address cfg) (RemoteIP far)) ∧
    x_maps x' = charge (urr2_id pdr) 0 size (charge (urr1_id pdr) 0 size (on_qer <[qer_id := qer']> (x_maps x))).
Proof.
  intros size len tos p [Hb Hd Hroute Hf Hm Hlen Hproto Hlocal] Hpdr Hch Hfw Hohc Hgate Hlim.
  set (y := set_x_stat (Some (default zeroUpfStatistic (x_stat x))) x).
  set (r := mkRun y (new_context (x_data y) (x_data_end y))).
  assert (Hif : ipv4_frame r macs pkt) by (split; [split|..]; done || (subst r y; unfold x_data_end in *; cbn in *; lia)).
  destruct (wp_result (process_packet cfg) r (λ a r', a = route_action p ∧ ∃ check,
    routed p (xdp r') macs ([8; 0] ++
      tunnel_headers (n3_ipv4_address cfg) (RemoteIP far) tos (Qfi qer) (Teid far) len check ++ pkt) ∧
    checksum_valid (ipv4_header tos (len + 44) check (n3_ipv4_address cfg) (RemoteIP far)) ∧
    x_maps (xdp r') = charge (urr2_id pdr) 0 size (charge (urr1_id pdr) 0 size (on_qer <[qer_id := qer']> (x_maps x)))))
    as (a & r' & Hrun & -> & check & Hfr & Hcs & Hmaps).
  2:{ unfold upf_ip_entrypoint_func. fold y r. rewrite Hrun. by exists (set_x_stat (count_action (route_action p) <$> x_stat (xdp r')) (xdp r')), check. }
  eapply wp_downlink_entry; [done..|]. intros r1 Ha.
  destruct (at_ipv4_headers _ _ _ _ Hif Ha) as (Hh & Hfl & Hin).
  pose proof (at_ipv4_holds _ _ _ _ _ _ Ha (if_holds _ _ _ Hif)) as Hf1.
  pose proof (ai_data _ _ _ Ha) as Hd1. pose proof (ai_maps _ _ _ Ha) as Hm1.
  pose proof (frame_end _ _ _ _ Hf1) as Hend. pose proof (ai_ip4 _ _ _ Ha) as Hip. rewrite <-Hd1 in Hip.
  assert (Hsize : frame_size r1 = size) by (unfold frame_size, size; lia).
  destruct Hin as (? & ? & ?).
  unfold handle_n6_packet_ipv4. do 2 wp_step. rewrite Hip. unfold deref. do 2 wp_step.
  wp_step. apply wp_load; [lia..|]. fold (bytes_at r1 (x_data (xdp r1) + 14 + 16) 4).
  rewrite (bytes_in_frame r1 macs [8; 0] pkt 16) by done. do 2 wp_step. rewrite Hm1.
  change (x_maps (xdp r)) with (x_maps x). rewrite Hpdr.
  eapply (wp_apply_downlink cfg _ pdr far_id qer_id far qer qer' len macs [8; 0] pkt); try done.
  - rewrite Hd1. cbn. lia.
  - unfold packet_length. rewrite Hip. fold (bytes_at r1 (x_data (xdp r1) + 14 + 2) 2).
    rewrite (bytes_in_frame r1 macs [8; 0] pkt 2) by done. split; [|done].
    unfold accessible. rewrite !andb_true_iff, !Z.leb_le. lia.
  - by eapply select_downlink_chosen.
  - by rewrite Hm1.
  - rewrite Hsize. by rewrite (ai_ticks _ _ _ Ha).
  - rewrite (ai_ingress _ _ _ Ha), Hsize, Hm1. intros r' check tos' p' Hfr Hcs Hmaps _. split; [done|]. by exists check.
Qed.

(** A packet to an address without a PDR is left to the host's stack. *)
Lemma downlink_unserved (cfg : dataplane_config) x macs pkt :
  downlink_frame cfg x macs pkt → v_ip4 (x_maps x) !! Some (slice 16 4 pkt) = None →
  ∃ x', upf_ip_entrypoint_func cfg x = (x', Ok XDP_PASS) ∧ x_frame x' = x_frame x ∧ x_maps x' = x_maps x.
Proof.
  intros [Hb Hd Hroute Hf Hm Hlen Hproto Hlocal] Hpdr.
  set (y := set_x_stat (Some (default zeroUpfStatistic (x_stat x))) x).
  set (r := mkRun y (new_context (x_data y) (x_data_end y))).
  assert (Hif : ipv4_frame r macs pkt) by (split; [split|..]; done || (subst r y; unfold x_data_end in *; cbn in *; lia)).
  destruct (wp_result (process_packet cfg) r (λ a r', a = XDP_PASS ∧
    x_frame (xdp r') = x_frame x ∧ x_maps (xdp r') = x_maps x)) as (a & r' & Hrun & -> & Hfr & Hmaps).
  2:{ unfold upf_ip_entrypoint_func. fold y r. rewrite Hrun.
      by exists (set_x_stat (count_action XDP_PASS <$> x_stat (xdp r')) (xdp r')). }
  eapply wp_downlink_entry; [done..|]. intros r1 Ha.
  destruct (at_ipv4_headers _ _ _ _ Hif Ha) as (_ & _ & Hin).
  pose proof (at_ipv4_holds _ _ _ _ _ _ Ha (if_holds _ _ _ Hif)) as Hf1.
  pose proof (ai_data _ _ _ Ha) as Hd1. pose proof (ai_maps _ _ _ Ha) as Hm1.
  pose proof (frame_end _ _ _ _ Hf1) as Hend. pose proof (ai_ip4 _ _ _ Ha) as Hip. rewrite <-Hd1 in Hip.
  destruct Hin as (? & ? & ?).
  unfold handle_n6_packet_ipv4. do 2 wp_step. rewrite Hip. unfold deref. do 2 wp_step.
  wp_step. apply wp_load; [lia..|]. fold (bytes_at r1 (x_data (xdp r1) + 14 + 16) 4).
  rewrite (bytes_in_frame r1 macs [8; 0] pkt 16) by done. do 2 wp_step. rewrite Hm1.
  change (x_maps (xdp r)) with (x_maps x). rewrite Hpdr. apply wp_ret. split; [done|]. split; [|done].
  by rewrite (hf_frame _ _ _ _ Hf1), Hf.
Qed.

(** C7: A TCP, UDP or ICMP packet from the data network to a UE address with a
    PDR leaves in the GTP-U tunnel of the FAR chosen by the PDR and its
    filter: with its TEID, peer, QFI and ToS, a valid header checksum, the
    packet unchanged behind the headers, on the route to the peer -- from the
    kernel's table or the route cache --; the QER's window and both URRs of the
    PDR are updated. *)
Theorem downlink_forwarded (cfg : dataplane_config) x macs pkt pdr far_id qer_id far qer qer' :
  let size := 14 + Z.of_nat (length pkt) in
  let len := be (slice 2 2 pkt) in
  let tos := Z.shiftr (TransportLevelMarking far) 8 in
  let p := tunnel_route (n3_ipv4_address cfg) (RemoteIP far) tos len (x_port x) in
  downlink_frame cfg x macs pkt → v_ip4 (x_maps x) !! Some (slice 16 4 pkt) = Some pdr →
  downlink_chosen pdr (packet_flow pkt) (far_id, qer_id) → forwards (x_maps x) far_id qer_id far qer →
  Z.land (OuterHeaderCreation far) OHC_GTP_U_UDP_IPv4 ≠ 0 → GateStatusDL qer = GATE_STATUS_OPEN →
  limited Downlink size qer (x_ticks x) = Some qer' →
  ∃ x' check, upf_ip_entrypoint_func cfg x = (x', Ok (route_action p)) ∧
    routed p x' macs ([8; 0] ++
      tunnel_headers (n3_ipv4_address cfg) (RemoteIP far) tos (Qfi qer) (Teid far) len check ++ pkt) ∧
    checksum_valid (ipv4_header tos (len + 44) check (n3_ipv4_address cfg) (RemoteIP far)) ∧
    x_maps x' = charge (urr2_id pdr) 0 size (charge (urr1_id pdr) 0 size (on_qer <[qer_id := qer']> (x_maps x))).
Proof. apply downlink_leaves. Qed.

End routing.

(** ** Witnesses *)

Lemma demo_downlink_frame : downlink_frame demo_config (demo_xdp demo_frame_dl) demo_macs demo_packet.
Proof.
  split.
  - apply demo_bytes, demo_frame_dl_bytes.
  - vm_compute. split; discriminate.
  - by eexists.
  - by vm_compute.
  - done.
  - vm_compute. lia.
  - vm_compute. apply elem_of_cons. right. apply elem_of_cons. by left.
  - by vm_compute.
Qed.

Lemma downlink_forwarded_witness :
  ∃ x' check, upf_ip_entrypoint_func demo_config (demo_xdp demo_frame_dl) = (x', Ok XDP_REDIRECT) ∧
    (x_target x' = Some 2 ∧ x_frame x' = [2; 0; 0; 0; 0; 2; 2; 0; 0; 0; 0; 1] ++ [8; 0] ++
      tunnel_headers (le [10; 1; 0; 1]) (le [10; 1; 0; 2]) 0 9 257 40 check ++ demo_packet) ∧
    checksum_valid (ipv4_header 0 84 check (le [10; 1; 0; 1]) (le [10; 1; 0; 2])) ∧
    x_maps x' = charge 0 0 54 (charge 0 0 54 (on_qer <[1 := set_qer_start Downlink 15432000 demo_qer]> demo_maps)).
Proof.
  destruct (downlink_forwarded demo_config (demo_xdp demo_frame_dl) demo_macs demo_packet demo_pdr_dl 1 1 demo_far
    demo_qer (set_qer_start Downlink 15432000 demo_qer)) as (x' & check & H1 & H2 & H3 & H4); cycle -1.
  { exists x', check. split; [exact H1|]. split; [exact H2|]. split; [exact H3|exact H4]. }
  - apply demo_downlink_frame.
  - vm_compute. reflexivity.
  - by apply chosen_plain.
  - split; [vm_compute; reflexivity|vm_compute; reflexivity|vm_compute; discriminate].
  - vm_compute. discriminate.
  - reflexivity.
  - vm_compute. reflexivity.
Defined.
