(* ===== verification/XdpUplink.v ===== *)
(** * Uplink forwarding (cmd/ebpf/xdp/n3n6_entrypoint.c, handle_gtp_packet)

    What happens to a G-PDU for a TEID with a PDR: which rules apply to the
    packet inside, the frame that leaves, and where it goes. *)

From S2P Require Import Prelude Net ForwardingPlane Stats Dataplane.
From S2P Require Import XdpMemory XdpParse XdpGtp XdpRules XdpProgram XdpDemo XdpFrame XdpSdf XdpForward.

(** ** A packet inside the buffer *)

(** The packet fills the buffer from [p] on. *)
Record packet_at (r : Run) (p : Z) (pkt : bytes) : Prop := {
  pa_bytes : is_bytes (x_buf (xdp r));
  pa_data : 0 ≤ x_data (xdp r) ≤ p;
  pa_end : x_data_end (xdp r) = p + Z.of_nat (length pkt);
  pa_slice k n : 0 ≤ k → slice (p + k) n (x_buf (xdp r)) = slice k n pkt
}.

Section inner.
Implicit Types r : Run.

Lemma packet_at_suffix r macs type outer pkt :
  holds_frame r macs type (outer ++ pkt) → packet_at r (x_data (xdp r) + 14 + Z.of_nat (length outer)) pkt.
Proof.
  intros Hf. pose proof (frame_end _ _ _ _ Hf) as Hend. destruct Hf as [Hb Hd Hf Hm Ht _].
  destruct (frame_split _ Hd) as (P & Hbuf & HP). rewrite Hf in Hbuf. split; [done|lia| |].
  - rewrite Hend. lengths.
  - intros k n Hk. rewrite Hbuf. replace (P ++ macs ++ type ++ outer ++ pkt) with ((P ++ macs ++ type ++ outer) ++ pkt)
      by by rewrite <-!app_assoc.
    rewrite <-HP. replace (Z.of_nat (length P) + 14 + Z.of_nat (length outer) + k)
      with (Z.of_nat (length (P ++ macs ++ type ++ outer)) + k) by lengths.
    by rewrite slice_frame.
Qed.

Lemma packet_at_field r p pkt k n : packet_at r p pkt → 0 ≤ k → field r (p + k) n = le (slice k n pkt).
Proof. intros Hp Hk. unfold field. by rewrite (pa_slice _ _ _ Hp). Qed.

Lemma packet_at_bytes r p pkt k n : packet_at r p pkt → 0 ≤ k → bytes_at r (p + k) n = slice k n pkt.
Proof. intros Hp Hk. unfold bytes_at. by rewrite (pa_slice _ _ _ Hp). Qed.

Lemma packet_at_byte r p pkt k : packet_at r p pkt → (k < length pkt)%nat → field r (p + Z.of_nat k) 1 = pkt !!! k.
Proof. intros Hp Hk. rewrite (packet_at_field _ _ _ _ _ Hp), slice_one by lia. cbn. lia. Qed.

Lemma packet_at_first r p pkt : packet_at r p pkt → (0 < length pkt)%nat → field r p 1 = pkt !!! 0%nat.
Proof. intros Hp Hk. rewrite <-(packet_at_byte r p pkt 0) by done. f_equal. lia. Qed.

Lemma packet_at_present r p pkt k n :
  packet_at r p pkt → 0 ≤ k → k + n ≤ Z.of_nat (length pkt) → present r (p + k) n.
Proof. intros [_ Hd He _] ??. repeat split; lia. Qed.

Lemma packet_at_ctx f r p pkt : packet_at r p pkt → packet_at (on_ctx f r) p pkt.
Proof. intros []. by split. Qed.

(** ** The rules of a packet in the tunnel *)

Definition uplink_chosen (pdr : IpEntrypointPdrInfo) : Flow → Z * Z * Z → Prop :=
  chosen pdr (default_rules pdr) (filter_rules pdr).

(** UDP and TCP headers are complete: a filter is only applied to such a packet. *)
Definition l4_complete (pkt : bytes) : Prop :=
  pkt !!! 9%nat ∈ [IPPROTO_UDP; IPPROTO_TCP] → has_l4 pkt = true.

Definition is_ipv4 (pkt : bytes) : Prop := (20 ≤ length pkt)%nat ∧ Z.shiftr (pkt !!! 0%nat) 4 = 4.

Lemma has_l4_size pkt : has_l4 pkt = true → l4_offset pkt + l4_size (pkt !!! 9%nat) ≤ Z.of_nat (length pkt).
Proof. unfold has_l4. by intros [_ ?%Z.leb_le]%andb_true_iff. Qed.

(** The parsers on a packet under the cursor, and what the filter then sees. *)
(** The headers found, and the flow read from them. *)
Lemma packet_at_flow r p pkt :
  packet_at r p pkt → (20 ≤ length pkt)%nat →
  l4_header r = (if has_l4 pkt then Some (p + l4_offset pkt) else None) →
  parsed_headers r ∧ ipv4_flow r p = packet_flow pkt.
Proof.
  intros Hp Hlen Hh. split.
  - split; [apply Hp|]. intros l Hl. rewrite Hh in Hl. destruct (has_l4 pkt) eqn:Hhas; [|done].
    injection Hl as <-. apply has_l4_bound in Hhas. pose proof (l4_offset_nonneg pkt).
    apply (packet_at_present _ _ pkt); [done|lia..].
  - unfold ipv4_flow, packet_flow, flow_ports. rewrite Hh. pose proof (l4_offset_nonneg pkt).
    pose proof (packet_at_byte r p pkt 9 Hp ltac:(lia)) as H9. change (Z.of_nat 9) with 9 in H9.
    rewrite H9, !(packet_at_bytes r p pkt) by (done || lia). destruct (has_l4 pkt); [|done]. cbn [fst snd].
    rewrite (packet_at_bytes r p pkt) by (done || lia).
    by rewrite <-Z.add_assoc, (packet_at_bytes r p pkt) by (done || lia).
Qed.

Lemma ntohs_not_err v : (bpf_ntohs v =? -1) = false.
Proof.
  apply Z.eqb_neq. unfold bpf_ntohs.
  pose proof (le_range (reverse (le_bytes 2 v)) (is_bytes_reverse _ (le_bytes_is_bytes _ _))). unfold be. lia.
Qed.

Lemma wp_match_inner match_sdf pdr r p pkt (Q : Z + Z * Z * Z → Run → Prop) E :
  packet_at r p pkt → ctx r = new_context p (x_data_end (xdp r)) → (20 ≤ length pkt)%nat → l4_complete pkt →
  (∀ r1, xdp r1 = xdp r → ip4 (ctx r1) = Some p → parsed_headers r1 → ipv4_flow r1 p = packet_flow pkt →
     wp (matches ← match_sdf (sdf_filter (sdf_rules pdr));
         mret (if matches : bool then inr (filter_rules pdr)
               else if Z.land (sdf_mode pdr) 1 =? 0 then inr (default_rules pdr)
               else inl DEFAULT_XDP_ACTION)) r1 Q E) →
  wp (match_inner parse_ip4 match_sdf pdr) r Q E.
Proof.
  intros Hp Hc Hlen Hl4 HQ. unfold match_inner. pose proof (pa_data _ _ _ Hp) as Hd. pose proof (pa_end _ _ _ Hp) as He.
  assert (Hdat : data (ctx r) = p) by by rewrite Hc. assert (Hde : data_end (ctx r) = x_data_end (xdp r)) by by rewrite Hc.
  wp_step. apply wp_parse_ip4; [repeat split; lia|]. rewrite Hdat.
  pose proof (packet_at_byte r p pkt 9 Hp ltac:(lia)) as H9. change (Z.of_nat 9) with 9 in H9.
  assert (Hpn : (pkt !!! 9%nat =? -1) = false) by (rewrite <-H9; apply field_not_err, Hp).
  rewrite H9, Hpn, (packet_at_first r p pkt) by (done || lia). fold (l4_offset pkt).
  set (r1 := on_ctx _ r). pose proof (packet_at_ctx _ _ _ _ Hp : packet_at r1 p pkt) as Hp1.
  assert (Hd1 : data (ctx r1) = p + l4_offset pkt) by done. assert (Hde1 : data_end (ctx r1) = x_data_end (xdp r1)) by exact Hde.
  assert (Ht1 : tcp (ctx r1) = None) by (cbn; by rewrite Hc). assert (Hu1 : udp (ctx r1) = None) by (cbn; by rewrite Hc).
  pose proof (l4_offset_nonneg pkt). pose proof (pa_end _ _ _ Hp1) as He1.
  pose proof (pa_data _ _ _ Hp1) as Hdr1.
  assert (Hflow : ∀ r2, xdp r2 = xdp r → ip4 (ctx r2) = Some p →
    l4_header r2 = (if has_l4 pkt then Some (p + l4_offset pkt) else None) →
    parsed_headers r2 ∧ ipv4_flow r2 p = packet_flow pkt).
  { intros r2 Hx2 _ Hh. apply packet_at_flow; [|done..]. destruct Hp; split; rewrite ?Hx2; done. }
  wp_step. unfold parse_l4. unfold l4_complete in Hl4. rewrite !elem_of_cons, elem_of_nil in Hl4.
  destruct (Z.eqb_spec (pkt !!! 9%nat) IPPROTO_UDP) as [Hpr|Hpr].
  - specialize (Hl4 (or_introl Hpr)). rewrite Hl4 in Hflow. apply has_l4_size in Hl4. rewrite Hpr in Hl4. cbn in Hl4.
    apply wp_parse_udp; [repeat split; rewrite ?Hd1, ?He1; lia|]. rewrite Hd1.
    destruct (Hflow (on_ctx (λ c, set_udp (Some (p + l4_offset pkt)) (set_data (p + l4_offset pkt + 8) c)) r1))
      as [??]; [done..|]. rewrite ntohs_not_err. by apply HQ.
  - destruct (Z.eqb_spec (pkt !!! 9%nat) IPPROTO_TCP) as [Hpr2|Hpr2].
    + specialize (Hl4 (or_intror (or_introl Hpr2))). rewrite Hl4 in Hflow. apply has_l4_size in Hl4.
      rewrite Hpr2 in Hl4. cbn in Hl4. apply wp_parse_tcp; [repeat split; rewrite ?Hd1, ?He1; lia|]. rewrite Hd1.
      destruct (Hflow (on_ctx (λ c, set_tcp (Some (p + l4_offset pkt)) (set_data (p + l4_offset pkt + 20) c)) r1))
        as [??]; [done|done|unfold l4_header; cbn; by rewrite Hc|].
      rewrite ntohs_not_err. by apply HQ.
    + assert (has_l4 pkt = false) as Hno.
      { unfold has_l4. by rewrite (proj2 (Z.eqb_neq _ _) Hpr), (proj2 (Z.eqb_neq _ _) Hpr2). }
      rewrite Hno in Hflow. destruct (Hflow r1) as [??]; [done|done|unfold l4_header; cbn; by rewrite Hc|]. wp_step. by apply HQ.
Qed.

Lemma set_ctx_id r : set_ctx (ctx r) r = r.
Proof. by destruct r. Qed.

Lemma wp_with_context {A} c (m : M Run A) r (Q : A → Run → Prop) E :
  wp m (set_ctx c r) (λ a r', Q a (set_ctx (ctx r) r')) (λ e r', E e (set_ctx (ctx r) r')) →
  wp (with_context c m) r Q E.
Proof. intros Hm. unfold wp, with_context in *. by destruct (m (set_ctx c r)) as [r' [a|e|]]. Qed.

Lemma select_uplink_chosen r p pkt pdr rules :
  packet_at r p pkt → data (ctx r) = p → data_end (ctx r) = x_data_end (xdp r) → is_ipv4 pkt →
  (sdf_mode pdr ≠ 0 → l4_complete pkt) → uplink_chosen pdr (packet_flow pkt) rules →
  select_uplink pdr r = (r, Ok (inr rules)).
Proof.
  intros Hp Hd He [Hlen Hver] Hl4 Hch. unfold select_uplink.
  destruct (decide (sdf_mode pdr = 0)) as [Hm|Hm].
  { rewrite Hm. by destruct Hch. }
  rewrite (proj2 (Z.eqb_neq _ _) Hm).
  destruct (wp_result (c ← gets ctx;
    with_context (new_context (data c) (data_end c)) (
      if data_end c <? data c + 1 then mret (inl DEFAULT_XDP_ACTION)
      else
        eth_protocol ← guess_eth_protocol (data c);
        if eth_protocol =? ETH_P_IP_BE then match_inner parse_ip4 match_sdf_filter_ipv4 pdr
        else if eth_protocol =? ETH_P_IPV6_BE then match_inner parse_ip6 match_sdf_filter_ipv6 pdr
        else mret (if Z.land (sdf_mode pdr) 1 =? 0 then inr (default_rules pdr)
                   else inl DEFAULT_XDP_ACTION))) r (λ a r', a = inr rules ∧ r' = r)) as (a & r' & Hrun & -> & ->);
    [|exact Hrun].
  do 2 wp_step. apply wp_with_context. rewrite Hd, He. pose proof (pa_end _ _ _ Hp) as Hend.
  pose proof (pa_data _ _ _ Hp).
  rewrite (proj2 (Z.ltb_ge _ _)) by lia. set (r1 := set_ctx _ r).
  assert (Hp1 : packet_at r1 p pkt) by (destruct Hp; by split).
  unfold guess_eth_protocol, load8. do 2 wp_step. apply wp_load_field; [repeat split; cbn; lia|].
  rewrite (packet_at_first r1 p pkt), Hver by (done || lia). wp_step.
  change (ETH_P_IP_BE =? ETH_P_IP_BE) with true. cbn iota.
  change (4 =? 6) with false. change (4 =? 4) with true. cbn iota.
  apply (wp_match_inner _ _ _ p pkt); [done|done|done|by apply Hl4|].
  intros r2 Hx2 Hip Hh Hfl.
  assert (Hin : present r2 p 20).
  { repeat split; rewrite Hx2; cbn; lia. }
  assert (Hback : set_ctx (ctx r) r2 = r) by (destruct r, r2; cbn in *; by subst).
  destruct Hch as [Hm0|f _ Hs Has Had Hc|f _ Hm1 Hs Has Had Hc]; [done| |];
    destruct (match_sdf_filter_ipv4_covers f _ r2 Hip Hin Hh Has Had) as (b & Hrun & Hb); rewrite Hfl in Hb;
    wp_step; unfold wp at 1; rewrite Hs, Hrun; apply wp_ret; (split; [|done]).
  - destruct b; [done|]. by destruct Hb as [_ Hb]; specialize (Hb Hc).
  - destruct b; [by destruct Hb as [Hb _]; specialize (Hb eq_refl)|]. by rewrite Hm1.
Qed.

End inner.

(** ** Out of the tunnel *)

Section uplink.
Context `{XdpKernelLaws} (cfg : dataplane_config).
Implicit Types r : Run.

(** The question of a packet's route. *)
Definition packet_route (pkt : bytes) (port : Port) : route_query :=
  mkQuery (mkFibParams AF_INET (pkt !!! 1%nat) (pkt !!! 9%nat) (be (slice 2 2 pkt)) (slice 12 4 pkt) (slice 16 4 pkt)
             (p_ingress port)) (p_cache port) (p_target port).

Lemma ipv4_route_packet r macs type pkt :
  holds_frame r macs type pkt → (20 ≤ length pkt)%nat →
  ipv4_route r (x_data (xdp r) + 14) = packet_route pkt (x_port (xdp r)).
Proof.
  intros Hf Hlen. unfold ipv4_route, packet_route.
  rewrite !(bytes_in_frame r macs type pkt) by done.
  pose proof (byte_in_frame r macs type pkt 1 Hf ltac:(lia)) as H1.
  pose proof (byte_in_frame r macs type pkt 9 Hf ltac:(lia)) as H9.
  change (Z.of_nat 1) with 1 in H1. change (Z.of_nat 9) with 9 in H9. by rewrite H1, H9.
Qed.

Lemma wp_forward_uplink macs pkt r (Q : Z → Run → Prop) E :
  holds_frame r macs [8; 0] pkt → (20 ≤ length pkt)%nat →
  eth (ctx r) = Some (x_data (xdp r)) → ip4 (ctx r) = Some (x_data (xdp r) + 14) →
  is_local_ip cfg (le (slice 16 4 pkt)) = false →
  (∀ r', let p := packet_route pkt (x_port (xdp r)) in
     routed p (xdp r') macs ([8; 0] ++ pkt) → x_maps (xdp r') = x_maps (xdp r) →
     Q (route_action p) r') →
  wp (forward_uplink cfg) r Q E.
Proof.
  intros Hf Hlen He Hi Hlocal HQ. pose proof (frame_end _ _ _ _ Hf) as Hend. pose proof (hf_data _ _ _ _ Hf).
  unfold forward_uplink, load8, load32. do 2 wp_step. rewrite Hi.
  wp_step. apply wp_load_field; [repeat split; lia|]. rewrite (field_in_frame r macs [8; 0] pkt 16) by done.
  wp_step. apply wp_load_field; [repeat split; lia|]. rewrite Hlocal. cbn [andb].
  wp_step. apply wp_count. set (r1 := on_xdp _ r). rewrite He. unfold deref. wp_go.
  assert (Hf1 : holds_frame r1 macs [8; 0] pkt) by by destruct Hf.
  destruct (frame_split (xdp r1)) as (P & Hbuf & HP); [apply Hf1|]. rewrite (hf_frame _ _ _ _ Hf1) in Hbuf.
  change (x_data (xdp r)) with (x_data (xdp r1)).
  apply (wp_route_ipv4 P macs ([8; 0] ++ pkt)); [done|done|apply Hf1|apply Hf1|apply Hf1| |].
  - repeat split; cbn; unfold x_data_end in *; cbn; lia.
  - rewrite (ipv4_route_packet r1 macs [8; 0] pkt) by done. intros f c. apply HQ; [|done].
    split; [done|]. by apply (frame_of_buffer _ P).
Qed.

(** The outer packet: UDP to the GTP-U port of a local address, a G-PDU for
    [teid] with the packet [inner]. *)
Record g_pdu (pkt : bytes) (teid : Z) (outer inner : bytes) : Prop := {
  gp_split : pkt = outer ++ inner;
  gp_size : Z.of_nat (length outer) = 36 + (if gtp_optional (pkt !!! 28%nat) then 8 else 0);
  gp_proto : pkt !!! 9%nat = IPPROTO_UDP;
  gp_ihl : l4_offset pkt = 20;
  gp_local : is_local_ip cfg (le (slice 16 4 pkt)) = true;
  gp_port : be (slice 22 2 pkt) = GTP_UDP_PORT;
  gp_type : pkt !!! 29%nat = GTPU_G_PDU;
  gp_teid : be (slice 32 4 pkt) = teid
}.

(** In front of [handle_gtp_packet]. *)
Record at_gtp (r0 r : Run) (pkt : bytes) : Prop := {
  ag_packet : same_packet (set_ctx (ctx r) r0) r;
  ag_maps : x_maps (xdp r) = x_maps (xdp r0);
  ag_ticks : x_ticks (xdp r) = x_ticks (xdp r0);
  ag_gtp : gtp (ctx r) = Some (x_data (xdp r0) + 42);
  ag_data : data (ctx r) = x_data (xdp r0) + 50 + if gtp_optional (pkt !!! 28%nat) then 8 else 0;
  ag_end : data_end (ctx r) = x_data_end (xdp r0)
}.

Lemma length_g_pdu pkt teid outer inner : g_pdu pkt teid outer inner → (36 ≤ length pkt)%nat.
Proof.
  intros [Hs Hl _ _ _ _ _ _]. apply (f_equal length) in Hs. rewrite length_app in Hs.
  destruct (gtp_optional _); lia.
Qed.

Lemma wp_uplink_entry r macs pkt teid outer inner (Q : Z → Run → Prop) E :
  ipv4_frame r macs pkt → g_pdu pkt teid outer inner →
  (∀ r1, at_gtp r r1 pkt → wp (handle_gtp_packet cfg) r1 Q E) → wp (process_packet cfg) r Q E.
Proof.
  intros Hif Hg HQ. pose proof (length_g_pdu _ _ _ _ Hg) as Hlen. eapply wp_process_ipv4; [done|].
  intros r1 Ha Hd He Hudp Htcp. unfold handle_ip4_protocol. rewrite (gp_proto _ _ _ _ Hg).
  change (IPPROTO_UDP =? IPPROTO_ICMP) with false. change (IPPROTO_UDP =? IPPROTO_UDP) with true. cbn iota.
  wp_step. apply wp_count. set (r2 := on_xdp _ r1). rewrite (gp_ihl _ _ _ _ Hg) in Hd.
  assert (Ha2 : at_ipv4 r r2 []) by by apply at_ipv4_count.
  pose proof (at_ipv4_holds _ _ _ _ _ _ Ha2 (if_holds _ _ _ Hif)) as Hf2.
  pose proof (frame_end _ _ _ _ Hf2) as Hend. pose proof (hf_data _ _ _ _ Hf2) as Hdd.
  pose proof (ai_data _ _ _ Ha2) as Hda. assert (Hend0 : x_data_end (xdp r) = x_data_end (xdp r2))
    by (unfold x_data_end; by rewrite (ai_buf _ _ _ Ha2)).
  assert (Hd2 : data (ctx r2) = x_data (xdp r2) + 34) by (change (data (ctx r2)) with (data (ctx r1)); lia).
  assert (He2 : data_end (ctx r2) = x_data_end (xdp r2)) by (change (data_end (ctx r2)) with (data_end (ctx r1)); lia).
  unfold handle_udp. wp_step. apply wp_parse_udp; [repeat split; lia|]. set (r3 := on_ctx _ r2).
  rewrite ntohs_field by (first [apply Hf2|repeat split; lia]).
  rewrite Hd2. replace (x_data (xdp r2) + 34 + 2) with (x_data (xdp r2) + 14 + 22) by lia.
  rewrite (bytes_in_frame r2 macs [8; 0] pkt 22), (gp_port _ _ _ _ Hg), Z.eqb_refl by done.
  wp_go. change (ip4 (ctx r3)) with (ip4 (ctx r2)). rewrite (ai_ip4 _ _ _ Ha2), <-Hda. unfold deref, load32. wp_go.
  assert (Hf3 : holds_frame r3 macs [8; 0] pkt) by by destruct Hf2.
  change (x_data (xdp r2)) with (x_data (xdp r3)).
  apply wp_load_field; [repeat split; cbn; unfold x_data_end in *; cbn in *; lia|].
  rewrite (field_in_frame r3 macs [8; 0] pkt 16), (gp_local _ _ _ _ Hg) by done.
  wp_step. apply wp_count. set (r4 := on_xdp _ r3).
  assert (Hf4 : holds_frame r4 macs [8; 0] pkt) by by destruct Hf3.
  assert (Hd4 : data (ctx r4) = x_data (xdp r4) + 42) by (cbn; cbn in Hd; unfold r2 in *; cbn in *; lia).
  assert (He4 : data_end (ctx r4) = x_data_end (xdp r4)) by exact He2.
  pose proof (frame_end _ _ _ _ Hf4) as Hend4. pose proof (hf_data _ _ _ _ Hf4) as Hdd4.
  unfold handle_gtpu. wp_step. apply wp_parse_gtp; [repeat split; lia|]. rewrite Hd4.
  pose proof (byte_in_frame r4 macs [8; 0] pkt 28 Hf4 ltac:(lia)) as H28.
  pose proof (byte_in_frame r4 macs [8; 0] pkt 29 Hf4 ltac:(lia)) as H29.
  replace (x_data (xdp r4) + 14 + Z.of_nat 28) with (x_data (xdp r4) + 42) in H28 by lia.
  replace (x_data (xdp r4) + 14 + Z.of_nat 29) with (x_data (xdp r4) + 42 + 1) in H29 by lia.
  rewrite H28, H29, (gp_type _ _ _ _ Hg), Z.eqb_refl. wp_step. apply wp_count. apply HQ.
  change (x_data (xdp r4)) with (x_data (xdp r2)). rewrite Hda.
  destruct Ha2 as [Hb _ Hm Hr Hin Ht _ _ _].
  split; [split; [done|split; [exact Hda|done]]|done|done|done| |].
  - cbn. destruct (gtp_optional (pkt !!! 28%nat)); lia.
  - change (data_end (ctx r2) = x_data_end (xdp r)). lia.
Qed.

Lemma at_gtp_holds r0 r pkt macs type p : at_gtp r0 r pkt → holds_frame r0 macs type p → holds_frame r macs type p.
Proof. intros [Hs _ _ _ _ _] Hf. eapply holds_same; [exact Hs|]. by destruct Hf. Qed.

(** Both kinds of outer header removal that fit a G-PDU. *)
Definition removes_header (ohr : Z) : Prop := ohr = OHR_GTP_U_UDP_IPv4 ∨ ohr = OHR_GTP_U_UDP_IP.

Lemma wp_remove_outer far ohr macs pkt teid outer inner r (Q : bool → Run → Prop) E :
  holds_frame r macs [8; 0] pkt → g_pdu pkt teid outer inner → is_ipv4 inner →
  gtp (ctx r) = Some (x_data (xdp r) + 42) → Z.land (OuterHeaderCreation far) OHC_GTP_U_UDP_IPv4 = 0 →
  removes_header ohr →
  (∀ r', holds_frame r' macs [8; 0] inner → x_maps (xdp r') = x_maps (xdp r) →
     x_port (xdp r') = x_port (xdp r) → eth (ctx r') = Some (x_data (xdp r')) →
     ip4 (ctx r') = Some (x_data (xdp r') + 14) → Q true r') →
  wp (outer_header cfg far ohr) r Q E.
Proof.
  intros Hf Hg [Hilen Hiver] Hgtp Hohc Hohr HQ. pose proof (length_g_pdu _ _ _ _ Hg) as Hlen.
  pose proof (frame_end _ _ _ _ Hf) as Hend. pose proof (hf_data _ _ _ _ Hf) as Hd.
  pose proof (byte_in_frame r macs [8; 0] pkt 28 Hf ltac:(lia)) as H28.
  replace (x_data (xdp r) + 14 + Z.of_nat 28) with (x_data (xdp r) + 42) in H28 by lia.
  assert (Hty : packet_type inner = Some [8; 0] ∧ has_ip_header inner).
  { destruct inner as [|v inner]; [cbn in Hilen; lia|]. cbn in Hiver. cbn. by rewrite Hiver. }
  destruct (remove_gtp_frame (x_data (xdp r) + 42) (pkt !!! 28%nat) macs [8; 0] outer inner [8; 0] r)
    as (r' & Hrun & Hf' & Hb' & Hd' & He' & (Hm & _ & Hr & Hi & _) & Hc'); try apply Hf; try apply Hg; try apply Hty;
    [done|repeat split; lia|done|by rewrite (hf_frame _ _ _ _ Hf), (gp_split _ _ _ _ Hg)|].
  unfold outer_header. rewrite Hohc. cbn [Z.eqb negb].
  replace ((ohr =? OHR_GTP_U_UDP_IPv4) || (ohr =? OHR_GTP_U_UDP_IP)) with true by (destruct Hohr as [->| ->]; done).
  wp_step. unfold wp at 1. rewrite Hrun. apply wp_ret, HQ; try done.
  - pose proof (f_equal length (gp_split _ _ _ _ Hg)) as Hl. rewrite length_app in Hl.
    split; [done|lia|done|apply Hf|done|rewrite Hr; apply Hf].
  - rewrite Hc'. unfold frame_context. destruct inner as [|v inner]; [cbn in Hilen; lia|]. by destruct (_ =? 4).
  - rewrite Hc'. unfold frame_context. destruct inner as [|v inner]; [cbn in Hilen; lia|]. cbn in Hiver.
    by rewrite Hiver.
Qed.

Lemma wp_apply_uplink pdr far_id qer_id ohr far qer qer' macs pkt teid outer inner r (Q : Z → Run → Prop) E :
  holds_frame r macs [8; 0] pkt → g_pdu pkt teid outer inner → is_ipv4 inner →
  gtp (ctx r) = Some (x_data (xdp r) + 42) →
  select_uplink pdr r = (r, Ok (inr (far_id, qer_id, ohr))) → forwards (x_maps (xdp r)) far_id qer_id far qer →
  Z.land (OuterHeaderCreation far) OHC_GTP_U_UDP_IPv4 = 0 → removes_header ohr →
  GateStatusUL qer = GATE_STATUS_OPEN → limited Uplink (frame_size r) qer (x_ticks (xdp r)) = Some qer' →
  is_local_ip cfg (le (slice 16 4 inner)) = false →
  (∀ r', let p := packet_route inner (x_port (xdp r)) in
     routed p (xdp r') macs ([8; 0] ++ inner) →
     x_maps (xdp r') = charge (urr2_id pdr) (frame_size r) 0 (charge (urr1_id pdr) (frame_size r) 0
                         (on_qer <[qer_id := qer']> (x_maps (xdp r)))) →
     Q (route_action p) r') →
  wp (apply_uplink cfg pdr) r Q E.
Proof.
  intros Hf Hg Hi Hgtp Hsel [Hfar Hqer Hact] Hohc Hohr Hgate Hlim Hlocal HQ. unfold apply_uplink.
  wp_step. unfold wp at 1. rewrite Hsel. do 2 wp_step. rewrite Hfar, (proj2 (Z.eqb_neq _ _) Hact), Hqer, Hgate, Z.eqb_refl.
  cbn [negb]. do 3 wp_step. eapply wp_limit_rate; [done..|]. intros r1 Hs1 _ Hm1.
  change (XDP_PASS =? XDP_DROP) with false. cbn iota. unfold update_urr. wp_go.
  set (r2 := on_xdp _ (on_xdp _ r1)). assert (Hs2 : same_packet r r2) by exact Hs1.
  pose proof (holds_same _ _ _ _ _ Hs2 Hf) as Hf2. destruct Hs2 as (_ & Hd2 & _ & Hin2 & Hc2).
  apply (wp_remove_outer far ohr macs pkt teid outer inner); [done..|by rewrite Hc2, Hd2|done|done|].
  intros r3 Hf3 Hm3 Hin3 He3 Hi3. apply (wp_forward_uplink macs inner); [done|apply Hi|done|done|done|].
  rewrite Hin3, Hin2. intros r' p Hfr Hmaps. apply HQ; [done|]. rewrite Hmaps, Hm3. cbn. by rewrite Hm1.
Qed.

(** A frame that holds a G-PDU to a local address with an IPv4 packet to an
    address that is not the UPF's own. *)
Record uplink_frame (x : Xdp) (macs pkt : bytes) (teid : Z) (outer inner : bytes) : Prop := {
  uf_bytes : is_bytes (x_buf x);
  uf_data : 0 ≤ x_data x ≤ x_data_end x;
  uf_route : is_Some (x_route x);
  uf_frame : x_frame x = macs ++ [8; 0] ++ pkt;
  uf_macs : length macs = 12%nat;
  uf_gtp : g_pdu pkt teid outer inner;
  uf_inner : is_ipv4 inner;
  uf_remote : is_local_ip cfg (le (slice 16 4 inner)) = false
}.

(** Up to the lookup of the TEID. *)
Lemma wp_g_pdu_teid r r1 macs pkt teid outer inner (Q : Z → Run → Prop) E :
  ipv4_frame r macs pkt → g_pdu pkt teid outer inner → at_gtp r r1 pkt →
  wp (match v_teid (x_maps (xdp r1)) !! teid with
      | None => mret DEFAULT_XDP_ACTION
      | Some pdr => apply_uplink cfg pdr
      end) r1 Q E →
  wp (handle_gtp_packet cfg) r1 Q E.
Proof.
  intros Hif Hg Ha HQ. pose proof (length_g_pdu _ _ _ _ Hg) as Hlen. pose proof Ha as [Hs _ _ Hgtp _ _].
  pose proof (at_gtp_holds _ _ _ _ _ _ Ha (if_holds _ _ _ Hif)) as Hf1.
  assert (Hd1 : x_data (xdp r1) = x_data (xdp r)) by apply Hs. rewrite <-Hd1 in Hgtp.
  pose proof (frame_end _ _ _ _ Hf1) as Hend. pose proof (hf_data _ _ _ _ Hf1).
  unfold handle_gtp_packet, load32. do 2 wp_step. rewrite Hgtp.
  wp_step. apply wp_load_field; [repeat split; lia|].
  replace (x_data (xdp r1) + 42 + 4) with (x_data (xdp r1) + 14 + 32) by lia.
  rewrite (field_in_frame r1 macs [8; 0] pkt 32) by done.
  assert (is_bytes pkt) as Hpb.
  { pose proof (hf_bytes _ _ _ _ Hf1) as Hb. destruct (frame_split (xdp r1)) as (P & Hbuf & _); [apply Hf1|].
    rewrite Hbuf, (hf_frame _ _ _ _ Hf1) in Hb. unfold is_bytes in *. rewrite !Forall_app in Hb. tauto. }
  rewrite load_ntohl, (gp_teid _ _ _ _ Hg) by (try (apply is_bytes_slice, Hpb); rewrite length_slice; lia).
  by do 2 wp_step.
Qed.

Lemma uplink_leaves x macs pkt teid outer inner pdr far_id qer_id ohr far qer qer' :
  let size := 14 + Z.of_nat (length pkt) in
  let p := packet_route inner (x_port x) in
  uplink_frame x macs pkt teid outer inner → v_teid (x_maps x) !! teid = Some pdr →
  (sdf_mode pdr ≠ 0 → l4_complete inner) →
  uplink_chosen pdr (packet_flow inner) (far_id, qer_id, ohr) → forwards (x_maps x) far_id qer_id far qer →
  Z.land (OuterHeaderCreation far) OHC_GTP_U_UDP_IPv4 = 0 → removes_header ohr →
  GateStatusUL qer = GATE_STATUS_OPEN → limited Uplink size qer (x_ticks x) = Some qer' →
  ∃ x', upf_ip_entrypoint_func cfg x = (x', Ok (route_action p)) ∧
    routed p x' macs ([8; 0] ++ inner) ∧
    x_maps x' = charge (urr2_id pdr) size 0 (charge (urr1_id pdr) size 0 (on_qer <[qer_id := qer']> (x_maps x))).
Proof.
  intros size p [Hb Hd Hroute Hf Hm Hg Hi Hlocal] Hpdr Hl4 Hch Hfw Hohc Hohr Hgate Hlim.
  pose proof (length_g_pdu _ _ _ _ Hg) as Hlen.
  set (y := set_x_stat (Some (default zeroUpfStatistic (x_stat x))) x).
  set (r := mkRun y (new_context (x_data y) (x_data_end y))).
  assert (Hif : ipv4_frame r macs pkt) by (split; [split|lia|done]; done).
  destruct (wp_result (process_packet cfg) r (λ a r', a = route_action p ∧
    routed p (xdp r') macs ([8; 0] ++ inner) ∧
    x_maps (xdp r') = charge (urr2_id pdr) size 0 (charge (urr1_id pdr) size 0 (on_qer <[qer_id := qer']> (x_maps x)))))
    as (a & r' & Hrun & -> & Hfr & Hmaps).
  2:{ unfold upf_ip_entrypoint_func. fold y r. rewrite Hrun.
      by exists (set_x_stat (count_action (route_action p) <$> x_stat (xdp r')) (xdp r')). }
  eapply wp_uplink_entry; [done..|]. intros r1 Ha. pose proof Ha as [Hs Hm1 Ht1 Hgtp Hdat Hde].
  pose proof (at_gtp_holds _ _ _ _ _ _ Ha (if_holds _ _ _ Hif)) as Hf1.
  assert (Hd1 : x_data (xdp r1) = x_data (xdp r)) by apply Hs. rewrite <-Hd1 in Hgtp.
  assert (Hin1 : x_port (xdp r1) = x_port (xdp r)) by apply Hs.
  pose proof (frame_end _ _ _ _ Hf1) as Hend. pose proof (hf_data _ _ _ _ Hf1).
  assert (Hsize : frame_size r1 = size) by (unfold frame_size, size; lia).
  apply (wp_g_pdu_teid r r1 macs pkt teid outer inner); [done..|]. rewrite Hm1.
  change (x_maps (xdp r)) with (x_maps x). rewrite Hpdr.
  apply (wp_apply_uplink pdr far_id qer_id ohr far qer qer' macs pkt teid outer inner); try done.
  - apply (select_uplink_chosen r1 (x_data (xdp r1) + 14 + Z.of_nat (length outer)) inner); try done.
    + eapply (packet_at_suffix r1 macs [8; 0]). rewrite <-(gp_split _ _ _ _ Hg). exact Hf1.
    + rewrite Hdat, Hd1, (gp_size _ _ _ _ Hg). destruct (gtp_optional _); lia.
    + rewrite Hde. unfold x_data_end. f_equal. f_equal. symmetry. apply Hs.
  - by rewrite Hm1.
  - rewrite Hsize. by rewrite Ht1.
  - rewrite Hin1, Hsize, Hm1. intros r' p' Hfr Hmaps. by split_and!.
Qed.

(** A G-PDU for a TEID without a PDR is left to the host's stack. *)
Lemma uplink_unserved x macs pkt teid outer inner :
  uplink_frame x macs pkt teid outer inner → v_teid (x_maps x) !! teid = None →
  ∃ x', upf_ip_entrypoint_func cfg x = (x', Ok XDP_PASS) ∧ x_frame x' = x_frame x ∧ x_maps x' = x_maps x.
Proof.
  intros [Hb Hd Hroute Hf Hm Hg Hi Hlocal] Hpdr. pose proof (length_g_pdu _ _ _ _ Hg) as Hlen.
  set (y := set_x_stat (Some (default zeroUpfStatistic (x_stat x))) x).
  set (r := mkRun y (new_context (x_data y) (x_data_end y))).
  assert (Hif : ipv4_frame r macs pkt) by (split; [split|lia|done]; done).
  destruct (wp_result (process_packet cfg) r (λ a r', a = XDP_PASS ∧
    x_frame (xdp r') = x_frame x ∧ x_maps (xdp r') = x_maps x)) as (a & r' & Hrun & -> & Hfr & Hmaps).
  2:{ unfold upf_ip_entrypoint_func. fold y r. rewrite Hrun.
      by exists (set_x_stat (count_action XDP_PASS <$> x_stat (xdp r')) (xdp r')). }
  eapply wp_uplink_entry; [done..|]. intros r1 Ha.
  apply (wp_g_pdu_teid r r1 macs pkt teid outer inner); [done..|]. rewrite (ag_maps _ _ _ Ha).
  change (x_maps (xdp r)) with (x_maps x). rewrite Hpdr. apply wp_ret. split; [done|]. split; [|apply Ha].
  pose proof (at_gtp_holds _ _ _ _ _ _ Ha (if_holds _ _ _ Hif)) as Hf1. by rewrite (hf_frame _ _ _ _ Hf1), Hf.
Qed.


End uplink.

(** ** Witnesses *)

Lemma demo_uplink_frame :
  uplink_frame demo_config (demo_xdp demo_frame_ul) demo_macs (drop 14 demo_frame_ul) 33
    (take 36 (drop 14 demo_frame_ul)) demo_packet_ul.
Proof.
  split.
  - apply demo_bytes, demo_frame_ul_bytes.
  - vm_compute. split; discriminate.
  - by eexists.
  - by vm_compute.
  - done.
  - split; by vm_compute.
  - split; [vm_compute; lia|by vm_compute].
  - by vm_compute.
Qed.

