(* ===== verification/XdpEffects.v ===== *)
(** * What packets leave alone

    A logic for the effects of the XDP program on everything besides the
    packet: given an observation of the machine's state that the program's few
    kinds of writes outside the packet do not change -- counters, the start of
    a QER's window, volumes of the URRs of a PDR's entry -- no packet changes
    it.  [XdpUrr], [XdpTables] and [Monitoring] use it. *)

From S2P Require Import Prelude Net ForwardingPlane Stats Dataplane.
From S2P Require Import XdpMemory XdpParse XdpGtp XdpRules XdpProgram XdpForward.

(** All PDR entries satisfy [ok]. *)
Definition tables_ok (ok : IpEntrypointPdrInfo → Prop) (maps : FPView) : Prop :=
  map_Forall (λ _, ok) (v_teid maps) ∧ map_Forall (λ _, ok) (v_ip4 maps) ∧
  map_Forall (λ _, ok) (v_ip6 maps).

(** The writes of the program outside the packet, which [f] does not see; it
    sees enough to know that the PDR entries stay [ok]. *)
Record observation {T} (f : Xdp → T) (ok : IpEntrypointPdrInfo → Prop) : Prop := {
  obs_buf v x : f (set_x_buf v x) = f x;
  obs_data v x : f (set_x_data v x) = f x;
  obs_count k x : f (set_x_stat (bump k <$> x_stat x) x) = f x;
  obs_route k x : f (set_x_route (bump_route k <$> x_route x) x) = f x;
  obs_cache v x : f (set_x_cache v x) = f x;
  obs_target v x : f (set_x_target v x) = f x;
  obs_ticks v x : f (set_x_ticks v x) = f x;
  obs_qer d start id q x : v_qer (x_maps x) !! id = Some q →
    f (set_x_maps (on_qer <[id := set_qer_start d start q]> (x_maps x)) x) = f x;
  obs_urr pdr id u d x : ok pdr → id ∈ [urr1_id pdr; urr2_id pdr] →
    f (set_x_maps (on_urr (alter (λ urr, mkUrrInfo (u64 (UplinkVolume urr + u))
        (u64 (DownlinkVolume urr + d))) id) (x_maps x)) x) = f x;
  obs_tables x y : f y = f x → tables_ok ok (x_maps x) → tables_ok ok (x_maps y)
}.

Section effects.
Context {T : Type} (f : Xdp → T) (ok : IpEntrypointPdrInfo → Prop) (Hf : observation f ok).

(** From states with such entries [m] keeps the observation. *)
Definition fixes {A} (m : M Run A) : Prop :=
  ∀ r, tables_ok ok (x_maps (xdp r)) → f (xdp (m r).1) = f (xdp r).

(** The same from states whose tables are [maps]. *)
Definition fixes_from {A} (maps : FPView) (m : M Run A) : Prop :=
  ∀ r, x_maps (xdp r) = maps → tables_ok ok maps → f (xdp (m r).1) = f (xdp r).

Lemma fixes_bind {A B} (m : M Run A) (k : A → M Run B) : fixes m → (∀ a, fixes (k a)) → fixes (m ≫= k).
Proof.
  intros Hm Hk r Hr. specialize (Hm r Hr). unfold mbind, M_bind. destruct (m r) as [r' [a|e|]]; cbn in *; try done.
  rewrite (Hk a r'); [done|by eapply (obs_tables _ _ Hf)].
Qed.

Lemma fixes_from_bind {A B} maps (m : M Run A) (k : A → M Run B) :
  fixes_from maps m → (∀ a, fixes (k a)) → fixes_from maps (m ≫= k).
Proof.
  intros Hm Hk r Hr Ht. specialize (Hm r Hr Ht). unfold mbind, M_bind. destruct (m r) as [r' [a|e|]]; cbn in *; try done.
  rewrite (Hk a r'); [done|]. eapply (obs_tables _ _ Hf); [done|by rewrite Hr].
Qed.

Lemma fixes_from_any {A} maps (m : M Run A) : fixes m → fixes_from maps m.
Proof. intros Hm r Hr Ht. apply Hm. by rewrite Hr. Qed.

(** Reading the tables: what is found is [ok]. *)
Lemma fixes_gets_maps {B} (k : FPView → M Run B) :
  (∀ maps, tables_ok ok maps → fixes_from maps (k maps)) → fixes (gets (λ r, x_maps (xdp r)) ≫= k).
Proof. intros Hk r Hr. cbn. by apply Hk. Qed.

Lemma fixes_from_gets {A B} maps (g : Run → A) (k : A → M Run B) :
  (∀ a, fixes_from maps (k a)) → fixes_from maps (gets g ≫= k).
Proof. intros Hk r Hr Ht. cbn. by apply Hk. Qed.

Lemma fixes_store p bs : fixes (store p bs).
Proof. intros r _. unfold store. case_match; [apply (obs_buf _ _ Hf)|done]. Qed.
Lemma fixes_load p n : fixes (load p n).
Proof. intros r _. unfold load. by case_match. Qed.
Lemma fixes_adjust `{XdpKernel} d : fixes (adjust_head d).
Proof. intros r _. unfold adjust_head. case_match; [apply (obs_data _ _ Hf)|done]. Qed.
Lemma fixes_update_urr pdr id u d : ok pdr → id ∈ [urr1_id pdr; urr2_id pdr] → fixes (update_urr id u d).
Proof. intros Hp Hid r _. by apply (obs_urr _ _ Hf pdr). Qed.

Lemma fixes_ret {A} (a : A) : fixes (mret a).
Proof. done. Qed.
Lemma fixes_gets {A} (g : Run → A) : fixes (gets g).
Proof. done. Qed.
Lemma fixes_panic {A} : fixes (panic : M Run A).
Proof. done. Qed.
Lemma fixes_count k : fixes (increment_counter k).
Proof. intros r _. apply (obs_count _ _ Hf). Qed.
Lemma fixes_count_route k : fixes (count_route k).
Proof. intros r _. apply (obs_route _ _ Hf). Qed.
Lemma fixes_ctx g : fixes (modify (on_ctx g)).
Proof. done. Qed.
Lemma fixes_ktime `{XdpKernel} : fixes ktime.
Proof. intros r _. apply (obs_ticks _ _ Hf). Qed.
Lemma fixes_with_context {A} c (m : M Run A) : fixes m → fixes (with_context c m).
Proof. intros Hm r Hr. unfold with_context. specialize (Hm (set_ctx c r) Hr). by destruct (m (set_ctx c r)). Qed.

(** The rate limiter writes to the entry it was given. *)
Lemma limit_rate_fixes `{XdpKernel} maps d n id q :
  v_qer maps !! id = Some q → fixes_from maps (limit_rate_sliding_window d n id q).
Proof.
  intros Hq r Hr _. unfold limit_rate_sliding_window. case_match; [done|].
  unfold mbind, M_bind, ktime. cbn. case_match; [|apply (obs_ticks _ _ Hf)]. cbn.
  rewrite <-(obs_ticks _ _ Hf (S (x_ticks (xdp r))) (xdp r)).
  apply (obs_qer _ _ Hf _ _ _ _ (set_x_ticks (S (x_ticks (xdp r))) (xdp r))). cbn. by rewrite Hr.
Qed.

Create HintDb fixes discriminated.
#[local] Hint Constants Opaque : fixes.
#[local] Hint Resolve fixes_ret fixes_gets fixes_panic fixes_store fixes_load fixes_adjust fixes_count
  fixes_count_route fixes_ctx fixes_ktime : fixes.

Ltac fix_tac :=
  repeat first
    [ solve [auto with fixes nocore]
    | match goal with
      | |- fixes (with_context _ _) => apply fixes_with_context
      | |- fixes (gets (λ r, x_maps (xdp r)) ≫= _) => apply fixes_gets_maps; intros ?maps ?Hmaps
      | |- fixes (_ ≫= _) => apply fixes_bind; [|intros ?]
      | |- fixes_from _ (gets _ ≫= _) => apply fixes_from_gets; intros ?
      | |- fixes_from _ (limit_rate_sliding_window _ _ _ _ ≫= _) =>
          apply fixes_from_bind; [by apply limit_rate_fixes|intros ?]
      | |- fixes_from _ (mret _) => apply fixes_from_any
      end
    | progress cbn beta iota
    | case_match ].

Context `{XdpKernel} (cfg : dataplane_config).

(** Packets, pointers and counters: nothing of the tables. *)
Lemma add_gtp_fixes a b c d t : fixes (add_gtp_over_ip4_headers a b c d t).
Proof.
  unfold add_gtp_over_ip4_headers, inner_packet_len, within, fill_ip_header, fill_udp_header, fill_gtp_header,
    fill_gtp_ext_header, fill_gtp_ext_header_psc, ipv4_csum, load16, load_le, store16. fix_tac. done.
Qed.

Lemma parsers_fix : fixes parse_ethernet ∧ fixes parse_ip4 ∧ fixes parse_ip6 ∧ fixes parse_udp ∧ fixes parse_tcp.
Proof.
  split_and!; unfold parse_ethernet, parse_ip4, parse_ip6, parse_udp, parse_tcp, load8, load16, load_le; fix_tac.
Qed.

Lemma reinit_fixes d e : fixes (context_reinit d e).
Proof.
  destruct parsers_fix as (? & ? & ? & _). unfold context_reinit. fix_tac; done.
Qed.

Lemma remove_gtp_fixes : fixes remove_gtp_header.
Proof.
  unfold remove_gtp_header, guess_eth_protocol, load8, load_le, store16. fix_tac; apply reinit_fixes.
Qed.

Lemma cached_route_fixes daddr : fixes (cached_route daddr).
Proof. unfold cached_route. fix_tac; intros r _; apply (obs_cache _ _ Hf). Qed.

Lemma update_route_cache_fixes daddr route : fixes (update_route_cache_ipv4 daddr route).
Proof. intros r _. apply (obs_cache _ _ Hf). Qed.
#[local] Hint Resolve update_route_cache_fixes : fixes.

Lemma redirect_fixes i : fixes (redirect i).
Proof. intros r _. apply (obs_target _ _ Hf). Qed.

Lemma route_ipv4_fixes e i : fixes (route_ipv4 e i).
Proof.
  unfold route_ipv4, fib_result, do_route_ipv4, load8, load16, load_le.
  fix_tac; auto using cached_route_fixes, redirect_fixes.
Qed.

Lemma route_ipv6_fixes e i : fixes (route_ipv6 e i).
Proof. unfold route_ipv6, fib_result, do_route_ipv4, load8, load16, load_le. fix_tac. apply redirect_fixes. Qed.

Lemma send_to_gtp_tunnel_fixes a b c d t : fixes (send_to_gtp_tunnel a b c d t).
Proof. unfold send_to_gtp_tunnel, deref. fix_tac; [apply add_gtp_fixes|apply route_ipv4_fixes]. Qed.

Lemma match_sdf_fixes sdf : fixes (match_sdf_filter_ipv4 sdf) ∧ fixes (match_sdf_filter_ipv6 sdf).
Proof.
  unfold match_sdf_filter_ipv4, match_sdf_filter_ipv6, packet_ports, deref, load8, load16, load32, load_le.
  split; fix_tac.
Qed.

Lemma apply_downlink_fixes match_sdf pdr :
  ok pdr → (∀ sdf, fixes (match_sdf sdf)) → fixes (apply_downlink cfg match_sdf pdr).
Proof.
  intros Hok Hm. unfold apply_downlink, select_downlink.
  fix_tac; auto using send_to_gtp_tunnel_fixes; (eapply fixes_update_urr; [done|set_solver]).
Qed.

Lemma handle_n6_fixes : fixes (handle_n6_packet_ipv4 cfg) ∧ fixes (handle_n6_packet_ipv6 cfg).
Proof.
  unfold handle_n6_packet_ipv4, handle_n6_packet_ipv6, deref.
  split; fix_tac; (apply fixes_from_any, apply_downlink_fixes; [|intros; apply match_sdf_fixes]);
    destruct Hmaps as (_ & H4 & H6); [eapply H4|eapply H6]; done.
Qed.

Lemma match_inner_fixes parse match_sdf pdr :
  fixes parse → (∀ sdf, fixes (match_sdf sdf)) → fixes (match_inner parse match_sdf pdr).
Proof.
  intros Hp Hm. destruct parsers_fix as (_ & _ & _ & ? & ?). unfold match_inner, parse_l4. fix_tac; auto.
Qed.

Lemma select_uplink_fixes pdr : fixes (select_uplink pdr).
Proof.
  destruct parsers_fix as (_ & ? & ? & _). unfold select_uplink, guess_eth_protocol, load8, load_le.
  fix_tac; (apply match_inner_fixes; [done|intros; apply match_sdf_fixes]).
Qed.

Lemma update_gtp_tunnel_fixes a b c d : fixes (update_gtp_tunnel a b c d).
Proof. unfold update_gtp_tunnel, deref, store32, store16, ipv4_csum. fix_tac. Qed.

Lemma outer_header_fixes far ohr : fixes (outer_header cfg far ohr).
Proof. unfold outer_header. fix_tac; [apply update_gtp_tunnel_fixes|apply remove_gtp_fixes]. Qed.

Lemma prepare_icmp_fixes : fixes prepare_icmp_echo_reply.
Proof.
  unfold prepare_icmp_echo_reply, deref, within, swap_mac, swap_ip, load8, load16, load32, load_le, store8, store16, store32.
  fix_tac.
Qed.

Lemma forward_uplink_fixes : fixes (forward_uplink cfg).
Proof.
  unfold forward_uplink, load8, load32, load_le, deref.
  fix_tac; auto using prepare_icmp_fixes, route_ipv4_fixes, route_ipv6_fixes; apply handle_n6_fixes.
Qed.

Lemma apply_uplink_fixes pdr : ok pdr → fixes (apply_uplink cfg pdr).
Proof.
  intros Hok. unfold apply_uplink.
  fix_tac; auto using select_uplink_fixes, outer_header_fixes, forward_uplink_fixes;
    (eapply fixes_update_urr; [done|set_solver]).
Qed.

Lemma parse_gtp_fixes : fixes parse_gtp.
Proof. unfold parse_gtp, load8, load_le. fix_tac. Qed.

Lemma insert_recovery_fixes g e : fixes (insert_recovery g e).
Proof. unfold insert_recovery, load8, load_le, store8. fix_tac. Qed.

Lemma add_be16_fixes p n : fixes (add_be16 p n).
Proof. unfold add_be16, load16, load_le, store16. fix_tac. Qed.

Lemma swap_ip_fixes p : fixes (swap_ip p).
Proof. unfold swap_ip, load32, load_le, store32. fix_tac. Qed.
Lemma swap_port_fixes p : fixes (swap_port p).
Proof. unfold swap_port, load16, load_le, store16. fix_tac. Qed.
Lemma swap_mac_fixes p : fixes (swap_mac p).
Proof. unfold swap_mac. fix_tac. Qed.
#[local] Hint Resolve insert_recovery_fixes add_be16_fixes swap_ip_fixes swap_port_fixes swap_mac_fixes : fixes.

Lemma handle_echo_request_fixes : fixes handle_echo_request.
Proof.
  unfold handle_echo_request, deref, ipv4_csum, store8, store16.
  fix_tac.
Qed.

Lemma handle_gtp_packet_fixes : fixes (handle_gtp_packet cfg).
Proof.
  unfold handle_gtp_packet, load32, load_le. fix_tac. apply fixes_from_any, apply_uplink_fixes.
  destruct Hmaps as (Ht & _). by eapply Ht.
Qed.

Lemma handle_gtpu_fixes : fixes (handle_gtpu cfg).
Proof.
  unfold handle_gtpu. fix_tac; auto using parse_gtp_fixes, handle_gtp_packet_fixes, handle_echo_request_fixes.
Qed.

Lemma process_packet_fixes : fixes (process_packet cfg).
Proof.
  destruct parsers_fix as (? & ? & ? & ? & ?), handle_n6_fixes.
  unfold process_packet, handle_ip4, handle_ip6, handle_ip4_protocol, handle_udp, from_n6, deref, load32, load_le.
  fix_tac; auto using handle_gtpu_fixes.
Qed.

(** Counting the action comes after all else: [f] does not see it when it does
    not see the statistics. *)
Theorem packets_fix x :
  (∀ s y, f (set_x_stat s y) = f y) → tables_ok ok (x_maps x) →
  f (upf_ip_entrypoint_func cfg x).1 = f x.
Proof.
  intros Hstat Hx. unfold upf_ip_entrypoint_func. set (y := set_x_stat _ x).
  pose proof (process_packet_fixes (mkRun y (new_context (x_data y) (x_data_end y))) Hx) as Hk.
  rewrite <-(Hstat (Some (default zeroUpfStatistic (x_stat x))) x). fold y.
  destruct (process_packet _ _) as [r [a|e|]]; cbn in *; [by rewrite Hstat|done..].
Qed.

End effects.
