(* ===== verification/XdpTables.v ===== *)
(** * What packets do to the rules

    The tables belong to the control plane: of their contents the data plane
    changes only the windows of the rate limiter and the volumes of the URRs. *)

From S2P Require Import Prelude Net ForwardingPlane Stats Dataplane.
From S2P Require Import XdpMemory XdpParse XdpGtp XdpRules XdpProgram XdpForward XdpEffects XdpDemo.

(** A QER without the windows of its rate limiter. *)
Definition qer_rule (q : QerInfo) : QerInfo :=
  mkQerInfo (GateStatusUL q) (GateStatusDL q) (Qfi q) (MaxBitrateUL q) (MaxBitrateDL q) 0 0.

(** What the control plane has put into the tables: for URRs, which exist. *)
Definition rules (maps : FPView) : FPView :=
  mkFPView (v_far maps) (qer_rule <$> v_qer maps) ((λ _, zeroUrrInfo) <$> v_urr maps)
    (v_teid maps) (v_ip4 maps) (v_ip6 maps).

Definition any_pdr (pdr : IpEntrypointPdrInfo) : Prop := True.

Lemma rules_observation : observation (rules ∘ x_maps) any_pdr.
Proof.
  split; try done.
  - intros d start id q x Hq. cbn. unfold rules. f_equal. cbn. rewrite fmap_insert.
    apply insert_id. rewrite lookup_fmap, Hq. by destruct d.
  - intros pdr id u d x _ _. cbn. unfold rules. f_equal. cbn. apply map_eq. intros k.
    rewrite !lookup_fmap. destruct (decide (k = id)) as [->|Hne].
    + rewrite lookup_alter_eq. by destruct (v_urr (x_maps x) !! id).
    + by rewrite lookup_alter_ne.
Qed.

(** A packet changes no rule.  Whatever the frame and the tables hold, after it
    the FARs, all three PDR tables, the gates, rates and QFI of every QER and
    the set of URRs are what they were; only windows and volumes may have
    changed. *)
Lemma packets_rules `{XdpKernel} cfg x :
  rules (x_maps (upf_ip_entrypoint_func cfg x).1) = rules (x_maps x).
Proof.
  refine (packets_fix _ _ rules_observation cfg x (λ _ _, eq_refl) _).
  split_and!; by intros k pdr _.
Qed.
