(* ===== verification/XdpCache.v ===== *)
(** * The route cache (cmd/ebpf/xdp/utils/routing.h)

    A build with ENABLE_ROUTE_CACHE asks the kernel's routing table once for
    each destination.  Here it is compared with the default build: two runs of
    the program, one on a machine with the cache and one on a machine without
    it, side by side. *)

From S2P Require Import Prelude Net ForwardingPlane Stats.
From S2P Require Import XdpMemory XdpParse XdpGtp XdpRules XdpProgram XdpDemo XdpSafety.

(** ** Two machines *)

Section machines.
Context `{XdpKernel}.
Implicit Types (x y : Xdp) (r s : Run).

(** A route that the table gives to one packet it gives to every packet to the
    same address: routing does not look at sources, sizes or interfaces. *)
Definition routes_by_destination : Prop :=
  ∀ p p' route, fib_dst p = fib_dst p' →
    bpf_fib_lookup p = (BPF_FIB_LKUP_RET_SUCCESS, route) → bpf_fib_lookup p' = (BPF_FIB_LKUP_RET_SUCCESS, route).

(** What the cache was told last for a key is what the table would answer. *)
Definition remembers (events : list cache_event) : Prop :=
  ∀ daddr route, last_update events daddr = Some route →
    ∀ p, fib_dst p = daddr → bpf_fib_lookup p = (BPF_FIB_LKUP_RET_SUCCESS, route).

(** [y] is [x] without the cache; the routing statistics may differ. *)
Record alike x y : Prop := {
  al_buf : x_buf x = x_buf y;
  al_data : x_data x = x_data y;
  al_ingress : x_ingress x = x_ingress y;
  al_maps : x_maps x = x_maps y;
  al_stat : x_stat x = x_stat y;
  al_target : x_target x = x_target y;
  al_ticks : x_ticks x = x_ticks y;
  al_route : is_Some (x_route x) ↔ is_Some (x_route y);
  al_without : x_cache y = None;
  al_cache events : x_cache x = Some events → remembers events
}.

Definition runs_alike r s : Prop := alike (xdp r) (xdp s) ∧ ctx r = ctx s.

(** Unless the second run makes an illegal access, both have the same result. *)
Definition sim {A} (m m' : M Run A) : Prop := ∀ r s,
  runs_alike r s → (m' s).2 ≠ Panic → (m r).2 = (m' s).2 ∧ runs_alike (m r).1 (m' s).1.

End machines.

Ltac alike_tac := intros; repeat match goal with H : alike _ _ |- _ => destruct H end; split; cbn; first [done|congruence].

Section cache.
Context `{XdpKernelLaws}.
Implicit Types (x y : Xdp) (r s : Run).

Lemma sim_bind {A B} (m m' : M Run A) (k k' : A → M Run B) :
  sim m m' → (∀ a, sim (k a) (k' a)) → sim (m ≫= k) (m' ≫= k').
Proof.
  intros Hm Hk r s Hr Hp. specialize (Hm r s Hr). unfold mbind, M_bind in *.
  destruct (m r) as [r1 o], (m' s) as [s1 o']. cbn in *. destruct o' as [a|e|]; [..|done].
  - destruct Hm as [-> Hr1]; [done|]. by apply Hk.
  - by destruct Hm as [-> Hr1].
Qed.

Lemma sim_ret {A} (a : A) : sim (mret a) (mret a).
Proof. by intros r s Hr _. Qed.
Lemma sim_panic {A} (m : M Run A) : sim m panic.
Proof. by intros r s Hr Hp. Qed.
Lemma sim_gets_ctx : sim (gets ctx) (gets ctx).
Proof. intros r s [Hx Hc] _. cbn. by rewrite Hc. Qed.
Lemma sim_modify_ctx f : sim (modify (on_ctx f)) (modify (on_ctx f)).
Proof. intros r s [Hx Hc] _. split; [done|]. split; [done|]. cbn. by rewrite Hc. Qed.

(** What a computation reads of the machine. *)
Lemma sim_gets {A} (f : Xdp → A) : (∀ x y, alike x y → f x = f y) → sim (gets (λ r, f (xdp r))) (gets (λ r, f (xdp r))).
Proof. intros Hf r s Hr _. split; [|done]. cbn. f_equal. apply Hf, Hr. Qed.

Lemma sim_gets_xdp {B} (k k' : Xdp → M Run B) :
  (∀ x y, alike x y → sim (k x) (k' y)) → sim (gets xdp ≫= k) (gets xdp ≫= k').
Proof. intros Hk r s Hr. cbn. by apply Hk; [apply Hr|]. Qed.

Lemma sim_modify (f g : Xdp → Xdp) :
  (∀ x y, alike x y → alike (f x) (g y)) → sim (modify (on_xdp f)) (modify (on_xdp g)).
Proof. intros Hf r s [Hx Hc] _. split; [done|]. split; [by apply Hf|done]. Qed.

(** One of the machines takes a step of its own. *)
Lemma sim_modify_l {B} (f : Xdp → Xdp) (k : unit → M Run B) (m' : M Run B) :
  (∀ x y, alike x y → alike (f x) y) → sim (k tt) m' → sim (modify (on_xdp f) ≫= k) m'.
Proof. intros Hf Hk r s [Hx Hc]. apply Hk. split; [by apply Hf|done]. Qed.

Lemma sim_modify_r {B} (f : Xdp → Xdp) (m : M Run B) (k : unit → M Run B) :
  (∀ x y, alike x y → alike x (f y)) → sim m (k tt) → sim m (modify (on_xdp f) ≫= k).
Proof. intros Hf Hk r s [Hx Hc]. apply Hk. split; [by apply Hf|done]. Qed.

(** What the second machine reads alone. *)
Lemma sim_load_r {B} p n (m : M Run B) (k : bytes → M Run B) :
  (∀ b, sim m (k b)) → sim m (load p n ≫= k).
Proof.
  intros Hk r s Hr Hp. unfold mbind, M_bind, load in *. destruct (accessible _ _ _); [|done]. by apply Hk.
Qed.

Lemma alike_end x y : alike x y → x_data_end x = x_data_end y.
Proof. intros Ha. unfold x_data_end. by rewrite (al_buf _ _ Ha). Qed.

Lemma alike_accessible x y p n : alike x y → accessible x p n = accessible y p n.
Proof. intros Ha. unfold accessible. by rewrite (al_data _ _ Ha), (alike_end _ _ Ha). Qed.

Lemma sim_load p n : sim (load p n) (load p n).
Proof.
  intros r s Hr _. destruct Hr as [Ha Hc]. unfold load. rewrite (alike_accessible _ _ p n Ha), (al_buf _ _ Ha).
  by destruct (accessible _ _ _).
Qed.

Lemma sim_store p bs : sim (store p bs) (store p bs).
Proof.
  intros r s Hr _. destruct Hr as [Ha Hc]. unfold store. rewrite (alike_accessible _ _ p _ Ha).
  destruct (accessible _ _ _); [|done]. split; [done|]. split; [|done].
  alike_tac.
Qed.

Lemma sim_adjust d : sim (adjust_head d) (adjust_head d).
Proof.
  intros r s [Ha Hc] _. unfold adjust_head. rewrite (al_data _ _ Ha), (alike_end _ _ Ha).
  destruct (_ =? 0); [|done]. split; [done|]. split; [|done]. alike_tac.
Qed.

Lemma sim_ktime : sim ktime ktime.
Proof.
  intros r s [Ha Hc] _. unfold ktime. rewrite (al_ticks _ _ Ha). split; [done|]. split; [|done].
  alike_tac.
Qed.

Lemma sim_with_context {A} c (m m' : M Run A) : sim m m' → sim (with_context c m) (with_context c m').
Proof.
  intros Hm r s [Ha Hc] Hp. specialize (Hm (set_ctx c r) (set_ctx c s)). unfold with_context in *.
  destruct (m _) as [r1 o], (m' _) as [s1 o']. cbn in *. destruct Hm as [Ho [Ha1 _]]; [by split|done|]. done.
Qed.

Lemma sim_count k : sim (increment_counter k) (increment_counter k).
Proof. apply sim_modify. alike_tac. Qed.
Lemma sim_update_urr id u d : sim (update_urr id u d) (update_urr id u d).
Proof. apply sim_modify. alike_tac. Qed.
Lemma sim_set_maps f : sim (modify (on_xdp (λ x, set_x_maps (f (x_maps x)) x)))
                           (modify (on_xdp (λ x, set_x_maps (f (x_maps x)) x))).
Proof. apply sim_modify. alike_tac. Qed.
Lemma sim_gets_maps : sim (gets (λ r, x_maps (xdp r))) (gets (λ r, x_maps (xdp r))).
Proof. apply (sim_gets x_maps). intros x y []. done. Qed.
Lemma sim_gets_ingress : sim (gets (λ r, x_ingress (xdp r))) (gets (λ r, x_ingress (xdp r))).
Proof. apply (sim_gets x_ingress). intros x y []. done. Qed.
Lemma sim_gets_end : sim (gets (λ r, x_data_end (xdp r))) (gets (λ r, x_data_end (xdp r))).
Proof. apply (sim_gets x_data_end), alike_end. Qed.
Lemma sim_frame_size : sim (gets frame_size) (gets frame_size).
Proof.
  apply (sim_gets (λ x, x_data_end x - x_data x)). intros x y Ha. by rewrite (alike_end _ _ Ha), (al_data _ _ Ha).
Qed.

(** ** Routing *)

Lemma alike_count_route k x y : alike x y → alike (set_x_route (bump_route k <$> x_route x) x) y.
Proof. intros []. split; cbn; try done. by rewrite fmap_is_Some. Qed.
Lemma alike_count_route_r k x y : alike x y → alike x (set_x_route (bump_route k <$> x_route y) y).
Proof. intros []. split; cbn; try done. by rewrite fmap_is_Some. Qed.

Lemma sim_count_route k k' : sim (count_route k) (count_route k').
Proof. apply sim_modify. intros x y Ha. by apply alike_count_route, alike_count_route_r. Qed.

Lemma sim_do_route e route : sim (do_route_ipv4 e route) (do_route_ipv4 e route).
Proof.
  unfold do_route_ipv4, redirect. apply sim_bind; [apply sim_store|intros _].
  apply sim_bind; [apply sim_store|intros _]. apply sim_bind; [apply sim_gets_ingress|intros ingress].
  case_match; [apply sim_ret|]. apply sim_bind; [|intros _; apply sim_ret].
  apply sim_modify. alike_tac.
Qed.

(** A lookup is noted in the cache. *)
Lemma alike_lookup daddr events x y :
  alike x y → x_cache x = Some events → alike (set_x_cache (Some (CacheLookup daddr :: events)) x) y.
Proof. intros [] Hx. split; cbn; try done. intros events' [= <-] daddr' route Hl. by eapply al_cache0. Qed.

(** Found in the cache: then the table would have said the same. *)
Lemma sim_cached_route {B} daddr (k k' : option route_record → M Run B) :
  sim (k None) (k' None) →
  (∀ route, (∀ p, fib_dst p = daddr → bpf_fib_lookup p = (BPF_FIB_LKUP_RET_SUCCESS, route)) →
     sim (k (Some route)) (k' None)) →
  sim (cached_route daddr ≫= k) (cached_route daddr ≫= k').
Proof.
  intros Hnone Hsome r s [Ha Hc]. unfold cached_route, mbind, M_bind. cbn. rewrite (al_without _ _ Ha).
  destruct (x_cache (xdp r)) as [events|] eqn:Hx; cbn; [|by apply Hnone].
  assert (runs_alike (on_xdp (set_x_cache (Some (CacheLookup daddr :: events))) r) s) as Hr
    by by split; [by apply alike_lookup|].
  destruct (bpf_lru_lookup events daddr) as [route|] eqn:Hl; [|by apply Hnone].
  apply lru_lookup_last in Hl. apply Hsome; [|done]. by eapply (al_cache _ _ Ha).
Qed.

Lemma sim_update_cache p route :
  routes_by_destination → bpf_fib_lookup p = (BPF_FIB_LKUP_RET_SUCCESS, route) →
  sim (update_route_cache_ipv4 (fib_dst p) route) (update_route_cache_ipv4 (fib_dst p) route).
Proof.
  intros Hdst Hp. apply sim_modify. intros x y []. split; cbn; try done; [by rewrite al_without0|].
  intros events (events0 & Hx & ->)%fmap_Some daddr route' Hl q Hq. cbn in Hl. case_decide as Hd; [|by eapply al_cache0].
  injection Hl as ->. by eapply Hdst; [|exact Hp]; congruence.
Qed.

Lemma sim_fib_result ok drop pass remember e p :
  (∀ route, bpf_fib_lookup p = (BPF_FIB_LKUP_RET_SUCCESS, route) → sim (remember route) (remember route)) →
  sim (fib_result ok drop pass remember e (bpf_fib_lookup p)) (fib_result ok drop pass remember e (bpf_fib_lookup p)).
Proof.
  intros Hr. unfold fib_result. destruct (bpf_fib_lookup p) as [rc route]. cbn [fst snd].
  destruct (Z.eqb_spec rc BPF_FIB_LKUP_RET_SUCCESS) as [->|_].
  - apply sim_bind; [apply sim_count_route|intros _]. apply sim_bind; [by apply Hr|intros _]. apply sim_do_route.
  - case_match; (apply sim_bind; [apply sim_count_route|intros _; apply sim_ret]).
Qed.

Lemma sim_load_le_r {B} p n (m : M Run B) (k : Z → M Run B) : (∀ v, sim m (k v)) → sim m (load_le p n ≫= k).
Proof.
  intros Hk r s Hr Hp. unfold load_le, mbind, M_bind, load in *. destruct (accessible _ _ _); [|done]. by apply Hk.
Qed.

Lemma sim_load_le p n : sim (load_le p n) (load_le p n).
Proof. apply sim_bind; [apply sim_load|intros b; apply sim_ret]. Qed.

Lemma sim_route_ipv4 e i : routes_by_destination → sim (route_ipv4 e i) (route_ipv4 e i).
Proof.
  intros Hdst. unfold route_ipv4. apply sim_gets_xdp. intros x y Ha. pose proof (al_route _ _ Ha) as Hr.
  rewrite (al_ingress _ _ Ha).
  destruct (x_route x), (x_route y); [|by destruct (proj1 Hr)|by destruct (proj2 Hr)|apply sim_ret].
  apply sim_bind; [apply sim_load|intros dst]. apply sim_cached_route.
  - do 3 (apply sim_bind; [apply sim_load_le|intros ?]). apply sim_bind; [apply sim_load|intros src].
    apply sim_fib_result. intros route Hp. exact (sim_update_cache _ _ Hdst Hp).
  - intros route Hroute. do 3 (apply sim_load_le_r; intros ?). apply sim_load_r. intros src. unfold fib_result.
    rewrite (Hroute (mkFibParams _ _ _ _ _ _ _)) by done. cbn [fst snd]. rewrite Z.eqb_refl.
    apply sim_bind; [apply sim_count_route|intros _]. unfold update_route_cache_ipv4.
    apply sim_modify_r; [|apply sim_do_route]. intros x' y' Ha'. destruct Ha'. split; cbn; try done.
    by rewrite al_without0.
Qed.

Lemma sim_route_ipv6 e i : sim (route_ipv6 e i) (route_ipv6 e i).
Proof.
  unfold route_ipv6. apply sim_gets_xdp. intros x y Ha. pose proof (al_route _ _ Ha) as Hr. rewrite (al_ingress _ _ Ha).
  destruct (x_route x), (x_route y); [|by destruct (proj1 Hr)|by destruct (proj2 Hr)|apply sim_ret].
  do 2 (apply sim_bind; [apply sim_load_le|intros ?]). do 2 (apply sim_bind; [apply sim_load|intros ?]).
  apply sim_fib_result. intros route _. apply sim_ret.
Qed.

(** ** The program

    Everything else runs the same way on both. *)

Ltac sim_tac :=
  repeat first
    [ progress cbn beta iota
    | match goal with
      | |- sim (mret _) (mret _) => apply sim_ret
      | |- sim _ panic => apply sim_panic
      | |- sim (gets xdp ≫= _) _ =>
          let x := fresh "x" in let y := fresh "y" in let Ha := fresh "Ha" in
          apply sim_gets_xdp; intros x y Ha; rewrite ?(al_data _ _ Ha), ?(alike_end _ _ Ha)
      | |- sim (_ ≫= _) (_ ≫= _) => apply sim_bind; [|intros ?]
      | |- sim (gets ctx) _ => apply sim_gets_ctx
      | |- sim (gets frame_size) _ => apply sim_frame_size
      | |- sim (gets (λ r, x_maps (xdp r))) _ => apply sim_gets_maps
      | |- sim (gets (λ r, x_data_end (xdp r))) _ => apply sim_gets_end
      | |- sim (modify (on_ctx _)) _ => apply sim_modify_ctx
      | |- sim (load _ _) _ => apply sim_load
      | |- sim (load_le _ _) _ => apply sim_load_le
      | |- sim (store _ _) _ => apply sim_store
      | |- sim (adjust_head _) _ => apply sim_adjust
      | |- sim ktime _ => apply sim_ktime
      | |- sim (increment_counter _) _ => apply sim_count
      | |- sim (update_urr _ _ _) _ => apply sim_update_urr
      | |- sim (with_context _ _) _ => apply sim_with_context
      end
    | solve [auto 2 with sim nocore]
    | case_match ].

Create HintDb sim discriminated.

Lemma deref_sim o : sim (deref o) (deref o).
Proof. unfold deref. sim_tac. Qed.
#[local] Hint Resolve deref_sim : sim.

Lemma parse_ethernet_sim : sim parse_ethernet parse_ethernet.
Proof. unfold parse_ethernet, load8, load16. sim_tac. Qed.
Lemma parse_ip4_sim : sim parse_ip4 parse_ip4.
Proof. unfold parse_ip4, load8, load16. sim_tac. Qed.
Lemma parse_ip6_sim : sim parse_ip6 parse_ip6.
Proof. unfold parse_ip6, load8, load16. sim_tac. Qed.
Lemma parse_udp_sim : sim parse_udp parse_udp.
Proof. unfold parse_udp, load8, load16. sim_tac. Qed.
Lemma parse_tcp_sim : sim parse_tcp parse_tcp.
Proof. unfold parse_tcp, load8, load16. sim_tac. Qed.
#[local] Hint Resolve parse_ethernet_sim parse_ip4_sim parse_ip6_sim parse_udp_sim parse_tcp_sim : sim.
Lemma parse_l4_sim n : sim (parse_l4 n) (parse_l4 n).
Proof. unfold parse_l4. sim_tac. Qed.
Lemma context_reinit_sim d e : sim (context_reinit d e) (context_reinit d e).
Proof. unfold context_reinit. sim_tac. Qed.
Lemma guess_eth_protocol_sim n : sim (guess_eth_protocol n) (guess_eth_protocol n).
Proof. unfold guess_eth_protocol, load8. sim_tac. Qed.
Lemma ipv4_csum_sim d n : sim (ipv4_csum d n) (ipv4_csum d n).
Proof. unfold ipv4_csum. sim_tac. Qed.
Lemma within_sim d n m : sim m m → sim (within d n m) (within d n m).
Proof. intros Hm. unfold within. by sim_tac. Qed.
Lemma swap_sim n : sim (swap_mac n) (swap_mac n) ∧ sim (swap_ip n) (swap_ip n) ∧ sim (swap_port n) (swap_port n).
Proof. unfold swap_mac, swap_ip, swap_port, load16, load32, store16, store32. split_and!; sim_tac. Qed.
Lemma swap_mac_sim n : sim (swap_mac n) (swap_mac n).
Proof. apply swap_sim. Qed.
Lemma swap_ip_sim n : sim (swap_ip n) (swap_ip n).
Proof. apply swap_sim. Qed.
Lemma swap_port_sim n : sim (swap_port n) (swap_port n).
Proof. apply swap_sim. Qed.
#[local] Hint Resolve parse_l4_sim context_reinit_sim guess_eth_protocol_sim ipv4_csum_sim within_sim swap_mac_sim
  swap_ip_sim swap_port_sim : sim.

(** *** GTP-U *)

Lemma parse_gtp_sim : sim parse_gtp parse_gtp.
Proof. unfold parse_gtp, load8. sim_tac. Qed.
Lemma remove_gtp_sim : sim remove_gtp_header remove_gtp_header.
Proof. unfold remove_gtp_header, load8, store16. sim_tac. Qed.
Lemma inner_packet_len_sim : sim inner_packet_len inner_packet_len.
Proof. unfold inner_packet_len, load16. sim_tac. Qed.
Lemma set_ip4_sim e i u g :
  let m := modify (λ r, on_ctx (context_set_ip4 (x_data (xdp r)) (x_data_end (xdp r)) e i u g) r) in sim m m.
Proof.
  intros m r s [Ha Hc] _. split; [done|]. split; [done|]. cbn. by rewrite (al_data _ _ Ha), (alike_end _ _ Ha), Hc.
Qed.
#[local] Hint Resolve parse_gtp_sim remove_gtp_sim inner_packet_len_sim set_ip4_sim : sim.

Lemma add_gtp_sim a b c d t : sim (add_gtp_over_ip4_headers a b c d t) (add_gtp_over_ip4_headers a b c d t).
Proof.
  unfold add_gtp_over_ip4_headers, fill_ip_header, fill_udp_header, fill_gtp_header, fill_gtp_ext_header,
    fill_gtp_ext_header_psc, within, store16. sim_tac.
Qed.
Lemma update_gtp_tunnel_sim a b c d : sim (update_gtp_tunnel a b c d) (update_gtp_tunnel a b c d).
Proof. unfold update_gtp_tunnel, store32, store16. sim_tac. Qed.
Lemma handle_echo_request_sim : sim handle_echo_request handle_echo_request.
Proof.
  unfold handle_echo_request, insert_recovery, add_be16, load8, load16, store8, store16. sim_tac.
Qed.
Lemma prepare_icmp_sim : sim prepare_icmp_echo_reply prepare_icmp_echo_reply.
Proof. unfold prepare_icmp_echo_reply, within, load8, load16, store8, store16. sim_tac. Qed.
#[local] Hint Resolve add_gtp_sim update_gtp_tunnel_sim handle_echo_request_sim prepare_icmp_sim : sim.

(** *** Rules *)

Lemma match_sdf_sim sdf :
  sim (match_sdf_filter_ipv4 sdf) (match_sdf_filter_ipv4 sdf) ∧ sim (match_sdf_filter_ipv6 sdf) (match_sdf_filter_ipv6 sdf).
Proof.
  unfold match_sdf_filter_ipv4, match_sdf_filter_ipv6, packet_ports, load8, load16, load32. split; sim_tac.
Qed.
Lemma limit_rate_sim d n id q : sim (limit_rate_sliding_window d n id q) (limit_rate_sliding_window d n id q).
Proof.
  unfold limit_rate_sliding_window. sim_tac. by apply (sim_set_maps (on_qer _)).
Qed.
#[local] Hint Resolve limit_rate_sim : sim.

Hypothesis Hdst : routes_by_destination.
Context (cfg : dataplane_config).

Lemma routes_sim e i : sim (route_ipv4 e i) (route_ipv4 e i) ∧ sim (route_ipv6 e i) (route_ipv6 e i).
Proof. split; [by apply sim_route_ipv4|apply sim_route_ipv6]. Qed.

Lemma send_to_gtp_tunnel_sim a b c d t : sim (send_to_gtp_tunnel a b c d t) (send_to_gtp_tunnel a b c d t).
Proof. unfold send_to_gtp_tunnel. sim_tac. apply routes_sim. Qed.

Lemma apply_downlink_sim match_sdf pdr :
  (∀ sdf, sim (match_sdf sdf) (match_sdf sdf)) → sim (apply_downlink cfg match_sdf pdr) (apply_downlink cfg match_sdf pdr).
Proof. intros Hm. unfold apply_downlink, select_downlink. sim_tac; auto using send_to_gtp_tunnel_sim. Qed.

Lemma handle_n6_sim :
  sim (handle_n6_packet_ipv4 cfg) (handle_n6_packet_ipv4 cfg) ∧ sim (handle_n6_packet_ipv6 cfg) (handle_n6_packet_ipv6 cfg).
Proof.
  unfold handle_n6_packet_ipv4, handle_n6_packet_ipv6. split; sim_tac; apply apply_downlink_sim; intros; apply match_sdf_sim.
Qed.

Lemma select_uplink_sim pdr : sim (select_uplink pdr) (select_uplink pdr).
Proof. unfold select_uplink, match_inner. sim_tac; apply match_sdf_sim. Qed.

Lemma forward_uplink_sim : sim (forward_uplink cfg) (forward_uplink cfg).
Proof. unfold forward_uplink, load8, load32. sim_tac; first [apply routes_sim|apply handle_n6_sim]. Qed.

Lemma apply_uplink_sim pdr : sim (apply_uplink cfg pdr) (apply_uplink cfg pdr).
Proof. unfold apply_uplink, outer_header. sim_tac; auto using select_uplink_sim, forward_uplink_sim. Qed.

Lemma handle_gtpu_sim : sim (handle_gtpu cfg) (handle_gtpu cfg).
Proof. unfold handle_gtpu, handle_gtp_packet, load32. sim_tac. apply apply_uplink_sim. Qed.

Lemma process_packet_sim : sim (process_packet cfg) (process_packet cfg).
Proof.
  unfold process_packet, handle_ip4, handle_ip6, handle_ip4_protocol, handle_udp, from_n6, load32.
  sim_tac; first [apply handle_n6_sim|apply handle_gtpu_sim].
Qed.

(** ** Packets one after the other *)

(** One packet on both machines. *)
Lemma upf_ip_entrypoint_func_alike x y :
  alike x y → 0 ≤ x_data y ≤ x_data_end y →
  (upf_ip_entrypoint_func cfg x).2 = (upf_ip_entrypoint_func cfg y).2 ∧
  alike (upf_ip_entrypoint_func cfg x).1 (upf_ip_entrypoint_func cfg y).1.
Proof.
  intros Ha Hy. destruct (entry_point_safe cfg y Hy) as (y' & action & Hrun & _).
  rewrite Hrun. revert Hrun. unfold upf_ip_entrypoint_func.
  assert (alike (set_x_stat (Some (default zeroUpfStatistic (x_stat x))) x)
                (set_x_stat (Some (default zeroUpfStatistic (x_stat y))) y)) as Ha' by alike_tac.
  rewrite (al_data _ _ Ha'), (alike_end _ _ Ha').
  set (c := new_context _ _). pose proof (process_packet_sim (mkRun _ c) (mkRun _ c) (conj Ha' eq_refl)) as Hsim.
  destruct (process_packet cfg (mkRun (set_x_stat _ x) c)) as [r o], (process_packet cfg (mkRun _ c)) as [s o'].
  cbn in Hsim. intros Hrun. destruct o' as [a'|e|]; [|done..]. destruct Hsim as [-> [Hrs _]]; [done|].
  injection Hrun as <- <-. split; [done|]. cbn. alike_tac.
Qed.

End cache.

(** A frame in its buffer, the interface it comes from, and what the control
    plane does to the tables before. *)
Record arrival := mkArrival {
  ar_buf : bytes;
  ar_data : Z;
  ar_ingress : Z;
  ar_control : FPView → FPView
}.

Definition arrive (a : arrival) (x : Xdp) : Xdp :=
  mkXdp (ar_buf a) (ar_data a) (ar_ingress a) (ar_control a (x_maps x)) (x_stat x) (x_route x) (x_cache x)
    (x_target x) (x_ticks x).

Definition arrival_ok (a : arrival) : Prop := 0 ≤ ar_data a ≤ Z.of_nat (length (ar_buf a)).

(** What is seen of a packet: the action, the frame, the interface of a
    redirection, and then the tables and the counters. *)
Record departure := mkDeparture {
  dp_action : outcome Z;
  dp_frame : bytes;
  dp_target : option Z;
  dp_maps : FPView;
  dp_stat : option UpfStatistic
}.

Fixpoint departures `{XdpKernel} (cfg : dataplane_config) (l : list arrival) (x : Xdp) : list departure :=
  match l with
  | [] => []
  | a :: l =>
      let '(x', action) := upf_ip_entrypoint_func cfg (arrive a x) in
      mkDeparture action (x_frame x') (x_target x') (x_maps x') (x_stat x') :: departures cfg l x'
  end.

Lemma departures_alike `{XdpKernelLaws} cfg l x y :
  routes_by_destination → Forall arrival_ok l → alike x y → departures cfg l x = departures cfg l y.
Proof.
  intros Hdst Hl. revert x y. induction Hl as [|a l Ha _ IH]; intros x y Hxy; [done|]. cbn.
  assert (alike (arrive a x) (arrive a y)) as Hxy' by alike_tac.
  destruct (upf_ip_entrypoint_func_alike Hdst cfg _ _ Hxy' Ha) as [Ho Hs].
  destruct (upf_ip_entrypoint_func cfg (arrive a x)) as [x' o], (upf_ip_entrypoint_func cfg (arrive a y)) as [y' o'].
  cbn in *. subst o'. rewrite (IH _ _ Hs). destruct Hs. unfold x_frame. congruence.
Qed.

(** C24: the route cache changes nothing but the routing statistics, as long
    as the routing table answers by the destination alone.  For every sequence
    of frames, whatever the control plane does to the tables in between and
    whatever the kernel evicts, the build with the cache, empty at first, does
    to every packet what the build without it does: the same action, frame and
    interface, the same windows, volumes and counters. *)
Theorem route_cache_equivalent `{XdpKernelLaws} cfg l x :
  routes_by_destination → Forall arrival_ok l →
  departures cfg l (set_x_cache (Some []) x) = departures cfg l (set_x_cache None x).
Proof. intros Hdst Hl. apply departures_alike; [done|done|]. split; cbn; try done. by intros ? [= <-]. Qed.

(** ** Concrete runs *)

Definition demo_arrival (frame : bytes) : arrival := mkArrival (replicate 256 0 ++ frame) 256 1 (λ maps, maps).
Definition demo_start (cache : option (list cache_event)) : Xdp := set_x_cache cache (demo_xdp []).

Fixpoint demo_end `{XdpKernel} (l : list arrival) (x : Xdp) : Xdp :=
  match l with [] => x | a :: l => demo_end l (upf_ip_entrypoint_func demo_config (arrive a x)).1 end.

(** Two packets to the same UE: the second one finds the route in the cache,
    and leaves as it does without. *)
Lemma route_cache_equivalent_witness :
  let l := [demo_arrival demo_frame_dl; demo_arrival demo_frame_dl] in
  FibLookupIp4Cache <$> x_route (demo_end l (demo_start (Some []))) = Some 1 ∧
  departures demo_config l (demo_start (Some [])) = departures demo_config l (demo_start None).
Proof.
  intros l. split; [by vm_compute|]. apply (route_cache_equivalent demo_config l (demo_xdp [])).
  - by intros p p' route _ [= <-].
  - repeat constructor; by vm_compute.
Defined.

(** The table also looks at the length: behind a link with an MTU of 1400 bytes
    it answers that a longer packet needs to be fragmented.  A second passes
    between two packets. *)
Definition mtu_kernel : XdpKernel := {|
  bpf_xdp_adjust_head := @bpf_xdp_adjust_head demo_kernel;
  bpf_csum_diff := demo_csum;
  bpf_fib_lookup p := if 1400 <? fib_tot_len p then (8, mkFibResult 0 (replicate 6 0) (replicate 6 0))
                      else @bpf_fib_lookup demo_kernel p;
  bpf_redirect _ := 4;
  bpf_lru_lookup := @bpf_lru_lookup demo_kernel;
  bpf_ktime_get_ns n := 20000000 + Z.of_nat n * 1000000000
|}.

(** A packet of 1380 bytes to the UE. *)
Definition demo_long_packet : bytes := [69; 0; 5; 100] ++ drop 4 demo_packet ++ replicate 1340 0.

(** Then the builds differ: once a short packet has put the route into the
    cache, the long one is sent over the link without the question, which the
    default build leaves to the host's stack. *)
Example route_cache_skips_mtu :
  let l := [demo_arrival demo_frame_dl; demo_arrival (demo_macs ++ [8; 0] ++ demo_long_packet)] in
  dp_action <$> @departures mtu_kernel demo_config l (demo_start (Some [])) = [Ok XDP_REDIRECT; Ok XDP_REDIRECT] ∧
  dp_action <$> @departures mtu_kernel demo_config l (demo_start None) = [Ok XDP_REDIRECT; Ok XDP_PASS].
Proof. split; by vm_compute. Qed.
