(* ===== verification/EndToEnd.v ===== *)
(** * The program on its kernel maps

    The safety of the receive loop, which holds over any forwarding plane, on
    the one the program uses: what it says about the contents of the kernel's
    maps. *)

From S2P Require Import Prelude IdTracker Net Config KernelMap ForwardingPlane Dataplane Resources.
From S2P Require Import Session Pfcp PdrContext Connection SessionHandlers Ownership Association.
From S2P Require Import AssociationFacts EventLoop.

Section program.
Context `{BitmapLaws B} `{KernelMapLaws Mp} `{Pfcp} `{MapOrder} (Conf : UpfConfig).
Variable Parse : bytes → result Message.
Variable ResolveUDPAddr : string → result NetIP.
Variable Send : OutMsg → NetIP → result unit.
Variable ListenUDP : NetIP → result unit.
Variable ipnetgen_New : string → result (list NetIP).
Variable Now : Z.
Implicit Types c : PfcpConnection (BpfObjects B Mp).

(** The indices a table's pool has given out and not got back. *)
Definition outstanding (t : IdTracker B) (k : Z) : Prop := 0 ≤ k < maxSize t ∧ k ∉ Iterator (bitmap t).

Lemma Load_repr s0 fp : fresh_maps s0 → LoadTrackers s0 = (fp, Ok tt) → bpf_repr fp empty_view.
Proof.
  intros (HF & HQ & HU & HT & Hd4 & Hd6) Hload. unfold LoadTrackers in Hload.
  injection Hload as <-. unfold bpf_repr. cbn. split_and!; try done; by apply fresh_store_repr.
Qed.

Lemma store_slot {V} (t : IdTracker B) (m : Mp Z V) v k x :
  store_repr t m v → v !! k = Some x → km_get m k = Some x ∧ outstanding t k.
Proof.
  intros (_ & (_ & Hfree & _) & Hsub & _ & Hval) Hv. split; [by apply Hval|].
  apply elem_of_dom_2 in Hv as Hd. split; [by apply elem_of_pool, Hsub|]. rewrite Hfree. set_solver.
Qed.

Lemma conn_owns_slot {E V} (get : Session → gmap Z E) gid (info : E → V) c (t : IdTracker B)
    (m : Mp Z V) v a s i e :
  conn_owns get gid info c v → store_repr t m v → rule_at get c a s i e →
  km_get m (gid e) = Some (info e) ∧ outstanding t (gid e).
Proof. intros [Ht _] Hst Hat. destruct (Ht _ _ _ _ Hat) as [_ Hv]. by eapply store_slot. Qed.

(** End to end.  The program is started on empty kernel maps: the index
    pools are loaded, the resource pools created, the socket opened.  Then in
    every state the receive loop reaches, the kernel holds what the sessions
    say -- the slot of each session's FAR, QER and URR has that rule's data,
    its index is not in the pool of free indices, and no other rule of any
    session has it -- and the loop completes its next turn.  (Here the
    maps change by the control plane alone; [Traffic] adds the packets.) *)
Theorem kernel_maps_hold_rules s0 fp fuel rm c0 c :
  fresh_maps s0 → LoadTrackers s0 = (fp, Ok tt) →
  NewResourceManager ipnetgen_New fuel (UEIPPool Conf) (FTEIDPool Conf) = Some (Ok rm) →
  start_connection Conf ResolveUDPAddr ListenUDP ipnetgen_New Now fuel fp = Some (Ok c0) →
  reaches Conf Parse ResolveUDPAddr Send c0 c →
  let K := mapOperations c in
  (∀ a s i far, rule_at FARs c a s i far →
     km_get (FarMap K) (sf_GlobalId far) = Some (sf_FarInfo far) ∧
     outstanding (farIdTracker K) (sf_GlobalId far) ∧
     ∀ a' s' i' far', rule_at FARs c a' s' i' far' → sf_GlobalId far = sf_GlobalId far' →
       a = a' ∧ s = s' ∧ i = i') ∧
  (∀ a s i qer, rule_at QERs c a s i qer →
     km_get (QerMap K) (sq_GlobalId qer) = Some (sq_QerInfo qer) ∧
     outstanding (qerIdTracker K) (sq_GlobalId qer)) ∧
  (∀ a s i urr, rule_at URRs c a s i urr →
     km_get (UrrMap K) (su_GlobalId urr) = Some (su_UrrInfo urr) ∧
     outstanding (urrIdTracker K) (su_GlobalId urr)) ∧
  ∀ e, event_ok Parse c e → ∃ c', Run_turn Conf Parse ResolveUDPAddr Send e c = (c', Ok tt).
Proof.
  intros Hfresh Hload Hrm Hstart Hreach K.
  pose proof (start_connection_inv Conf ResolveUDPAddr ListenUDP ipnetgen_New Now fuel fp empty_view rm c0
    (Load_repr _ _ Hfresh Hload) Hrm Hstart) as Hinv0.
  pose proof (reaches_inv Conf Parse ResolveUDPAddr Send c0 c Hinv0 Hreach) as Hinv.
  split; [|split; [|split]].
  4:{ intros e Hok. exact (Run_turn_completes Conf Parse ResolveUDPAddr Send c e Hinv Hok). }
  all: destruct Hinv as (_ & v & (RF & RQ & RU & _) & HF & HQ & HU); intros a s i e Hat.
  - destruct (conn_owns_slot FARs sf_GlobalId sf_FarInfo c (farIdTracker K) (FarMap K) _ _ _ _ _ HF RF Hat)
      as [? ?]. split; [done|]. split; [done|].
    intros a' s' i' e' Hat' Heq. by apply (proj2 HF _ _ _ _ _ _ _ _ Hat Hat').
  - exact (conn_owns_slot QERs sq_GlobalId sq_QerInfo c (qerIdTracker K) (QerMap K) _ _ _ _ _ HQ RQ Hat).
  - exact (conn_owns_slot URRs su_GlobalId su_UrrInfo c (urrIdTracker K) (UrrMap K) _ _ _ _ _ HU RU Hat).
Qed.

End program.

(** ** A concrete run

    The peer of [EventLoop] on the maps of [Dataplane]: an association, then a
    session with a FAR, a URR and a PDR. *)

#[local] Existing Instance ascending_order.
#[local] Existing Instance demo_pfcp.

Abbreviation DemoConnection := (PfcpConnection (BpfObjects (gset Z) kmap)).

Definition demo_fp : BpfObjects (gset Z) kmap := (LoadTrackers demo_objects).1.

Definition demo_kturn (e : LoopEvent) (c : DemoConnection) : DemoConnection :=
  (Run_turn demo_config demo_parse demo_resolve demo_send e c).1.

Definition demo_k0 : DemoConnection :=
  match start_connection demo_config demo_resolve demo_listen demo_ipnetgen 1700000000 4 demo_fp with
  | Some (Ok c) => c
  | _ => mkPfcpConnection ∅ "" None None None demo_fp 0 [] None [] []
  end.
Definition demo_k1 : DemoConnection := demo_kturn (Received [1] demo_peer) demo_k0.
Definition demo_k2 : DemoConnection := demo_kturn (Received [2] demo_peer) demo_k1.

Lemma demo_kreaches : reaches demo_config demo_parse demo_resolve demo_send demo_k0 demo_k2.
Proof.
  eapply (reaches_turn _ _ _ _ _ demo_k1 (Received [2] demo_peer)); [|intros msg [= <-]|by vm_compute].
  - eapply (reaches_turn _ _ _ _ _ demo_k0 (Received [1] demo_peer)); [constructor| |by vm_compute].
    intros msg [= <-] ts [= <-]. by vm_compute.
  - split; [apply demo_establish_readable|by constructor; [apply demo_create_pdr_source|]].
Qed.

(** The rule a session has under an identifier. *)
Definition demo_krule {F E} (get : Session → gmap Z E) (c : PfcpConnection F) (i : Z) : option E :=
  a ← NodeAssociations c !! "10.0.0.2"%string; s ← Sessions a !! 2; get s !! i.

Lemma demo_krule_at {F E} (get : Session → gmap Z E) (c : PfcpConnection F) i e :
  demo_krule get c i = Some e → rule_at get c "10.0.0.2" 2 i e.
Proof.
  unfold demo_krule. intros He. apply bind_Some in He as (a & Ha & He).
  apply bind_Some in He as (s & Hs & He). by exists a, s.
Qed.

(** The session's FAR is in slot 0 of the kernel's FAR map. *)
Lemma kernel_maps_hold_rules_witness :
  let K := mapOperations demo_k2 in
  demo_krule FARs demo_k2 1 = Some (mkSFarInfo (mkFarInfo 2 1 100 16777343 0) 0) ∧
  km_get (FarMap K) 0 = Some (mkFarInfo 2 1 100 16777343 0) ∧ outstanding (farIdTracker K) 0.
Proof.
  intros K. assert (demo_krule FARs demo_k2 1 = Some (mkSFarInfo (mkFarInfo 2 1 100 16777343 0) 0)) as Hr
    by by vm_compute.
  split; [exact Hr|].
  destruct (kernel_maps_hold_rules demo_config demo_parse demo_resolve demo_send demo_listen
    demo_ipnetgen 1700000000 demo_objects demo_fp 4
    (mkResourceManager (Some zeroIPAM) (Some (mkFTEIDM [1; 2; 3] (Some ∅)))) demo_k0 demo_k2
    demo_objects_fresh) as [Hfar _]; [by vm_compute..|exact demo_kreaches|].
  destruct (Hfar _ _ _ _ (demo_krule_at _ _ _ _ Hr)) as (Hm & Ho & _). split; [exact Hm|exact Ho].
Defined.
