(* ===== verification/Traffic.v ===== *)
(** * The receive loop while packets pass

    The two halves of the program share the kernel's maps: between any two
    operations of the control plane the data plane may handle any number of
    packets.  [Shared] objects carry such traffic; they still honour the
    forwarding plane's contract, so everything proved of the loop against that
    contract holds under it. *)

From S2P Require Import Prelude IdTracker Net Config KernelMap ForwardingPlane Dataplane.
From S2P Require Import Resources Session Pfcp PdrContext Connection SessionHandlers Ownership Association.
From S2P Require Import AssociationFacts EventLoop EndToEnd.
From S2P Require Import Stats XdpMemory XdpParse XdpGtp XdpRules XdpProgram XdpEffects XdpTables XdpDemo.

(** ** A packet on the kernel's maps *)

Section packets.
Context `{BitmapLaws B} `{KernelMapLaws Mp} `{XdpKernel} (cfg : dataplane_config).
Abbreviation Objs := (BpfObjects B Mp).
Implicit Types s : Objs.

(** The tables the XDP program sees are the contents of the maps. *)
Definition kernel_tables s (maps : FPView) : Prop :=
  (∀ k, v_far maps !! k = km_get (FarMap s) k) ∧
  (∀ k, v_qer maps !! k = km_get (QerMap s) k) ∧
  (∀ k, v_urr maps !! k = km_get (UrrMap s) k) ∧
  (∀ k, v_teid maps !! k = km_get (PdrMapTeidIp4 s) k) ∧
  (∀ k, v_ip4 maps !! k = km_get (PdrMapDownlinkIp4 s) k) ∧
  (∀ k, v_ip6 maps !! k = km_get (PdrMapDownlinkIp6 s) k).

(** Only the contents of the maps differ. *)
Definition same_objects s s' : Prop :=
  km_same_shape (FarMap s) (FarMap s') ∧ km_same_shape (QerMap s) (QerMap s') ∧
  km_same_shape (UrrMap s) (UrrMap s') ∧ km_same_shape (PdrMapTeidIp4 s) (PdrMapTeidIp4 s') ∧
  km_same_shape (PdrMapDownlinkIp4 s) (PdrMapDownlinkIp4 s') ∧
  km_same_shape (PdrMapDownlinkIp6 s) (PdrMapDownlinkIp6 s') ∧
  farIdTracker s' = farIdTracker s ∧ qerIdTracker s' = qerIdTracker s ∧
  urrIdTracker s' = urrIdTracker s ∧ mapSizes s' = mapSizes s.

(** One packet: a run of the XDP program on the tables, from any frame and
    any statistics, leaves its tables in the maps. *)
Definition packet s s' : Prop :=
  same_objects s s' ∧
  ∃ x, kernel_tables s (x_maps x) ∧ kernel_tables s' (x_maps (upf_ip_entrypoint_func cfg x).1).

(** Any number of them. *)
Definition packets : Objs → Objs → Prop := rtc packet.

(** The maps hold the rules [v], except for what packets write: windows of
    rate limiters and volumes. *)
Definition holds_rules s (v : FPView) : Prop := ∃ w, bpf_repr s w ∧ rules w = rules v.

(** The part of the rules whose slots have new contents. *)
Definition reread {V} (m : Mp Z V) (v : gmap Z V) : gmap Z V := map_imap (λ k _, km_get m k) v.

Lemma store_packet {V U} (g : V → U) t (m m' : Mp Z V) (v X X' : gmap Z V) :
  store_repr t m v → (∀ k, X !! k = km_get m k) → (∀ k, X' !! k = km_get m' k) → g <$> X' = g <$> X →
  store_repr t m' (reread m' v) ∧ g <$> reread m' v = g <$> v.
Proof.
  intros (Hn & Ht & Hdom & Harr & Hv) HX HX' Hg.
  assert (Hkk : ∀ k, g <$> km_get m' k = g <$> km_get m k).
  { intros k. by rewrite <-HX, <-HX', <-!lookup_fmap, Hg. }
  assert (Hlk : ∀ k, reread m' v !! k = v !! k ≫= λ _, km_get m' k).
  { intros k. unfold reread. apply map_lookup_imap. }
  assert (Hgv : g <$> reread m' v = g <$> v).
  { apply map_eq. intros k. rewrite !lookup_fmap, Hlk. destruct (v !! k) as [y|] eqn:Hy; [|done].
    cbn. rewrite Hkk. by rewrite (Hv _ _ Hy). }
  split; [|done]. assert (dom (reread m' v) = dom v) as Hd.
  { by rewrite <-(dom_fmap_L g), Hgv, dom_fmap_L. }
  unfold store_repr. rewrite Hd. split; [done|]. split; [done|]. split; [done|]. split.
  - intros k. rewrite <-Harr. specialize (Hkk k).
    destruct (km_get m' k), (km_get m k); cbn in Hkk; try done; by split; eauto.
  - intros k x. rewrite Hlk. by destruct (v !! k).
Qed.

Lemma hash_packet {K} `{Countable K} {V} (m m' : Mp K V) (v X : gmap K V) :
  hash_repr m v → km_same_shape m m' → (∀ k, X !! k = km_get m k) → (∀ k, X !! k = km_get m' k) → hash_repr m' v.
Proof. intros [Ht Hv] [Ht' _] HX HX'. split; [congruence|]. intros k. congruence. Qed.

Lemma packet_holds_rules s s' v : packet s s' → holds_rules s v → holds_rules s' v.
Proof.
  intros [(HsF & HsQ & HsU & HsT & Hs4 & Hs6 & EF & EQ & EU & _) (x & HX & HX')] (w & Hw & Hr).
  pose proof (packets_rules cfg x) as Hkeep. set (X' := x_maps (_).1) in *.
  assert (E1 : v_far X' = v_far (x_maps x)) by (by apply (f_equal v_far) in Hkeep).
  assert (E2 : qer_rule <$> v_qer X' = qer_rule <$> v_qer (x_maps x)) by (by apply (f_equal v_qer) in Hkeep).
  assert (E3 : (λ _, zeroUrrInfo) <$> v_urr X' = (λ _, zeroUrrInfo) <$> v_urr (x_maps x))
    by (by apply (f_equal v_urr) in Hkeep).
  assert (E4 : v_teid X' = v_teid (x_maps x)) by (by apply (f_equal v_teid) in Hkeep).
  assert (E5 : v_ip4 X' = v_ip4 (x_maps x)) by (by apply (f_equal v_ip4) in Hkeep).
  assert (E6 : v_ip6 X' = v_ip6 (x_maps x)) by (by apply (f_equal v_ip6) in Hkeep).
  destruct HX as (HF & HQ & HU & HT & H4 & H6), HX' as (HF' & HQ' & HU' & HT' & H4' & H6').
  destruct Hw as (WF & WQ & WU & WT & W4 & W6).
  destruct (store_packet (λ f, f) _ _ (FarMap s') _ _ _ WF HF HF') as [WF' GF]; [by rewrite E1|].
  destruct (store_packet qer_rule _ _ (QerMap s') _ _ _ WQ HQ HQ' E2) as [WQ' GQ].
  destruct (store_packet (λ _, zeroUrrInfo) _ _ (UrrMap s') _ _ _ WU HU HU' E3) as [WU' GU].
  rewrite !map_fmap_id in GF. rewrite E4 in HT'. rewrite E5 in H4'. rewrite E6 in H6'.
  exists (mkFPView (reread (FarMap s') (v_far w)) (reread (QerMap s') (v_qer w)) (reread (UrrMap s') (v_urr w))
    (v_teid w) (v_ip4 w) (v_ip6 w)). split.
  - unfold bpf_repr. cbn. rewrite EF, EQ, EU. split_and!; try done; by eapply hash_packet.
  - rewrite <-Hr. unfold rules. cbn. by rewrite GF, GQ, GU.
Qed.

Lemma packets_hold_rules s s' v : packets s s' → holds_rules s v → holds_rules s' v.
Proof. induction 1; [done|]. eauto using packet_holds_rules. Qed.

End packets.

(** ** Objects that packets use *)

(** Between two operations of the control plane, what the packets that pass
    there do to the objects. *)
Definition Batch (B : Type) (Mp : Type → Type → Type) : Type := BpfObjects B Mp → BpfObjects B Mp.

(** The objects, and the batches still to come: one before each operation. *)
Definition Shared (B : Type) (Mp : Type → Type → Type) : Type := BpfObjects B Mp * list (Batch B Mp).

Section interrupted.
Context {B : Type} {Mp : Type → Type → Type}.

(** The next batch passes, then the operation runs. *)
Definition interrupted {A} (op : M (BpfObjects B Mp) A) : M (Shared B Mp) A := λ '(s, traffic),
  let '(s1, traffic') := match traffic with [] => (s, []) | batch :: rest => (batch s, rest) end in
  let '(s2, r) := op s1 in ((s2, traffic'), r).

End interrupted.

#[export] Instance shared_controller `{Bitmap B} `{KernelMap Mp} : ForwardingPlaneController (Shared B Mp) := {|
  PutPdrUplink k p := interrupted (PutPdrUplink k p);
  PutPdrDownlink k p := interrupted (PutPdrDownlink k p);
  UpdatePdrUplink k p := interrupted (UpdatePdrUplink k p);
  UpdatePdrDownlink k p := interrupted (UpdatePdrDownlink k p);
  DeletePdrUplink k := interrupted (DeletePdrUplink k);
  DeletePdrDownlink k := interrupted (DeletePdrDownlink k);
  PutDownlinkPdrIp6 k p := interrupted (PutDownlinkPdrIp6 k p);
  UpdateDownlinkPdrIp6 k p := interrupted (UpdateDownlinkPdrIp6 k p);
  DeleteDownlinkPdrIp6 k := interrupted (DeleteDownlinkPdrIp6 k);
  NewFar x := interrupted (NewFar x);
  UpdateFar id x := interrupted (UpdateFar id x);
  DeleteFar id := interrupted (DeleteFar id);
  NewQer x := interrupted (NewQer x);
  UpdateQer id x := interrupted (UpdateQer id x);
  DeleteQer id := interrupted (DeleteQer id);
  NewUrr x := interrupted (NewUrr x);
  UpdateUrr id x := interrupted (UpdateUrr id x);
  DeleteUrr id := interrupted (DeleteUrr id)
|}.

(** *** The contract, up to what packets write *)

(** [get] and [on] read and change one table of the view; [g] is what [rules]
    keeps of its entries. *)
Record rules_of {K} `{Countable K} {V U} (get : FPView → gmap K V)
    (on : (gmap K V → gmap K V) → FPView → FPView) (g : V → U) : Prop := {
  rules_get w v : rules w = rules v → g <$> get w = g <$> get v;
  rules_on w v f1 f2 : rules w = rules v → g <$> f1 (get w) = g <$> f2 (get v) →
    rules (on f1 w) = rules (on f2 v)
}.

Section rules_of.
Context `{Countable K} {V U : Type} (get : FPView → gmap K V) (on : (gmap K V → gmap K V) → FPView → FPView).
Context (g : V → U) (R : rules_of get on g).

Lemma rules_none w v k : rules w = rules v → get w !! k = None ↔ get v !! k = None.
Proof.
  intros Hr%(rules_get _ _ _ R). apply (f_equal (λ m, m !! k)) in Hr. cbn beta in Hr. rewrite !lookup_fmap in Hr.
  by destruct (get w !! k), (get v !! k).
Qed.

Lemma rules_insert w v k x : rules w = rules v → rules (on <[k:=x]> w) = rules (on <[k:=x]> v).
Proof. intros Hr. apply R; [done|]. by rewrite !fmap_insert, (rules_get _ _ _ R _ _ Hr). Qed.

Lemma rules_delete w v k : rules w = rules v → rules (on (delete k) w) = rules (on (delete k) v).
Proof. intros Hr. apply R; [done|]. by rewrite !fmap_delete, (rules_get _ _ _ R _ _ Hr). Qed.

Lemma rules_alter w v k x : rules w = rules v → rules (on (alter (λ _, x) k) w) = rules (on (alter (λ _, x) k) v).
Proof.
  intros Hr. apply R; [done|]. apply map_eq. intros k'. rewrite !lookup_fmap, !lookup_alter.
  pose proof (rules_get _ _ _ R _ _ Hr) as Hg. apply (f_equal (λ m, m !! k')) in Hg. cbn beta in Hg. rewrite !lookup_fmap in Hg.
  case_decide; [subst|done]. by destruct (get w !! k'), (get v !! k').
Qed.

End rules_of.

Ltac rules_of_table :=
  split; intros w v; [|intros f1 f2]; intros Hr; [|intros Hf]; injection Hr as HF HQ HU HT H4 H6;
    rewrite ?map_fmap_id in *; [done|];
    unfold rules, on_far, on_qer, on_urr, on_teid, on_ip4, on_ip6; cbn; congruence.

Lemma far_rules : rules_of v_far on_far (λ f, f).
Proof. rules_of_table. Qed.
Lemma qer_rules : rules_of v_qer on_qer qer_rule.
Proof. rules_of_table. Qed.
Lemma urr_rules : rules_of v_urr on_urr (λ _, zeroUrrInfo).
Proof. rules_of_table. Qed.
Lemma teid_rules : rules_of v_teid on_teid (λ p, p).
Proof. rules_of_table. Qed.
Lemma ip4_rules : rules_of v_ip4 on_ip4 (λ p, p).
Proof. rules_of_table. Qed.
Lemma ip6_rules : rules_of v_ip6 on_ip6 (λ p, p).
Proof. rules_of_table. Qed.

Section shared.
Context `{BitmapLaws B} `{KernelMapLaws Mp} `{XdpKernel} (cfg : dataplane_config).
Implicit Types σ : Shared B Mp.

(** A batch is some number of packets, wherever it comes. *)
Definition batch_ok (batch : Batch B Mp) : Prop := ∀ s, packets cfg s (batch s).

Definition shared_repr σ v : Prop := holds_rules σ.1 v ∧ Forall batch_ok σ.2.

(** An operation meets the rules the packets before it have left. *)
Lemma wp_interrupted {A} (op : M (BpfObjects B Mp) A) σ v (Q : A → Shared B Mp → Prop) E :
  shared_repr σ v →
  (∀ s w, bpf_repr s w → rules w = rules v →
     wp op s (λ a s', ∀ rest, Forall batch_ok rest → Q a (s', rest))
             (λ e s', ∀ rest, Forall batch_ok rest → E e (s', rest))) →
  wp (interrupted op) σ Q E.
Proof.
  destruct σ as [s traffic]. intros [Hs Ht] Hop. cbn in Hs, Ht.
  assert (∃ s1 rest, interrupted op (s, traffic) = (let '(s2, r) := op s1 in ((s2, rest), r)) ∧
            holds_rules s1 v ∧ Forall batch_ok rest) as (s1 & rest & Heq & (w & Hw & Hr) & Hrest).
  { destruct Ht as [|batch rest Hb Hrest]; [by exists s, []|]. exists (batch s), rest. split; [done|].
    split; [|done]. eapply packets_hold_rules; [apply Hb|done]. }
  specialize (Hop _ _ Hw Hr). unfold wp in *. rewrite Heq. destruct (op s1) as [s2 [a|e|]]; auto.
Qed.

Lemma shared_intro s w v rest :
  bpf_repr s w → rules w = rules v → Forall batch_ok rest → shared_repr (s, rest) v.
Proof. intros. split; [by exists w|done]. Qed.

Ltac shared_op Hop :=
  intros; eapply wp_interrupted; [eassumption|]; intros s w Hs Hr; eapply wp_mono; [by apply Hop|..]; cbn beta;
  [intros ? ? ? ? ?|intros ? ? ? ? ?]; destruct_and?.

Section rule_table.
Context {V U : Type} (get : FPView → gmap Z V) (on : (gmap Z V → gmap Z V) → FPView → FPView).
Context (g : V → U) (R : rules_of get on g).

Lemma shared_creates op : creates bpf_repr get on op → creates shared_repr get on (λ x, interrupted (op x)).
Proof.
  intros Hop σ v x Hσ. shared_op Hop.
  - split; [done|]. split; [by rewrite <-(rules_none _ _ _ R _ _ _ Hr)|].
    eapply shared_intro; [done| |done]. by apply (rules_insert _ _ _ R).
  - by eapply shared_intro.
Qed.

Lemma shared_updates op : updates bpf_repr get on op → updates shared_repr get on (λ k x, interrupted (op k x)).
Proof.
  intros Hop σ v k x Hk Hσ. shared_op Hop.
  - eapply shared_intro; [done| |done]. by apply (rules_alter _ _ _ R).
  - split; [by rewrite <-(rules_none _ _ _ R _ _ _ Hr)|]. by eapply shared_intro.
Qed.

Lemma shared_deletes {A} (op : Z → M _ A) :
  deletes bpf_repr get on (λ _ _, True) op → deletes shared_repr get on (λ _ _, True) (λ k, interrupted (op k)).
Proof.
  intros Hop σ v k Hk Hσ. shared_op Hop.
  - split; [done|]. eapply shared_intro; [done| |done]. by apply (rules_delete _ _ _ R).
  - split; [by rewrite <-(rules_none _ _ _ R _ _ _ Hr)|]. by eapply shared_intro.
Qed.

End rule_table.

Section pdr_table.
Context `{Countable K} (get : FPView → gmap K IpEntrypointPdrInfo).
Context (on : (gmap K IpEntrypointPdrInfo → gmap K IpEntrypointPdrInfo) → FPView → FPView).
Context (R : rules_of get on (λ p, p)).

Lemma rules_same_pdr w v : rules w = rules v → get w = get v.
Proof. intros Hr. pose proof (rules_get _ _ _ R _ _ Hr) as Hg. by rewrite !map_fmap_id in Hg. Qed.

Lemma shared_puts store op :
  puts bpf_repr get on store op → puts shared_repr get on store (λ k p, interrupted (op k p)).
Proof.
  intros Hop σ v k p Hσ. shared_op Hop; rewrite <-(rules_same_pdr w v) by done.
  - eapply shared_intro; [done| |done]. by apply (rules_insert _ _ _ R).
  - split; [done|]. by eapply shared_intro.
Qed.

Lemma shared_replaces store op :
  replaces bpf_repr get on store op → replaces shared_repr get on store (λ k p, interrupted (op k p)).
Proof.
  intros Hop σ v k p Hσ. shared_op Hop; rewrite <-(rules_same_pdr w v) by done; (split; [done|]).
  - eapply shared_intro; [done| |done]. by apply (rules_insert _ _ _ R).
  - by eapply shared_intro.
Qed.

Lemma shared_removes op :
  removes bpf_repr get on op → removes shared_repr get on (λ k, interrupted (op k)).
Proof.
  intros Hop σ v k Hσ. shared_op Hop; rewrite <-(rules_same_pdr w v) by done; (split; [done|]).
  - eapply shared_intro; [done| |done]. by apply (rules_delete _ _ _ R).
  - by eapply shared_intro.
Qed.

End pdr_table.

(** The objects honour the contract while packets pass. *)
Definition shared_plane : ForwardingPlane (Shared B Mp) := {|
  fp_repr := shared_repr;
  store_pdr := stored_pdr;
  NewFar_ok := shared_creates _ _ _ far_rules _ (NewFar_ok (F:=BpfObjects B Mp));
  UpdateFar_ok := shared_updates _ _ _ far_rules _ (UpdateFar_ok (F:=BpfObjects B Mp));
  DeleteFar_ok := shared_deletes _ _ _ far_rules _ (DeleteFar_ok (F:=BpfObjects B Mp));
  NewQer_ok := shared_creates _ _ _ qer_rules _ (NewQer_ok (F:=BpfObjects B Mp));
  UpdateQer_ok := shared_updates _ _ _ qer_rules _ (UpdateQer_ok (F:=BpfObjects B Mp));
  DeleteQer_ok := shared_deletes _ _ _ qer_rules _ (DeleteQer_ok (F:=BpfObjects B Mp));
  NewUrr_ok := shared_creates _ _ _ urr_rules _ (NewUrr_ok (F:=BpfObjects B Mp));
  UpdateUrr_ok := shared_updates _ _ _ urr_rules _ (UpdateUrr_ok (F:=BpfObjects B Mp));
  DeleteUrr_ok := shared_deletes _ _ _ urr_rules _ (DeleteUrr_ok (F:=BpfObjects B Mp));
  PutPdrUplink_ok := shared_puts _ _ teid_rules _ _ (PutPdrUplink_ok (F:=BpfObjects B Mp));
  PutPdrDownlink_ok := shared_puts _ _ ip4_rules _ _ (PutPdrDownlink_ok (F:=BpfObjects B Mp));
  PutDownlinkPdrIp6_ok := shared_puts _ _ ip6_rules _ _ (PutDownlinkPdrIp6_ok (F:=BpfObjects B Mp));
  UpdatePdrUplink_ok := shared_replaces _ _ teid_rules _ _ (UpdatePdrUplink_ok (F:=BpfObjects B Mp));
  UpdatePdrDownlink_ok := shared_replaces _ _ ip4_rules _ _ (UpdatePdrDownlink_ok (F:=BpfObjects B Mp));
  UpdateDownlinkPdrIp6_ok := shared_replaces _ _ ip6_rules _ _ (UpdateDownlinkPdrIp6_ok (F:=BpfObjects B Mp));
  DeletePdrUplink_ok := shared_removes _ _ teid_rules _ (DeletePdrUplink_ok (F:=BpfObjects B Mp));
  DeletePdrDownlink_ok := shared_removes _ _ ip4_rules _ (DeletePdrDownlink_ok (F:=BpfObjects B Mp));
  DeleteDownlinkPdrIp6_ok := shared_removes _ _ ip6_rules _ (DeleteDownlinkPdrIp6_ok (F:=BpfObjects B Mp))
|}.

End shared.

(** ** The loop on shared objects *)

Section loop.
Context `{BitmapLaws B} `{KernelMapLaws Mp} `{XdpKernel} (cfg : dataplane_config).
Context `{Pfcp} `{MapOrder} (Conf : UpfConfig).
Variable Parse : bytes → result Message.
Variable ResolveUDPAddr : string → result NetIP.
Variable Send : OutMsg → NetIP → result unit.
Variable ListenUDP : NetIP → result unit.
Variable ipnetgen_New : string → result (list NetIP).
Variable Now : Z.
Implicit Types c : PfcpConnection (Shared B Mp).

#[local] Instance plane_under_traffic : ForwardingPlane (Shared B Mp) := shared_plane cfg.

(** The slot of a rule the maps hold. *)
Lemma holds_far K v k x :
  holds_rules K v → v_far v !! k = Some x → km_get (FarMap K) k = Some x ∧ outstanding (farIdTracker K) k.
Proof.
  intros (w & (Hst & _) & Hr) Hk. eapply store_slot; [exact Hst|].
  apply (f_equal v_far) in Hr. cbn in Hr. by rewrite Hr.
Qed.

Lemma holds_qer K v k x :
  holds_rules K v → v_qer v !! k = Some x →
  (∃ q, km_get (QerMap K) k = Some q ∧ qer_rule q = qer_rule x) ∧ outstanding (qerIdTracker K) k.
Proof.
  intros (w & (_ & Hst & _) & Hr) Hk. apply (f_equal (λ r, v_qer r !! k)) in Hr. cbn in Hr.
  rewrite !lookup_fmap, Hk in Hr. destruct (v_qer w !! k) as [q|] eqn:Hq; [|done].
  apply (inj Some) in Hr. destruct (store_slot _ _ _ _ _ Hst Hq). split; [by exists q|done].
Qed.

Lemma holds_urr K v k x :
  holds_rules K v → v_urr v !! k = Some x →
  is_Some (km_get (UrrMap K) k) ∧ outstanding (urrIdTracker K) k.
Proof.
  intros (w & (_ & _ & Hst & _) & Hr) Hk. apply (f_equal (λ r, v_urr r !! k)) in Hr. cbn in Hr.
  rewrite !lookup_fmap, Hk in Hr. destruct (v_urr w !! k) as [u|] eqn:Hu; [|done].
  destruct (store_slot _ _ _ _ _ Hst Hu). split; [by exists u|done].
Qed.

(** The slots of a session's rules, after any packets. *)
Lemma conn_far c K a s i far :
  conn_inv c → packets cfg (mapOperations c).1 K → rule_at FARs c a s i far →
  km_get (FarMap K) (sf_GlobalId far) = Some (sf_FarInfo far) ∧ outstanding (farIdTracker K) (sf_GlobalId far).
Proof.
  intros (_ & v & [Hv _] & HF & _) Hpk Hat. destruct (proj1 HF _ _ _ _ Hat) as [_ Hk].
  eapply holds_far; [|done]. by eapply packets_hold_rules.
Qed.

Lemma conn_qer c K a s i qer :
  conn_inv c → packets cfg (mapOperations c).1 K → rule_at QERs c a s i qer →
  (∃ q, km_get (QerMap K) (sq_GlobalId qer) = Some q ∧ qer_rule q = qer_rule (sq_QerInfo qer)) ∧
  outstanding (qerIdTracker K) (sq_GlobalId qer).
Proof.
  intros (_ & v & [Hv _] & _ & HQ & _) Hpk Hat. destruct (proj1 HQ _ _ _ _ Hat) as [_ Hk].
  eapply holds_qer; [|done]. by eapply packets_hold_rules.
Qed.

Lemma conn_urr c K a s i urr :
  conn_inv c → packets cfg (mapOperations c).1 K → rule_at URRs c a s i urr →
  is_Some (km_get (UrrMap K) (su_GlobalId urr)) ∧ outstanding (urrIdTracker K) (su_GlobalId urr).
Proof.
  intros (_ & v & [Hv _] & _ & _ & HU) Hpk Hat. destruct (proj1 HU _ _ _ _ Hat) as [_ Hk].
  eapply holds_urr; [|done]. by eapply packets_hold_rules.
Qed.

(** C5: control plane and data plane together.  The program is started on
    empty kernel maps, and its pools could be created; while the receive loop
    runs on events as for [program_safe] ([event_ok]: messages whose FARs and
    time stamps can be read, whose PDIs have a source interface, and whose
    modifications name only rules of their session; without the last a removal
    deletes the FAR at index 0, whoever owns it), any packets pass between
    the operations its handlers make on the maps and between its turns.  Then
    at every moment the kernel holds what the sessions say: the slot of each
    session's FAR has its data, that of its QER has its gates, rates and QFI
    (only the windows of the rate limiter are the data plane's), its URR has a
    slot; the indices are not in the pools of free ones, and no two FARs share
    one -- and the loop completes its next turn on any such event. *)
Theorem kernel_maps_under_traffic s0 fp traffic fuel rm c0 c K :
  fresh_maps s0 → LoadTrackers s0 = (fp, Ok tt) →
  NewResourceManager ipnetgen_New fuel (UEIPPool Conf) (FTEIDPool Conf) = Some (Ok rm) →
  Forall (batch_ok cfg) traffic →
  start_connection Conf ResolveUDPAddr ListenUDP ipnetgen_New Now fuel (fp, traffic) = Some (Ok c0) →
  reaches Conf Parse ResolveUDPAddr Send c0 c → packets cfg (mapOperations c).1 K →
  (∀ a s i far, rule_at FARs c a s i far →
     km_get (FarMap K) (sf_GlobalId far) = Some (sf_FarInfo far) ∧
     outstanding (farIdTracker K) (sf_GlobalId far) ∧
     ∀ a' s' i' far', rule_at FARs c a' s' i' far' → sf_GlobalId far = sf_GlobalId far' →
       a = a' ∧ s = s' ∧ i = i') ∧
  (∀ a s i qer, rule_at QERs c a s i qer →
     (∃ q, km_get (QerMap K) (sq_GlobalId qer) = Some q ∧ qer_rule q = qer_rule (sq_QerInfo qer)) ∧
     outstanding (qerIdTracker K) (sq_GlobalId qer)) ∧
  (∀ a s i urr, rule_at URRs c a s i urr →
     is_Some (km_get (UrrMap K) (su_GlobalId urr)) ∧ outstanding (urrIdTracker K) (su_GlobalId urr)) ∧
  ∀ e, event_ok Parse c e → ∃ c', Run_turn Conf Parse ResolveUDPAddr Send e c = (c', Ok tt).
Proof.
  intros Hfresh Hload Hrm Htraffic Hstart Hreach Hpk.
  assert (fp_repr (fp, traffic) empty_view) as H0'.
  { split; [|done]. exists empty_view. split; [|done]. by eapply Load_repr. }
  pose proof (start_connection_inv Conf ResolveUDPAddr ListenUDP ipnetgen_New Now fuel _ _ rm c0 H0' Hrm Hstart)
    as Hinv0.
  pose proof (reaches_inv Conf Parse ResolveUDPAddr Send c0 c Hinv0 Hreach) as Hinv.
  split; [|split; [|split]].
  4:{ intros e Hok. exact (Run_turn_completes Conf Parse ResolveUDPAddr Send c e Hinv Hok). }
  all: intros a s i e Hat.
  - destruct (conn_far c K _ _ _ _ Hinv Hpk Hat). do 2 (split; [done|]). intros a' s' i' far' Hat' Heq.
    destruct Hinv as (_ & v & _ & HF & _). by apply (proj2 HF _ _ _ _ _ _ _ _ Hat Hat').
  - by apply (conn_qer c K _ _ _ _ Hinv Hpk Hat).
  - by apply (conn_urr c K _ _ _ _ Hinv Hpk Hat).
Qed.

End loop.

(** ** Packets on the maps of the witnesses *)

Section kmap_packets.
Context `{Bitmap B} `{XdpKernel} (cfg : dataplane_config).
Abbreviation Objs := (BpfObjects B kmap).

Definition contents {K} `{Countable K} {V} (m : kmap K V) : gmap K V := list_to_map (entries m).

Definition tables_of (s : Objs) : FPView :=
  mkFPView (contents (FarMap s)) (contents (QerMap s)) (contents (UrrMap s)) (contents (PdrMapTeidIp4 s))
    (contents (PdrMapDownlinkIp4 s)) (contents (PdrMapDownlinkIp6 s)).

(** The entries of [m] with the contents [v] has for them. *)
Definition write_back {K} `{Countable K} {V} (v : gmap K V) (m : kmap K V) : kmap K V :=
  mkKmap (kind m) (cap m) ((λ kv, (kv.1, default kv.2 (v !! kv.1))) <$> entries m).

(** The batch of one packet. *)
Definition run_packet (x : Xdp) (s : Objs) : Objs :=
  let v := x_maps (upf_ip_entrypoint_func cfg (set_x_maps (tables_of s) x)).1 in
  mkBpfObjects (write_back (v_far v) (FarMap s)) (write_back (v_qer v) (QerMap s)) (write_back (v_urr v) (UrrMap s))
    (write_back (v_teid v) (PdrMapTeidIp4 s)) (write_back (v_ip4 v) (PdrMapDownlinkIp4 s))
    (write_back (v_ip6 v) (PdrMapDownlinkIp6 s))
    (farIdTracker s) (qerIdTracker s) (urrIdTracker s) (mapSizes s).

Lemma contents_get {K} `{Countable K} {V} (m : kmap K V) k : contents m !! k = km_get m k.
Proof.
  rewrite kmap_get. unfold contents. induction (entries m) as [|[k' x] l IH]; [done|].
  rewrite assoc_get_cons. cbn. rewrite lookup_insert. repeat case_decide; congruence.
Qed.

Lemma write_back_get {K} `{Countable K} {V U} (g : V → U) (v : gmap K V) (m : kmap K V) k :
  g <$> v = g <$> contents m → v !! k = km_get (write_back v m) k.
Proof.
  intros Hg. apply (f_equal (λ x, x !! k)) in Hg. cbn in Hg. rewrite !lookup_fmap, contents_get, kmap_get in Hg.
  rewrite kmap_get. cbn. revert Hg. generalize (entries m). intros l Hg.
  assert (assoc_get ((λ kv, (kv.1, default kv.2 (v !! kv.1))) <$> l) k =
          assoc_get l k ≫= λ x, Some (default x (v !! k))) as ->.
  { clear Hg. induction l as [|[k' x] l IH]; [done|]. cbn. case_decide; [by subst|done]. }
  by destruct (v !! k), (assoc_get l k).
Qed.

Lemma tables_of_kernel s : kernel_tables s (tables_of s).
Proof. unfold kernel_tables. split_and!; intros k; apply contents_get. Qed.

Lemma run_packet_ok x : batch_ok cfg (run_packet x).
Proof.
  intros s. apply rtc_once. split; [done|]. exists (set_x_maps (tables_of s) x).
  split; [apply tables_of_kernel|].
  unfold run_packet. pose proof (packets_rules cfg (set_x_maps (tables_of s) x)) as Hr.
  cbn [x_maps set_x_maps] in Hr. set (v := x_maps (_).1) in *. injection Hr as HF HQ HU HT H4 H6.
  unfold kernel_tables. cbn. split_and!; intros k.
  - apply (write_back_get (λ f, f)). by rewrite HF.
  - by apply (write_back_get qer_rule).
  - by apply (write_back_get (λ _, zeroUrrInfo)).
  - apply (write_back_get (λ f, f)). by rewrite HT.
  - apply (write_back_get (λ f, f)). by rewrite H4.
  - apply (write_back_get (λ f, f)). by rewrite H6.
Qed.

End kmap_packets.

(** ** A concrete run

    The run of [EndToEnd]: an association, then a session with a FAR, a URR and
    an uplink PDR.  A packet from the UE passes before each operation of the
    handlers, and one more when the session is in place. *)

#[local] Existing Instance ascending_order.
#[local] Existing Instance demo_pfcp.

(** A TCP segment from the UE in a G-PDU for the session's TEID, 1. *)
Definition demo_ue_frame : bytes :=
  demo_macs ++ [8; 0] ++
  [69; 0; 0; 76; 0; 0; 64; 0; 64; 17; 0; 0; 10; 1; 0; 2; 10; 1; 0; 1;
   8; 104; 8; 104; 0; 56; 0; 0; 48; 255; 0; 40; 0; 0; 0; 1] ++ demo_packet_ul.

Definition demo_batch : Batch (gset Z) kmap := run_packet XdpDemo.demo_config (demo_xdp demo_ue_frame).

Definition demo_loop : UpfConfig := EventLoop.demo_config.

Definition demo_sturn (e : LoopEvent) (c : PfcpConnection (Shared (gset Z) kmap)) : PfcpConnection (Shared (gset Z) kmap) :=
  (Run_turn demo_loop demo_parse demo_resolve demo_send e c).1.

Definition demo_s0 : PfcpConnection (Shared (gset Z) kmap) :=
  match start_connection demo_loop demo_resolve demo_listen demo_ipnetgen 1700000000 4
          (demo_fp, [demo_batch; demo_batch; demo_batch]) with
  | Some (Ok c) => c
  | _ => mkPfcpConnection ∅ "" None None None (demo_fp, []) 0 [] None [] []
  end.
Definition demo_s1 := demo_sturn (Received [1] demo_peer) demo_s0.
Definition demo_s2 := demo_sturn (Received [2] demo_peer) demo_s1.
Definition demo_sK : BpfObjects (gset Z) kmap := demo_batch (mapOperations demo_s2).1.

Lemma demo_batches_ok : Forall (batch_ok XdpDemo.demo_config) [demo_batch; demo_batch; demo_batch].
Proof. repeat constructor; apply run_packet_ok. Qed.

Lemma demo_s0_start :
  start_connection demo_loop demo_resolve demo_listen demo_ipnetgen 1700000000 4
    (demo_fp, [demo_batch; demo_batch; demo_batch]) = Some (Ok demo_s0).
Proof.
  unfold demo_s0. assert (∀ traffic : list (Batch (gset Z) kmap), ∃ c, start_connection demo_loop demo_resolve demo_listen demo_ipnetgen
    1700000000 4 (demo_fp, traffic) = Some (Ok c)) as Hs by (intros traffic; eexists; vm_compute; reflexivity).
  by destruct (Hs [demo_batch; demo_batch; demo_batch]) as [c ->].
Qed.

(** A turn that ends well is a step. *)
Lemma demo_sturn_step e c :
  (Run_turn demo_loop demo_parse demo_resolve demo_send e c).2 = Ok tt →
  Run_turn demo_loop demo_parse demo_resolve demo_send e c = (demo_sturn e c, Ok tt).
Proof. unfold demo_sturn. destruct (Run_turn _ _ _ _ e c) as [c' o]. by intros [= ->]. Qed.

Lemma demo_s1_reached : reaches demo_loop demo_parse demo_resolve demo_send demo_s0 demo_s1.
Proof.
  apply (reaches_turn _ _ _ _ _ demo_s0 (Received [1] demo_peer)); [constructor| |by apply demo_sturn_step; vm_compute].
  intros msg [= <-] ts [= <-]. by vm_compute.
Qed.

Lemma demo_sreaches : reaches demo_loop demo_parse demo_resolve demo_send demo_s0 demo_s2.
Proof.
  apply (reaches_turn _ _ _ _ _ demo_s1 (Received [2] demo_peer)); [apply demo_s1_reached| |by apply demo_sturn_step; vm_compute].
  intros msg [= <-]. split; [apply demo_establish_readable|by constructor; [apply demo_create_pdr_source|]].
Qed.

(** The session's FAR is in slot 0 of the kernel's map; its URR is slot 0 of
    its own, where the last packet has left its volume, which the session does
    not know. *)
Lemma kernel_maps_under_traffic_witness :
  demo_krule FARs demo_s2 1 = Some (mkSFarInfo (mkFarInfo 2 1 100 16777343 0) 0) ∧
  km_get (FarMap demo_sK) 0 = Some (mkFarInfo 2 1 100 16777343 0) ∧
  demo_krule URRs demo_s2 4 = Some (mkSUrrInfo zeroUrrInfo 0 0) ∧
  is_Some (km_get (UrrMap demo_sK) 0) ∧ km_get (UrrMap demo_sK) 0 = Some (mkUrrInfo 180 0).
Proof.
  assert (demo_krule FARs demo_s2 1 = Some (mkSFarInfo (mkFarInfo 2 1 100 16777343 0) 0)) as Hf by by vm_compute.
  assert (demo_krule URRs demo_s2 4 = Some (mkSUrrInfo zeroUrrInfo 0 0)) as Hu by by vm_compute.
  assert (km_get (UrrMap demo_sK) 0 = Some (mkUrrInfo 180 0)) as Hvol by by vm_compute.
  destruct (kernel_maps_under_traffic XdpDemo.demo_config demo_loop demo_parse demo_resolve demo_send demo_listen
    demo_ipnetgen 1700000000 demo_objects demo_fp [demo_batch; demo_batch; demo_batch] 4
    (mkResourceManager (Some zeroIPAM) (Some (mkFTEIDM [1; 2; 3] (Some ∅)))) demo_s0 demo_s2 demo_sK
    demo_objects_fresh) as (Hfar & _ & Hurr & _).
  - by vm_compute.
  - by vm_compute.
  - exact demo_batches_ok.
  - exact demo_s0_start.
  - exact demo_sreaches.
  - exact (run_packet_ok XdpDemo.demo_config (demo_xdp demo_ue_frame) (mapOperations demo_s2).1).
  - split; [exact Hf|]. split; [exact (proj1 (Hfar _ _ _ _ (demo_krule_at _ _ _ _ Hf)))|].
    split; [exact Hu|]. split; [exact (proj1 (Hurr _ _ _ _ (demo_krule_at _ _ _ _ Hu)))|exact Hvol].
Defined.
