(* ===== verification/XdpUrr.v ===== *)
(** * What usage reports can count (cmd/ebpf/xdp/urr.h with cmd/ebpf/pdr.go)

    The control plane never writes the URR numbers of a PDR's entry, so the
    data plane counts every forwarded packet in URR 0, twice, and in no other
    URR a session has asked for: whatever the control plane does to the maps,
    and whatever packets pass in between. *)

From S2P Require Import Prelude IdTracker Net KernelMap ForwardingPlane Stats Dataplane EndToEnd.
From S2P Require Import XdpMemory XdpParse XdpGtp XdpRules XdpProgram XdpEffects XdpDemo Traffic.

(** ** Entries of the control plane *)

(** An entry without URRs. *)
Definition no_urr (pdr : IpEntrypointPdrInfo) : Prop := urr1_id pdr = 0 ∧ urr2_id pdr = 0.

(** Whatever a PDR names and the table held, what is stored names none. *)
Lemma stored_no_urr old p : no_urr (stored_pdr old p).
Proof. unfold stored_pdr, no_urr. by destruct (SdfFilterPtr p), old. Qed.

Definition no_urrs : FPView → Prop := tables_ok no_urr.

(** The PDR tables and the URRs other than number 0. *)
Definition fixed (x : Xdp) : gmap Z IpEntrypointPdrInfo * gmap NetIP IpEntrypointPdrInfo *
    gmap NetIP IpEntrypointPdrInfo * gmap Z UrrInfo :=
  let m := x_maps x in (v_teid m, v_ip4 m, v_ip6 m, delete 0 (v_urr m)).

Lemma fixed_observation : observation fixed no_urr.
Proof.
  split; try done.
  - intros pdr id u d x [H1 H2] Hid. assert (id = 0) as -> by set_solver.
    unfold fixed. cbn. f_equal. rewrite delete_alter. by rewrite decide_True.
  - intros x y. unfold fixed, tables_ok. by intros [= -> -> -> _].
Qed.

Lemma no_urrs_on_table {K} `{Countable K} (m : gmap K IpEntrypointPdrInfo) k p :
  map_Forall (λ _, no_urr) m →
  map_Forall (λ _, no_urr) (<[k:=stored_pdr (m !! k) p]> m) ∧
  map_Forall (λ _, no_urr) (alter (λ old, stored_pdr (Some old) p) k m).
Proof.
  intros Hm. split; [apply map_Forall_insert_2; [apply stored_no_urr|done]|].
  intros k' x. rewrite lookup_alter. case_decide; [|by intros Hx; apply (Hm k')].
  intros (y & _ & ->)%fmap_Some. apply stored_no_urr.
Qed.

(** No command of the control plane stores a URR number. *)
Lemma command_no_urrs c v v' : view_step stored_pdr c v v' → no_urrs v → no_urrs v'.
Proof.
  unfold no_urrs, tables_ok. destruct c; cbn; intros Hstep (H1 & H2 & H3);
    repeat match type of Hstep with
           | _ ∨ _ => destruct Hstep as [Hstep|Hstep]
           | ∃ _, _ => destruct Hstep as [? Hstep]
           | _ ∧ _ => destruct Hstep as [_ Hstep]
           end; subst v'; cbn; split_and!; try done; by first [apply map_Forall_delete|apply no_urrs_on_table].
Qed.

Lemma commands_no_urrs cs v v' : view_steps stored_pdr cs v v' → no_urrs v → no_urrs v'.
Proof. induction 1; [done|]. eauto using command_no_urrs. Qed.

Section program.
Context `{BitmapLaws B} `{KernelMapLaws Mp} `{XdpKernel} (cfg : dataplane_config).
Implicit Types K : BpfObjects B Mp.

#[local] Instance plane_with_packets : ForwardingPlane (Shared B Mp) := shared_plane cfg.

(** The tables of the kernel's PDR entries, as the program sees them. *)
Lemma kernel_no_urrs K v maps :
  holds_rules K v → no_urrs v → kernel_tables K maps → no_urrs maps.
Proof.
  intros (w & (_ & _ & _ & [_ W4] & [_ W5] & [_ W6]) & Hr) (N4 & N5 & N6) (_ & _ & _ & T4 & T5 & T6).
  pose proof (f_equal v_teid Hr) as E4. pose proof (f_equal v_ip4 Hr) as E5. pose proof (f_equal v_ip6 Hr) as E6.
  cbn in E4, E5, E6. unfold no_urrs, tables_ok.
  split_and!; intros k x; [rewrite T4, W4, E4; apply N4|rewrite T5, W5, E5; apply N5
    |rewrite T6, W6, E6; apply N6].
Qed.

Lemma packet_counts_urr_0 K K' v id :
  holds_rules K v → no_urrs v → packet cfg K K' → id ≠ 0 → km_get (UrrMap K') id = km_get (UrrMap K) id.
Proof.
  intros Hk Hv (_ & x & HX & HX') Hid.
  assert (fixed (upf_ip_entrypoint_func cfg x).1 = fixed x) as Hfix
    by (apply (packets_fix _ no_urr fixed_observation); [done|by eapply kernel_no_urrs]).
  injection Hfix as _ _ _ Hu. destruct HX as (_ & _ & HU & _), HX' as (_ & _ & HU' & _).
  rewrite <-HU, <-HU'. by rewrite <-(lookup_delete_ne _ 0 id), Hu, lookup_delete_ne by done.
Qed.

Lemma packets_count_urr_0 K K' v id :
  holds_rules K v → no_urrs v → packets cfg K K' → id ≠ 0 → km_get (UrrMap K') id = km_get (UrrMap K) id.
Proof.
  intros Hk Hv Hpk Hid. induction Hpk as [|K K1 K' Hp _ IH]; [done|].
  rewrite IH by (by eapply packet_holds_rules). by eapply packet_counts_urr_0.
Qed.

(** C25: from empty kernel maps, whatever the control plane does to them --
    any forwarding-plane calls with any arguments, PDRs that name URRs
    included -- and whatever packets pass between the calls, no number of
    packets changes the volume of a URR other than number 0: the usage of the
    URRs sessions are created with stays what the control plane wrote. *)
Theorem only_urr_0_counted s0 fp traffic cs σ K K' id :
  fresh_maps s0 → LoadTrackers s0 = (fp, Ok tt) → Forall (batch_ok cfg) traffic → Forall cmd_ok cs →
  exec_cmds (F:=Shared B Mp) cs (fp, traffic) = (σ, Ok tt) →
  packets cfg σ.1 K → packets cfg K K' → id ≠ 0 →
  km_get (UrrMap K') id = km_get (UrrMap K) id.
Proof.
  intros Hfresh Hload Htraffic Hcs Hrun Hpk Hpk' Hid.
  assert (shared_repr cfg (fp, traffic) empty_view) as Hinit.
  { split; [|done]. exists empty_view. split; [|done]. by eapply Load_repr. }
  pose proof (exec_cmds_simulates (F:=Shared B Mp) cs (fp, traffic) empty_view Hinit Hcs) as Hsim.
  unfold wp in Hsim. rewrite Hrun in Hsim. destruct Hsim as (v & Hsteps & Hv & _).
  eapply (packets_count_urr_0 K K' v); [by eapply packets_hold_rules| |done|done].
  eapply commands_no_urrs; [exact Hsteps|]. split_and!; apply map_Forall_empty.
Qed.

End program.

(** ** A concrete run

    A FAR, two URRs and a PDR of TEID 1 that names URR 1; a packet of the UE
    passes before each call and one after the last: its volume is in URR 0. *)
Definition demo_urr_cmds : list fp_cmd :=
  [CNewFar (mkFarInfo 2 1 100 16777343 0); CNewUrr zeroUrrInfo; CNewUrr zeroUrrInfo;
   CPutPdrUplink 1 (mkPdrInfo 0 0 0 1 0 None)].

Definition demo_urr_run : Shared (gset Z) kmap * outcome unit :=
  exec_cmds demo_urr_cmds (demo_fp, [demo_batch; demo_batch]).

Lemma only_urr_0_counted_witness :
  let K := demo_urr_run.1.1 in
  km_get (UrrMap (demo_batch K)) 1 = Some zeroUrrInfo ∧ km_get (UrrMap (demo_batch K)) 0 = Some (mkUrrInfo 180 0).
Proof.
  intros K. split; [|by vm_compute].
  assert (demo_urr_run.2 = Ok tt) as Hok by (vm_compute; reflexivity).
  transitivity (km_get (UrrMap K) 1); [|vm_compute; reflexivity].
  apply (only_urr_0_counted XdpDemo.demo_config demo_objects demo_fp [demo_batch; demo_batch] demo_urr_cmds
    demo_urr_run.1 K (demo_batch K) 1).
  - exact demo_objects_fresh.
  - by vm_compute.
  - repeat constructor; apply run_packet_ok.
  - by repeat constructor.
  - fold demo_urr_run. rewrite <-Hok. apply surjective_pairing.
  - constructor.
  - apply run_packet_ok.
  - done.
Defined.
