(* ===== verification/Service.v ===== *)
(** * From accepted requests to frames (cmd/core, cmd/ebpf)

    The tables of a session whose request was accepted, and the packets its
    peers send: establishment and handover, under traffic. *)

From S2P Require Import Prelude IdTracker Net Config KernelMap ForwardingPlane Dataplane Resources Session Pfcp.
From S2P Require Import Display PdrContext Connection SessionHandlers Ownership SessionFacts Accepted Association.
From S2P Require Import EventLoop EndToEnd.
From S2P Require Import Stats XdpMemory XdpParse XdpGtp XdpRules XdpProgram XdpFrame XdpSdf XdpForward XdpUplink.
From S2P Require Import XdpTables XdpDemo Traffic.

(** ** The tables of a session *)

Section serving.
Context `{BitmapLaws B} `{KernelMapLaws Mp} `{XdpKernelLaws} (cfg : dataplane_config).
Context `{Pfcp} `{MapOrder} (Conf : UpfConfig).
Implicit Types (c : PfcpConnection (Shared B Mp)) (K : BpfObjects B Mp) (s : Session).

#[local] Instance plane_of_service : ForwardingPlane (Shared B Mp) := shared_plane cfg.

(** The PDR entry the kernel has under a key. *)
Definition kernel_entry K (k : pdr_key) : option IpEntrypointPdrInfo :=
  match k with
  | KIp4 ip => km_get (PdrMapDownlinkIp4 K) ip
  | KIp6 ip => km_get (PdrMapDownlinkIp6 K) ip
  | KTeid teid => km_get (PdrMapTeidIp4 K) teid
  end.

Lemma holds_pdr K v k : holds_rules K v → kernel_entry K k = pdr_entry v k.
Proof.
  intros (w & (_ & _ & _ & [_ WT] & [_ W4] & [_ W6]) & Hr). destruct k; cbn.
  - rewrite W4. apply (f_equal v_ip4) in Hr. cbn in Hr. by rewrite Hr.
  - rewrite W6. apply (f_equal v_ip6) in Hr. cbn in Hr. by rewrite Hr.
  - rewrite WT. apply (f_equal v_teid) in Hr. cbn in Hr. by rewrite Hr.
Qed.

(** A PDR of the session, without a filter and with a key of its own, and the
    identifiers of its FAR and QER. *)
Record bearer s (i j : Z) (spdr : SPDRInfo) : Prop := {
  b_pdr : ∃ id, PDRs s !! id = Some spdr ∧ sole_key s id (key_of spdr);
  b_far : ∃ far, FARs s !! i = Some far ∧ FarId (s_PdrInfo spdr) = sf_GlobalId far;
  b_qer : ∃ qer, QERs s !! j = Some qer ∧ QerId (s_PdrInfo spdr) = sq_GlobalId qer;
  b_plain : SdfFilterPtr (s_PdrInfo spdr) = None
}.

(** What the kernel has for a QER of the session at the moment. *)
Definition kernel_qer K s (j : Z) (q : QerInfo) : Prop :=
  ∃ qer, QERs s !! j = Some qer ∧ km_get (QerMap K) (sq_GlobalId qer) = Some q.

(** The entry of the PDR names the slots that hold the FAR and the QER. *)
Record serves K (info : FarInfo) (q : QerInfo) (spdr : SPDRInfo) (e : IpEntrypointPdrInfo) : Prop := {
  sv_entry : kernel_entry K (key_of spdr) = Some e;
  sv_mode : sdf_mode e = 0;
  sv_removal : outer_header_removal e = OuterHeaderRemoval (s_PdrInfo spdr);
  sv_far : km_get (FarMap K) (far_id e) = Some info;
  sv_qer : km_get (QerMap K) (qer_id e) = Some q
}.

Lemma session_serves addr n c K s i j spdr :
  conn_inv c → is_session c addr n s → installed s (mapOperations c) → packets cfg (mapOperations c).1 K →
  bearer s i j spdr →
  ∃ far qer q e, FARs s !! i = Some far ∧ QERs s !! j = Some qer ∧ kernel_qer K s j q ∧
    qer_rule q = qer_rule (sq_QerInfo qer) ∧ serves K (sf_FarInfo far) q spdr e.
Proof.
  intros Hinv (a & Ha & Hs) (v & [Hv _] & Hent) Hpk
    [(id & Hid & Hsole) (far & Hfar & IF) (qer & Hqer & IQ) Hplain].
  destruct (Hent _ _ Hid Hsole) as [old Hold].
  destruct (conn_qer cfg c K addr n j qer Hinv Hpk) as [(q & Hq & Hrule) _]; [by exists a, s|].
  exists far, qer, q, (ToIpEntrypointPdrInfo (s_PdrInfo spdr)). do 2 (split; [done|]). split; [by exists qer|].
  split; [done|]. split; cbn; [|done|done| |by rewrite IQ].
  - rewrite (holds_pdr K v) by (by eapply packets_hold_rules). rewrite Hold. cbn. unfold stored_pdr. by rewrite Hplain.
  - rewrite IF. by apply (conn_far cfg c K addr n i far Hinv Hpk); exists a, s.
Qed.

(** The rules the XDP program finds for the entry. *)
Lemma serves_forwards K info q spdr e maps :
  kernel_tables K maps → serves K info q spdr e → Z.land (Action info) FAR_FORW ≠ 0 →
  forwards maps (far_id e) (qer_id e) info q.
Proof. intros (HF & HQ & _) [_ _ _ Hfar Hq] Hact. split; [by rewrite HF|by rewrite HQ|done]. Qed.

(** ** Packets of a session *)

(** The frame leaves in the tunnel [info] describes, marked with [qfi]. *)
Definition leaves_in_tunnel (x : Xdp) (macs pkt : bytes) (info : FarInfo) (qfi : Z) : Prop :=
  let len := be (slice 2 2 pkt) in
  let tos := Z.shiftr (TransportLevelMarking info) 8 in
  let p := tunnel_route (n3_ipv4_address cfg) (RemoteIP info) tos len (x_port x) in
  ∃ x' check, upf_ip_entrypoint_func cfg x = (x', Ok (route_action p)) ∧
    routed p x' macs ([8; 0] ++
      tunnel_headers (n3_ipv4_address cfg) (RemoteIP info) tos qfi (Teid info) len check ++ pkt) ∧
    checksum_valid (ipv4_header tos (len + 44) check (n3_ipv4_address cfg) (RemoteIP info)).

(** What a FAR and a QER have to say for that: [rule] is the QER's rule, [q]
    its entry, whose window has room for a frame of the size. *)
Record tunnels (x : Xdp) (size : Z) (info : FarInfo) (rule q : QerInfo) : Prop := {
  tn_forward : Z.land (Action info) FAR_FORW ≠ 0;
  tn_tunnel : Z.land (OuterHeaderCreation info) OHC_GTP_U_UDP_IPv4 ≠ 0;
  tn_gate : GateStatusDL rule = GATE_STATUS_OPEN;
  tn_room : is_Some (limited Downlink size q (x_ticks x))
}.

Definition frame_length (pkt : bytes) : Z := 14 + Z.of_nat (length pkt).

Lemma served_downlink K info q rule spdr e x macs pkt :
  serves K info q spdr e → qer_rule q = qer_rule rule → s_Ipv4 spdr = Some (slice 16 4 pkt) →
  kernel_tables K (x_maps x) → downlink_frame cfg x macs pkt → tunnels x (frame_length pkt) info rule q →
  leaves_in_tunnel x macs pkt info (Qfi rule).
Proof.
  intros Hserve Hq Hip Hx Hframe [Hact Hohc Hgate [q' Hq']].
  pose proof (serves_forwards _ _ _ _ _ _ Hx Hserve Hact) as Hfw. destruct Hserve as [He Hmode _ _ _].
  unfold key_of in He. rewrite Hip in He.
  destruct (downlink_leaves cfg x macs pkt e (far_id e) (qer_id e) info q q') as (x' & check & Hrun' & Hfr & Hcs & _);
    try done.
  - by rewrite (proj1 (proj2 (proj2 (proj2 (proj2 Hx))))).
  - by apply chosen_plain.
  - injection Hq as _ Hdl _ _ _. by rewrite Hdl.
  - exists x', check. assert (Qfi q = Qfi rule) as <- by (by injection Hq). done.
Qed.

(** *** From the request *)

(** The elements of an accepted request that make a bearer. *)
Record requested (req : SessionEstablishmentReq) s (far qer pdr : IE) (spdr : SPDRInfo) : Prop := {
  rq_far : far ∈ est_CreateFAR req;
  rq_qer : qer ∈ est_CreateQER req;
  rq_pdr : pdr ∈ est_CreatePDR req;
  rq_names_far : IE_FARID pdr = inr (far_id_of far);
  rq_names_qer : IE_QERID pdr = inr (qer_id_of qer);
  rq_no_filter : ∀ f, IE_SDFFilter pdr = inr f → f = ""%string;
  rq_spdr : PDRs s !! pdr_id_of pdr = Some spdr;
  rq_sole : sole_key s (pdr_id_of pdr) (key_of spdr)
}.

Lemma extract_rules_ids (x : PDRCreationContext) pdr farid qerid p :
  IE_FARID pdr = inr farid → IE_QERID pdr = inr qerid →
  FarId (extract_rules x pdr p) = getFARID x farid ∧ QerId (extract_rules x pdr p) = getQERID x qerid ∧
  SdfFilterPtr (extract_rules x pdr p) = SdfFilterPtr p ∧
  OuterHeaderRemoval (extract_rules x pdr zeroPdrInfo) = or_0 (IE_OuterHeaderRemovalDescription pdr).
Proof.
  intros HF HQ. unfold extract_rules. rewrite HF, HQ. cbn [when_ok].
  destruct (IE_OuterHeaderRemovalDescription pdr), (GetURRIDs pdr) as [|[|u1 [|u2 l]]]; by cbn.
Qed.

Lemma requested_bearer req s fp far qer pdr spdr :
  established (F:=Shared B Mp) req s fp → requested req s far qer pdr spdr →
  bearer s (far_id_of far) (qer_id_of qer) spdr ∧
  OuterHeaderRemoval (s_PdrInfo spdr) = or_0 (IE_OuterHeaderRemovalDescription pdr) ∧
  (∀ e, FARs s !! far_id_of far = Some e → far_read far e) ∧
  (∀ e, QERs s !! qer_id_of qer = Some e → qer_read qer e).
Proof.
  intros [EF EQ EP _] [Bf Bq Bp Nf Nq Nofilter Bs Bsole].
  destruct (EF _ Bf) as (ef & Hef & Rf), (EQ _ Bq) as (eq & Heq & Rq), (EP _ Bp) as (spdr' & Hsp & Rp).
  assert (spdr' = spdr) as -> by congruence.
  assert (extract_rules (NewPDRCreationContext s None) pdr zeroPdrInfo = s_PdrInfo spdr) as Hinfo.
  { unfold pdr_read, extract_sdf in Rp. destruct (IE_SDFFilter pdr) as [?|f] eqn:Hf; [congruence|].
    rewrite (Nofilter _ eq_refl), bool_decide_eq_true_2 in Rp by done. congruence. }
  destruct (extract_rules_ids (NewPDRCreationContext s None) pdr _ _ zeroPdrInfo Nf Nq) as (IF & IQ & IS & IR).
  rewrite Hinfo in IF, IQ, IS, IR. unfold getFARID, getQERID, SessionGetFar, SessionGetQer in IF, IQ. cbn in IF, IQ.
  rewrite Hef in IF. rewrite Heq in IQ. cbn in IF, IQ.
  split; [split; eauto|]. split; [done|]. split; intros e He; congruence.
Qed.

(** The session behind an accepted answer. *)
Lemma accepted_session req addr c c' m :
  conn_inv c → readable_establishment req → distinct_ids req →
  HandlePfcpSessionEstablishmentRequest Conf req addr c = (c', Ok (Some m, None)) →
  cause_of m = Some CauseRequestAccepted → conn_inv c' ∧ ∃ s, accepted req addr c' s.
Proof.
  intros Hinv Hread Hids Hrun Hcause.
  pose proof (establishment_accepted Conf c req addr Hinv Hread Hids) as Hacc. unfold wp in Hacc.
  rewrite Hrun in Hacc. destruct Hacc as [Hinv' Hacc]. split; [done|]. by eapply Hacc.
Qed.

(** The rules the elements of the request describe are those of the tables. *)
Lemma accepted_serves req addr c K s far qer pdr spdr :
  conn_inv c → accepted req addr c s → packets cfg (mapOperations c).1 K → requested req s far qer pdr spdr →
  ∃ info q e, composeFarInfo far zeroFarInfo = Ok info ∧ kernel_qer K s (qer_id_of qer) q ∧
    qer_rule q = qer_rule (updateQer zeroQerInfo qer) ∧ serves K info q spdr e ∧
    OuterHeaderRemoval (s_PdrInfo spdr) = or_0 (IE_OuterHeaderRemovalDescription pdr).
Proof.
  intros Hinv [Hs Hest] Hpk Hreq. destruct (requested_bearer _ _ _ _ _ _ _ Hest Hreq) as (Hb & Hohr & HF & HQ).
  destruct (session_serves _ _ _ _ _ _ _ _ Hinv Hs (es_plane _ _ _ Hest) Hpk Hb)
    as (ef & eq & q & e & Hef & Heq & Hkq & Hq & Hserve).
  exists (sf_FarInfo ef), q, e. split; [by apply HF|]. split; [done|]. split; [|done].
  rewrite Hq. by rewrite (HQ _ Heq).
Qed.

(** C1: from the control plane's message to the frame on the wire, downlink.  A
    session establishment request is accepted while packets pass.  Then there
    is a session such that, after any further packets, every TCP, UDP or ICMP
    packet to the UE address of one of its PDRs leaves in the GTP-U tunnel that
    the Create FAR of the request describes -- its TEID, peer and marking --
    with the QFI of the Create QER, if the FAR forwards into a tunnel, the gate
    is open and the rate limiter has room. *)
Theorem session_downlink req addr c c' m K :
  conn_inv c → readable_establishment req → distinct_ids req →
  HandlePfcpSessionEstablishmentRequest Conf req addr c = (c', Ok (Some m, None)) →
  cause_of m = Some CauseRequestAccepted → packets cfg (mapOperations c').1 K →
  ∃ s, is_session c' addr (LocalSEID s) s ∧
  ∀ far qer pdr spdr x macs pkt,
    requested req s far qer pdr spdr → s_Ipv4 spdr = Some (slice 16 4 pkt) →
    kernel_tables K (x_maps x) → downlink_frame cfg x macs pkt →
    ∃ info q, composeFarInfo far zeroFarInfo = Ok info ∧ kernel_qer K s (qer_id_of qer) q ∧
    let rule := updateQer zeroQerInfo qer in
    tunnels x (frame_length pkt) info rule q → leaves_in_tunnel x macs pkt info (Qfi rule).
Proof.
  intros Hinv Hread Hids Hrun Hcause Hpk.
  destruct (accepted_session _ _ _ _ _ Hinv Hread Hids Hrun Hcause) as [Hinv' (s & Hacc)].
  exists s. split; [apply Hacc|]. intros far qer pdr spdr x macs pkt Hreq Hip Hx Hframe.
  destruct (accepted_serves _ _ _ _ _ _ _ _ _ Hinv' Hacc Hpk Hreq) as (info & q & e & Hinfo & Hkq & Hq & Hserve & _).
  exists info, q. do 2 (split; [done|]). intros rule Ht. by eapply served_downlink.
Qed.


(** *** Handover *)

(** A bearer stays one when its FAR is updated. *)
Lemma bearer_updated done s s' i j spdr : fars_updated done s s' → bearer s i j spdr → bearer s' i j spdr.
Proof.
  intros (HP & HQ & Hdone & Hother) [Hpdr (far & Hfar & IF) Hqer Hplain]. split.
  - unfold sole_key in *. by rewrite HP.
  - destruct (decide (i ∈ far_id_of <$> done)) as [(upd & -> & Hupd)%list_elem_of_fmap|Hno].
    + destruct (Hdone _ Hupd) as (e & e' & He & He' & _ & Hg). exists e'. split; [done|]. congruence.
    + exists far. by rewrite Hother.
  - by rewrite HQ.
  - done.
Qed.

(** C3: handover.  A session whose PDRs are installed gets a modification that
    only updates FARs and is accepted, while packets pass.  Then, after any
    further packets, every TCP, UDP or ICMP packet to the UE address of a PDR
    with such a FAR leaves in the tunnel the Update FAR describes, over the
    FAR's old contents -- the new peer and TEID. *)
Theorem handover_downlink req addr c c' m K s :
  conn_inv c → Forall has_source_interface (mod_PDRs req) → is_session c addr (mod_SEID req) s →
  installed s (mapOperations c) → known_ids req s → updates_fars req →
  HandlePfcpSessionModificationRequest Conf req addr c = (c', Ok (Some m, None)) →
  cause_of m = Some CauseRequestAccepted → packets cfg (mapOperations c').1 K →
  ∃ s', is_session c' addr (mod_SEID req) s' ∧ installed s' (mapOperations c') ∧
  ∀ upd j spdr x macs pkt,
    upd ∈ mod_UpdateFAR req → bearer s (far_id_of upd) j spdr → s_Ipv4 spdr = Some (slice 16 4 pkt) →
    kernel_tables K (x_maps x) → downlink_frame cfg x macs pkt →
    ∃ far qer info q, FARs s !! far_id_of upd = Some far ∧ QERs s !! j = Some qer ∧
      composeFarInfo upd (sf_FarInfo far) = Ok info ∧ kernel_qer K s j q ∧
      (tunnels x (frame_length pkt) info (sq_QerInfo qer) q → leaves_in_tunnel x macs pkt info (Qfi (sq_QerInfo qer))).
Proof.
  intros Hinv Hsrc Hses Hinst Hknown Hupds Hrun Hcause Hpk.
  pose proof (modification_accepted Conf c req addr s Hinv Hsrc Hses Hknown Hupds Hinst) as Hacc. unfold wp in Hacc.
  rewrite Hrun in Hacc. destruct Hacc as [Hinv' Hacc]. destruct (Hacc m eq_refl Hcause) as (s' & Hs' & Hu & Hinst').
  exists s'. do 2 (split; [done|]). intros upd j spdr x macs pkt Hupd Hb Hip Hx Hframe.
  destruct (session_serves _ _ _ _ _ _ _ _ Hinv' Hs' Hinst' Hpk (bearer_updated _ _ _ _ _ _ Hu Hb))
    as (far' & qer & q & e & Hfar' & Hqer & Hkq & Hq & Hserve).
  destruct Hu as (_ & HQ & Hdone & _). destruct (Hdone _ Hupd) as (far & e' & Hfar & He' & Hinfo & _).
  assert (e' = far') as -> by congruence. exists far, qer, (sf_FarInfo far'), q. rewrite <-HQ.
  unfold kernel_qer in *. rewrite <-HQ. do 4 (split; [done|]). intros Ht. by eapply served_downlink.
Qed.

End serving.

(** ** A concrete session

    The peer of [Traffic] establishes a session with a tunnel to 10.1.0.2 for
    the UE 10.0.0.1, and TEID 33 for the other direction. *)

#[local] Existing Instance ascending_order.
#[local] Existing Instance demo_pfcp.
#[local] Instance demo_service_plane : ForwardingPlane (Shared (gset Z) kmap) := shared_plane XdpDemo.demo_config.

Definition demo_tunnel_far : demo_ie :=
  Grp 3 [Val 108 1; Octets 44 [2]; Grp 4 [Ohc (Some (mkOHCFields 256 257 (Some [10; 1; 0; 2])))]].
Definition demo_plain_far : demo_ie := Grp 3 [Val 108 2; Octets 44 [2]].
Definition demo_service_qer : demo_ie := Grp 7 [Val 109 1; Val2 25 0 0; Val 124 9].
Definition demo_pdr_down : demo_ie :=
  Grp 1 [Val 56 1; Grp 2 [Val 20 1; Ueip (mkUEIPFields 2 (Some [10; 0; 0; 1]) None)]; Val 108 1; Val 109 1].
Definition demo_pdr_up : demo_ie :=
  Grp 1 [Val 56 2; Grp 2 [Val 20 0; Fteid (mkFTEIDFields 1 33 0 None None)]; Val 95 0; Val 108 2; Val 109 1].

Definition demo_service : SessionEstablishmentReq :=
  mkEstablishmentReq (Some demo_node_id) (Some (demo_fseid 79)) [demo_tunnel_far; demo_plain_far] [demo_service_qer] []
    [demo_pdr_down; demo_pdr_up] None 12.

Definition demo_run_service := HandlePfcpSessionEstablishmentRequest demo_loop demo_service "10.0.0.2" demo_s1.
Definition demo_served : PfcpConnection (Shared (gset Z) kmap) := demo_run_service.1.
Definition demo_answer : OutMsg :=
  match demo_run_service.2 with Ok (Some m, None) => m | _ => mkOutMsg HeartbeatRequest 0 0 [] end.
Definition demo_serving_session : Session :=
  default (NewSession 0 0) (NodeAssociations demo_served !! "10.0.0.2"%string ≫= λ a, Sessions a !! 2).

(** A packet from the UE has passed. *)
Definition demo_service_K : BpfObjects (gset Z) kmap :=
  run_packet XdpDemo.demo_config (demo_xdp demo_frame_ul) (mapOperations demo_served).1.
Definition demo_packet_in (frame : bytes) : Xdp := set_x_maps (tables_of demo_service_K) (demo_xdp frame).

Lemma demo_s1_inv : conn_inv demo_s1.
Proof.
  apply (reaches_inv demo_loop demo_parse demo_resolve demo_send demo_s0 demo_s1).
  - apply (start_connection_inv demo_loop demo_resolve demo_listen demo_ipnetgen 1700000000 4
      (demo_fp, [demo_batch; demo_batch; demo_batch]) empty_view
      (mkResourceManager (Some zeroIPAM) (Some (mkFTEIDM [1; 2; 3] (Some ∅)))) demo_s0).
    + split; [exists empty_view; split; [|done]|apply demo_batches_ok].
      apply (Load_repr demo_objects); [apply demo_objects_fresh|by vm_compute].
    + by vm_compute.
    + apply demo_s0_start.
  - apply demo_s1_reached.
Qed.

Lemma demo_service_readable : readable_establishment demo_service.
Proof.
  split.
  - intros far Hfar. apply elem_of_cons in Hfar as [->|Hfar]; [by intros [? ? ? ? ?]; vm_compute|].
    apply list_elem_of_singleton in Hfar as ->. by intros [? ? ? ? ?]; vm_compute.
  - repeat constructor; intros pdi [= <-].
    + exists (Val 20 1). split; [by left|done].
    + exists (Val 20 0). split; [by left|done].
Qed.

Lemma demo_service_ids : distinct_ids demo_service.
Proof. split; vm_compute; repeat constructor; set_solver. Qed.

Lemma demo_service_run : demo_run_service = (demo_served, Ok (Some demo_answer, None)).
Proof.
  assert (demo_run_service.2 = Ok (Some demo_answer, None)) as Hr by by vm_compute.
  unfold demo_served. destruct demo_run_service as [c o]. cbn in Hr |- *. by rewrite Hr.
Qed.

(** The one session the request has created. *)
Lemma demo_service_only s : is_session demo_served "10.0.0.2" (LocalSEID s) s → s = demo_serving_session.
Proof.
  intros (a & Ha & Hs). assert (Sessions a = {[2 := demo_serving_session]}) as Hone.
  { apply (f_equal (fmap Sessions)) in Ha. cbn [fmap option_fmap option_map] in Ha.
    assert (Sessions <$> NodeAssociations demo_served !! "10.0.0.2"%string = Some {[2 := demo_serving_session]})
      as Hc by by vm_compute.
    rewrite Hc in Ha. by injection Ha. }
  rewrite Hone in Hs. by apply lookup_singleton_Some in Hs as [_ <-].
Qed.

Lemma demo_service_packets : packets XdpDemo.demo_config (mapOperations demo_served).1 demo_service_K.
Proof. exact (run_packet_ok XdpDemo.demo_config (demo_xdp demo_frame_ul) (mapOperations demo_served).1). Qed.

Lemma elem_of_fmap_to_list {A B} (f : A → B) (m : gmap Z A) i x :
  m !! i = Some x → (i, f x) ∈ map_to_list (f <$> m).
Proof. intros Hx. apply elem_of_map_to_list. by rewrite lookup_fmap, Hx. Qed.

Lemma two_pdrs (m : gmap Z SPDRInfo) i1 k1 i2 k2 id spdr :
  map_to_list (key_of <$> m) = [(i2, k2); (i1, k1)] → m !! id = Some spdr →
  (id = i1 ∧ key_of spdr = k1) ∨ (id = i2 ∧ key_of spdr = k2).
Proof.
  intros Hl Hin%(elem_of_fmap_to_list key_of). rewrite Hl in Hin.
  apply elem_of_cons in Hin as [Heq|Hin]; [right; by simplify_eq|].
  apply list_elem_of_singleton in Hin. left. by simplify_eq.
Qed.

(** The PDRs of the session, by identifier. *)
Lemma demo_service_pdrs id spdr :
  PDRs demo_serving_session !! id = Some spdr →
  (id = 1 ∧ key_of spdr = KIp4 (Some [10; 0; 0; 1])) ∨ (id = 2 ∧ key_of spdr = KTeid 33).
Proof. apply two_pdrs. by vm_compute. Qed.

Definition demo_spdr (id : Z) : SPDRInfo := default zeroSPDRInfo (PDRs demo_serving_session !! id).

Lemma demo_down_requested :
  requested demo_service demo_serving_session demo_tunnel_far demo_service_qer demo_pdr_down (demo_spdr 1).
Proof.
  split.
  - by left.
  - by left.
  - by left.
  - by vm_compute.
  - by vm_compute.
  - intros f Hf. by vm_compute in Hf.
  - by vm_compute.
  - intros id spdr [[-> _]|[_ Hk']]%demo_service_pdrs Hk; [by vm_compute|]. rewrite Hk' in Hk. by vm_compute in Hk.
Qed.

Lemma demo_up_requested :
  requested demo_service demo_serving_session demo_plain_far demo_service_qer demo_pdr_up (demo_spdr 2).
Proof.
  split.
  - right. by left.
  - by left.
  - right. by left.
  - by vm_compute.
  - by vm_compute.
  - intros f Hf. by vm_compute in Hf.
  - by vm_compute.
  - intros id spdr [[_ Hk']|[-> _]]%demo_service_pdrs Hk; [|by vm_compute]. rewrite Hk' in Hk. by vm_compute in Hk.
Qed.

Definition demo_tunnel : FarInfo := mkFarInfo 2 1 257 (le [10; 1; 0; 2]) 0.

Lemma demo_kernel_qer (K : BpfObjects (gset Z) kmap) q :
  kernel_qer K demo_serving_session 1 q → km_get (QerMap K) 0 = Some q.
Proof.
  intros (gq & Hgq & Hq). assert (QERs demo_serving_session !! 1 =
    Some (mkSQerInfo (mkQerInfo 0 0 9 0 0 0 0) 0)) as Hc by by vm_compute.
  rewrite Hc in Hgq. by injection Hgq as <-.
Qed.

Lemma demo_down_frame : downlink_frame XdpDemo.demo_config (demo_packet_in demo_frame_dl) demo_macs demo_packet.
Proof. destruct demo_downlink_frame. by split. Qed.

Lemma demo_up_frame :
  uplink_frame XdpDemo.demo_config (demo_packet_in demo_frame_ul) demo_macs (drop 14 demo_frame_ul) (s_Teid (demo_spdr 2))
    (take 36 (drop 14 demo_frame_ul)) demo_packet_ul.
Proof.
  assert (s_Teid (demo_spdr 2) = 33) as -> by by vm_compute. destruct demo_uplink_frame. by split.
Qed.

(** The QER's entry: no rate is set. *)
Definition demo_open_qer : QerInfo := mkQerInfo 0 0 9 0 0 0 0.

Lemma demo_tunnels x size info rule q :
  Action info = 2 → OuterHeaderCreation info = 1 → GateStatusDL rule = 0 → q = demo_open_qer →
  tunnels x size info rule q.
Proof. intros Ha Ho Hg ->. split; rewrite ?Ha, ?Ho; [by vm_compute..|done|by eexists]. Qed.

Lemma session_downlink_witness :
  ∃ x' check, upf_ip_entrypoint_func XdpDemo.demo_config (demo_packet_in demo_frame_dl) = (x', Ok XDP_REDIRECT) ∧
    (x_target x' = Some 2 ∧ x_frame x' = [2; 0; 0; 0; 0; 2; 2; 0; 0; 0; 0; 1] ++ [8; 0] ++
      tunnel_headers (le [10; 1; 0; 1]) (le [10; 1; 0; 2]) 0 9 257 40 check ++ demo_packet) ∧
    checksum_valid (ipv4_header 0 84 check (le [10; 1; 0; 1]) (le [10; 1; 0; 2])).
Proof.
  destruct (session_downlink XdpDemo.demo_config demo_loop demo_service "10.0.0.2" demo_s1 demo_served demo_answer
    demo_service_K demo_s1_inv demo_service_readable demo_service_ids demo_service_run) as (s & Hs & Hall);
    [by vm_compute|exact demo_service_packets|].
  apply demo_service_only in Hs as ->.
  destruct (Hall demo_tunnel_far demo_service_qer demo_pdr_down (demo_spdr 1) (demo_packet_in demo_frame_dl) demo_macs
    demo_packet demo_down_requested) as (info & q & Hinfo & Hq & Hgo);
    [by vm_compute|exact (tables_of_kernel demo_service_K)|exact demo_down_frame|].
  assert (info = demo_tunnel) as -> by by vm_compute in Hinfo; injection Hinfo.
  apply demo_kernel_qer in Hq.
  destruct Hgo as (x' & check & H1' & H2' & H3').
  - apply demo_tunnels; [done..|by vm_compute|].
    assert (km_get (QerMap demo_service_K) 0 = Some demo_open_qer) as Hk by by vm_compute.
    rewrite Hk in Hq. by injection Hq as <-.
  - exists x', check. split; [exact H1'|]. split; [exact H2'|exact H3'].
Defined.


(** *** Handover

    The UE moves to 10.1.0.3: the session's first FAR gets a new tunnel. *)

Definition demo_update_far : demo_ie :=
  Grp 10 [Val 108 1; Octets 44 [2]; Grp 11 [Ohc (Some (mkOHCFields 256 513 (Some [10; 1; 0; 3])))]].
Definition demo_handover : SessionModificationReq :=
  mkModificationReq 2 13 None [] [demo_update_far] [] [] [] [] [] [] [] [] [] [] None None None.

Definition demo_run_handover := HandlePfcpSessionModificationRequest demo_loop demo_handover "10.0.0.2" demo_served.
Definition demo_moved : PfcpConnection (Shared (gset Z) kmap) := demo_run_handover.1.
Definition demo_moved_answer : OutMsg :=
  match demo_run_handover.2 with Ok (Some m, None) => m | _ => mkOutMsg HeartbeatRequest 0 0 [] end.
Definition demo_moved_K : BpfObjects (gset Z) kmap :=
  run_packet XdpDemo.demo_config (demo_xdp demo_frame_ul) (mapOperations demo_moved).1.

Lemma demo_handover_run : demo_run_handover = (demo_moved, Ok (Some demo_moved_answer, None)).
Proof.
  assert (demo_run_handover.2 = Ok (Some demo_moved_answer, None)) as Hr by by vm_compute.
  unfold demo_moved. destruct demo_run_handover as [c o]. cbn in Hr |- *. by rewrite Hr.
Qed.

Lemma demo_served_accepted :
  conn_inv demo_served ∧ is_session demo_served "10.0.0.2" 2 demo_serving_session ∧
  installed demo_serving_session (mapOperations demo_served).
Proof.
  destruct (accepted_session XdpDemo.demo_config demo_loop demo_service "10.0.0.2" demo_s1 demo_served demo_answer
    demo_s1_inv demo_service_readable demo_service_ids demo_service_run) as (Hinv & s & Hs & Hest); [by vm_compute|].
  pose proof Hs as ->%demo_service_only. split; [exact Hinv|]. split; [|exact (es_plane _ _ _ Hest)].
  assert (LocalSEID demo_serving_session = 2) as Hid by by vm_compute. by rewrite <-Hid at 1.
Qed.

Lemma demo_handover_known : known_ids demo_handover demo_serving_session.
Proof.
  assert (is_Some (FARs demo_serving_session !! 1)) as Hfar by (eexists; by vm_compute).
  split; try (by intros ? ?%elem_of_nil); try (by intros ? ? ?%elem_of_nil); try constructor.
  all: match goal with Hin : _ ∈ mod_UpdateFAR _ |- _ => apply list_elem_of_singleton in Hin as -> end.
  - by intros [? ? ? ? ?]; vm_compute.
  - intros id [= <-]. by apply elem_of_dom.
Qed.

Lemma demo_handover_updates : updates_fars demo_handover.
Proof. split; [done|]. vm_compute. repeat constructor; set_solver. Qed.

Lemma demo_handover_bearer : bearer demo_serving_session (far_id_of demo_update_far) 1 (demo_spdr 1).
Proof.
  destruct demo_down_requested as [_ _ _ _ _ _ Hs Hsole]. split.
  - exists 1. exact (conj Hs Hsole).
  - exists (mkSFarInfo demo_tunnel 0). split; by vm_compute.
  - exists (mkSQerInfo demo_open_qer 0). split; by vm_compute.
  - by vm_compute.
Qed.

Definition demo_moved_in (frame : bytes) : Xdp := set_x_maps (tables_of demo_moved_K) (demo_xdp frame).

Lemma demo_moved_frame : downlink_frame XdpDemo.demo_config (demo_moved_in demo_frame_dl) demo_macs demo_packet.
Proof. destruct demo_downlink_frame. by split. Qed.

Lemma handover_downlink_witness :
  ∃ x' check, upf_ip_entrypoint_func XdpDemo.demo_config (demo_moved_in demo_frame_dl) = (x', Ok XDP_REDIRECT) ∧
    (x_target x' = Some 2 ∧ x_frame x' = [2; 0; 0; 0; 0; 2; 2; 0; 0; 0; 0; 1] ++ [8; 0] ++
      tunnel_headers (le [10; 1; 0; 1]) (le [10; 1; 0; 3]) 0 9 513 40 check ++ demo_packet) ∧
    checksum_valid (ipv4_header 0 84 check (le [10; 1; 0; 1]) (le [10; 1; 0; 3])).
Proof.
  destruct demo_served_accepted as (Hinv & Hses & Hinst).
  destruct (handover_downlink XdpDemo.demo_config demo_loop demo_handover "10.0.0.2" demo_served demo_moved
    demo_moved_answer demo_moved_K demo_serving_session Hinv ltac:(constructor) Hses Hinst demo_handover_known
    demo_handover_updates demo_handover_run) as (s' & _ & _ & Hall);
    [by vm_compute|exact (run_packet_ok XdpDemo.demo_config (demo_xdp demo_frame_ul) (mapOperations demo_moved).1)|].
  destruct (Hall demo_update_far 1 (demo_spdr 1) (demo_moved_in demo_frame_dl) demo_macs demo_packet)
    as (far & qer & info & q & Hfar & Hqer & Hinfo & Hq & Hgo);
    [by left|exact demo_handover_bearer|by vm_compute|exact (tables_of_kernel demo_moved_K)|exact demo_moved_frame|].
  assert (far = mkSFarInfo demo_tunnel 0) as -> by by vm_compute in Hfar; injection Hfar.
  assert (info = mkFarInfo 2 1 513 (le [10; 1; 0; 3]) 0) as -> by by vm_compute in Hinfo; injection Hinfo.
  assert (qer = mkSQerInfo demo_open_qer 0) as -> by by vm_compute in Hqer; injection Hqer.
  apply demo_kernel_qer in Hq. destruct Hgo as (x' & check & H1' & H2' & H3').
  - apply demo_tunnels; [done..|].
    assert (km_get (QerMap demo_moved_K) 0 = Some demo_open_qer) as Hk by by vm_compute.
    rewrite Hk in Hq. by injection Hq as <-.
  - exists x', check. split; [exact H1'|]. split; [exact H2'|exact H3'].
Defined.
