(* ===== verification/Closing.v ===== *)
(** * From the end of a session to frames (cmd/core, cmd/ebpf)

    What a session leaves in the PDR tables when its deletion is accepted or
    the association of its peer is deleted, and what then happens to packets
    of its UE. *)

From S2P Require Import Prelude IdTracker Net Config KernelMap ForwardingPlane Dataplane Resources Session Pfcp.
From S2P Require Import Display PdrContext Connection SessionHandlers Ownership SessionFacts Accepted Association.
From S2P Require Import EventLoop EndToEnd.
From S2P Require Import Stats XdpMemory XdpParse XdpGtp XdpRules XdpProgram XdpFrame XdpSdf XdpForward XdpUplink.
From S2P Require Import XdpTables XdpDemo Traffic Service.

(** ** The PDR tables after a deletion *)

Section closing.
Context `{Pfcp} `{MapOrder} `{ForwardingPlane F}.
Implicit Types (c : PfcpConnection F) (s : Session) (p : SPDRInfo) (v : FPView).

(** No other TEID of the session agrees with that of the PDR in its low
    byte, which is all that the cache of deleted TEIDs keeps. *)
Definition own_low_byte s p : Prop :=
  ∀ t id q t', key_of p = KTeid t → PDRs s !! id = Some q → key_of q = KTeid t' → u8 t' = u8 t → t' = t.

Definition closed s v : Prop :=
  ∀ id p, PDRs s !! id = Some p → own_low_byte s p → pdr_entry v (key_of p) = None.

(** The sessions of [D] have no entries any more. *)
Definition all_closed (D : Session → Prop) v : Prop := ∀ s, D s → closed s v.
Definition plane_closed (D : Session → Prop) (fp : F) : Prop := ∃ v, fp_repr fp v ∧ all_closed D v.

(** While the PDRs of a session are deleted: those done are gone, and the
    cache holds the low bytes of TEIDs that are gone. *)
Definition closing D s (before : list (Z * SPDRInfo)) (pc : PDRCreationContext) v : Prop :=
  all_closed D v ∧
  (∀ i p, (i, p) ∈ before → own_low_byte s p → pdr_entry v (key_of p) = None) ∧
  (∀ n, is_Some (TEIDCache pc !! n) →
     ∃ i q t, PDRs s !! i = Some q ∧ key_of q = KTeid t ∧ u8 t = n ∧ pdr_entry v (KTeid t) = None).

Lemma deleted_stays k k' v : pdr_entry v k' = None → pdr_entry (delete_entry k v) k' = None.
Proof. intros Hk. rewrite pdr_entry_delete. by case_decide. Qed.

(** One more PDR whose entry is gone. *)
Lemma closing_snoc D s before i p pc v :
  (own_low_byte s p → pdr_entry v (key_of p) = None) → closing D s before pc v →
  closing D s (before ++ [(i, p)]) pc v.
Proof.
  intros Hthis (HD & Hgone & Hcache). split; [done|]. split; [|done].
  intros j q [Hin|[= -> ->]%list_elem_of_singleton]%elem_of_app Hown; [by eapply Hgone|by apply Hthis].
Qed.

Lemma closing_delete D s before k pc v : closing D s before pc v → closing D s before pc (delete_entry k v).
Proof.
  intros (HD & Hgone & Hcache). split; [|split].
  - intros s' Hs' id q Hq Hown. by eapply deleted_stays, HD.
  - intros i p Hin Hown. by eapply deleted_stays, Hgone.
  - intros n Hn. destruct (Hcache n Hn) as (i & q & t & ? & ? & ? & ?). exists i, q, t. by eauto using deleted_stays.
Qed.

(** The entry is deleted, unless the cache says that it is gone. *)
Lemma closing_step D s before i p pc pc' v :
  PDRs s !! i = Some p → closing D s before pc v → TEIDCache pc' = TEIDCache (mark_deleted p pc) →
  closing D s (before ++ [(i, p)]) pc' (if cached pc p then v else delete_entry (key_of p) v).
Proof.
  intros Hp Hcl Hpc'. pose proof Hcl as (_ & _ & Hcache). destruct (cached pc p) eqn:Hc.
  - assert (TEIDCache pc' = TEIDCache pc) as Heq.
    { rewrite Hpc'. unfold mark_deleted. destruct (key_of p); try done. by rewrite Hc. }
    destruct (closing_snoc D s before i p pc v) as (? & ? & ?); [|done|by split; [|split; [|rewrite Heq]]].
    intros Hown. unfold cached in Hc. destruct (key_of p) as [a|a|t] eqn:Hk; try done.
    apply bool_decide_eq_true_1, Hcache in Hc. destruct Hc as (j & q & t' & Hq & Hkq & Ht & Hnone).
    by rewrite <-(Hown t j q t' Hk Hq Hkq Ht).
  - assert (pdr_entry (delete_entry (key_of p) v) (key_of p) = None) as Hnone.
    { rewrite pdr_entry_delete. by case_decide. }
    destruct (closing_snoc D s before i p pc (delete_entry (key_of p) v)) as (? & ? & Hold);
      [done|by apply closing_delete|]. split; [done|]. split; [done|].
    intros n Hn. rewrite Hpc' in Hn. unfold mark_deleted in Hn.
    destruct (key_of p) as [a|a|t] eqn:Hk; [by apply Hold..|]. rewrite Hc in Hn.
    cbn in Hn. apply lookup_insert_is_Some in Hn as [<-|[_ Hn]]; [|by apply Hold].
    exists i, p, t. done.
Qed.

(** The state of the loop over the PDRs. *)
Definition pdrs_closing D s before (st : PDRCreationContext * F) : Prop :=
  pools_ok (pc_ResourceManager st.1) ∧ ∃ v, fp_repr st.2 v ∧ closing D s before st.1 v.

Lemma wp_deletePDR_closing D s before i p st :
  PDRs s !! i = Some p → pdrs_closing D s before st →
  wp (deletePDR p) st (λ _ st', pdrs_closing D s (before ++ [(i, p)]) st')
    (λ _ st', pdrs_closing D s (before ++ [(i, p)]) st').
Proof.
  destruct st as [pc fp]. intros Hp (Hrm & v & Hv & Hcl). cbn [fst snd] in *. pose proof Hrm as (x & f & Hrmeq & _).
  eapply wp_mono; [apply wp_conj; [by apply (deletePDR_pools pc fp v p)|apply (deletePDR_spec pc fp v p); [done|]]|..].
  - intros _. unfold ctx_FTEIDM. by rewrite Hrmeq.
  - intros _ [pc' fp'] [(Hrm' & _ & _ & Hv' & _) (_ & _ & Hpc')]. cbn [fst snd] in *. split; [done|].
    eexists. split; [exact Hv'|]. apply closing_step; [done..|].
    destruct (s_Teid p =? 0); [by subst|]. destruct Hpc' as (f0 & f' & _ & -> & _). done.
  - intros e [pc' fp'] [(Hpc' & Hv' & Hnone) _]. cbn [fst snd] in *. subst pc'. split; [done|]. exists v.
    split; [done|]. by apply closing_snoc.
Qed.

Lemma pdrs_closing_start D s pc fp v :
  fp_repr fp v → all_closed D v → pools_ok (pc_ResourceManager pc) → TEIDCache pc = ∅ →
  pdrs_closing D s [] (pc, fp).
Proof.
  intros Hv HD Hrm Hpc. split; [done|]. exists v. split; [done|]. split; [done|]. split; [set_solver|].
  intros n. cbn. rewrite Hpc. by intros [? ?].
Qed.

Lemma pdrs_closing_end D s st :
  pdrs_closing D s (range_map (PDRs s)) st →
  pools_ok (pc_ResourceManager st.1) ∧ plane_closed (λ s', D s' ∨ s' = s) st.2.
Proof.
  intros (Hrm & v & Hv & HD & Hcl & _). split; [done|]. exists v. split; [done|].
  intros s' [Hs'| ->]; [by apply HD|]. intros i p Hp Hown. apply (Hcl i p); [|done]. by apply elem_of_range_map.
Qed.

(** A rule of another table is deleted. *)
Lemma wp_delete_rule {V A} D get on (R : option V → A → Prop) op id fp :
  deletes fp_repr get on R op → (∀ f v k, pdr_entry (on f v) k = pdr_entry v k) →
  in_range 32 id → plane_closed D fp →
  wp (op id) fp (λ _ fp', plane_closed D fp') (λ _ fp', plane_closed D fp').
Proof.
  intros Hop Hon Hid (v & Hv & Hc). wp_call Hop.
  - intros a fp' [_ Hfp]. eexists. split; [exact Hfp|]. intros s Hs i p Hp Hown. rewrite Hon. by eapply Hc.
  - intros e fp' [_ Hfp]. by exists v.
Qed.

Lemma wp_delete_far D id fp :
  in_range 32 id → plane_closed D fp →
  wp (DeleteFar id) fp (λ _ fp', plane_closed D fp') (λ _ fp', plane_closed D fp').
Proof. apply (wp_delete_rule D v_far on_far _ DeleteFar id fp DeleteFar_ok). by intros f v []. Qed.
Lemma wp_delete_qer D id fp :
  in_range 32 id → plane_closed D fp →
  wp (DeleteQer id) fp (λ _ fp', plane_closed D fp') (λ _ fp', plane_closed D fp').
Proof. apply (wp_delete_rule D v_qer on_qer _ DeleteQer id fp DeleteQer_ok). by intros f v []. Qed.
Lemma wp_delete_urr D id fp :
  in_range 32 id → plane_closed D fp →
  wp (DeleteUrr id) fp (λ _ fp', plane_closed D fp') (λ _ fp', plane_closed D fp').
Proof. apply (wp_delete_rule D v_urr on_urr _ DeleteUrr id fp DeleteUrr_ok). by intros f v []. Qed.

Definition ids_in_range s : Prop :=
  (∀ i e, FARs s !! i = Some e → in_range 32 (sf_GlobalId e)) ∧
  (∀ i e, QERs s !! i = Some e → in_range 32 (sq_GlobalId e)) ∧
  (∀ i e, URRs s !! i = Some e → in_range 32 (su_GlobalId e)).

(** *** By a request *)

Lemma delete_rules_closes s pc fp v :
  fp_repr fp v → pools_ok (pc_ResourceManager pc) → TEIDCache pc = ∅ → ids_in_range s →
  wp (delete_rules s) (pc, fp) (λ _ st, plane_closed (eq s) st.2) (λ _ _, True).
Proof.
  intros Hv Hrm Hpc (HF & HQ & HU). unfold delete_rules. apply wp_bind.
  eapply wp_mono; [apply (wp_for_each_prefix (range_map (PDRs s)) _ (pdrs_closing (λ _, False) s) (λ _ _, True))| |done].
  { intros before [i p] rest st Hl Hst. eapply wp_mono; [apply (wp_deletePDR_closing (λ _, False) s before i p st); [|exact Hst]| |done].
    - apply elem_of_range_map. rewrite Hl. set_solver.
    - by intros ? ?. }
  { eapply pdrs_closing_start; [done|by intros ? []|done..]. }
  intros [] st1 [_ (v1 & Hv1 & Hcl)]%pdrs_closing_end.
  assert (plane_closed (eq s) st1.2) as Hst1. { exists v1. split; [done|]. intros s' <-. apply Hcl. by right. }
  apply wp_bind. eapply wp_mono; [apply (wp_for_each _ _ (λ st, plane_closed (eq s) st.2) (λ _ _, True)); [|exact Hst1]| |done].
  { intros [i e] st Hin%elem_of_range_map Hst. unfold on_maps. wp_go. wp_call (wp_delete_far (eq s)); [by eapply HF|done..]. }
  intros [] st2 Hst2. apply wp_bind.
  eapply wp_mono; [apply (wp_for_each _ _ (λ st, plane_closed (eq s) st.2) (λ _ _, True)); [|exact Hst2]| |done].
  { intros [i e] st Hin%elem_of_range_map Hst. unfold on_maps. wp_go. wp_call (wp_delete_qer (eq s)); [by eapply HQ|done..]. }
  intros [] st3 Hst3. apply (wp_collect _ _ _ (λ st, plane_closed (eq s) st.2)).
  apply (wp_for_each _ _ (λ st, plane_closed (eq s) st.2)); [|done].
  intros [i e] st Hin%elem_of_range_map Hst. apply wp_bind, wp_on_result. cbn [fst snd]. unfold on_maps. wp_go.
  wp_call (wp_delete_urr (eq s)); [by eapply HU|done|..]; intros; by wp_go.
Qed.

(** *** With its association *)

Lemma DeleteSession_closes D s c :
  plane_closed D (mapOperations c) → pools_ok (conn_ResourceManager c) → ids_in_range s →
  wp (DeleteSession s) c
    (λ _ c', pools_ok (conn_ResourceManager c') ∧ plane_closed (λ s', D s' ∨ s' = s) (mapOperations c'))
    (λ _ _, False).
Proof.
  intros Hc Hrm (HF & HQ & _). unfold DeleteSession. apply wp_bind.
  eapply wp_mono; [apply (wp_for_each _ _ (λ c, pools_ok (conn_ResourceManager c) ∧ plane_closed D (mapOperations c))
    (λ _ _, False)); [|done]| |done].
  { intros [i e] c1 Hin%elem_of_range_map [Hrm1 Hc1]. apply wp_ignore_err. unfold on_plane. wp_go.
    wp_call (wp_delete_far D); [by eapply HF|done..]. }
  intros [] c1 [Hrm1 Hc1]. apply wp_bind.
  eapply wp_mono; [apply (wp_for_each _ _ (λ c, pools_ok (conn_ResourceManager c) ∧ plane_closed D (mapOperations c))
    (λ _ _, False)); [|done]| |done].
  { intros [i e] c2 Hin%elem_of_range_map [Hrm2 Hc2]. apply wp_ignore_err. unfold on_plane. wp_go.
    wp_call (wp_delete_qer D); [by eapply HQ|done..]. }
  intros [] c2 [Hrm2 (v & Hv & HD)]. apply wp_with_pdr_context.
  eapply wp_mono; [apply (wp_for_each_prefix (range_map (PDRs s)) _ (pdrs_closing D s) (λ _ _, False))| |done].
  - intros before [i p] rest st Hl Hst. apply wp_ignore_err.
    apply (wp_deletePDR_closing D s before i p st); [|exact Hst]. apply elem_of_range_map. rewrite Hl. set_solver.
  - by eapply pdrs_closing_start.
  - intros [] st Hst. by apply pdrs_closing_end.
Qed.

Lemma session_ids c a n s : conn_inv c → is_session c a n s → ids_in_range s.
Proof.
  intros (_ & v & _ & (HF & _) & (HQ & _) & (HU & _)) (assoc & Ha & Hs).
  split_and!; intros i e Hi.
  - by apply (HF a n i e); exists assoc, s.
  - by apply (HQ a n i e); exists assoc, s.
  - by apply (HU a n i e); exists assoc, s.
Qed.

Lemma DeleteAssociation_closes addr assoc c :
  conn_inv c → NodeAssociations c !! addr = Some assoc →
  wp (DeleteAssociation addr) c
    (λ _ c', plane_closed (λ s, ∃ n, Sessions assoc !! n = Some s) (mapOperations c')) (λ _ _, False).
Proof.
  intros Hinv Ha. pose proof Hinv as (Hrm & v & Hv & _). unfold DeleteAssociation, GetAssociation. wp_go. rewrite Ha.
  apply wp_bind. eapply wp_mono; [apply (wp_for_each_prefix (range_map (Sessions assoc)) _ (λ before c,
    pools_ok (conn_ResourceManager c) ∧ plane_closed (λ s, s ∈ before.*2) (mapOperations c)) (λ _ _, False))| |done].
  - intros before [n s] rest c1 Hl [Hrm1 Hc1].
    assert (ids_in_range s) as Hids.
    { apply (session_ids c addr n); [done|]. exists assoc. split; [done|]. apply elem_of_range_map. rewrite Hl. set_solver. }
    wp_call (DeleteSession_closes (λ s, s ∈ before.*2) s c1 Hc1 Hrm1 Hids).
    + intros _ c2 (Hrm2 & v2 & Hv2 & HD2). split; [done|]. exists v2. split; [done|]. intros s' Hs'. apply HD2.
      rewrite fmap_app in Hs'. set_solver.
    + done.
  - split; [done|]. exists v. split; [done|]. intros s Hs. by apply elem_of_nil in Hs.
  - intros [] c1 [_ (v1 & Hv1 & HD1)]. wp_go. exists v1. split; [done|]. intros s [n Hn]. apply HD1.
    apply list_elem_of_fmap. exists (n, s). split; [done|]. by apply elem_of_range_map.
Qed.

(** *** In answer to the peer *)
Lemma deletion_closes c req addr s :
  conn_inv c → is_session c addr (del_SEID req) s →
  wp (HandlePfcpSessionDeletionRequest req addr) c
    (λ r c', r.2 = None → plane_closed (eq s) (mapOperations c')) (λ _ _, False).
Proof.
  intros Hinv Hat. pose proof (session_ids _ _ _ _ Hinv Hat) as Hids. destruct Hat as (assoc & Ha & Hs).
  pose proof Hinv as (Hrm & v & Hv & Hown).
  unfold HandlePfcpSessionDeletionRequest, rx_error, emit. wp_go. unfold GetAssociation. rewrite Ha, Hs. wp_go.
  pose proof (delete_rules_closes s (NewPDRCreationContext s (conn_ResourceManager c)) (mapOperations c) v
    Hv Hrm eq_refl Hids) as Hdel.
  pose proof (delete_rules_remains (others_of v s) v (ipam_of (conn_ResourceManager c)) s
    (NewPDRCreationContext s (conn_ResourceManager c), mapOperations c)) as Hrem.
  assert (owns_rules s (others_of v s) v v) as Hsown.
  { apply (rules_owned_session _ _ addr (del_SEID req) _ Hown). left. exists s. split; [by exists assoc|done]. }
  unfold wp at 1. unfold wp at 1 in Hdel. unfold wp at 1 in Hrem. unfold with_pdr_context.
  destruct (delete_rules s _) as [[pc fp] [reports|err|]];
    specialize (Hrem ltac:(split; [done|by exists v])); cbn [fst snd] in *; [|by wp_go|done].
  destruct Hrem as (s' & [Hrm1 _] & _). cbn [fst snd] in *. wp_go.
  wp_call ReleaseResources_spec; [|done]. intros _ c2 (Hc2 & _ & _). wp_go. intros _.
  by rewrite Hc2.
Qed.

End closing.

(** ** Packets of the UE *)

Section silence.
Context `{BitmapLaws B} `{KernelMapLaws Mp} `{XdpKernelLaws} (cfg : dataplane_config).
Context `{Pfcp} `{MapOrder} (Conf : UpfConfig).
Implicit Types (c : PfcpConnection (Shared B Mp)) (K : BpfObjects B Mp) (s : Session).

#[local] Instance plane_of_silence : ForwardingPlane (Shared B Mp) := shared_plane cfg.

(** The packet is handed to the host's network stack as it came, and no rule
    of the tables has changed. *)
Definition not_served (x : Xdp) : Prop :=
  ∃ x', upf_ip_entrypoint_func cfg x = (x', Ok XDP_PASS) ∧ x_frame x' = x_frame x ∧ x_maps x' = x_maps x.

(** The end of a session: a deletion request for it is answered without an
    error, or the loop deletes the association of a peer that was reported
    lost. *)
Inductive session_ends (addr : string) (n : Z) c c' : Prop :=
  | ends_on_request req r : del_SEID req = n →
      HandlePfcpSessionDeletionRequest req addr c = (c', Ok (r, None)) → session_ends addr n c c'
  | ends_with_peer Parse ResolveUDPAddr Send :
      Run_turn Conf Parse ResolveUDPAddr Send (HeartbeatFailed addr) c = (c', Ok tt) → session_ends addr n c c'.

Lemma session_ends_closed addr n s c c' :
  conn_inv c → is_session c addr n s → session_ends addr n c c' →
  (∀ s', ¬ is_session c' addr n s') ∧ plane_closed (eq s) (mapOperations c').
Proof.
  intros Hinv Hat [req r <- Hrun|Parse ResolveUDPAddr Send Hrun].
  - pose proof (deletion_closes c req addr s Hinv Hat) as Hclosed.
    pose proof (deletion_spec c req addr Hinv) as Hspec. unfold wp in Hclosed, Hspec. rewrite Hrun in Hclosed, Hspec.
    split; [|by apply Hclosed]. destruct Hat as (assoc & Ha & Hs).
    destruct Hspec as (m & k & _ & _ & _ & _ & _ & Hcase). rewrite Ha, Hs in Hcase.
    destruct Hcase as [(_ & _ & _ & Hn)|(_ & [? ?] & _)]; [|done].
    intros s' (a & Ha' & Hs'). rewrite Hn, lookup_insert_eq in Ha'. injection Ha' as <-. cbn in Hs'.
    by rewrite lookup_delete_eq in Hs'.
  - destruct Hat as (assoc & Ha & Hs). cbn in Hrun.
    pose proof (DeleteAssociation_closes addr assoc c Hinv Ha) as Hclosed.
    pose proof (DeleteAssociation_spec addr assoc c Hinv Ha) as Hspec. unfold wp in Hclosed, Hspec.
    rewrite Hrun in Hclosed, Hspec. destruct Hspec as (_ & Hn & _). split.
    + intros s' (a & Ha' & _). by rewrite Hn, lookup_delete_eq in Ha'.
    + destruct Hclosed as (v & Hv & HD). exists v. split; [done|]. intros s' <-. apply HD. by exists n.
Qed.

(** C4: the end of a session.  When a session deletion is answered without an
    error, or the peer is reported lost, the session is gone; and, after any
    further packets, the kernel has no entry for the IPv4 and IPv6 UE addresses
    of its PDRs, nor for each of its TEIDs whose low byte no other TEID of the
    session has; packets to the IPv4 addresses and G-PDUs for these TEIDs are
    not forwarded any more: each is handed to the host's stack as it came.
    (Of TEIDs of a session that agree in the low byte only the first is taken
    out of the table: the cache of deleted TEIDs keeps no more of them.) *)
Theorem session_closed addr n s c c' K :
  conn_inv c → is_session c addr n s → session_ends addr n c c' → packets cfg (mapOperations c').1 K →
  (∀ s', ¬ is_session c' addr n s') ∧
  ∀ id spdr x macs pkt, PDRs s !! id = Some spdr → kernel_tables K (x_maps x) →
    (own_low_byte s spdr ∨ (∀ t, key_of spdr ≠ KTeid t) → kernel_entry K (key_of spdr) = None) ∧
    (s_Ipv4 spdr = Some (slice 16 4 pkt) → downlink_frame cfg x macs pkt → not_served x) ∧
    (∀ outer inner, key_of spdr = KTeid (s_Teid spdr) → own_low_byte s spdr →
       uplink_frame cfg x macs pkt (s_Teid spdr) outer inner → not_served x).
Proof.
  intros Hinv Hat Hends Hpk. destruct (session_ends_closed _ _ _ _ _ Hinv Hat Hends) as [Hgone (v & [Hv _] & Hc)].
  split; [done|]. specialize (Hc s eq_refl). assert (holds_rules K v) as HK by by eapply packets_hold_rules.
  intros id spdr x macs pkt Hid Hx. pose proof (holds_pdr K v (key_of spdr) HK) as Hk. split; [|split].
  - rewrite Hk. intros [Hown|Hip]; apply (Hc _ _ Hid); [done|]. intros t ? ? ? Ht. by destruct (Hip t).
  - intros Hip Hframe. refine (downlink_unserved cfg x macs pkt Hframe _).
    destruct Hx as (_ & _ & _ & _ & -> & _). rewrite <-Hip. unfold key_of in Hk. rewrite Hip in *. cbn in Hk. rewrite Hk.
    specialize (Hc _ _ Hid). unfold own_low_byte, key_of in Hc. rewrite Hip in Hc. by apply Hc.
  - intros outer inner Hkey Hown Hframe. refine (uplink_unserved cfg x macs pkt _ outer inner Hframe _).
    destruct Hx as (_ & _ & _ & -> & _). rewrite Hkey in Hk. cbn in Hk. rewrite Hk.
    specialize (Hc _ _ Hid Hown). by rewrite Hkey in Hc.
Qed.

End silence.

(** ** A concrete end

    The session of [Service] is deleted while a packet of its UE passes. *)

#[local] Existing Instance ascending_order.
#[local] Existing Instance demo_pfcp.

Definition demo_closing : SessionDeletionReq := mkDeletionReq 2 15.
Definition demo_run_closing := HandlePfcpSessionDeletionRequest demo_closing "10.0.0.2" demo_served.
Definition demo_closed : PfcpConnection (Shared (gset Z) kmap) := demo_run_closing.1.
Definition demo_closed_K : BpfObjects (gset Z) kmap :=
  run_packet XdpDemo.demo_config (demo_xdp demo_frame_ul) (mapOperations demo_closed).1.
Definition demo_late (frame : bytes) : Xdp := set_x_maps (tables_of demo_closed_K) (demo_xdp frame).

Lemma demo_closing_run :
  demo_run_closing = (demo_closed, Ok (Some (mkOutMsg SessionDeletionResponse 79 15 [NewCause 1]), None)).
Proof.
  assert (demo_run_closing.2 = Ok (Some (mkOutMsg SessionDeletionResponse 79 15 [NewCause 1]), None)) as Hr
    by (vm_compute; reflexivity).
  unfold demo_closed. destruct demo_run_closing as [c o]. cbn in Hr |- *. by rewrite Hr.
Qed.

Lemma demo_late_down : downlink_frame XdpDemo.demo_config (demo_late demo_frame_dl) demo_macs demo_packet.
Proof. destruct demo_downlink_frame. by split. Qed.

Lemma demo_late_up :
  uplink_frame XdpDemo.demo_config (demo_late demo_frame_ul) demo_macs (drop 14 demo_frame_ul) (s_Teid (demo_spdr 2))
    (take 36 (drop 14 demo_frame_ul)) demo_packet_ul.
Proof.
  assert (s_Teid (demo_spdr 2) = 33) as -> by by vm_compute. destruct demo_uplink_frame. by split.
Qed.

Lemma demo_own_low_byte : own_low_byte demo_serving_session (demo_spdr 2).
Proof.
  assert (key_of (demo_spdr 2) = KTeid 33) as Hk by by vm_compute.
  intros t id q t' Ht Hq Ht' _. rewrite Hk in Ht. injection Ht as <-.
  destruct (demo_service_pdrs _ _ Hq) as [[_ Hq']|[_ Hq']]; rewrite Hq' in Ht'; congruence.
Qed.

Lemma session_closed_witness :
  (∀ s', ¬ is_session demo_closed "10.0.0.2" 2 s') ∧
  not_served XdpDemo.demo_config (demo_late demo_frame_dl) ∧
  not_served XdpDemo.demo_config (demo_late demo_frame_ul).
Proof.
  destruct demo_served_accepted as (Hinv & Hses & _).
  destruct (session_closed XdpDemo.demo_config demo_loop "10.0.0.2" 2 demo_serving_session demo_served demo_closed
    demo_closed_K Hinv Hses (ends_on_request _ _ _ _ _ demo_closing _ eq_refl demo_closing_run)) as [Hgone Hall].
  { exact (run_packet_ok XdpDemo.demo_config (demo_xdp demo_frame_ul) (mapOperations demo_closed).1). }
  split; [exact Hgone|]. split.
  - refine (proj1 (proj2 (Hall 1 (demo_spdr 1) (demo_late demo_frame_dl) demo_macs demo_packet _
      (tables_of_kernel demo_closed_K))) _ demo_late_down); by vm_compute.
  - refine (proj2 (proj2 (Hall 2 (demo_spdr 2) (demo_late demo_frame_ul) demo_macs (drop 14 demo_frame_ul) _
      (tables_of_kernel demo_closed_K))) _ _ _ demo_own_low_byte demo_late_up); by vm_compute.
Defined.
