(* ===== verification/Monitoring.v ===== *)
(** * Monitoring (cmd/api/rest/stats.go, handler.go, cmd/core/metrics.go)

    The statistics handlers of the REST API, the metrics registered with
    Prometheus and the table of routes; and, across the two halves of the
    program, what they show of the packets the data plane has handled. *)

From S2P Require Import Prelude Net Config ForwardingPlane Session Pfcp PdrContext Connection Stats.
From S2P Require Import Rest Dataplane XdpMemory XdpProgram XdpEffects XdpSafety XdpDemo.

(** ** Statistics handlers *)

(* cmd/api/rest/stats.go:9-15 XdpStats *)
Record XdpStats := mkXdpStats {
  st_Aborted : Z;
  st_Drop : Z;
  st_Pass : Z;
  st_Tx : Z;
  st_Redirect : Z
}.

(** [PacketStats] and [RouteStats] have the fields of [UpfCounters] and of the
    routing counters, in their order. *)
(* cmd/api/rest/stats.go:17-30 PacketStats *)
Definition PacketStats : Type := UpfCounters.

(* cmd/api/rest/stats.go:32-42 RouteStats *)
Definition RouteStats : Type := RouteStat.

(* cmd/api/rest/stats.go:52-60 displayXdpStatistics *)
Definition displayXdpStatistics (ext : lookup UpfStatistic) : response XdpStats :=
  [(StatusOK, inr (mkXdpStats (GetAborted ext) (GetDrop ext) (GetPass ext) (GetTx ext) (GetRedirect ext)))].

(* cmd/api/rest/stats.go:70-86 displayPacketStats *)
Definition displayPacketStats (ext : lookup UpfStatistic) : response PacketStats :=
  let packets := GetUpfExtStat ext in
  [(StatusOK, inr (mkUpfCounters (RxArp packets) (RxIcmp packets) (RxIcmp6 packets) (RxIp4 packets)
     (RxIp6 packets) (RxTcp packets) (RxUdp packets) (RxOther packets) (RxGtpEcho packets)
     (RxGtpPdu packets) (RxGtpOther packets) (RxGtpUnexp packets)))].

(* cmd/api/rest/stats.go:96-109 displayRouteStats *)
Definition displayRouteStats (routes : lookup RouteStat) : response RouteStats :=
  let route := GetUpfRouteStat routes in
  [(StatusOK, inr (mkRouteStat (FibLookupIp4Cache route) (FibLookupIp4Ok route)
     (FibLookupIp4ErrorDrop route) (FibLookupIp4ErrorPass route) (FibLookupIp6Cache route)
     (FibLookupIp6Ok route) (FibLookupIp6ErrorDrop route) (FibLookupIp6ErrorPass route)))].

(** ** Registered metrics *)

(** The value of each metric when it is collected; [CounterFunc] and
    [GaugeFunc] call the function they were made with. *)
(* cmd/core/metrics.go:61-120 RegisterMetrics *)
Definition RegisterMetrics `{MapOrder} {F} (conn : PfcpConnection F) (ext : lookup UpfStatistic)
    : list (string * Z) :=
  [("upf_xdp_aborted", float64 (GetAborted ext)); ("upf_xdp_drop", float64 (GetDrop ext));
   ("upf_xdp_pass", float64 (GetPass ext)); ("upf_xdp_tx", float64 (GetTx ext));
   ("upf_xdp_redirect", float64 (GetRedirect ext));
   ("upf_pfcp_sessions", float64 (GetSessionCount conn));
   ("upf_pfcp_associations", float64 (GetAssiciationCount conn))]%string.

(** ** Routes *)

Inductive HttpMethod := GET | POST | PUT.

#[export] Instance HttpMethod_eq_dec : EqDecision HttpMethod.
Proof. solve_decision. Defined.

(** The handlers, by the name of their method. *)
Inductive ApiRoute :=
  | health | swagger | metricsRoute
  | xdpStatistics | packetStats | routeStats
  | getConfig | postConfig
  | getUplinkPdr | putUplinkPdr
  | listQers | getQer | putQer
  | getFar | putFar
  | listAssociations | listAssociationsFull
  | listSessions.

#[export] Instance ApiRoute_eq_dec : EqDecision ApiRoute.
Proof. solve_decision. Defined.

Abbreviation Routes := (list (HttpMethod * string * ApiRoute)).

Section routes.
(** gin's joining of a group's path with a relative one. *)
Variable joinPaths : string → string → string.

Definition group_routes (base : string) (l : Routes) : Routes :=
  (λ r, (r.1.1, joinPaths base r.1.2, r.2)) <$> l.

(* cmd/api/rest/handler.go:64-105 initDefaultRoutes *)
Definition initDefaultRoutes (group : string) : Routes :=
  group_routes group [(GET, "xdp_stats", xdpStatistics); (GET, "packet_stats", packetStats);
                      (GET, "route_stats", routeStats)]%string ++
  group_routes (joinPaths group "config") [(GET, "", getConfig); (POST, "", postConfig)]%string ++
  group_routes (joinPaths group "uplink_pdr_map")
    [(GET, ":id", getUplinkPdr); (PUT, ":id", putUplinkPdr)]%string ++
  group_routes (joinPaths group "qer_map")
    [(GET, "", listQers); (GET, ":id", getQer); (PUT, ":id", putQer)]%string ++
  group_routes (joinPaths group "far_map") [(GET, ":id", getFar); (PUT, ":id", putFar)]%string ++
  group_routes (joinPaths group "pfcp_associations")
    [(GET, "", listAssociations); (GET, "full", listAssociationsFull)]%string ++
  group_routes (joinPaths group "pfcp_sessions") [(GET, "", listSessions)]%string.

(* cmd/api/rest/handler.go:43-61 InitRoutes *)
Definition InitRoutes : Routes :=
  group_routes "/api/v1" [(GET, "/health", health)]%string ++
  initDefaultRoutes "/api/v1" ++
  [(GET, "/swagger/*any", swagger)]%string.

End routes.

(** The handler gathers the counters and shows what is registered. *)
(* cmd/api/rest/handler.go:107-123 InitMetricsRoute *)
Definition InitMetricsRoute : Routes := [(GET, "/metrics", metricsRoute)]%string.

(** As [path.Join] does where neither part ends in a slash. *)
Definition join (base relative : string) : string :=
  match relative with
  | EmptyString => base
  | String "/" _ => base ++ relative
  | _ => base ++ "/" ++ relative
  end.

(** gin refuses a second handler for a method and a path with a panic. *)
Example routes_distinct : NoDup (InitRoutes join).*1.
Proof. apply (bool_decide_unpack _). by vm_compute. Qed.

(** The paths of the API are the documented ones. *)
Example routes_paths : (InitRoutes join).*1.*2 =
  ["/api/v1/health"; "/api/v1/xdp_stats"; "/api/v1/packet_stats"; "/api/v1/route_stats";
   "/api/v1/config"; "/api/v1/config"; "/api/v1/uplink_pdr_map/:id"; "/api/v1/uplink_pdr_map/:id";
   "/api/v1/qer_map"; "/api/v1/qer_map/:id"; "/api/v1/qer_map/:id";
   "/api/v1/far_map/:id"; "/api/v1/far_map/:id"; "/api/v1/pfcp_associations";
   "/api/v1/pfcp_associations/full"; "/api/v1/pfcp_sessions"; "/swagger/*any"]%string.
Proof. reflexivity. Qed.

(** ** What the readings show *)

Lemma actions_observation : observation (λ x, XdpActions <$> x_stat x) (λ _, True).
Proof.
  split; try done. intros k x. cbn. by destruct (x_stat x).
Qed.

Lemma process_packet_counts `{XdpKernelLaws} cfg x :
  0 ≤ x_data x ≤ x_data_end x →
  ∃ x' action s', upf_ip_entrypoint_func cfg x = (x', Ok action) ∧ 0 ≤ action ≤ 4 ∧
    x_stat x' = Some s' ∧
    XdpActions s' = alter (λ n, u64 (n + 1)) (Z.to_nat action)
                      (XdpActions (default zeroUpfStatistic (x_stat x))).
Proof.
  intros Hb. unfold upf_ip_entrypoint_func. set (y := set_x_stat _ x).
  set (r0 := mkRun y (new_context (x_data y) (x_data_end y))).
  assert (XdpActions <$> x_stat (xdp (process_packet cfg r0).1)
          = Some (XdpActions (default zeroUpfStatistic (x_stat x)))) as Hk.
  { apply (process_packet_fixes _ _ actions_observation cfg r0). split_and!; by intros k pdr _. }
  pose proof (process_packet_safe cfg (mkShape (x_data y) (x_data_end y) (new_context (x_data y) (x_data_end y)))
    _ _ Hb eq_refl r0 eq_refl) as Hs. unfold wp in Hs.
  destruct (process_packet cfg r0) as [r [a|e|]]; [|done..]. destruct Hs as [Ha _]. assert (0 ≤ a ≤ 4) as Hact by exact Ha. cbn in Hk.
  apply fmap_Some in Hk as (s & Hs & Heq). exists (set_x_stat (count_action a <$> x_stat (xdp r)) (xdp r)), a.
  exists (count_action a s). split; [done|]. split; [done|]. cbn. rewrite Hs. split; [done|]. rewrite <-Heq.
  cbn. f_equal. f_equal.
  assert (a = 0 ∨ a = 1 ∨ a = 2 ∨ a = 3 ∨ a = 4) as [->|[->|[->|[->| ->]]]] by lia; done.
Qed.

(** A CPU handles one packet after another: its entry of the statistics map
    is handed on; the tables and the frames are any. *)
Fixpoint run_packets `{XdpKernel} (cfg : dataplane_config) (s : option UpfStatistic) (xs : list Xdp)
    : option UpfStatistic * list (outcome Z) :=
  match xs with
  | [] => (s, [])
  | x :: xs =>
      let '(x', action) := upf_ip_entrypoint_func cfg (set_x_stat s x) in
      let '(s', actions) := run_packets cfg (x_stat x') xs in
      (s', action :: actions)
  end.

Definition count (action : Z) (actions : list Z) : Z := Z.of_nat (length (filter (eq action) actions)).

(** A read of all CPUs, one of which has the entry [s]; an entry that was never
    written is zero. *)
Definition read_cpus (before after : list UpfStatistic) (s : option UpfStatistic) : lookup UpfStatistic :=
  inr (before ++ default zeroUpfStatistic s :: after).

Lemma sum_app l k : sum (l ++ k) = sum l + sum k.
Proof. unfold sum. induction l as [|x l IH]; cbn; [done|]. by rewrite IH, Z.add_assoc. Qed.

Lemma field_sum before after s field :
  getUpfXdpStatisticField (read_cpus before after s) field =
  u64 (sum ((λ x, XdpActions x !!! field) <$> before) + XdpActions (default zeroUpfStatistic s) !!! field +
       sum ((λ x, XdpActions x !!! field) <$> after)).
Proof.
  pose proof (sum_fold 0 (λ a b, u64 (a + b)) (λ z, z) (λ x, XdpActions x !!! field)
    (before ++ default zeroUpfStatistic s :: after) (λ _ _, eq_refl)) as Hs.
  rewrite decide_False in Hs by by destruct before.
  unfold getUpfXdpStatisticField, read_cpus. rewrite Hs. unfold compose.
  rewrite fmap_app, sum_app, Z.add_0_l. f_equal. unfold sum. cbn. lia.
Qed.

Lemma run_packets_spec `{XdpKernelLaws} cfg xs s :
  Forall (λ x, 0 ≤ x_data x ≤ x_data_end x) xs →
  length (XdpActions (default zeroUpfStatistic s)) = 8%nat →
  ∃ s' actions, run_packets cfg s xs = (s', Ok <$> actions) ∧ Forall (λ a, 0 ≤ a ≤ 4) actions ∧
    length actions = length xs ∧
    ∀ field, (field < 8)%nat →
      u64 (XdpActions (default zeroUpfStatistic s') !!! field) =
      u64 (XdpActions (default zeroUpfStatistic s) !!! field + count (Z.of_nat field) actions).
Proof.
  intros Hxs. revert s. induction Hxs as [|x xs Hx _ IH]; intros s Hlen.
  { exists s, []. split; [done|]. split; [constructor|]. split; [done|]. intros field _. by rewrite Z.add_0_r. }
  destruct (process_packet_counts cfg (set_x_stat s x) Hx) as (x' & a & s1 & Hrun & Ha & Hs1 & Hact).
  cbn in Hact. destruct (IH (Some s1)) as (s' & actions & Hruns & Has & Hn & Hcount).
  { cbn. by rewrite Hact, length_alter. }
  exists s', (a :: actions). cbn. rewrite Hrun, Hs1, Hruns. split; [done|]. split; [by constructor|].
  split; [by rewrite Hn|]. intros field Hfield. rewrite Hcount by done. cbn. rewrite Hact.
  unfold count. rewrite filter_cons.
  assert (is_Some (XdpActions (default zeroUpfStatistic s) !! field)) as [v Hv] by (apply lookup_lt_is_Some_2; lia).
  destruct (decide (Z.to_nat a = field)) as [<-|Hne].
  - rewrite decide_True by lia. rewrite !list_lookup_total_alt, list_lookup_alter_eq, Hv. cbn.
    rewrite u64_add_l. f_equal. lia.
  - rewrite decide_False by lia. by rewrite list_lookup_total_alter_ne.
Qed.

(** C37: Every packet is counted once, and shown.  When a CPU has handled any
    frames, each packet got one of the five XDP actions, and what the REST
    interface shows for each action has grown by the number of packets with
    that action, modulo 2^64, whatever the other CPUs have counted.  The
    exported metrics show the same numbers converted to float64: exactly up to
    2^53, and above it the nearest with 53 significant bits
    ([float64_exact], [float64_nearest]). *)
Theorem packets_counted `{XdpKernelLaws} `{MapOrder} {F} (conn : PfcpConnection F) cfg xs s before after :
  Forall (λ x, 0 ≤ x_data x ≤ x_data_end x) xs →
  length (XdpActions (default zeroUpfStatistic s)) = 8%nat →
  ∃ s' actions, run_packets cfg s xs = (s', Ok <$> actions) ∧ length actions = length xs ∧
    count 0 actions + count 1 actions + count 2 actions + count 3 actions + count 4 actions
      = Z.of_nat (length xs) ∧
    let shown a field := u64 (getUpfXdpStatisticField (read_cpus before after s) field + count a actions) in
    displayXdpStatistics (read_cpus before after s')
      = [(StatusOK, inr (mkXdpStats (shown 0 0%nat) (shown 1 1%nat) (shown 2 2%nat) (shown 3 3%nat)
                           (shown 4 4%nat)))] ∧
    take 5 (RegisterMetrics conn (read_cpus before after s'))
      = [("upf_xdp_aborted", float64 (shown 0 0%nat)); ("upf_xdp_drop", float64 (shown 1 1%nat));
         ("upf_xdp_pass", float64 (shown 2 2%nat)); ("upf_xdp_tx", float64 (shown 3 3%nat));
         ("upf_xdp_redirect", float64 (shown 4 4%nat))]%string ∧
    (∀ a field, shown a field < 2 ^ 53 → float64 (shown a field) = shown a field).
Proof.
  intros Hxs Hlen. destruct (run_packets_spec cfg xs s Hxs Hlen) as (s' & actions & Hrun & Has & Hn & Hcount).
  exists s', actions. split; [done|]. split; [done|]. split.
  { rewrite <-Hn. clear -Has. unfold count. induction Has as [|a actions Ha _ IH]; [done|].
    rewrite !filter_cons. cbn [length].
    cbn beta in Ha.
    assert (a = 0 ∨ a = 1 ∨ a = 2 ∨ a = 3 ∨ a = 4) as [->|[->|[->|[->| ->]]]] by lia;
      repeat (case_decide; try lia); cbn [length]; lia. }
  assert (∀ field : nat, (field < 8)%nat → getUpfXdpStatisticField (read_cpus before after s') field
    = u64 (getUpfXdpStatisticField (read_cpus before after s) field + count (Z.of_nat field) actions)) as Hshow.
  { intros field Hf. rewrite !field_sum, u64_add_l, (Z.add_comm _ (sum (_ <$> after))), Z.add_assoc.
    rewrite <-u64_add_r, Hcount, u64_add_r by done. f_equal. lia. }
  intros shown. unfold displayXdpStatistics, RegisterMetrics, GetAborted, GetDrop, GetPass, GetTx, GetRedirect.
  rewrite !Hshow by lia. split; [done|]. split; [done|]. intros a field. apply float64_exact.
Qed.

(** Three frames of one byte on the second CPU, which has counted nothing. *)
#[local] Existing Instance ascending_order.

Definition demo_connection : PfcpConnection unit := mkPfcpConnection ∅ "" None None None tt 0 [] None [] [].

Lemma packets_counted_witness :
  ∃ s' actions, run_packets demo_config None (replicate 3 (demo_xdp [69])) = (s', Ok <$> actions) ∧
    actions = [2; 2; 2] ∧
    displayXdpStatistics (read_cpus [demo_cpu 7] [] s') = [(StatusOK, inr (mkXdpStats 7 7 10 7 7))].
Proof.
  assert ((run_packets demo_config None (replicate 3 (demo_xdp [69]))).2 = [Ok 2; Ok 2; Ok 2]) as Hr
    by (vm_compute; reflexivity).
  destruct (packets_counted demo_connection demo_config (replicate 3 (demo_xdp [69])) None [demo_cpu 7] [])
    as (s' & actions & Hrun & _ & _ & Hshow & _).
  - repeat constructor; vm_compute; discriminate.
  - reflexivity.
  - exists s', actions. split; [exact Hrun|]. rewrite Hrun in Hr. cbn in Hr.
    assert (actions = [2; 2; 2]) as ->.
    { destruct actions as [|a [|b [|c [|]]]]; try discriminate. by injection Hr as -> -> ->. }
    split; [reflexivity|]. etrans; [exact Hshow|vm_compute; reflexivity].
Defined.
