(* ===== verification/Main.v ===== *)
(** * Start-up (cmd/main.go, cmd/config/startup.go, cmd/server/server.go)

    [program]: the settings are read and [main] starts its goroutines:
    configuration, loading of the eBPF objects, the data plane's global
    configuration, attachment to the interfaces, the resource pools, the PFCP
    connection, the HTTP servers and the GTP paths.  The result is a
    [Process], a fatal error or a panic.  Calls into the kernel that only main
    makes are recorded in a trace; whether they succeed is a parameter.  The
    deferred calls are kept: they run when the program is told to stop. *)

From S2P Require Import Prelude IdTracker Net Config Settings KernelMap ForwardingPlane Dataplane Loader.
From S2P Require Import Resources Session Pfcp PdrContext Connection SessionHandlers Ownership.
From S2P Require Import Association AssociationFacts EventLoop Rest GtpPath.
From S2P Require Import XdpMemory XdpProgram EndToEnd Monitoring.

(** [link.XDPAttachFlags] *)
Inductive XDPAttachFlags := XDPGenericMode | XDPDriverMode | XDPOffloadMode.

(* cmd/main.go:159-170 StringToXDPAttachMode *)
Definition StringToXDPAttachMode (Mode : string) : XDPAttachFlags :=
  if String.eqb Mode "generic" then XDPGenericMode
  else if String.eqb Mode "native" then XDPDriverMode
  else if String.eqb Mode "offload" then XDPOffloadMode
  else XDPGenericMode.

(** The calls recorded. *)
Inductive HostCall :=
  | Setrlimit                                      (* RLIMIT_MEMLOCK, no limit *)
  | GlobalConfigSet (config : dataplane_config)
  | AttachXDP (index : Z) (flags : XDPAttachFlags).

(** The deferred calls. *)
Inductive Cleanup :=
  | CloseObjects                                   (* bpfObjects.Close() *)
  | CloseLink (index : Z)                          (* l.Close(): detaches *)
  | ClosePfcp                                      (* pfcpConn.Close() *)
  | StopGtpPaths                                   (* gtpPathManager.Stop() *)
  | StopTicker.                                    (* ticker.Stop() *)

(** ** HTTP servers

    Durations in seconds. *)
(* cmd/server/server.go:10-12 Server *)
Record Server := mkServer {
  srv_Addr : string;
  srv_Handler : Routes;
  ReadTimeout : Z;
  WriteTimeout : Z;
  IdleTimeout : Z
}.

(* cmd/server/server.go:14-24 New *)
Definition NewServer (addr : string) (handler : Routes) : Server := mkServer addr handler 10 10 1.

(** What the handlers share; the statistics readers belong to the objects. *)
(* cmd/api/rest/handler.go:27-32 ApiHandler *)
Record ApiHandler (F : Type) := mkApiHandler {
  h_BpfObjects : F;
  h_PfcpSrv : PfcpConnection F;
  h_Cfg : UpfConfig
}.
Arguments mkApiHandler {F} _ _ _.

(* cmd/api/rest/handler.go:34-41 NewApiHandler *)
Definition NewApiHandler {F} (bpfObjects : F) (pfcpSrv : PfcpConnection F) (cfg : UpfConfig)
    : ApiHandler F := mkApiHandler bpfObjects pfcpSrv cfg.

Section main.
Context `{Bitmap B} `{EbpfLib K Hd Mp} `{KernelMap Mp} `{Pfcp} `{MapOrder}.

(** The libraries: viper and the validator, zerolog's levels, the kernel's
    answers to the calls above, [net.InterfaceByName] (the index). *)
Variable viper_UnmarshalExact : outcome UpfConfig.
Variable Struct : UpfConfig → outcome unit.
Context {Level : Type}.
Variable ParseLevel : string → outcome Level.
Variable Level_String : Level → string.
Variable host : HostCall → list HostCall → result unit.
Variable InterfaceByName : string → result Z.
Variable ResolveUDPAddr : string → result NetIP.
Variable ListenUDP : NetIP → result unit.
Variable ipnetgen_New : string → result (list NetIP).
Variable Now : Z.
Variable joinPaths : string → string → string.

(** The running configuration [config.Conf], the kernel, the calls made, and
    the deferred calls in the order in which they will run. *)
Record Machine := mkMachine {
  m_Conf : UpfConfig;
  m_kernel : K;
  m_calls : list HostCall;
  m_deferred : list Cleanup
}.

Definition set_Conf (c : UpfConfig) (m : Machine) : Machine :=
  mkMachine c (m_kernel m) (m_calls m) (m_deferred m).
Definition set_kernel (k : K) (m : Machine) : Machine :=
  mkMachine (m_Conf m) k (m_calls m) (m_deferred m).

(** [defer]: the last deferred call runs first. *)
Definition push (d : Cleanup) (m : Machine) : Machine :=
  mkMachine (m_Conf m) (m_kernel m) (m_calls m) (d :: m_deferred m).
Definition defer (d : Cleanup) : M Machine unit := modify (push d).

Definition call_host (c : HostCall) : M Machine unit :=
  λ m, match host c (m_calls m) with
       | inr tt => (mkMachine (m_Conf m) (m_kernel m) (m_calls m ++ [c]) (m_deferred m), Ok tt)
       | inl e => (m, Err e)
       end.

(** Both errors are fatal. *)
(* cmd/config/startup.go:10-20 Init *)
Definition Init : M Machine unit :=
  conf ← lift viper_UnmarshalExact;
  modify (set_Conf conf) ≫= λ _,
  zoom m_Conf set_Conf (Validate Struct).

(* cmd/ebpf/utils.go:11-16 IncreaseResourceLimits *)
Definition IncreaseResourceLimits : M Machine unit := call_host Setrlimit.

(* cmd/main.go:47-54 main *)
Definition load_objects : M Machine (BpfObjects B Mp) :=
  c ← gets m_Conf;
  let z := SetUrrMapSize (UrrMapSize c) (SetQerMapSize (QerMapSize c)
             (SetFarMapSize (FarMapSize c) (SetPdrMapSize (PdrMapSize c) NewBpfObjects))) in
  zoom m_kernel set_kernel (Load z).

(** An address that is not IPv4 panics: [To4] is nil. *)
(* cmd/main.go:56-62 main *)
Definition configure_dataplane : M Machine unit :=
  c ← gets m_Conf;
  n3AddressUint32 ← lift (LittleEndian_Uint32 (To4 (ParseIP (N3Address c))));
  n9AddressUint32 ← lift (LittleEndian_Uint32 (To4 (ParseIP (N9Address c))));
  call_host (GlobalConfigSet (mkDataplaneConfig n3AddressUint32 n9AddressUint32)).

(* cmd/main.go:66-84 main *)
Definition attach_interfaces : M Machine unit :=
  c ← gets m_Conf;
  for_each (InterfaceName c) (λ ifaceName,
    iface ← lift (of_result (InterfaceByName ifaceName));
    call_host (AttachXDP iface (StringToXDPAttachMode (XDPAttachMode c))) ≫= λ _,
    defer (CloseLink iface)).

(** A wrong logging level is only reported. *)
(* cmd/main.go:32-84 main *)
Definition main_prepare : M Machine (BpfObjects B Mp) :=
  Init ≫= λ _,
  loggingLevel ← gets (λ m, LoggingLevel (m_Conf m));
  ignore_err (zoom m_Conf set_Conf (SetLoggerLevel ParseLevel Level_String loggingLevel)) ≫= λ _,
  IncreaseResourceLimits ≫= λ _,
  bpfObjects ← load_objects;
  configure_dataplane ≫= λ _,
  defer CloseObjects ≫= λ _,
  attach_interfaces ≫= λ _,
  mret bpfObjects.

(** What runs at the end: the connection over the loaded objects, which the
    receive loop and the REST handlers share, the servers and the GTP paths. *)
Record Process := mkProcess {
  p_Conf : UpfConfig;
  pfcpConn : PfcpConnection (BpfObjects B Mp);
  h : ApiHandler (BpfObjects B Mp);
  apiSrv : Server;
  metricsSrv : Server;
  gtpPathManager : GtpPathManager
}.

(* cmd/main.go:104-111 main *)
Definition start_process (Conf : UpfConfig) (bpfObjects : BpfObjects B Mp)
    (pfcpConn : PfcpConnection (BpfObjects B Mp)) : Process :=
  mkProcess Conf pfcpConn (NewApiHandler bpfObjects pfcpConn Conf)
    (NewServer (ApiAddress Conf) (InitRoutes joinPaths))
    (NewServer (MetricsAddress Conf) InitMetricsRoute) (start_gtp_paths Conf).

(** [fuel] is for the loop that makes the TEID pool. *)
(* cmd/main.go:27-111 main *)
Definition main (fuel : nat) (m : Machine) : option (Machine * outcome Process) :=
  match main_prepare m with
  | (m', Ok bpfObjects) =>
      let Conf := m_Conf m' in
      conn ← start_connection Conf ResolveUDPAddr ListenUDP ipnetgen_New Now fuel bpfObjects;
      Some (match conn with
            | Ok c => (push StopTicker (push StopGtpPaths (push ClosePfcp m')),
                       Ok (start_process Conf bpfObjects c))
            | Err e => (m', Err e)
            | Panic => (m', Panic)
            end)
  | (m', Err e) => Some (m', Err e)
  | (m', Panic) => Some (m', Panic)
  end.

(** The rest of [main] and the goroutines of the two servers: the ticker does
    nothing, a signal returns, which runs the deferred calls, and a server that
    returns an error is fatal: the process exits without them.  [None]: still
    running. *)
Inductive MainEvent := TickerFired | Signal | ServerReturned (s : Server) (err : option error).

(* cmd/main.go:112-157 main *)
Fixpoint main_loop (events : list MainEvent) (m : Machine) : option (list Cleanup) :=
  match events with
  | [] => None
  | TickerFired :: events | ServerReturned _ None :: events => main_loop events m
  | Signal :: _ => Some (m_deferred m)
  | ServerReturned _ (Some _) :: _ => Some []
  end.

End main.

(** A server returns what listening on its address ends with. *)
(* cmd/server/server.go:26-29 Run *)
Definition ServerRun (ListenAndServe : string → Routes → option error) (s : Server) : MainEvent :=
  ServerReturned s (ListenAndServe (srv_Addr s) (srv_Handler s)).

Section program.
Context `{Bitmap B} `{EbpfLib K Hd Mp} `{KernelMap Mp} `{Pfcp} `{MapOrder} `{Viper V}.
Variable sur : Surroundings.
Variable to_string : Value → outcome string.
Variable to_strings : Value → outcome (list string).
Variable to_uint32 : Value → outcome Z.
Variable to_bool : Value → outcome bool.
Variable cast_string : option Value → string.
Variable Struct : UpfConfig → outcome unit.
Context {Level : Type}.
Variable ParseLevel : string → outcome Level.
Variable Level_String : Level → string.
Variable host : HostCall → list HostCall → result unit.
Variable InterfaceByName : string → result Z.
Variable ResolveUDPAddr : string → result NetIP.
Variable ListenUDP : NetIP → result unit.
Variable ipnetgen_New : string → result (list NetIP).
Variable Now : Z.
Variable joinPaths : string → string → string.

(** The process: the initialisation of the package config, then [main]. *)
(* cmd/main.go:27-111 main *)
Definition program (fuel : nat) (m : Machine (K:=K)) : option (Machine (K:=K) * outcome (Process (B:=B) (Mp:=Mp))) :=
  let v := (init sur cast_string GetViper).1 in
  main (Unmarshal sur to_string to_strings to_uint32 to_bool v) Struct ParseLevel Level_String host
    InterfaceByName ResolveUDPAddr ListenUDP ipnetgen_New Now joinPaths fuel m.

End program.

(** ** Facts *)

(** The sizes of a configuration, as the objects take them. *)
Definition sizes_of (c : UpfConfig) : MapSizes :=
  mkMapSizes (QerMapSize c) (FarMapSize c) (PdrMapSize c) (UrrMapSize c).

Section main_facts.
Context `{BitmapLaws B} `{EbpfLibLaws K Hd Mp} `{!KernelMapLaws Mp} `{Pfcp} `{MapOrder}.
Variable viper_UnmarshalExact : outcome UpfConfig.
Variable Struct : UpfConfig → outcome unit.
Context {Level : Type}.
Variable ParseLevel : string → outcome Level.
Variable Level_String : Level → string.
Variable host : HostCall → list HostCall → result unit.
Variable InterfaceByName : string → result Z.
Variable ResolveUDPAddr : string → result NetIP.
Variable ListenUDP : NetIP → result unit.
Variable ipnetgen_New : string → result (list NetIP).
Variable Now : Z.
Variable joinPaths : string → string → string.
Implicit Types (m : Machine (K:=K)) (c : UpfConfig).

(** viper fills the fields of type uint32, or fails. *)
Hypothesis Unmarshal_sizes : no_panic viper_UnmarshalExact ∧
  ∀ c, viper_UnmarshalExact = Ok c → sizes_ok (sizes_of c) ∧ in_range 32 (MaxSessions c).
(** The tag [ipv4] of both addresses: [net.ParseIP] gives an IPv4 address. *)
Hypothesis Struct_ipv4 : ∀ c, no_panic (Struct c) ∧
  (Struct c = Ok tt → is_Some (To4 (ParseIP (N3Address c))) ∧ is_Some (To4 (ParseIP (N9Address c)))).

(** A configuration as it was read, but for the pools and sizes [Validate]
    sets and the level of the logger. *)
Definition derived c0 c : Prop :=
  c = set_LoggingLevel (LoggingLevel c)
        (set_sizes (QerMapSize c) (FarMapSize c) (UrrMapSize c) (PdrMapSize c)
           (set_pools (UEIPPool c) (FTEIDPool c) c0)).

(** What every later step relies on. *)
Definition config_ok c : Prop :=
  (∃ c0, viper_UnmarshalExact = Ok c0 ∧ derived c0 c) ∧ sizes_ok (sizes_of c) ∧
  is_Some (To4 (ParseIP (N3Address c))) ∧ is_Some (To4 (ParseIP (N9Address c))).

Lemma or_default_range d z : in_range 32 d → in_range 32 z → in_range 32 (or_default d z).
Proof. unfold or_default. by case_match. Qed.

Lemma Validate_config_ok c :
  sizes_ok (sizes_of c) → in_range 32 (MaxSessions c) →
  wp (Validate Struct) c
    (λ _ c', derived c c' ∧ sizes_ok (sizes_of c') ∧
       is_Some (To4 (ParseIP (N3Address c'))) ∧ is_Some (To4 (ParseIP (N9Address c'))))
    (λ _ _, True).
Proof.
  intros (HQ & HF & HP & HU) HM. destruct (Struct_ipv4 c) as [Hnp Hip].
  unfold Validate. wp_go. apply wp_lift; [done| |done]. intros [] Hok. wp_go.
  destruct (Hip Hok) as [Hn3 Hn9]. clear Hip.
  destruct c; cbn -[u32 or_default] in *.
  destruct FeatureUEIP, FeatureFTUP; cbn -[u32 or_default];
    (split; [done|]; split; [|done]); repeat split; cbn -[u32 or_default];
    by apply or_default_range; [|done]; try apply u32_range.
Qed.

(** [m'] is [m] but for the configuration and the kernel. *)
Definition same_calls m m' : Prop := m_calls m' = m_calls m ∧ m_deferred m' = m_deferred m.

Lemma Init_spec m :
  wp (Init viper_UnmarshalExact Struct) m
    (λ _ m', config_ok (m_Conf m') ∧ same_calls m m') (λ _ _, True).
Proof.
  unfold Init. wp_go. destruct Unmarshal_sizes as [Hnp Hs]. apply wp_lift; [done| |done].
  intros c Hc. destruct (Hs c Hc) as [? ?]. wp_go. cbn.
  wp_call Validate_config_ok; [|done]. intros _ c' [Hder Hc']. split; [|done]. split; [|done]. by exists c.
Qed.

Lemma SetLoggerLevel_spec l m :
  config_ok (m_Conf m) →
  wp (ignore_err (zoom m_Conf set_Conf (SetLoggerLevel ParseLevel Level_String l))) m
    (λ _ m', config_ok (m_Conf m') ∧ same_calls m m') (λ _ _, False).
Proof.
  intros Hc. assert (config_ok (m_Conf (set_Conf (m_Conf m) m)) ∧ same_calls m (set_Conf (m_Conf m) m))
    as Hsame by done.
  apply wp_ignore_err, wp_zoom. unfold SetLoggerLevel.
  repeat case_match; wp_go; try done. split; [|done].
  destruct Hc as [(c0 & Hc0 & Hder) Hrest]. split; [|done]. exists c0. split; [done|].
  unfold derived in *. rewrite Hder. by destruct c0.
Qed.

Lemma call_host_spec call m :
  wp (call_host host call) m
    (λ _ m', m_Conf m' = m_Conf m ∧ m_calls m' = m_calls m ++ [call] ∧ m_deferred m' = m_deferred m)
    (λ _ _, True).
Proof. unfold wp, call_host. by destruct (host _ _) as [|[]]. Qed.

Lemma load_objects_spec m :
  sizes_ok (sizes_of (m_Conf m)) →
  wp (load_objects (B:=B)) m
    (λ s m', (m_Conf m' = m_Conf m ∧ same_calls m m') ∧
       loaded_with (sizes_of (m_Conf m)) s ∧ ∃ s0, fresh_maps s0 ∧ LoadTrackers s0 = (s, Ok tt))
    (λ _ _, True).
Proof.
  intros Hz. unfold load_objects. wp_go. wp_call Load_spec; [|done]. intros s k Hs. done.
Qed.

(** The addresses the data plane takes for its own. *)
Definition local_addresses c (n3 n9 : bytes) : Prop :=
  To4 (ParseIP (N3Address c)) = Some n3 ∧ To4 (ParseIP (N9Address c)) = Some n9.

Definition global_config_of (n3 n9 : bytes) : dataplane_config := mkDataplaneConfig (le n3) (le n9).

Lemma parsed_octets s n : To4 (ParseIP s) = Some n → length n = 4%nat ∧ is_bytes n.
Proof.
  intros Hn. apply (To4_octets (ParseIP s)); [|done].
  destruct (ParseIP s) as [b|] eqn:Hb; [by apply (ParseIP_octets s)|done].
Qed.

Lemma LittleEndian_le s n : To4 (ParseIP s) = Some n → LittleEndian_Uint32 (Some n) = Ok (le n).
Proof.
  intros [Hlen _]%parsed_octets. do 5 (destruct n as [|? n]; try done).
  cbn. f_equal. lia.
Qed.

Lemma configure_dataplane_spec m :
  config_ok (m_Conf m) →
  wp (configure_dataplane host) m
    (λ _ m', m_Conf m' = m_Conf m ∧ ∃ n3 n9, local_addresses (m_Conf m) n3 n9 ∧
       m_calls m' = m_calls m ++ [GlobalConfigSet (global_config_of n3 n9)] ∧
       m_deferred m' = m_deferred m)
    (λ _ _, True).
Proof.
  intros (_ & _ & [n3 Hn3] & [n9 Hn9]). unfold configure_dataplane. apply wp_bind, wp_gets.
  rewrite Hn3, Hn9, (LittleEndian_le _ _ Hn3), (LittleEndian_le _ _ Hn9).
  apply wp_bind, wp_lift_ok, wp_bind, wp_lift_ok. wp_call call_host_spec; [|done].
  intros _ m' (? & ? & ?). split; [done|]. by exists n3, n9.
Qed.

Definition attach_calls c (indices : list Z) : list HostCall :=
  (λ i, AttachXDP i (StringToXDPAttachMode (XDPAttachMode c))) <$> indices.

(** One more interface. *)
Definition attached m (names : list string) m' : Prop :=
  m_Conf m' = m_Conf m ∧ ∃ indices,
    Forall2 (λ name i, InterfaceByName name = inr i) names indices ∧
    m_calls m' = m_calls m ++ attach_calls (m_Conf m) indices ∧
    m_deferred m' = (CloseLink <$> reverse indices) ++ m_deferred m.

Lemma attach_interfaces_spec m :
  wp (attach_interfaces host InterfaceByName) m
    (λ _ m', attached m (InterfaceName (m_Conf m)) m') (λ _ _, True).
Proof.
  unfold attach_interfaces. apply wp_bind, wp_gets.
  apply (wp_for_each_prefix _ _ (attached m)).
  - intros before name rest m' _ (Hc & indices & Hi & Hcalls & Hdef). apply wp_bind.
    apply wp_lift; [by destruct (InterfaceByName name)| |done]. intros i Hname.
    apply wp_bind. wp_call call_host_spec; [|done]. intros _ m1 (Hc1 & Hcalls1 & Hdef1). apply wp_modify.
    split; [by cbn; rewrite Hc1|]. exists (indices ++ [i]). split; [|split].
    + apply Forall2_app; [done|]. constructor; [|constructor].
      destruct (InterfaceByName name); [done|]. cbn in Hname. by simplify_eq.
    + cbn. unfold attach_calls. by rewrite Hcalls1, Hcalls, fmap_app, <-app_assoc.
    + cbn. by rewrite Hdef1, Hdef, reverse_snoc.
  - split; [done|]. exists []. split; [constructor|]. by rewrite app_nil_r.
Qed.

(** The calls of a start-up: the limit, the global configuration, then one
    attachment to each configured interface; and what is left to do at the
    end: the interfaces are detached, the last one first, then the objects are
    closed. *)
Definition startup_calls c m : Prop :=
  ∃ n3 n9 indices, local_addresses c n3 n9 ∧
    Forall2 (λ name i, InterfaceByName name = inr i) (InterfaceName c) indices ∧
    m_calls m = [Setrlimit; GlobalConfigSet (global_config_of n3 n9)] ++ attach_calls c indices ∧
    m_deferred m = [StopTicker; StopGtpPaths; ClosePfcp] ++ (CloseLink <$> reverse indices) ++ [CloseObjects].

Lemma main_prepare_spec m :
  m_calls m = [] → m_deferred m = [] →
  wp (main_prepare viper_UnmarshalExact Struct ParseLevel Level_String host InterfaceByName (B:=B)) m
    (λ s m', config_ok (m_Conf m') ∧
       startup_calls (m_Conf m') (push StopTicker (push StopGtpPaths (push ClosePfcp m'))) ∧
       loaded_with (sizes_of (m_Conf m')) s ∧ ∃ s0, fresh_maps s0 ∧ LoadTrackers s0 = (s, Ok tt))
    (λ _ _, True).
Proof.
  intros Hm Hdf. unfold main_prepare. apply wp_bind. wp_call Init_spec; [|done].
  intros _ m1 (Hc1 & Hl1 & Hd1). apply wp_bind, wp_gets, wp_bind. wp_call SetLoggerLevel_spec; [|done].
  intros _ m2 (Hc2 & Hl2 & Hd2). apply wp_bind. wp_call call_host_spec; [|done].
  intros _ m3 (Hc3 & Hl3 & Hd3). apply wp_bind.
  wp_call load_objects_spec; [rewrite Hc3; apply Hc2| |done].
  intros s m4 ([Hc4 [Hl4 Hd4]] & Hs). apply wp_bind.
  wp_call configure_dataplane_spec; [rewrite Hc4, Hc3; exact Hc2| |done].
  intros _ m5 (Hc5 & n3 & n9 & Hn & Hl5 & Hd5). apply wp_bind, wp_modify, wp_bind.
  wp_call attach_interfaces_spec; [|done].
  intros _ m6 (Hc6 & indices & Hi & Hl6 & Hd6). apply wp_ret. cbn in Hc6, Hi, Hl6, Hd6.
  assert (m_Conf m6 = m_Conf m2) as Hc by congruence. split; [by rewrite Hc|]. split.
  - exists n3, n9, indices. rewrite Hc6, Hc5. split; [done|]. rewrite Hc5 in *. split; [done|]. split.
    + cbn. by rewrite Hl6, Hl5, Hl4, Hl3, Hl2, Hl1, Hm.
    + cbn. by rewrite Hd6, Hd5, Hd4, Hd3, Hd2, Hd1, Hdf.
  - by rewrite Hc6, Hc5, Hc4.
Qed.

Lemma is_local_ip_addresses c n3 n9 dst :
  local_addresses c n3 n9 → length dst = 4%nat → is_bytes dst →
  is_local_ip (global_config_of n3 n9) (le dst) = true ↔
  To4 (ParseIP (N3Address c)) = Some dst ∨ To4 (ParseIP (N9Address c)) = Some dst.
Proof.
  intros [Hn3 Hn9] Hlen Hdst. destruct (parsed_octets _ _ Hn3), (parsed_octets _ _ Hn9).
  unfold is_local_ip. cbn [n3_ipv4_address n9_ipv4_address global_config_of].
  rewrite orb_true_iff, !Z.eqb_eq, Hn3, Hn9. split.
  - intros [Heq|Heq]; apply le_inj in Heq as ->; auto; lia.
  - intros [[= ->]|[= ->]]; auto.
Qed.

Lemma start_connection_objects c fuel (s : BpfObjects B Mp)
    (conn : outcome (PfcpConnection (BpfObjects B Mp))) :
  start_connection c ResolveUDPAddr ListenUDP ipnetgen_New Now fuel s = Some conn →
  conn ≠ Panic ∧ ∀ x, conn = Ok x → mapOperations x = s.
Proof.
  unfold start_connection. intros Hs. apply bind_Some in Hs as (rm & _ & Hs).
  injection Hs as <-. unfold NewPfcpConnection.
  destruct (ResolveUDPAddr _); [done|]. cbn. destruct (ListenUDP _); [done|]. cbn.
  repeat case_match; try done; cbn; (split; [done|]); by intros x [= <-].
Qed.

Lemma main_started fuel m m' r :
  m_calls m = [] → m_deferred m = [] →
  main viper_UnmarshalExact Struct ParseLevel Level_String host InterfaceByName ResolveUDPAddr
    ListenUDP ipnetgen_New Now joinPaths fuel m (B:=B) = Some (m', r) →
  r ≠ Panic ∧ ∀ P, r = Ok P →
    P = start_process joinPaths (p_Conf P) (mapOperations (pfcpConn P)) (pfcpConn P) ∧
    config_ok (p_Conf P) ∧ startup_calls (p_Conf P) m' ∧
    loaded_with (sizes_of (p_Conf P)) (mapOperations (pfcpConn P)) ∧
    ∀ rm, NewResourceManager ipnetgen_New fuel (UEIPPool (p_Conf P)) (FTEIDPool (p_Conf P))
            = Some (Ok rm) → conn_inv (pfcpConn P).
Proof.
  intros Hm Hdf Hmain. unfold main in Hmain. pose proof (main_prepare_spec m Hm Hdf) as Hprep.
  unfold wp in Hprep. destruct (main_prepare _ _ _ _ _ _ m) as [m1 [s|e|]]; [|by simplify_eq|done].
  destruct Hprep as (Hok & Hcalls & Hloaded & s0 & Hfresh & Hload).
  apply bind_Some in Hmain as (conn & Hconn & Hr).
  pose proof (start_connection_objects _ _ _ _ Hconn) as [Hnp Hobjects].
  destruct conn as [y|e|]; [|by simplify_eq|done]. injection Hr as <- <-.
  split; [done|]. intros P [= <-]. cbn [pfcpConn p_Conf start_process].
  rewrite (Hobjects y eq_refl). split; [done|]. split; [done|]. split; [done|]. split; [done|].
  intros rm Hrm.
  exact (start_connection_inv _ _ _ _ _ _ _ empty_view rm _ (Load_repr _ _ Hfresh Hload) Hrm Hconn).
Qed.

End main_facts.

Section program_facts.
Context `{BitmapLaws B} `{EbpfLibLaws K Hd Mp} `{!KernelMapLaws Mp} `{Pfcp} `{MapOrder} `{ViperLaws V}.
Variable sur : Surroundings.
Variable to_string : Value → outcome string.
Variable to_strings : Value → outcome (list string).
Variable to_uint32 : Value → outcome Z.
Variable to_bool : Value → outcome bool.
Variable cast_string : option Value → string.
Variable Struct : UpfConfig → outcome unit.
Context {Level : Type}.
Variable ParseLevel : string → outcome Level.
Variable Level_String : Level → string.
Variable host : HostCall → list HostCall → result unit.
Variable InterfaceByName : string → result Z.
Variable ResolveUDPAddr : string → result NetIP.
Variable ListenUDP : NetIP → result unit.
Variable ipnetgen_New : string → result (list NetIP).
Variable Now : Z.
Variable joinPaths : string → string → string.
Variable Parse : bytes → result Message.
Variable Send : OutMsg → NetIP → result unit.

Hypothesis decoders : decoders_ok to_string to_strings to_uint32 to_bool.
(** The tag [ipv4] of both addresses. *)
Hypothesis Struct_ipv4 : ∀ c, no_panic (Struct c) ∧
  (Struct c = Ok tt → is_Some (To4 (ParseIP (N3Address c))) ∧ is_Some (To4 (ParseIP (N9Address c)))).

(** What the settings decode to. *)
Definition configured : outcome UpfConfig :=
  decode_config to_string to_strings to_uint32 to_bool (chosen sur cast_string).

Lemma Unmarshal_started :
  let o := Unmarshal sur to_string to_strings to_uint32 to_bool (init sur cast_string GetViper).1 in
  returns sizes_in_range o ∧ ∀ c, o = Ok c → configured = Ok c.
Proof.
  pose proof (init_settles sur cast_string) as Hi. unfold wp in Hi.
  destruct (init _ _ _) as [v [[]|e|]]; [|done..]. cbn [fst]. unfold Unmarshal.
  destruct (forallb _ _); [|done]. split; [by apply decode_config_ranges|].
  intros c <-. unfold configured. symmetry. apply decode_config_ext. intros k. by apply tag_chosen.
Qed.

(** C10: start-up.  The program does not panic: it ends in a process or in a
    fatal error.  When it starts, its configuration is what the command line,
    the environment and the file decode to, with the pools and sizes of
    [Validate] and the logger's level; it was given to the data plane before
    the program was attached, which was attached to each configured interface
    once, in order and in the configured mode; the data plane takes exactly the
    configured N3 and N9 addresses for its own; every table and every index
    pool has its size; the interface for operators and the metrics are served
    at their addresses.  Told to stop, it ends the timers, closes the socket,
    detaches from the interfaces in reverse order and only then closes the
    maps.  Until then, when the resource pools could be made, the receive loop
    runs through any sequence of events a well-behaved peer causes ([run_ok]:
    each is [event_ok] in the state it meets, as for [program_safe]; the message
    of [missing_source_interface_crashes] is not) and rule ownership holds at
    its end, provided the association timeout is not zero; if it is, the loop
    panics at once. *)
Theorem main_starts fuel m m' r :
  m_calls m = [] → m_deferred m = [] →
  program sur to_string to_strings to_uint32 to_bool cast_string Struct ParseLevel Level_String host
    InterfaceByName ResolveUDPAddr ListenUDP ipnetgen_New Now joinPaths fuel m (B:=B) = Some (m', r) →
  r ≠ Panic ∧ ∀ P, r = Ok P →
    (∃ c0, configured = Ok c0 ∧ derived c0 (p_Conf P)) ∧
    startup_calls InterfaceByName (p_Conf P) m' ∧
    (∃ config, GlobalConfigSet config ∈ m_calls m' ∧
       ∀ dst, length dst = 4%nat → is_bytes dst →
         is_local_ip config (le dst) = true ↔
         To4 (ParseIP (N3Address (p_Conf P))) = Some dst ∨
         To4 (ParseIP (N9Address (p_Conf P))) = Some dst) ∧
    loaded_with (sizes_of (p_Conf P)) (mapOperations (pfcpConn P)) ∧
    (srv_Addr (apiSrv P) = ApiAddress (p_Conf P) ∧ srv_Addr (metricsSrv P) = MetricsAddress (p_Conf P) ∧
     h_PfcpSrv _ (h P) = pfcpConn P) ∧
    (∀ n, main_loop (replicate n TickerFired ++ [Signal]) m' = Some (m_deferred m')) ∧
    ∀ rm, NewResourceManager ipnetgen_New fuel (UEIPPool (p_Conf P)) (FTEIDPool (p_Conf P))
            = Some (Ok rm) →
      ∀ events, run_ok (p_Conf P) Parse ResolveUDPAddr Send (pfcpConn P) events →
        let '(x, o) := Association.Run (p_Conf P) Parse ResolveUDPAddr Send events (pfcpConn P) in
        if decide (0 < AssociationSetupTimeout (p_Conf P)) then o = Ok tt ∧ conn_inv x else o = Panic.
Proof.
  intros Hm Hdf Hmain. destruct Unmarshal_started as [Hsizes Hconf]. unfold program in Hmain.
  cbv zeta in Hmain. set (o := Unmarshal _ _ _ _ _ _) in *.
  assert (no_panic o ∧ ∀ c, o = Ok c → sizes_ok (sizes_of c) ∧ in_range 32 (MaxSessions c)) as Ho.
  { destruct o as [c|e|]; [|done..]. split; [done|]. intros ? [= <-].
    by destruct Hsizes as (?&?&?&?&?). }
  destruct (main_started _ _ _ _ _ _ _ _ _ _ _ Ho Struct_ipv4 fuel m m' r Hm Hdf Hmain) as [Hnp HP].
  split; [done|]. intros P Hr. destruct (HP P Hr) as (Hproc & Hok & Hcalls & Hloaded & Hinv).
  destruct Hok as [(c0 & Hc0 & Hder) _].
  split; [exists c0; by auto|]. split; [done|]. split.
  { destruct Hcalls as (n3 & n9 & indices & Hn & _ & -> & _). exists (global_config_of n3 n9).
    split; [set_solver|]. intros dst Hlen Hdst. exact (is_local_ip_addresses _ _ _ _ Hn Hlen Hdst). }
  split; [done|]. split; [by rewrite Hproc|]. split.
  { intros n. by induction n. }
  intros rm Hrm events Hevents. unfold Association.Run. case_bool_decide; case_decide; try lia; [done|].
  destruct (run_completes _ _ _ _ _ _ (Hinv rm Hrm) Hevents) as (x & -> & Hx). done.
Qed.

End program_facts.

(** ** A concrete start

    One interface, four entries in each table and both addresses 10.3.0.1,
    from a configuration file and the command line. *)

#[local] Existing Instance ascending_order.
#[local] Existing Instance demo_pfcp.

Definition demo_settings : Surroundings := mkSurroundings
  (list_to_map [("iface", VStrings ["eth0"]); ("attach", VString "native")])%string
  {["UPF_N9_ADDRESS"%string := "10.3.0.1"%string]}
  (λ _, inr (list_to_map [("n3_address", VString "10.3.0.1"); ("far_map_size", VUint32 4);
     ("qer_map_size", VUint32 4); ("pdr_map_size", VUint32 4); ("urr_map_size", VUint32 4);
     ("xdp_attach_mode", VString "generic"); ("feature_ftup", VBool true);
     ("teid_pool", VUint32 3)]%string)).

Definition demo_main_config : UpfConfig := mkUpfConfig ["eth0"%string] "native" ":8080"
  "127.0.0.1:8805" "127.0.0.1" [] 5 ":9090" "10.3.0.1" "10.3.0.1" [] 10 4 4 4 4 65535 3 5 5
  "info" "" 3 false true.

Definition demo_interface (name : string) : result Z :=
  if String.eqb name "eth0" then inr 2 else inl (Errorf "no such network interface").

Definition demo_machine : Machine (K:=demo_kernel) := mkMachine zeroUpfConfig ∅ [] [].

(** The tag [ipv4]. *)
Definition demo_ipv4 (c : UpfConfig) : outcome unit :=
  match To4 (ParseIP (N3Address c)), To4 (ParseIP (N9Address c)) with
  | Some _, Some _ => Ok tt
  | _, _ => Err (Errorf "failed on the 'ipv4' tag")
  end.

(** What the program returns there. *)
Definition demo_main_is (m' : Machine (K:=demo_kernel)) (P : Process (B:=gset Z) (Mp:=kmap)) : Prop :=
  program demo_settings plain_string plain_strings plain_uint32 plain_bool plain_cast
    demo_ipv4 (λ l, Ok l) (λ l : string, l) (λ _ _, inr tt)
    demo_interface EventLoop.demo_resolve demo_listen demo_ipnetgen 1700000000 join 4 demo_machine
    (V:=Layers)
  = Some (m', Ok P).

Definition demo_calls : list HostCall :=
  [Setrlimit; GlobalConfigSet (mkDataplaneConfig 16777994 16777994); AttachXDP 2 XDPDriverMode].

Lemma demo_main_runs :
  ∃ m' P, demo_main_is m' P ∧ m_calls m' = demo_calls ∧
    m_deferred m' = [StopTicker; StopGtpPaths; ClosePfcp; CloseLink 2; CloseObjects] ∧
    p_Conf P = demo_main_config.
Proof. eexists _, _. split; [vm_compute; reflexivity|]. by vm_compute. Qed.

Lemma demo_ipv4_tag c :
  no_panic (demo_ipv4 c) ∧
  (demo_ipv4 c = Ok tt → is_Some (To4 (ParseIP (N3Address c))) ∧ is_Some (To4 (ParseIP (N9Address c)))).
Proof.
  unfold demo_ipv4, no_panic.
  destruct (To4 (ParseIP (N3Address c))), (To4 (ParseIP (N9Address c))); (split; [done|]); eauto; done.
Qed.

Lemma main_starts_witness :
  ∃ m' P, demo_main_is m' P ∧ m_calls m' = demo_calls ∧ startup_calls demo_interface (p_Conf P) m' ∧
    main_loop [TickerFired; Signal] m' = Some [StopTicker; StopGtpPaths; ClosePfcp; CloseLink 2; CloseObjects] ∧
    MaxEntries (FarMap (mapOperations (pfcpConn P))) = 4 ∧ conn_inv (pfcpConn P).
Proof.
  destruct demo_main_runs as (m' & P & Hmain & Hcalls & Hdef & HP). exists m', P.
  split; [exact Hmain|]. split; [exact Hcalls|]. unfold demo_main_is in Hmain.
  pose proof (main_starts (V:=Layers) demo_settings _ _ _ _ plain_cast demo_ipv4 _ _ _ _ _ _ _ _ _
    EventLoop.demo_parse EventLoop.demo_send plain_decoders_ok demo_ipv4_tag 4 demo_machine m' (Ok P)
    eq_refl eq_refl Hmain) as [_ Hrun].
  destruct (Hrun P eq_refl) as (_ & Hstart & _ & Hloaded & _ & Hstop & Hinv). split; [exact Hstart|].
  split; [rewrite <-Hdef; exact (Hstop 1%nat)|].
  rewrite HP in Hloaded, Hinv. split; [exact (proj1 Hloaded)|].
  exact (proj2 (Hinv (mkResourceManager (Some zeroIPAM) (Some (mkFTEIDM [1; 2; 3] (Some ∅)))) eq_refl [] I)).
Defined.
